(** * InstantSend lock store and lock manager (llmq/quorums_instantsend.cpp)

    A shallow embedding of [CInstantSendDb] and of the parts of
    [CInstantSendManager] that decide lockability, pre-verify peer locks,
    commit locks and answer queries, with the properties of the
    specification stated over it. *)

From stdpp Require Import gmap list sorting strings.
From Stdlib Require Import ZArith Lia.

Local Open Scope Z_scope.

(** ** Bytes, endianness and the key order of the store *)

Module Bytes.

(** A byte is a [Z] in [0, 256); a serialized key or value is a list of
    bytes in stream order. *)
Definition is_byte (b : Z) : Prop := 0 <= b < 256.

(** [WriteLE32] and the serialization of a [uint256]: the low byte first. *)
Fixpoint le_bytes (k : nat) (x : Z) : list Z :=
  match k with
  | O => []
  | S k' => x mod 256 :: le_bytes k' (x / 256)
  end.

Fixpoint le_value (bs : list Z) : Z :=
  match bs with
  | [] => 0
  | b :: bs' => b + 256 * le_value bs'
  end.

(** The big-endian bytes of [x] on [k] bytes: the high byte first. *)
Fixpoint be_bytes (k : nat) (x : Z) : list Z :=
  match k with
  | O => []
  | S k' => (x / 256 ^ Z.of_nat k') mod 256 :: be_bytes k' x
  end.

Fixpoint be_value (bs : list Z) : Z :=
  match bs with
  | [] => 0
  | b :: bs' => b * 256 ^ Z.of_nat (length bs') + be_value bs'
  end.

(** [htobe32] and [be32toh] of <endian.h> on a little-endian host: the
    result of [htobe32 x] is the 32-bit word whose bytes in memory are the
    big-endian bytes of [x]. *)
Definition htobe32 (x : Z) : Z := le_value (be_bytes 4 x).
Definition be32toh (x : Z) : Z := be_value (le_bytes 4 x).

(** Serialization of a [uint32_t] ([ser_writedata32]) and of a [uint256]. *)
Definition ser_uint32 (x : Z) : list Z := le_bytes 4 x.
Definition ser_uint256 (x : Z) : list Z := le_bytes 32 x.

(** The order of keys in the store: leveldb's bytewise comparator, that is
    [memcmp] on the common prefix, the shorter key first. *)
Fixpoint bytes_compare (a b : list Z) : comparison :=
  match a, b with
  | [], [] => Eq
  | [], _ :: _ => Lt
  | _ :: _, [] => Gt
  | x :: a', y :: b' =>
      match x ?= y with
      | Eq => bytes_compare a' b'
      | c => c
      end
  end.

Definition bytes_lt (a b : list Z) : Prop := bytes_compare a b = Lt.
Definition bytes_leb (a b : list Z) : bool :=
  match bytes_compare a b with Gt => false | _ => true end.

End Bytes.

Import Bytes.

(** ** Values of the data model *)

Abbreviation uint256 := Z (only parsing).

(** [uint256::IsNull] *)
Definition IsNull (h : uint256) : bool := h =? 0.

(** [std::numeric_limits<uint32_t>::max()] and the conversion to [uint32_t]. *)
Definition uint32_max : Z := 4294967295.
Definition to_uint32 (z : Z) : Z := z mod 2 ^ 32.

(** The key prefixes of the store. *)
Inductive DBPrefix :=
| DB_ISLOCK_BY_HASH
| DB_HASH_BY_TXID
| DB_HASH_BY_OUTPOINT
| DB_MINED_BY_HEIGHT_AND_HASH
| DB_ARCHIVED_BY_HEIGHT_AND_HASH
| DB_ARCHIVED_BY_HASH
| DB_VERSION.

(** [BuildInversedISLockKey]: [nHeight] is an [int]; the subtraction is done
    in [uint32_t]. *)
Definition BuildInversedISLockKey (k : DBPrefix) (nHeight : Z) (islockHash : uint256)
  : DBPrefix * Z * uint256 :=
  (k, htobe32 (to_uint32 (uint32_max - nHeight)), islockHash).

(** The height read back from a key, as in [RemoveConfirmedInstantSendLocks]
    and [RemoveArchivedInstantSendLocks]. *)
Definition InversedKeyHeight (curKey : DBPrefix * Z * uint256) : Z :=
  to_uint32 (uint32_max - be32toh (snd (fst curKey))).

(** [COutPoint]: the hash of the funding transaction and the output index
    (a [uint32_t]). *)
Record COutPoint := mkOutPoint { hash : uint256; n : Z }.

#[global] Instance COutPoint_eq_dec : EqDecision COutPoint.
Proof. solve_decision. Defined.

#[global] Instance COutPoint_countable : Countable COutPoint.
Proof.
  refine (inj_countable' (λ o, (hash o, n o)) (λ p, mkOutPoint p.1 p.2) _).
  by intros [].
Defined.

(** The version tag of a lock: [CInstantSendLock::islock_version] (legacy)
    and [CInstantSendLock::isdlock_version] (deterministic). *)
Inductive LockVersion := islock_version | isdlock_version.

#[global] Instance LockVersion_eq_dec : EqDecision LockVersion.
Proof. solve_decision. Defined.

(** [CInstantSendLock]. The signature is kept as its 96 serialized bytes. *)
Record CInstantSendLock := mkLock {
  nVersion : LockVersion;
  txid : uint256;
  inputs : list COutPoint;
  cycleHash : uint256;
  blssig : list Z
}.

#[global] Instance CInstantSendLock_eq_dec : EqDecision CInstantSendLock.
Proof. solve_decision. Defined.

Definition IsDeterministic (l : CInstantSendLock) : bool :=
  bool_decide (nVersion l ≠ islock_version).

(** [CTxIn]; the script is kept as its bytes. *)
Record CTxIn := mkTxIn { prevout : COutPoint; scriptSig : list Z; nSequence : Z }.

#[global] Instance CTxIn_eq_dec : EqDecision CTxIn.
Proof. solve_decision. Defined.

(** [CTransaction], as far as this code reads it: [GetHash()], [vin] and
    [IsCoinBase()]. *)
Record CTransaction := mkTx { tx_hash : uint256; vin : list CTxIn; is_coinbase : bool }.

#[global] Instance CTransaction_eq_dec : EqDecision CTransaction.
Proof. solve_decision. Defined.

(** [CBlockIndex], as far as this code reads it. *)
Record CBlockIndex := mkIndex { nHeight : Z; block_hash : uint256 }.

#[global] Instance CBlockIndex_eq_dec : EqDecision CBlockIndex.
Proof. solve_decision. Defined.

#[global] Instance CBlockIndex_countable : Countable CBlockIndex.
Proof.
  refine (inj_countable' (λ i, (nHeight i, block_hash i)) (λ p, mkIndex p.1 p.2) _).
  by intros [].
Defined.

(** ** What the header declares

    The class declarations live in llmq/quorums_instantsend.h, which is not
    among the sources: the default arguments of
    [GetInstantSendLockByHash(hash, use_cache)] and
    [RemoveInstantSendLock(batch, hash, islock, keep_cache)], and
    [CInstantSendDb::CURRENT_VERSION], are parameters of the model. *)
Class HeaderDecls := {
  use_cache_default : bool;
  keep_cache_default : bool;
  CURRENT_VERSION : Z
}.

(** ** The in-memory caches *)

(** Modelled from the spec: [unordered_lru_cache] (unordered_lru_cache.h is
    not among the sources). "In-memory LRU caches shadow the three primary
    indexes; cache misses read through, hits do not." The entries are kept
    most recently used first; an insertion beyond [maxSize] drops the least
    recently used ones. *)
Record unordered_lru_cache (K V : Type) := mkCache {
  maxSize : nat;
  cacheMap : list (K * V)
}.
Arguments mkCache {K V} _ _.
Arguments maxSize {K V} _.
Arguments cacheMap {K V} _.

Section lru.
Context {K V : Type} `{EqDecision K}.

Fixpoint assoc_find (k : K) (l : list (K * V)) : option V :=
  match l with
  | [] => None
  | (k', v) :: l' => if decide (k' = k) then Some v else assoc_find k l'
  end.

Fixpoint assoc_remove (k : K) (l : list (K * V)) : list (K * V) :=
  match l with
  | [] => []
  | (k', v) :: l' =>
      if decide (k' = k) then assoc_remove k l' else (k', v) :: assoc_remove k l'
  end.

(** [get(key, value)]: a hit refreshes the entry. *)
Definition lru_get (k : K) (c : unordered_lru_cache K V)
  : option V * unordered_lru_cache K V :=
  match assoc_find k (cacheMap c) with
  | Some v => (Some v, mkCache (maxSize c) ((k, v) :: assoc_remove k (cacheMap c)))
  | None => (None, c)
  end.

Definition lru_insert (k : K) (v : V) (c : unordered_lru_cache K V)
  : unordered_lru_cache K V :=
  mkCache (maxSize c) (take (maxSize c) ((k, v) :: assoc_remove k (cacheMap c))).

Definition lru_erase (k : K) (c : unordered_lru_cache K V) : unordered_lru_cache K V :=
  mkCache (maxSize c) (assoc_remove k (cacheMap c)).
End lru.

(** ** The store ([CDBWrapper]) *)

(** The serialized form of the keys after their prefix, which orders them. *)
Definition ser_outpoint (o : COutPoint) : list Z := ser_uint256 (hash o) ++ ser_uint32 (n o).
Definition ser_inversed (k : Z * uint256) : list Z := ser_uint32 k.1 ++ ser_uint256 k.2.

(** One map per key prefix. A value is kept as the object that was written;
    how it reads back depends on the version of the object it is read into
    (see [Unserialize_islock]). *)
Record CDBWrapper := mkDB {
  is_i : gmap uint256 CInstantSendLock;   (* DB_ISLOCK_BY_HASH: hash -> islock *)
  is_tx : gmap uint256 uint256;           (* DB_HASH_BY_TXID: txid -> hash *)
  is_in : gmap COutPoint uint256;         (* DB_HASH_BY_OUTPOINT: outpoint -> hash *)
  is_m : gmap (Z * uint256) bool;         (* DB_MINED_BY_HEIGHT_AND_HASH *)
  is_a1 : gmap (Z * uint256) bool;        (* DB_ARCHIVED_BY_HEIGHT_AND_HASH *)
  is_a2 : gmap uint256 bool;              (* DB_ARCHIVED_BY_HASH *)
  is_v : option Z                         (* DB_VERSION *)
}.

Definition db_empty : CDBWrapper := mkDB ∅ ∅ ∅ ∅ ∅ ∅ None.

(** [CDBBatch]: the writes and erasures in the order they were queued. *)
Inductive BatchOp :=
| Write_islock (h : uint256) (l : CInstantSendLock)
| Erase_islock (h : uint256)
| Write_txid (t : uint256) (h : uint256)
| Erase_txid (t : uint256)
| Write_outpoint (o : COutPoint) (h : uint256)
| Erase_outpoint (o : COutPoint)
| Write_inversed (key : DBPrefix * Z * uint256)
| Erase_inversed (key : DBPrefix * Z * uint256)
| Write_archived_hash (h : uint256)
| Erase_archived_hash (h : uint256)
| Write_version (v : Z).

Abbreviation CDBBatch := (list BatchOp).

Definition apply_op (d : CDBWrapper) (op : BatchOp) : CDBWrapper :=
  match op with
  | Write_islock h l =>
      mkDB (<[h := l]> (is_i d)) (is_tx d) (is_in d) (is_m d) (is_a1 d) (is_a2 d) (is_v d)
  | Erase_islock h =>
      mkDB (delete h (is_i d)) (is_tx d) (is_in d) (is_m d) (is_a1 d) (is_a2 d) (is_v d)
  | Write_txid t h =>
      mkDB (is_i d) (<[t := h]> (is_tx d)) (is_in d) (is_m d) (is_a1 d) (is_a2 d) (is_v d)
  | Erase_txid t =>
      mkDB (is_i d) (delete t (is_tx d)) (is_in d) (is_m d) (is_a1 d) (is_a2 d) (is_v d)
  | Write_outpoint o h =>
      mkDB (is_i d) (is_tx d) (<[o := h]> (is_in d)) (is_m d) (is_a1 d) (is_a2 d) (is_v d)
  | Erase_outpoint o =>
      mkDB (is_i d) (is_tx d) (delete o (is_in d)) (is_m d) (is_a1 d) (is_a2 d) (is_v d)
  | Write_inversed (k, x, h) =>
      match k with
      | DB_MINED_BY_HEIGHT_AND_HASH =>
          mkDB (is_i d) (is_tx d) (is_in d) (<[(x, h) := true]> (is_m d)) (is_a1 d) (is_a2 d) (is_v d)
      | DB_ARCHIVED_BY_HEIGHT_AND_HASH =>
          mkDB (is_i d) (is_tx d) (is_in d) (is_m d) (<[(x, h) := true]> (is_a1 d)) (is_a2 d) (is_v d)
      | _ => d
      end
  | Erase_inversed (k, x, h) =>
      match k with
      | DB_MINED_BY_HEIGHT_AND_HASH =>
          mkDB (is_i d) (is_tx d) (is_in d) (delete (x, h) (is_m d)) (is_a1 d) (is_a2 d) (is_v d)
      | DB_ARCHIVED_BY_HEIGHT_AND_HASH =>
          mkDB (is_i d) (is_tx d) (is_in d) (is_m d) (delete (x, h) (is_a1 d)) (is_a2 d) (is_v d)
      | _ => d
      end
  | Write_archived_hash h =>
      mkDB (is_i d) (is_tx d) (is_in d) (is_m d) (is_a1 d) (<[h := true]> (is_a2 d)) (is_v d)
  | Erase_archived_hash h =>
      mkDB (is_i d) (is_tx d) (is_in d) (is_m d) (is_a1 d) (delete h (is_a2 d)) (is_v d)
  | Write_version v =>
      mkDB (is_i d) (is_tx d) (is_in d) (is_m d) (is_a1 d) (is_a2 d) (Some v)
  end.

(** [CDBWrapper::WriteBatch] *)
Definition WriteBatch (d : CDBWrapper) (batch : CDBBatch) : CDBWrapper :=
  foldl apply_op d batch.

(** The keys of one prefix in the order of the store. *)
Definition key_le {K : Type} (ser : K → list Z) : relation K :=
  λ a b, bytes_leb (ser a) (ser b).

#[global] Instance key_le_dec {K : Type} (ser : K → list Z) : RelDecision (key_le ser).
Proof. intros a b. unfold key_le. apply _. Defined.

(** [NewIterator(); Seek(firstKey)]: the entries of one prefix from
    [firstKey] on, in key order. The loops of the code stop at the first key
    of another prefix, which is the end of this list. *)
Definition db_seek {K V : Type} `{Countable K} (ser : K → list Z)
    (m : gmap K V) (firstKey : K) : list (K * V) :=
  filter (λ kv, key_le ser firstKey kv.1)
         (merge_sort (λ a b, key_le ser a.1 b.1) (map_to_list m)).

(** Modelled from the spec: the serialization of [CInstantSendLock]
    (declared in the header). "Serialization differs only in presence of
    cycleHash"; on the wire a lock is txid (32 bytes), inputs, cycleHash
    (32 bytes, deterministic only), sig (96 bytes). [Unserialize_islock v w]
    reads the bytes of the written lock [w] into an object of version [v]:
    a legacy lock has too few bytes for a deterministic one; a deterministic
    lock read as legacy takes its signature from cycleHash and the first 64
    bytes of the signature. *)
Definition Unserialize_islock (v : LockVersion) (w : CInstantSendLock)
  : option CInstantSendLock :=
  match v, nVersion w with
  | isdlock_version, isdlock_version => Some w
  | islock_version, islock_version => Some w
  | isdlock_version, islock_version => None
  | islock_version, isdlock_version =>
      Some (mkLock islock_version (txid w) (inputs w) 0
                   (take 96%nat (ser_uint256 (cycleHash w) ++ blssig w)))
  end.

(** [db->Read(std::make_tuple(DB_ISLOCK_BY_HASH, hash), *ret)] with [ret] of
    version [v]. *)
Definition Read_islock (d : CDBWrapper) (h : uint256) (v : LockVersion)
  : option CInstantSendLock :=
  is_i d !! h ≫= Unserialize_islock v.

(** ** [CInstantSendDb] *)

Record CInstantSendDb := mkIsDb {
  best_confirmed_height : Z;
  db : CDBWrapper;
  islockCache : unordered_lru_cache uint256 (option CInstantSendLock);
  txidCache : unordered_lru_cache uint256 uint256;
  outpointCache : unordered_lru_cache COutPoint uint256
}.

Definition set_best (s : CInstantSendDb) (h : Z) : CInstantSendDb :=
  mkIsDb h (db s) (islockCache s) (txidCache s) (outpointCache s).
Definition set_db (s : CInstantSendDb) (d : CDBWrapper) : CInstantSendDb :=
  mkIsDb (best_confirmed_height s) d (islockCache s) (txidCache s) (outpointCache s).
Definition set_islockCache (s : CInstantSendDb) c : CInstantSendDb :=
  mkIsDb (best_confirmed_height s) (db s) c (txidCache s) (outpointCache s).
Definition set_txidCache (s : CInstantSendDb) c : CInstantSendDb :=
  mkIsDb (best_confirmed_height s) (db s) (islockCache s) c (outpointCache s).
Definition set_outpointCache (s : CInstantSendDb) c : CInstantSendDb :=
  mkIsDb (best_confirmed_height s) (db s) (islockCache s) (txidCache s) c.

(** The methods of [CInstantSendDb] run under [cs_db]: each is a function of
    the state that returns its result and the next state. *)
Definition DbM (A : Type) : Type := CInstantSendDb → A * CInstantSendDb.

#[global] Instance DbM_ret : MRet DbM := λ A a s, (a, s).
#[global] Instance DbM_bind : MBind DbM :=
  λ A B f m s, let '(a, s') := m s in f a s'.

Definition get_state : DbM CInstantSendDb := λ s, (s, s).
Definition modify_state (f : CInstantSendDb → CInstantSendDb) : DbM unit := λ s, (tt, f s).

(** The conversion of a [uint32_t] to [int]. *)
Definition to_int32 (z : Z) : Z := (z + 2 ^ 31) mod 2 ^ 32 - 2 ^ 31.

(** [std::unordered_map::emplace]: no effect when the key is present. *)
Definition emplace {V : Type} (k : uint256) (v : V) (m : gmap uint256 V) : gmap uint256 V :=
  match m !! k with
  | Some _ => m
  | None => <[k := v]> m
  end.

Section CInstantSendDb.
Context `{HeaderDecls}.

(** The result of the reads of [GetInstantSendLockByHash]: the deterministic
    version first; the legacy version only when that read failed; [None]
    ([nullptr]) when both fail. *)
Definition ReadInstantSendLock (d : CDBWrapper) (hash : uint256) : option CInstantSendLock :=
  match Read_islock d hash isdlock_version with
  | Some ret => Some ret
  | None => Read_islock d hash islock_version
  end.

Definition GetInstantSendLockByHash (hash : uint256) (use_cache : bool)
  : DbM (option CInstantSendLock) := λ s,
  if IsNull hash then (None, s)
  else
    match (if use_cache then lru_get hash (islockCache s) else (None, islockCache s)) with
    | (Some ret, c) => (ret, set_islockCache s c)
    | (None, _) =>
        let ret := ReadInstantSendLock (db s) hash in
        (ret, set_islockCache s (lru_insert hash ret (islockCache s)))
    end.

Definition GetInstantSendLockHashByTxid (txid : uint256) : DbM uint256 := λ s,
  match lru_get txid (txidCache s) with
  | (Some islockHash, c) => (islockHash, set_txidCache s c)
  | (None, _) =>
      let islockHash := default 0 (is_tx (db s) !! txid) in
      (islockHash, set_txidCache s (lru_insert txid islockHash (txidCache s)))
  end.

Definition GetInstantSendLockByTxid (txid : uint256) : DbM (option CInstantSendLock) :=
  islockHash ← GetInstantSendLockHashByTxid txid;
  GetInstantSendLockByHash islockHash use_cache_default.

Definition GetInstantSendLockByInput (outpoint : COutPoint) : DbM (option CInstantSendLock) :=
  islockHash ← (λ s,
    match lru_get outpoint (outpointCache s) with
    | (Some islockHash, c) => (islockHash, set_outpointCache s c)
    | (None, _) =>
        let islockHash := default 0 (is_in (db s) !! outpoint) in
        (islockHash, set_outpointCache s (lru_insert outpoint islockHash (outpointCache s)))
    end) : DbM uint256;
  GetInstantSendLockByHash islockHash use_cache_default.

Definition KnownInstantSendLock (islockHash : uint256) : DbM bool :=
  islock ← GetInstantSendLockByHash islockHash use_cache_default;
  s ← get_state;
  mret (bool_decide (islock ≠ None) || bool_decide (is_Some (is_a2 (db s) !! islockHash))).

Definition WriteNewInstantSendLock (hash : uint256) (islock : CInstantSendLock) : DbM unit :=
  modify_state (λ s,
    let batch := [Write_islock hash islock; Write_txid (txid islock) hash]
                 ++ map (λ i, Write_outpoint i hash) (inputs islock) in
    let s := set_db s (WriteBatch (db s) batch) in
    let s := set_islockCache s (lru_insert hash (Some islock) (islockCache s)) in
    let s := set_txidCache s (lru_insert (txid islock) hash (txidCache s)) in
    set_outpointCache s (foldl (λ c i, lru_insert i hash c) (outpointCache s) (inputs islock))).

Definition RemoveInstantSendLock (batch : CDBBatch) (hash : uint256)
    (islock : option CInstantSendLock) (keep_cache : bool) : DbM CDBBatch :=
  islock ← match islock with
           | Some l => mret (Some l)
           | None => GetInstantSendLockByHash hash false
           end;
  match islock with
  | None => mret batch
  | Some l =>
      let batch := batch ++ [Erase_islock hash; Erase_txid (txid l)]
                         ++ map Erase_outpoint (inputs l) in
      if keep_cache then mret batch
      else
        _ ← modify_state (λ s,
              let s := set_islockCache s (lru_erase hash (islockCache s)) in
              let s := set_txidCache s (lru_erase (txid l) (txidCache s)) in
              set_outpointCache s (foldl (λ c i, lru_erase i c) (outpointCache s) (inputs l)));
        mret batch
  end.

Definition WriteInstantSendLockMined_batch (batch : CDBBatch) (hash : uint256) (nHeight : Z)
  : CDBBatch :=
  batch ++ [Write_inversed (BuildInversedISLockKey DB_MINED_BY_HEIGHT_AND_HASH nHeight hash)].

Definition WriteInstantSendLockMined (hash : uint256) (nHeight : Z) : DbM unit :=
  modify_state (λ s,
    set_db s (WriteBatch (db s) (WriteInstantSendLockMined_batch [] hash nHeight))).

Definition RemoveInstantSendLockMined (batch : CDBBatch) (hash : uint256) (nHeight : Z)
  : CDBBatch :=
  batch ++ [Erase_inversed (BuildInversedISLockKey DB_MINED_BY_HEIGHT_AND_HASH nHeight hash)].

Definition WriteInstantSendLockArchived (batch : CDBBatch) (hash : uint256) (nHeight : Z)
  : CDBBatch :=
  batch ++ [Write_inversed (BuildInversedISLockKey DB_ARCHIVED_BY_HEIGHT_AND_HASH nHeight hash);
            Write_archived_hash hash].

(** The loop of [RemoveConfirmedInstantSendLocks] over the mined keys from
    [firstKey] on. [nHeight > nUntilHeight] compares a [uint32_t] with an
    [int], so in [uint32_t]. *)
Fixpoint RemoveConfirmed_loop (nUntilHeight : Z) (it : list (Z * uint256 * bool))
    (batch : CDBBatch) (ret : gmap uint256 CInstantSendLock)
  : DbM (CDBBatch * gmap uint256 CInstantSendLock) :=
  match it with
  | [] => mret (batch, ret)
  | ((x, islockHash), _) :: it' =>
      let curKey := (DB_MINED_BY_HEIGHT_AND_HASH, x, islockHash) in
      let nHeight := InversedKeyHeight curKey in
      if to_uint32 nUntilHeight <? nHeight then mret (batch, ret)
      else
        islock ← GetInstantSendLockByHash islockHash false;
        br ← match islock with
             | Some l =>
                 batch' ← RemoveInstantSendLock batch islockHash (Some l) keep_cache_default;
                 mret (batch', emplace islockHash l ret)
             | None => mret (batch, ret)
             end;
        let batch := WriteInstantSendLockArchived br.1 islockHash (to_int32 nHeight) in
        let batch := batch ++ [Erase_inversed curKey] in
        RemoveConfirmed_loop nUntilHeight it' batch br.2
  end.

Definition RemoveConfirmedInstantSendLocks (nUntilHeight : Z)
  : DbM (gmap uint256 CInstantSendLock) := λ s,
  if nUntilHeight <=? best_confirmed_height s then (∅, s)
  else
    let s := set_best s nUntilHeight in
    let firstKey := BuildInversedISLockKey DB_MINED_BY_HEIGHT_AND_HASH nUntilHeight 0 in
    let it := db_seek ser_inversed (is_m (db s)) (firstKey.1.2, firstKey.2) in
    let '((batch, ret), s) := RemoveConfirmed_loop nUntilHeight it [] ∅ s in
    (ret, set_db s (WriteBatch (db s) batch)).

Fixpoint RemoveArchived_loop (nUntilHeight : Z) (it : list (Z * uint256 * bool))
    (batch : CDBBatch) : CDBBatch :=
  match it with
  | [] => batch
  | ((x, islockHash), _) :: it' =>
      let curKey := (DB_ARCHIVED_BY_HEIGHT_AND_HASH, x, islockHash) in
      let nHeight := InversedKeyHeight curKey in
      if to_uint32 nUntilHeight <? nHeight then batch
      else
        RemoveArchived_loop nUntilHeight it'
          (batch ++ [Erase_archived_hash islockHash; Erase_inversed curKey])
  end.

Definition RemoveArchivedInstantSendLocks (nUntilHeight : Z) : DbM unit := λ s,
  if nUntilHeight <=? 0 then (tt, s)
  else
    let firstKey := BuildInversedISLockKey DB_ARCHIVED_BY_HEIGHT_AND_HASH nUntilHeight 0 in
    let it := db_seek ser_inversed (is_a1 (db s)) (firstKey.1.2, firstKey.2) in
    (tt, set_db s (WriteBatch (db s) (RemoveArchived_loop nUntilHeight it []))).

(** The loop shared by [WriteBlockInstantSendLocks] and
    [RemoveBlockInstantSendLocks]; [upd] is [WriteInstantSendLockMined] or
    [RemoveInstantSendLockMined] on the batch. *)
Fixpoint BlockInstantSendLocks_loop (upd : CDBBatch → uint256 → Z → CDBBatch)
    (vtx : list CTransaction) (nHeight : Z) (batch : CDBBatch) : DbM CDBBatch :=
  match vtx with
  | [] => mret batch
  | tx :: vtx' =>
      if is_coinbase tx || bool_decide (vin tx = []) then
        BlockInstantSendLocks_loop upd vtx' nHeight batch
      else
        islockHash ← GetInstantSendLockHashByTxid (tx_hash tx);
        BlockInstantSendLocks_loop upd vtx' nHeight
          (if IsNull islockHash then batch else upd batch islockHash nHeight)
  end.

Definition WriteBlockInstantSendLocks (vtx : list CTransaction) (pindexConnected : CBlockIndex)
  : DbM unit :=
  batch ← BlockInstantSendLocks_loop WriteInstantSendLockMined_batch vtx
            (nHeight pindexConnected) [];
  modify_state (λ s, set_db s (WriteBatch (db s) batch)).

Definition RemoveBlockInstantSendLocks (vtx : list CTransaction) (pindexDisconnected : CBlockIndex)
  : DbM unit :=
  batch ← BlockInstantSendLocks_loop RemoveInstantSendLockMined vtx
            (nHeight pindexDisconnected) [];
  modify_state (λ s, set_db s (WriteBatch (db s) batch)).

Definition GetInstantSendLockCount : DbM nat := λ s,
  (length (db_seek ser_uint256 (is_i (db s)) 0), s).
End CInstantSendDb.

Section CInstantSendDb_chained.
Context `{HeaderDecls}.

(** The loop of [GetInstantSendLocksByParent] over the outpoint keys from
    [COutPoint(parent, 0)] on. *)
Fixpoint ByParent_loop (parent : uint256) (it : list (COutPoint * uint256))
    (result : list uint256) : list uint256 :=
  match it with
  | [] => result
  | (outpoint, islockHash) :: it' =>
      if bool_decide (hash outpoint ≠ parent) then result
      else ByParent_loop parent it' (result ++ [islockHash])
  end.

Definition GetInstantSendLocksByParent (parent : uint256) : DbM (list uint256) := λ s,
  (ByParent_loop parent (db_seek ser_outpoint (is_in (db s)) (mkOutPoint parent 0)) [], s).

(** The local variables of [RemoveChainedInstantSendLocks]. The back of
    [stack] is the head of the list. *)
Record ChainedLocals := mkChained {
  ch_batch : CDBBatch;
  ch_result : list uint256;
  ch_stack : list uint256;
  ch_added : gset uint256
}.

(** [for (const auto& childIslockHash : children)] *)
Fixpoint RemoveChained_children (nHeight : Z) (children : list uint256)
    (v : ChainedLocals) : DbM ChainedLocals :=
  match children with
  | [] => mret v
  | childIslockHash :: children' =>
      childIsLock ← GetInstantSendLockByHash childIslockHash false;
      match childIsLock with
      | None => RemoveChained_children nHeight children' v
      | Some l =>
          batch ← RemoveInstantSendLock (ch_batch v) childIslockHash (Some l) false;
          let batch := WriteInstantSendLockArchived batch childIslockHash nHeight in
          let result := ch_result v ++ [childIslockHash] in
          RemoveChained_children nHeight children'
            (if bool_decide (txid l ∈ ch_added v)
             then mkChained batch result (ch_stack v) (ch_added v)
             else mkChained batch result (txid l :: ch_stack v) ({[txid l]} ∪ ch_added v))
      end
  end.

(** [while (!stack.empty())]; [None] when [fuel] iterations do not empty
    the stack. *)
Fixpoint RemoveChained_while (fuel : nat) (nHeight : Z) (v : ChainedLocals)
  : DbM (option ChainedLocals) :=
  match ch_stack v with
  | [] => mret (Some v)
  | back :: stack' =>
      match fuel with
      | O => mret None
      | S fuel' =>
          children ← GetInstantSendLocksByParent back;
          v' ← RemoveChained_children nHeight children
                 (mkChained (ch_batch v) (ch_result v) stack' (ch_added v));
          RemoveChained_while fuel' nHeight v'
      end
  end.

(** [RemoveChainedInstantSendLocks]. Every transaction id is pushed at most
    once after the root, so one iteration per stored lock and one for the
    root empty the stack (see [chained_while_total]). *)
Definition RemoveChainedInstantSendLocks (islockHash txid : uint256) (nHeight : Z)
  : DbM (option (list uint256)) := λ s,
  let fuel := S (size (is_i (db s))) in
  match RemoveChained_while fuel nHeight (mkChained [] [] [txid] ∅) s with
  | (None, s') => (None, s')
  | (Some v, s') =>
      let '(batch, s') := RemoveInstantSendLock (ch_batch v) islockHash None false s' in
      let batch := WriteInstantSendLockArchived batch islockHash nHeight in
      let result := ch_result v ++ [islockHash] in
      (Some result, set_db s' (WriteBatch (db s') batch))
  end.

(** The loop of [Upgrade]: [GetValue] reads into a default-constructed
    (legacy) lock; [known txid] is whether [GetTransaction] finds it. *)
Fixpoint Upgrade_loop (known : uint256 → bool) (it : list (uint256 * CInstantSendLock))
    (batch : CDBBatch) : CDBBatch :=
  match it with
  | [] => batch
  | (curKey, w) :: it' =>
      Upgrade_loop known it'
        match Unserialize_islock islock_version w with
        | Some islock =>
            if negb (known (txid islock)) then
              batch ++ [Erase_txid (txid islock)] ++ map Erase_outpoint (inputs islock)
                    ++ [Erase_islock curKey]
            else batch
        | None => batch
        end
  end.

Definition Upgrade (known : uint256 → bool) : DbM unit := λ s,
  if bool_decide (is_v (db s) = None) || (default 0 (is_v (db s)) <? CURRENT_VERSION) then
    let it := db_seek ser_uint256 (is_i (db s)) 0 in
    let batch := Upgrade_loop known it [] ++ [Write_version CURRENT_VERSION] in
    (tt, set_db s (WriteBatch (db s) batch))
  else (tt, s).
End CInstantSendDb_chained.

(** ** Sequences of operations on the lock store *)

(** The public methods of [CInstantSendDb]. *)
Inductive DbOp :=
| OpUpgrade (known : uint256 → bool)
| OpWriteNewInstantSendLock (hash : uint256) (islock : CInstantSendLock)
| OpWriteInstantSendLockMined (hash : uint256) (nHeight : Z)
| OpRemoveConfirmedInstantSendLocks (nUntilHeight : Z)
| OpRemoveArchivedInstantSendLocks (nUntilHeight : Z)
| OpWriteBlockInstantSendLocks (vtx : list CTransaction) (pindexConnected : CBlockIndex)
| OpRemoveBlockInstantSendLocks (vtx : list CTransaction) (pindexDisconnected : CBlockIndex)
| OpKnownInstantSendLock (islockHash : uint256)
| OpGetInstantSendLockCount
| OpGetInstantSendLockByHash (hash : uint256) (use_cache : bool)
| OpGetInstantSendLockHashByTxid (txid : uint256)
| OpGetInstantSendLockByTxid (txid : uint256)
| OpGetInstantSendLockByInput (outpoint : COutPoint)
| OpRemoveChainedInstantSendLocks (islockHash txid : uint256) (nHeight : Z).

Section run.
Context `{HeaderDecls}.

(** The state after one call; the result of the call is dropped. *)
Definition run_op (s : CInstantSendDb) (op : DbOp) : CInstantSendDb :=
  match op with
  | OpUpgrade known => (Upgrade known s).2
  | OpWriteNewInstantSendLock hash islock => (WriteNewInstantSendLock hash islock s).2
  | OpWriteInstantSendLockMined hash nHeight => (WriteInstantSendLockMined hash nHeight s).2
  | OpRemoveConfirmedInstantSendLocks nUntilHeight =>
      (RemoveConfirmedInstantSendLocks nUntilHeight s).2
  | OpRemoveArchivedInstantSendLocks nUntilHeight =>
      (RemoveArchivedInstantSendLocks nUntilHeight s).2
  | OpWriteBlockInstantSendLocks vtx pindex => (WriteBlockInstantSendLocks vtx pindex s).2
  | OpRemoveBlockInstantSendLocks vtx pindex => (RemoveBlockInstantSendLocks vtx pindex s).2
  | OpKnownInstantSendLock islockHash => (KnownInstantSendLock islockHash s).2
  | OpGetInstantSendLockCount => (GetInstantSendLockCount s).2
  | OpGetInstantSendLockByHash hash use_cache => (GetInstantSendLockByHash hash use_cache s).2
  | OpGetInstantSendLockHashByTxid txid => (GetInstantSendLockHashByTxid txid s).2
  | OpGetInstantSendLockByTxid txid => (GetInstantSendLockByTxid txid s).2
  | OpGetInstantSendLockByInput outpoint => (GetInstantSendLockByInput outpoint s).2
  | OpRemoveChainedInstantSendLocks islockHash txid nHeight =>
      (RemoveChainedInstantSendLocks islockHash txid nHeight s).2
  end.

Definition run_ops (s : CInstantSendDb) (ops : list DbOp) : CInstantSendDb :=
  foldl run_op s ops.
End run.

(** ** Lock store properties stated over the store *)

(** A lock is committed under [h] when the store reads it back: what
    [GetInstantSendLockByHash(h, false)] returns. *)
Definition committed (d : CDBWrapper) (h : uint256) : option CInstantSendLock :=
  if IsNull h then None else is_i d !! h.

(** Input exclusivity and txid uniqueness over the locks of ISLOCK_BY_HASH. *)
Definition locks_exclusive (d : CDBWrapper) : Prop :=
  ∀ h1 h2 l1 l2,
    h1 ≠ h2 → is_i d !! h1 = Some l1 → is_i d !! h2 = Some l2 →
    txid l1 ≠ txid l2 ∧ ∀ o, o ∈ inputs l1 → o ∉ inputs l2.

(** [l] collides with a lock stored under another hash than [h]. *)
Definition collides (d : CDBWrapper) (h : uint256) (l : CInstantSendLock) : Prop :=
  ∃ h' l', h' ≠ h ∧ is_i d !! h' = Some l' ∧
           (txid l' = txid l ∨ ∃ o, o ∈ inputs l ∧ o ∈ inputs l').




(** ** The loops as functions of the store

    The loops of the lock store read the store and queue their writes in a
    batch, so the batch they build is a function of the store they started
    from. *)

#[global] Instance DBPrefix_eq_dec : EqDecision DBPrefix.
Proof. solve_decision. Defined.

#[global] Instance BatchOp_eq_dec : EqDecision BatchOp.
Proof. solve_decision. Defined.

(** Two states with the same store and the same confirmed height: they
    differ in the caches only. *)
Definition same_store (s s' : CInstantSendDb) : Prop :=
  db s' = db s ∧ best_confirmed_height s' = best_confirmed_height s.

(** The operations queued to remove the lock [l] stored under [h], and to
    archive [h] at a height. *)
Definition remove_ops (h : uint256) (l : CInstantSendLock) : CDBBatch :=
  [Erase_islock h; Erase_txid (txid l)] ++ map Erase_outpoint (inputs l).

Definition archive_ops (h : uint256) (nHeight : Z) : CDBBatch :=
  [Write_inversed (BuildInversedISLockKey DB_ARCHIVED_BY_HEIGHT_AND_HASH nHeight h);
   Write_archived_hash h].

(** What [RemoveConfirmedInstantSendLocks] queues for one mined key. *)
Definition confirmed_entry_ops (d : CDBWrapper) (e : Z * uint256 * bool) : CDBBatch :=
  match committed d e.1.2 with Some l => remove_ops e.1.2 l | None => [] end
  ++ archive_ops e.1.2 (to_int32 (InversedKeyHeight (DB_MINED_BY_HEIGHT_AND_HASH, e.1.1, e.1.2)))
  ++ [Erase_inversed (DB_MINED_BY_HEIGHT_AND_HASH, e.1.1, e.1.2)].


(** The hashes [GetInstantSendLocksByParent] returns. *)
Definition kids (d : CDBWrapper) (parent : uint256) : list uint256 :=
  ByParent_loop parent (db_seek ser_outpoint (is_in d) (mkOutPoint parent 0)) [].

(** One found child in the loop of [RemoveChainedInstantSendLocks]. *)
Definition chained_step (nHeight : Z) (v : ChainedLocals) (c : uint256)
    (l : CInstantSendLock) : ChainedLocals :=
  let batch := ch_batch v ++ remove_ops c l ++ archive_ops c nHeight in
  let result := ch_result v ++ [c] in
  if bool_decide (txid l ∈ ch_added v)
  then mkChained batch result (ch_stack v) (ch_added v)
  else mkChained batch result (txid l :: ch_stack v) ({[txid l]} ∪ ch_added v).

Fixpoint chained_children (d : CDBWrapper) (nHeight : Z) (children : list uint256)
    (v : ChainedLocals) : ChainedLocals :=
  match children with
  | [] => v
  | c :: children' =>
      match committed d c with
      | None => chained_children d nHeight children' v
      | Some l => chained_children d nHeight children' (chained_step nHeight v c l)
      end
  end.

Fixpoint chained_while (d : CDBWrapper) (fuel : nat) (nHeight : Z) (v : ChainedLocals)
  : option ChainedLocals :=
  match ch_stack v with
  | [] => Some v
  | back :: stack' =>
      match fuel with
      | O => None
      | S fuel' =>
          chained_while d fuel' nHeight
            (chained_children d nHeight (kids d back)
               (mkChained (ch_batch v) (ch_result v) stack' (ch_added v)))
      end
  end.

(** The transaction ids of the stored locks. *)
Definition stored_txids (d : CDBWrapper) : gset uint256 :=
  list_to_set (map (λ kv, txid kv.2) (map_to_list (is_i d))).

(** The claim about the cache of [GetInstantSendLockByHash], for the version
    [second] of the second read: after a lookup that reads the store, the
    cache holds the result of the read at version [second]. *)
Definition cache_holds_second_read (second : LockVersion) : Prop :=
  ∀ (s : CInstantSendDb) (hash : uint256) (use_cache : bool),
    IsNull hash = false →
    (use_cache = false ∨ assoc_find hash (cacheMap (islockCache s)) = None) →
    islockCache (GetInstantSendLockByHash hash use_cache s).2
    = lru_insert hash (Read_islock (db s) hash second) (islockCache s).


(** The iterations the loop still needs at most. *)
Definition chained_measure (d : CDBWrapper) (v : ChainedLocals) : nat :=
  (length (ch_stack v) + (size (stored_txids d) - size (ch_added v)))%nat.

(** The islock cache has no entry for [h]. *)
Definition islock_uncached (s : CInstantSendDb) (h : uint256) : Prop :=
  assoc_find h (cacheMap (islockCache s)) = None.

(** The order in which the iterator visits the entries of HASH_BY_OUTPOINT. *)
Definition outpoint_entry_le : relation (COutPoint * uint256) :=
  λ a b, key_le ser_outpoint a.1 b.1.

(** ** Serialization and request ids *)

(** The hash of a byte stream ([CHashWriter::GetHash], hash.h) and the
    serialization of [CTxIn] (primitives/transaction.h) are not among the
    sources: they are parameters of the model. *)
Class Primitives := {
  Hash256 : list Z → uint256;
  Serialize_CTxIn : CTxIn → list Z
}.

(** Modelled from the spec: the stream format of serialize.h, as far as
    request ids and lock hashes need it ("txid: 32B, inputs: varint-len
    vector<Outpoint(32B+4B)>, sig: 96B BLS"; a string is its length and its
    characters). *)
Definition ser_compact_size (len : Z) : list Z :=
  if len <? 253 then [len]
  else if len <=? 65535 then 253 :: le_bytes 2 len
  else if len <=? 4294967295 then 254 :: le_bytes 4 len
  else 255 :: le_bytes 8 len.

Fixpoint string_bytes (s : string) : list Z :=
  match s with
  | EmptyString => []
  | String c s' => Z.of_N (Ascii.N_of_ascii c) :: string_bytes s'
  end.

Definition ser_string (s : string) : list Z :=
  ser_compact_size (Z.of_nat (length (string_bytes s))) ++ string_bytes s.

Definition ser_vector {A : Type} (ser : A → list Z) (v : list A) : list Z :=
  ser_compact_size (Z.of_nat (length v)) ++ concat (map ser v).

(** [std::pair]: the first member, then the second. *)
Definition ser_pair {A B : Type} (serA : A → list Z) (serB : B → list Z) (p : A * B) : list Z :=
  serA p.1 ++ serB p.2.

(** Modelled from the spec: "Serialization differs only in presence of
    cycleHash"; "ISDLOCK: as above plus cycleHash: 32B before sig". *)
Definition ser_islock (l : CInstantSendLock) : list Z :=
  ser_uint256 (txid l) ++ ser_vector ser_outpoint (inputs l)
  ++ (if IsDeterministic l then ser_uint256 (cycleHash l) else [])
  ++ blssig l.

Definition INPUTLOCK_REQUESTID_PREFIX : string := "inlock".
Definition ISLOCK_REQUESTID_PREFIX : string := "islock".

Section request_ids.
Context `{Primitives}.

(** [::SerializeHash(obj)]: a hash writer, [ss << obj], [ss.GetHash()]. *)
Definition SerializeHash {A : Type} (ser : A → list Z) (obj : A) : uint256 :=
  let ss : list Z := [] in
  let ss := ss ++ ser obj in
  Hash256 ss.

(** [CInstantSendLock::GetRequestId] *)
Definition GetRequestId (l : CInstantSendLock) : uint256 :=
  let hw : list Z := [] in
  let hw := hw ++ ser_string ISLOCK_REQUESTID_PREFIX in
  let hw := hw ++ ser_vector ser_outpoint (inputs l) in
  Hash256 hw.

(** The request id of an input lock, as [TrySignInputLocks],
    [TrySignInstantSendLock], [HandleNewInputLockRecoveredSig] and
    [TruncateRecoveredSigsForInputs] compute it:
    [::SerializeHash(std::make_pair(INPUTLOCK_REQUESTID_PREFIX, in.prevout))]. *)
Definition InputLockRequestId (outpoint : COutPoint) : uint256 :=
  SerializeHash (ser_pair ser_string ser_outpoint) (INPUTLOCK_REQUESTID_PREFIX, outpoint).

(** The id [RemoveConflictedTx] computes, from the whole [CTxIn]:
    [::SerializeHash(std::make_pair(INPUTLOCK_REQUESTID_PREFIX, in))]. *)
Definition ConflictedTxInRequestId (txin : CTxIn) : uint256 :=
  SerializeHash (ser_pair ser_string Serialize_CTxIn) (INPUTLOCK_REQUESTID_PREFIX, txin).
End request_ids.

(** ** The collaborators of the manager *)

Inductive SporkId := SPORK_2_INSTANTSEND_ENABLED | SPORK_3_INSTANTSEND_BLOCK_FILTERING.

(** What the manager reads from the chain, the mempool, the ChainLocks
    handler, the spork manager and the consensus parameters, as one snapshot
    for the length of a call. [InvalidateBlock] and [ActivateBestChain] are
    the results of those calls. *)
Record Env := mkEnv {
  fReindex : bool;
  fImporting : bool;
  IsSporkActive : SporkId → bool;
  mempool_get : uint256 → option CTransaction;
  mempool_mapNextTx : COutPoint → option CTransaction;
  GetTransaction : uint256 → option (CTransaction * uint256);
  LookupBlockIndex : uint256 → option CBlockIndex;
  chainActive_Height : Z;
  HasChainLock : Z → uint256 → bool;
  InvalidateBlock : uint256 → bool;
  ActivateBestChain : bool;
  nInstantSendConfirmationsRequired : Z;
  dkgInterval : Z
}.

Inductive InvType := MSG_TX | MSG_ISLOCK | MSG_ISDLOCK.
Record CInv := mkInv { inv_type : InvType; inv_hash : uint256 }.
Inductive ProtoVersion := LLMQS_PROTO_VERSION | ISDLOCK_PROTO_VERSION.

(** The calls the manager makes on its collaborators, in order. *)
Inductive Event :=
| EraseObjectRequest (node : Z) (inv : CInv)
| Misbehaving (node : Z) (howmuch : Z)
| RelayInvFiltered_tx (inv : CInv) (tx : CTransaction) (minProtoVersion : ProtoVersion)
| RelayInvFiltered_txid (inv : CInv) (relatedTxHash : uint256) (minProtoVersion : ProtoVersion)
| NotifyTransactionLock (tx : CTransaction) (islock : CInstantSendLock)
| AddTransactionsUpdated (count : Z)
| removeRecursive_CONFLICT (tx : CTransaction)
| AskNodesForLockedTx_event (txid : uint256)
| InvalidateBlock_event (blockHash : uint256)
| ActivateBestChain_event
| TruncateRecoveredSig (id : uint256).

Record NonLockedTxInfo := mkInfo {
  pindexMined : option CBlockIndex;
  info_tx : option CTransaction;
  children : gset uint256
}.

(** [CInstantSendManager]: the lock store and the members guarded by [cs];
    [events] records the outbound calls. *)
Record CInstantSendManager := mkMgr {
  isdb : CInstantSendDb;
  inputRequestIds : gset uint256;
  creatingInstantSendLocks : gmap uint256 CInstantSendLock;
  txToCreatingInstantSendLocks : gmap uint256 uint256;
  pendingInstantSendLocks : gmap uint256 (Z * CInstantSendLock);
  nonLockedTxs : gmap uint256 NonLockedTxInfo;
  nonLockedTxsByOutpoints : gmap COutPoint uint256;
  pendingRetryTxs : gset uint256;
  events : list Event
}.

Definition set_isdb (m : CInstantSendManager) d : CInstantSendManager :=
  mkMgr d (inputRequestIds m) (creatingInstantSendLocks m) (txToCreatingInstantSendLocks m)
        (pendingInstantSendLocks m) (nonLockedTxs m) (nonLockedTxsByOutpoints m)
        (pendingRetryTxs m) (events m).
Definition set_inputRequestIds (m : CInstantSendManager) x : CInstantSendManager :=
  mkMgr (isdb m) x (creatingInstantSendLocks m) (txToCreatingInstantSendLocks m)
        (pendingInstantSendLocks m) (nonLockedTxs m) (nonLockedTxsByOutpoints m)
        (pendingRetryTxs m) (events m).
Definition set_creating (m : CInstantSendManager) x y : CInstantSendManager :=
  mkMgr (isdb m) (inputRequestIds m) x y
        (pendingInstantSendLocks m) (nonLockedTxs m) (nonLockedTxsByOutpoints m)
        (pendingRetryTxs m) (events m).
Definition set_pending (m : CInstantSendManager) x : CInstantSendManager :=
  mkMgr (isdb m) (inputRequestIds m) (creatingInstantSendLocks m)
        (txToCreatingInstantSendLocks m) x (nonLockedTxs m) (nonLockedTxsByOutpoints m)
        (pendingRetryTxs m) (events m).
Definition set_nonLocked (m : CInstantSendManager) x y z : CInstantSendManager :=
  mkMgr (isdb m) (inputRequestIds m) (creatingInstantSendLocks m)
        (txToCreatingInstantSendLocks m) (pendingInstantSendLocks m) x y z (events m).
Definition set_events (m : CInstantSendManager) x : CInstantSendManager :=
  mkMgr (isdb m) (inputRequestIds m) (creatingInstantSendLocks m)
        (txToCreatingInstantSendLocks m) (pendingInstantSendLocks m) (nonLockedTxs m)
        (nonLockedTxsByOutpoints m) (pendingRetryTxs m) x.

(** A method of the manager: a function of the state that returns its
    result and the next state, or [None] when the run aborts (a failed
    [assert], a null pointer dereferenced). *)
Definition MgrM (A : Type) : Type := CInstantSendManager → option (A * CInstantSendManager).

#[global] Instance MgrM_ret : MRet MgrM := λ A a m, Some (a, m).
#[global] Instance MgrM_bind : MBind MgrM :=
  λ A B f c m, match c m with Some (a, m') => f a m' | None => None end.

Definition abort {A : Type} : MgrM A := λ _, None.
Definition mgr_return : MgrM unit := mret tt.
Definition get_mgr : MgrM CInstantSendManager := λ m, Some (m, m).
Definition modify_mgr (f : CInstantSendManager → CInstantSendManager) : MgrM unit :=
  λ m, Some (tt, f m).
Definition emit (e : Event) : MgrM unit :=
  modify_mgr (λ m, set_events m (events m ++ [e])).

(** A call on the lock store. *)
Definition on_db {A : Type} (c : DbM A) : MgrM A :=
  λ m, let '(a, d) := c (isdb m) in Some (a, set_isdb m d).

(** [for (const auto& x : xs) body(x);] *)
Fixpoint for_each {A : Type} (xs : list A) (body : A → MgrM unit) : MgrM unit :=
  match xs with
  | [] => mgr_return
  | x :: xs' => _ ← body x; for_each xs' body
  end.

(** ** The methods of [CInstantSendManager] *)

(** [IsInstantSendEnabled()] *)
Definition IsInstantSendEnabled (env : Env) : bool :=
  negb (fReindex env) && negb (fImporting env)
  && IsSporkActive env SPORK_2_INSTANTSEND_ENABLED.

(** The loop of [PreVerifyInstantSendLock] over the inputs, with the set
    [dups] of the inputs seen. *)
Fixpoint PreVerify_loop (ins : list COutPoint) (dups : gset COutPoint) : bool :=
  match ins with
  | [] => true
  | o :: ins' =>
      if bool_decide (o ∈ dups) then false
      else PreVerify_loop ins' ({[o]} ∪ dups)
  end.

Definition PreVerifyInstantSendLock (islock : CInstantSendLock) : bool :=
  if IsNull (txid islock) || bool_decide (inputs islock = []) then false
  else PreVerify_loop (inputs islock) ∅.

Module Manager.
Section methods.
Context `{HeaderDecls} `{Primitives}.
Variable env : Env.

(** [IsLockedInternal] *)
Definition IsLockedInternal (txHash : uint256) : MgrM bool :=
  on_db (islockHash ← GetInstantSendLockHashByTxid txHash;
         KnownInstantSendLock islockHash).

Definition IsLocked (txHash : uint256) : MgrM bool :=
  if negb (IsInstantSendEnabled env) then mret false
  else IsLockedInternal txHash.

Definition AlreadyHave (inv : CInv) : MgrM bool :=
  if negb (IsInstantSendEnabled env) then mret true
  else
    m ← get_mgr;
    if bool_decide (is_Some (pendingInstantSendLocks m !! inv_hash inv)) then mret true
    else on_db (KnownInstantSendLock (inv_hash inv)).

(** [ProcessMessageInstantSendLock]; [pfrom] is the id of the peer. *)
Definition ProcessMessageInstantSendLock (pfrom : Z) (islock : CInstantSendLock)
  : MgrM unit :=
  let hash := SerializeHash ser_islock islock in
  _ ← emit (EraseObjectRequest pfrom
              (mkInv (if IsDeterministic islock then MSG_ISDLOCK else MSG_ISLOCK) hash));
  if negb (PreVerifyInstantSendLock islock) then emit (Misbehaving pfrom 100)
  else
    let enqueue : MgrM unit :=
      m ← get_mgr;
      if bool_decide (is_Some (pendingInstantSendLocks m !! hash)) then mgr_return
      else
        known ← on_db (KnownInstantSendLock hash);
        if (known : bool) then mgr_return
        else modify_mgr (λ m,
               set_pending m (<[hash := (pfrom, islock)]> (pendingInstantSendLocks m))) in
    if IsDeterministic islock then
      match LookupBlockIndex env (cycleHash islock) with
      | None => emit (Misbehaving pfrom 1)
      | Some blockIndex =>
          if bool_decide (Z.rem (nHeight blockIndex) (dkgInterval env) ≠ 0)
          then emit (Misbehaving pfrom 100)
          else enqueue
      end
    else enqueue.

(** [CheckCanLock(const COutPoint&, ...)]; [printDebug] and [txHash] only
    feed the log. *)
Definition CheckCanLock_outpoint (outpoint : COutPoint) (printDebug : bool)
    (txHash : uint256) : MgrM bool :=
  locked ← IsLockedInternal (hash outpoint);
  if (locked : bool) then mret true
  else
    match mempool_get env (hash outpoint) with
    | Some _ => mret false
    | None =>
        match GetTransaction env (hash outpoint) with
        | None => mret false
        | Some (tx, hashBlock) =>
            match LookupBlockIndex env hashBlock with
            | None => abort
            | Some pindexMined =>
                let nTxAge := chainActive_Height env - nHeight pindexMined + 1 in
                if (nTxAge <? nInstantSendConfirmationsRequired env)
                   && negb (HasChainLock env (nHeight pindexMined) (block_hash pindexMined))
                then mret false
                else mret true
            end
        end
    end.

Fixpoint CheckCanLock_loop (ins : list CTxIn) (printDebug : bool) (txHash : uint256)
  : MgrM bool :=
  match ins with
  | [] => mret true
  | i :: ins' =>
      ok ← CheckCanLock_outpoint (prevout i) printDebug txHash;
      if negb (ok : bool) then mret false else CheckCanLock_loop ins' printDebug txHash
  end.

(** [CheckCanLock(const CTransaction&, ...)] *)
Definition CheckCanLock (tx : CTransaction) (printDebug : bool) : MgrM bool :=
  if bool_decide (vin tx = []) then mret false
  else CheckCanLock_loop (vin tx) printDebug (tx_hash tx).

(** [RemoveNonLockedTx] *)
Definition RemoveNonLockedTx (txid : uint256) (retryChildren : bool) : MgrM unit :=
  m ← get_mgr;
  match nonLockedTxs m !! txid with
  | None => mgr_return
  | Some info =>
      _ ← (if retryChildren then
             modify_mgr (λ m, set_nonLocked m (nonLockedTxs m) (nonLockedTxsByOutpoints m)
                                (children info ∪ pendingRetryTxs m))
           else mgr_return);
      _ ← match info_tx info with
          | None => mgr_return
          | Some tx =>
              for_each (vin tx) (λ i,
                modify_mgr (λ m,
                  let txs :=
                    match nonLockedTxs m !! hash (prevout i) with
                    | None => nonLockedTxs m
                    | Some j =>
                        let j' := mkInfo (pindexMined j) (info_tx j) (children j ∖ {[txid]}) in
                        if bool_decide (info_tx j' = None) && bool_decide (children j' = ∅)
                        then delete (hash (prevout i)) (nonLockedTxs m)
                        else <[hash (prevout i) := j']> (nonLockedTxs m)
                    end in
                  set_nonLocked m txs (delete (prevout i) (nonLockedTxsByOutpoints m))
                                (pendingRetryTxs m)))
          end;
      modify_mgr (λ m, set_nonLocked m (delete txid (nonLockedTxs m))
                         (nonLockedTxsByOutpoints m) (pendingRetryTxs m))
  end.

(** [RemoveConflictedTx] *)
Definition RemoveConflictedTx (tx : CTransaction) : MgrM unit :=
  _ ← RemoveNonLockedTx (tx_hash tx) false;
  for_each (vin tx) (λ i,
    modify_mgr (λ m,
      set_inputRequestIds m (inputRequestIds m ∖ {[ConflictedTxInRequestId i]}))).

(** [TruncateRecoveredSigsForInputs] *)
Definition TruncateRecoveredSigsForInputs (islock : CInstantSendLock) : MgrM unit :=
  for_each (inputs islock) (λ i,
    let inputRequestId := InputLockRequestId i in
    _ ← modify_mgr (λ m, set_inputRequestIds m (inputRequestIds m ∖ {[inputRequestId]}));
    emit (TruncateRecoveredSig inputRequestId)).

(** [RemoveConflictingLock]; the run stops if the walk of the store ran out
    of iterations, which does not happen (see [chained_while_total] and
    [RemoveConflictingLock_run]). *)
Definition RemoveConflictingLock (islockHash : uint256) (islock : CInstantSendLock)
  : MgrM unit :=
  let tipHeight := chainActive_Height env in
  removedIslocks ← on_db (RemoveChainedInstantSendLocks islockHash (txid islock) tipHeight);
  match removedIslocks with
  | Some _ => mgr_return
  | None => abort
  end.

(** The first loop of [ResolveBlockConflicts]: the mined, non-locked
    transactions that spend an input of the lock, by block. *)
Definition collect_conflicts (m : CInstantSendManager) (islock : CInstantSendLock)
  : gmap CBlockIndex (gmap uint256 CTransaction) :=
  foldl (λ conflicts i,
           match nonLockedTxsByOutpoints m !! i with
           | None => conflicts
           | Some conflictTxid =>
               if bool_decide (conflictTxid = txid islock) then conflicts
               else
                 match nonLockedTxs m !! conflictTxid with
                 | None => conflicts
                 | Some info =>
                     match pindexMined info, info_tx info with
                     | Some pindex, Some tx =>
                         <[pindex := emplace conflictTxid tx (default ∅ (conflicts !! pindex))]>
                           conflicts
                     | _, _ => conflicts
                     end
                 end
           end)
        ∅ (inputs islock).

(** [ResolveBlockConflicts] *)
Definition ResolveBlockConflicts (islockHash : uint256) (islock : CInstantSendLock)
  : MgrM unit :=
  m ← get_mgr;
  let conflicts := map_to_list (collect_conflicts m islock) in
  let hasChainLockedConflict :=
    existsb (λ p, HasChainLock env (nHeight p.1) (block_hash p.1)) conflicts in
  if hasChainLockedConflict then RemoveConflictingLock islockHash islock
  else
    _ ← for_each conflicts (λ p,
          _ ← for_each (map snd (map_to_list p.2)) RemoveConflictedTx;
          _ ← emit (InvalidateBlock_event (block_hash p.1));
          if InvalidateBlock env (block_hash p.1) then mgr_return else abort);
    if bool_decide (conflicts ≠ []) then
      _ ← emit ActivateBestChain_event;
      if ActivateBestChain env then mgr_return else abort
    else mgr_return.

(** [RemoveMempoolConflictsForLock] *)
Definition RemoveMempoolConflictsForLock (hash : uint256) (islock : CInstantSendLock)
  : MgrM unit :=
  let toDelete : gmap uint256 (option CTransaction) :=
    foldl (λ toDelete i,
             match mempool_mapNextTx env i with
             | None => toDelete
             | Some spender =>
                 if bool_decide (tx_hash spender ≠ txid islock)
                 then emplace (tx_hash spender) (mempool_get env (tx_hash spender)) toDelete
                 else toDelete
             end)
          ∅ (inputs islock) in
  let deref (p : uint256 * option CTransaction) (k : CTransaction → MgrM unit) : MgrM unit :=
    match p.2 with Some tx => k tx | None => abort end in
  _ ← for_each (map_to_list toDelete) (λ p, deref p (λ tx, emit (removeRecursive_CONFLICT tx)));
  if bool_decide (toDelete ≠ ∅) then
    _ ← for_each (map_to_list toDelete) (λ p, deref p RemoveConflictedTx);
    emit (AskNodesForLockedTx_event (txid islock))
  else mgr_return.

(** [ProcessInstantSendLock]. The other locks for the same txid and for
    the inputs are looked up for the log only. *)
Definition ProcessInstantSendLock (from : Z) (hash : uint256) (islock : CInstantSendLock)
  : MgrM unit :=
  _ ← modify_mgr (λ m,
        set_creating m (delete (GetRequestId islock) (creatingInstantSendLocks m))
                       (delete (txid islock) (txToCreatingInstantSendLocks m)));
  known ← on_db (KnownInstantSendLock hash);
  if (known : bool) then mgr_return
  else
    let found := GetTransaction env (txid islock) in
    let tx := fst <$> found in
    let pindexMined :=
      match found with
      | Some (_, hashBlock) =>
          if negb (IsNull hashBlock) then LookupBlockIndex env hashBlock else None
      | None => None
      end in
    if match pindexMined with
       | Some pindex => HasChainLock env (nHeight pindex) (block_hash pindex)
       | None => false
       end
    then mgr_return
    else
      otherIsLock ← on_db (GetInstantSendLockByTxid (txid islock));
      _ ← for_each (inputs islock) (λ i,
            otherIsLock ← on_db (GetInstantSendLockByInput i); mgr_return);
      _ ← on_db (WriteNewInstantSendLock hash islock);
      _ ← match pindexMined with
          | Some pindex => on_db (WriteInstantSendLockMined hash (nHeight pindex))
          | None => mgr_return
          end;
      _ ← RemoveNonLockedTx (txid islock) true;
      _ ← TruncateRecoveredSigsForInputs islock;
      let is_det := IsDeterministic islock in
      let inv := mkInv (if is_det then MSG_ISDLOCK else MSG_ISLOCK) hash in
      let proto := if is_det then ISDLOCK_PROTO_VERSION else LLMQS_PROTO_VERSION in
      _ ← match tx with
          | Some t => emit (RelayInvFiltered_tx inv t proto)
          | None => emit (RelayInvFiltered_txid inv (txid islock) proto)
          end;
      _ ← ResolveBlockConflicts hash islock;
      _ ← RemoveMempoolConflictsForLock hash islock;
      match tx with
      | Some t =>
          _ ← emit (NotifyTransactionLock t islock);
          emit (AddTransactionsUpdated 1)
      | None => mgr_return
      end.

(** [CInstantSendManager::GetInstantSendLockByTxid] *)
Definition GetInstantSendLockByTxid (txid : uint256) : MgrM (option CInstantSendLock) :=
  if negb (IsInstantSendEnabled env) then mret None
  else on_db (GetInstantSendLockByTxid txid).
End methods.
End Manager.

(** ** Lockability, as the specification words it *)

Section lockable.
Context `{HeaderDecls} `{Primitives}.
Variable env : Env.

(** Whether the lock store reports the transaction as locked, and the
    manager after that lookup (the lookup refreshes the caches). *)
Definition locked_now (m : CInstantSendManager) (txHash : uint256) : bool :=
  ((islockHash ← GetInstantSendLockHashByTxid txHash;
    KnownInstantSendLock islockHash) (isdb m)).1.

Definition after_lookup (m : CInstantSendManager) (txHash : uint256) : CInstantSendManager :=
  set_isdb m ((islockHash ← GetInstantSendLockHashByTxid txHash;
               KnownInstantSendLock islockHash) (isdb m)).2.

(** The source transaction of [o] is already locked, or it is not in the
    mempool, is found on the chain, and is mined deep enough or in a
    ChainLocked block. *)
Definition lockable (m : CInstantSendManager) (o : COutPoint) : Prop :=
  locked_now m (hash o) = true
  ∨ (mempool_get env (hash o) = None
     ∧ ∃ tx hashBlock pindex,
         GetTransaction env (hash o) = Some (tx, hashBlock)
         ∧ LookupBlockIndex env hashBlock = Some pindex
         ∧ (nInstantSendConfirmationsRequired env
              <= chainActive_Height env - nHeight pindex + 1
            ∨ HasChainLock env (nHeight pindex) (block_hash pindex) = true)).

(** Every input is lockable when its turn comes. *)
Fixpoint all_lockable (ins : list CTxIn) (m : CInstantSendManager) : Prop :=
  match ins with
  | [] => True
  | i :: ins' =>
      lockable m (prevout i) ∧ all_lockable ins' (after_lookup m (hash (prevout i)))
  end.
End lockable.

(** ** Example states *)

Module Examples.

(** The defaults of the header upstream: caches are used and kept. *)
Definition upstream_header : HeaderDecls :=
  {| use_cache_default := true; keep_cache_default := true; CURRENT_VERSION := 1 |}.

(** A stand-in for the hash and for the serialization of an input. *)
Definition example_primitives : Primitives :=
  {| Hash256 := λ bs, le_value bs mod 2 ^ 256;
     Serialize_CTxIn := λ i, ser_outpoint (prevout i)
                             ++ ser_vector (λ b, [b]) (scriptSig i)
                             ++ ser_uint32 (nSequence i) |}.

Definition empty_cache {K V : Type} : unordered_lru_cache K V := mkCache 100 [].

(** A fresh lock store. *)
Definition db0 : CInstantSendDb := mkIsDb 0 db_empty empty_cache empty_cache empty_cache.

Definition sig1 : list Z := replicate 96 1.
Definition sig2 : list Z := replicate 96 2.

(** A deterministic lock of transaction 7 on two outputs of transaction 3,
    a legacy lock of the same transaction, a lock of transaction 8 that
    spends an output of 7, and a lock of transaction 9 on an input of the first. *)
Definition lock_a : CInstantSendLock :=
  mkLock isdlock_version 7 [mkOutPoint 3 0; mkOutPoint 3 1] 9 sig1.
Definition lock_a_legacy : CInstantSendLock :=
  mkLock islock_version 7 [mkOutPoint 3 0; mkOutPoint 3 1] 0 sig2.
Definition lock_child : CInstantSendLock :=
  mkLock isdlock_version 8 [mkOutPoint 7 0] 9 sig1.
Definition lock_conflict : CInstantSendLock :=
  mkLock isdlock_version 9 [mkOutPoint 3 1] 9 sig2.

Definition hash_a : uint256 := 11.
Definition hash_a_legacy : uint256 := 12.
Definition hash_child : uint256 := 13.
Definition hash_conflict : uint256 := 14.

(** The store with [lock_a] committed, and with [lock_a_legacy] committed. *)
Definition db_a : CInstantSendDb :=
  (@WriteNewInstantSendLock hash_a lock_a db0).2.
Definition db_a_legacy : CInstantSendDb :=
  (@WriteNewInstantSendLock hash_a_legacy lock_a_legacy db0).2.

(** The same stores with cold caches (after a restart). *)
Definition cold (s : CInstantSendDb) : CInstantSendDb :=
  mkIsDb (best_confirmed_height s) (db s) empty_cache empty_cache empty_cache.

(** [lock_a] and its child committed. *)
Definition db_chain : CInstantSendDb :=
  (@WriteNewInstantSendLock hash_child lock_child db_a).2.

(** A node with InstantSend enabled, an empty mempool and a chain of height
    100 on which transactions 3 and 5 are mined at heights 90 and 99;
    nothing is ChainLocked. *)
Definition env0 : Env :=
  {| fReindex := false; fImporting := false;
     IsSporkActive := λ _, true;
     mempool_get := λ _, None;
     mempool_mapNextTx := λ _, None;
     GetTransaction := λ t,
       if t =? 3 then Some (mkTx 3 [] false, 1090)
       else if t =? 5 then Some (mkTx 5 [] false, 1099)
       else None;
     LookupBlockIndex := λ h,
       if h =? 1090 then Some (mkIndex 90 1090)
       else if h =? 1099 then Some (mkIndex 99 1099)
       else None;
     chainActive_Height := 100;
     HasChainLock := λ _ _, false;
     InvalidateBlock := λ _, true;
     ActivateBestChain := true;
     nInstantSendConfirmationsRequired := 6;
     dkgInterval := 24 |}.

(** The same node with the InstantSend spork off. *)
Definition env_disabled : Env :=
  {| fReindex := false; fImporting := false;
     IsSporkActive := λ _, false;
     mempool_get := mempool_get env0;
     mempool_mapNextTx := mempool_mapNextTx env0;
     GetTransaction := GetTransaction env0;
     LookupBlockIndex := LookupBlockIndex env0;
     chainActive_Height := 100;
     HasChainLock := λ _ _, false;
     InvalidateBlock := λ _, true;
     ActivateBestChain := true;
     nInstantSendConfirmationsRequired := 6;
     dkgInterval := 24 |}.

Definition mgr_of (d : CInstantSendDb) : CInstantSendManager :=
  mkMgr d ∅ ∅ ∅ ∅ ∅ ∅ ∅ [].

(** A transaction that spends an output of transaction 3. *)
Definition tx_b : CTransaction := mkTx 20 [mkTxIn (mkOutPoint 3 0) [] 0] false.

End Examples.

(** ** Sequences that commit no colliding lock *)

Section collision_free.
Context `{HeaderDecls}.

(** Every lock the sequence writes collides with no lock stored under
    another hash at that moment. *)
Fixpoint collision_free (s : CInstantSendDb) (ops : list DbOp) : Prop :=
  match ops with
  | [] => True
  | op :: ops' =>
      match op with
      | OpWriteNewInstantSendLock hash islock => ¬ collides (db s) hash islock
      | _ => True
      end
      ∧ collision_free (run_op s op) ops'
  end.
End collision_free.

(** A method of the manager whose runs relate the locks of ISLOCK_BY_HASH
    before and after by [R]. *)
Definition islocks_related {A : Type}
    (R : relation (gmap uint256 CInstantSendLock)) (c : MgrM A) : Prop :=
  ∀ m a m', c m = Some (a, m') → R (is_i (db (isdb m))) (is_i (db (isdb m'))).

Abbreviation shrinks := (flip (⊆) : relation (gmap uint256 CInstantSendLock)).

(** The locks after are among the locks before, or among them and the lock
    [l] under [h]. *)
Definition adds_at_most (h : uint256) (l : CInstantSendLock)
  : relation (gmap uint256 CInstantSendLock) :=
  λ x y, y ⊆ x ∨ y ⊆ <[h := l]> x.

Module ExampleRuns.
Import Examples.

(** A lock without inputs, as a peer could send it. *)
Definition lock_no_inputs : CInstantSendLock := mkLock islock_version 7 [] 0 sig1.

(** [lock_a] written, mined at height 5 and confirmed up to height 5, with
    the defaults of the header upstream. *)
Definition db_confirmed : CInstantSendDb :=
  (@RemoveConfirmedInstantSendLocks upstream_header 5
     (WriteInstantSendLockMined hash_a 5 (WriteNewInstantSendLock hash_a lock_a db0).2).2).2.

(** A lock of transaction 10 on an output of transaction 5: it shares no
    txid and no input with the locks above. *)
Definition lock_free : CInstantSendLock := mkLock isdlock_version 10 [mkOutPoint 5 0] 9 sig1.
Definition hash_free : uint256 := 15.

End ExampleRuns.

(** ** Caches that shadow the store *)

(** Every entry of the cache is the value [f] gives for its key. *)
Definition cache_agrees {K V : Type} `{EqDecision K} (f : K → V)
    (c : unordered_lru_cache K V) : Prop :=
  ∀ k v, assoc_find k (cacheMap c) = Some v → v = f k.

(** The three caches hold what a read of the store gives: the lock under a
    hash (or that there is none), and the hash under a txid or an outpoint
    (the null hash when there is none). *)
Definition caches_coherent (s : CInstantSendDb) : Prop :=
  cache_agrees (λ h, is_i (db s) !! h) (islockCache s)
  ∧ cache_agrees (λ t, default 0 (is_tx (db s) !! t)) (txidCache s)
  ∧ cache_agrees (λ o, default 0 (is_in (db s) !! o)) (outpointCache s).

(** The caches have no entry for the locks of [res], their txids and their
    inputs. *)
Definition removed_uncached (d : CDBWrapper) (s : CInstantSendDb) (res : list uint256) : Prop :=
  ∀ h l, h ∈ res → committed d h = Some l →
    assoc_find h (cacheMap (islockCache s)) = None
    ∧ assoc_find (txid l) (cacheMap (txidCache s)) = None
    ∧ ∀ o, o ∈ inputs l → assoc_find o (cacheMap (outpointCache s)) = None.

(** What the loop of [RemoveChainedInstantSendLocks] keeps about the caches
    while the store is still [d]: they agree with [d], the batch removes
    and archives locks of [result] only, and these locks are not cached. *)
Definition chained_cache_inv (d : CDBWrapper) (nHeight : Z) (s : CInstantSendDb)
    (v : ChainedLocals) : Prop :=
  db s = d ∧ caches_coherent s
  ∧ (∀ op, op ∈ ch_batch v →
       ∃ h l, h ∈ ch_result v ∧ committed d h = Some l
              ∧ op ∈ remove_ops h l ++ archive_ops h nHeight)
  ∧ removed_uncached d s (ch_result v).

(** ** What [Upgrade] and the block updates queue *)

(** What [Upgrade] queues for one entry of ISLOCK_BY_HASH. *)
Definition upgrade_entry_ops (known : uint256 → bool) (e : uint256 * CInstantSendLock)
  : CDBBatch :=
  match Unserialize_islock islock_version e.2 with
  | Some islock =>
      if negb (known (txid islock)) then
        [Erase_txid (txid islock)] ++ map Erase_outpoint (inputs islock) ++ [Erase_islock e.1]
      else []
  | None => []
  end.

(** The lock hashes that HASH_BY_TXID gives for the transactions of a block
    that can be locked (no coinbase, at least one input), in block order. *)
Definition block_islocks (d : CDBWrapper) (vtx : list CTransaction) : list uint256 :=
  omap (λ tx,
          if is_coinbase tx || bool_decide (vin tx = []) then None
          else
            let islockHash := default 0 (is_tx d !! tx_hash tx) in
            if IsNull islockHash then None else Some islockHash)
       vtx.

(** The key of the mined entry of [h] at height [nHeight]. *)
Definition mined_key (nHeight : Z) (h : uint256) : Z * uint256 :=
  ((BuildInversedISLockKey DB_MINED_BY_HEIGHT_AND_HASH nHeight h).1.2, h).

(** ** More methods of [CInstantSendManager] *)

(** [CRecoveredSig]: the request id, the signed message hash and the
    signature. *)
Record CRecoveredSig := mkRecSig {
  rs_id : uint256;
  rs_msgHash : uint256;
  rs_sig : list Z
}.

(** What [TrySignInstantSendLock] reads from the signing manager and the
    active chain: [HasRecoveredSig id msgHash], [HasRecoveredSigForId id]
    and [chainActive[height]]; [empty_sig] is the signature of a lock that
    has just been constructed ([CBLSLazySignature()], declared elsewhere). *)
Record SigningEnv := mkSigning {
  HasRecoveredSig : uint256 → uint256 → bool;
  HasRecoveredSigForId : uint256 → bool;
  chainActive_at : Z → option CBlockIndex;
  empty_sig : list Z
}.

Module Tracking.
Section methods.
Context `{HeaderDecls} `{Primitives}.
Variable env : Env.

(** [AddNonLockedTx]; [mined] is the argument [pindexMined]. [emplace]
    leaves an entry that exists, [operator[]] makes a default one for a
    parent that has none. *)
Definition AddNonLockedTx (tx : CTransaction) (mined : option CBlockIndex)
  : MgrM unit :=
  m ← get_mgr;
  let inserted := bool_decide (nonLockedTxs m !! tx_hash tx = None) in
  let info := default (mkInfo None None ∅) (nonLockedTxs m !! tx_hash tx) in
  _ ← modify_mgr (λ m,
        set_nonLocked m
          (<[tx_hash tx := mkInfo mined
                                  (if inserted then Some tx else info_tx info)
                                  (children info)]> (nonLockedTxs m))
          (nonLockedTxsByOutpoints m) (pendingRetryTxs m));
  if inserted then
    for_each (vin tx) (λ i,
      modify_mgr (λ m,
        let parent := default (mkInfo None None ∅) (nonLockedTxs m !! hash (prevout i)) in
        set_nonLocked m
          (<[hash (prevout i) := mkInfo (pindexMined parent) (info_tx parent)
                                        ({[tx_hash tx]} ∪ children parent)]>
             (nonLockedTxs m))
          (match nonLockedTxsByOutpoints m !! prevout i with
           | Some _ => nonLockedTxsByOutpoints m
           | None => <[prevout i := tx_hash tx]> (nonLockedTxsByOutpoints m)
           end)
          (pendingRetryTxs m)))
  else mgr_return.

(** The loop of [GetConflictingLockInternal]. *)
Fixpoint GetConflictingLockInternal_loop (ins : list CTxIn) (txHash : uint256)
  : MgrM (option CInstantSendLock) :=
  match ins with
  | [] => mret None
  | i :: ins' =>
      otherIsLock ← on_db (GetInstantSendLockByInput (prevout i));
      match otherIsLock with
      | None => GetConflictingLockInternal_loop ins' txHash
      | Some l =>
          if bool_decide (txid l ≠ txHash) then mret (Some l)
          else GetConflictingLockInternal_loop ins' txHash
      end
  end.

Definition GetConflictingLockInternal (tx : CTransaction) : MgrM (option CInstantSendLock) :=
  GetConflictingLockInternal_loop (vin tx) (tx_hash tx).

Definition GetConflictingLock (tx : CTransaction) : MgrM (option CInstantSendLock) :=
  if negb (IsInstantSendEnabled env) then mret None
  else GetConflictingLockInternal tx.

(** [HandleNewInstantSendLockRecoveredSig]: the lock the node is creating
    gets the recovered signature and is queued as coming from peer -1. *)
Definition HandleNewInstantSendLockRecoveredSig (recoveredSig : CRecoveredSig)
  : MgrM unit :=
  m ← get_mgr;
  match creatingInstantSendLocks m !! rs_id recoveredSig with
  | None => mgr_return
  | Some created =>
      _ ← modify_mgr (λ m,
            set_creating m (delete (rs_id recoveredSig) (creatingInstantSendLocks m))
                           (delete (txid created) (txToCreatingInstantSendLocks m)));
      if bool_decide (txid created ≠ rs_msgHash recoveredSig) then mgr_return
      else
        let islock := mkLock (nVersion created) (txid created) (inputs created)
                             (cycleHash created) (rs_sig recoveredSig) in
        let hash := SerializeHash ser_islock islock in
        m ← get_mgr;
        if bool_decide (is_Some (pendingInstantSendLocks m !! hash)) then mgr_return
        else
          known ← on_db (KnownInstantSendLock hash);
          if (known : bool) then mgr_return
          else modify_mgr (λ m,
                 set_pending m (<[hash := (-1, islock)]> (pendingInstantSendLocks m)))
  end.

(** [TrySignInstantSendLock]; the result is whether [AsyncSignIfMember] is
    called for the new lock. [chainActive[quorumHeight]] is dereferenced. *)
Definition TrySignInstantSendLock (sig : SigningEnv) (tx : CTransaction) : MgrM bool :=
  if negb (forallb (λ i, HasRecoveredSig sig (InputLockRequestId (prevout i)) (tx_hash tx))
                   (vin tx))
  then mret false
  else
    let quorumHeight :=
      chainActive_Height env - Z.rem (chainActive_Height env) (dkgInterval env) in
    match chainActive_at sig quorumHeight with
    | None => abort
    | Some quorumBlock =>
        let islock := mkLock isdlock_version (tx_hash tx) (map prevout (vin tx))
                             (block_hash quorumBlock) (empty_sig sig) in
        let id := GetRequestId islock in
        if HasRecoveredSigForId sig id then mret false
        else
          m ← get_mgr;
          match creatingInstantSendLocks m !! id with
          | Some _ => mret false
          | None =>
              _ ← modify_mgr (λ m,
                    set_creating m (<[id := islock]> (creatingInstantSendLocks m))
                      (match txToCreatingInstantSendLocks m !! tx_hash tx with
                       | Some _ => txToCreatingInstantSendLocks m
                       | None => <[tx_hash tx := id]> (txToCreatingInstantSendLocks m)
                       end));
              mret true
          end
    end.

(** [HandleFullyConfirmedBlock]; [GetAncestor pindex height] is
    [pindex->GetAncestor(height)]. *)
Definition HandleFullyConfirmedBlock (GetAncestor : CBlockIndex → Z → option CBlockIndex)
    (pindex : CBlockIndex) : MgrM unit :=
  if negb (IsInstantSendEnabled env) then mgr_return
  else
    removeISLocks ← on_db (RemoveConfirmedInstantSendLocks (nHeight pindex));
    _ ← for_each (map_to_list removeISLocks) (λ p,
          _ ← Manager.TruncateRecoveredSigsForInputs p.2;
          emit (TruncateRecoveredSig (GetRequestId p.2)));
    _ ← on_db (RemoveArchivedInstantSendLocks (nHeight pindex - 100));
    m ← get_mgr;
    let toRemove :=
      omap (λ p : uint256 * NonLockedTxInfo,
              match pindexMined p.2 with
              | Some mined =>
                  if bool_decide (GetAncestor pindex (nHeight mined) = Some mined)
                  then Some p.1 else None
              | None => None
              end)
           (map_to_list (nonLockedTxs m)) in
    for_each toRemove (λ txid, Manager.RemoveNonLockedTx txid true).

(** [NotifyChainLock] *)
Definition NotifyChainLock (GetAncestor : CBlockIndex → Z → option CBlockIndex)
    (pindexChainLock : CBlockIndex) : MgrM unit :=
  HandleFullyConfirmedBlock GetAncestor pindexChainLock.

(** [CInstantSendManager::GetInstantSendLockHashByTxid]: the result and
    [ret], which is left as it was when InstantSend is disabled. *)
Definition GetInstantSendLockHashByTxid (txid : uint256) (ret : uint256)
  : MgrM (bool * uint256) :=
  if negb (IsInstantSendEnabled env) then mret (false, ret)
  else
    islockHash ← on_db (GetInstantSendLockHashByTxid txid);
    mret (negb (IsNull islockHash), islockHash).

(** [CInstantSendManager::GetInstantSendLockByHash]: the result and [ret],
    which is written only when a lock is found. *)
Definition GetInstantSendLockByHash (hash : uint256) (ret : CInstantSendLock)
  : MgrM (bool * CInstantSendLock) :=
  if negb (IsInstantSendEnabled env) then mret (false, ret)
  else
    islock ← on_db (GetInstantSendLockByHash hash use_cache_default);
    match islock with
    | None => mret (false, ret)
    | Some l => mret (true, l)
    end.

(** [CInstantSendManager::GetInstantSendLockCount] *)
Definition GetInstantSendLockCount : MgrM nat := on_db GetInstantSendLockCount.
End methods.
End Tracking.

(** ** Statements about the manager *)

(** Every run of [c] from a manager with [P] ends in a manager with [P]. *)
Definition stable {A : Type} (P : CInstantSendManager → Prop) (c : MgrM A) : Prop :=
  ∀ m a m', P m → c m = Some (a, m') → P m'.

(** The first lock, in the order of the inputs, that the store has for an
    input and that locks another transaction than [txHash]. *)
Fixpoint first_conflict (d : CDBWrapper) (txHash : uint256) (ins : list CTxIn)
  : option CInstantSendLock :=
  match ins with
  | [] => None
  | i :: ins' =>
      match committed d (default 0 (is_in d !! prevout i)) with
      | Some l =>
          if bool_decide (txid l ≠ txHash) then Some l else first_conflict d txHash ins'
      | None => first_conflict d txHash ins'
      end
  end.

(** The parts of the manager that track the transactions without a lock. *)
Definition tracking (m : CInstantSendManager)
  : gmap uint256 NonLockedTxInfo * gmap COutPoint uint256 * gset uint256 :=
  (nonLockedTxs m, nonLockedTxsByOutpoints m, pendingRetryTxs m).

(** A tracked transaction with one more child; with one child less, or
    [None] when that leaves neither a transaction nor a child, which is
    when [RemoveNonLockedTx] erases the entry. *)
Definition add_child (c : uint256) (j : NonLockedTxInfo) : NonLockedTxInfo :=
  mkInfo (pindexMined j) (info_tx j) ({[c]} ∪ children j).

Definition del_child (c : uint256) (j : NonLockedTxInfo) : option NonLockedTxInfo :=
  let j' := mkInfo (pindexMined j) (info_tx j) (children j ∖ {[c]}) in
  if bool_decide (info_tx j' = None) && bool_decide (children j' = ∅) then None
  else Some j'.

(** ** More example states *)

Module MoreExamples.
Import Examples ExampleRuns.

(** [lock_a] committed and mined at height 5, not yet confirmed. *)
Definition db_mined : CInstantSendDb :=
  (WriteInstantSendLockMined hash_a 5 db_a).2.

(** A block with the transaction of [lock_a], and its index. *)
Definition block_a : list CTransaction :=
  [mkTx 7 [mkTxIn (mkOutPoint 3 0) [] 0; mkTxIn (mkOutPoint 3 1) [] 0] false].
Definition index_50 : CBlockIndex := mkIndex 50 1050.

(** A transaction that spends an output that [lock_a] locks for
    transaction 7. *)
Definition tx_conflict : CTransaction := mkTx 9 [mkTxIn (mkOutPoint 3 1) [] 0] false.

(** The node of [env0] that also knows the block at height 96, the start of
    a DKG interval, and a lock of transaction 7 with that block as cycle
    block. *)
Definition env_cycle : Env :=
  {| fReindex := false; fImporting := false;
     IsSporkActive := λ _, true;
     mempool_get := mempool_get env0;
     mempool_mapNextTx := mempool_mapNextTx env0;
     GetTransaction := GetTransaction env0;
     LookupBlockIndex := λ h,
       if h =? 1096 then Some (mkIndex 96 1096) else LookupBlockIndex env0 h;
     chainActive_Height := 100;
     HasChainLock := λ _ _, false;
     InvalidateBlock := λ _, true;
     ActivateBestChain := true;
     nInstantSendConfirmationsRequired := 6;
     dkgInterval := 24 |}.
Definition lock_cycle : CInstantSendLock :=
  mkLock isdlock_version 7 [mkOutPoint 3 0; mkOutPoint 3 1] 1096 sig1.

(** A signing manager that has every input signature recovered and no
    signature for a lock, over a chain whose block at height [h] has the
    hash [1000 + h]. *)
Definition signing0 : SigningEnv :=
  {| HasRecoveredSig := λ _ _, true;
     HasRecoveredSigForId := λ _, false;
     chainActive_at := λ h, Some (mkIndex h (1000 + h));
     empty_sig := [] |}.

(** The lock [TrySignInstantSendLock] creates for [tx_b] on that chain, and
    the same lock with its recovered signature. *)
Definition lock_b_created : CInstantSendLock :=
  mkLock isdlock_version 20 [mkOutPoint 3 0] 1096 [].
Definition lock_b_signed : CInstantSendLock :=
  mkLock isdlock_version 20 [mkOutPoint 3 0] 1096 sig1.

(** The ancestors on that chain. *)
Definition ancestor0 (pindex : CBlockIndex) (height : Z) : option CBlockIndex :=
  if (0 <=? height) && (height <=? nHeight pindex)
  then Some (mkIndex height (1000 + height)) else None.

(** A manager over [db_mined] that tracks [tx_b], mined at height 90. *)
Definition mgr_tracked : CInstantSendManager :=
  set_nonLocked (mgr_of db_mined)
    {[20 := mkInfo (Some (mkIndex 90 1090)) (Some tx_b) ∅]}
    {[mkOutPoint 3 0 := 20]} ∅.

End MoreExamples.

(** ** Signing transactions *)

(** What [ProcessTx] and [TrySignInputLocks] read from the node:
    [fMasternodeMode], [masternodeSync.IsBlockchainSynced()], whether
    [llmqTypeInstantSend] is [LLMQ_NONE], [sporkManager.GetSporkValue] and,
    from the signing manager, [GetVoteForId id] (the message hash voted for)
    and [IsConflicting id msgHash]. *)
Record NodeEnv := mkNode {
  fMasternodeMode : bool;
  IsBlockchainSynced : bool;
  llmqTypeInstantSend_is_none : bool;
  GetSporkValue : SporkId → Z;
  GetVoteForId : uint256 → option uint256;
  IsConflicting : uint256 → uint256 → bool
}.

Definition IsInstantSendMempoolSigningEnabled (env : Env) (node : NodeEnv) : bool :=
  negb (fReindex env) && negb (fImporting env)
  && (GetSporkValue node SPORK_2_INSTANTSEND_ENABLED =? 0).

(** The vote of the node on the input, or a conflicting signing session,
    keeps [TrySignInputLocks] from signing for [txHash]. *)
Definition vote_blocks `{Primitives} (node : NodeEnv) (txHash : uint256) (i : CTxIn) : Prop :=
  (∃ otherTxHash, GetVoteForId node (InputLockRequestId (prevout i)) = Some otherTxHash
                  ∧ otherTxHash ≠ txHash)
  ∨ IsConflicting node (InputLockRequestId (prevout i)) txHash = true.

(** The manager [m'] is [m] after lookups in the lock store: only the
    caches may differ, and they stay coherent if they were. *)
Definition looked_up (m m' : CInstantSendManager) : Prop :=
  m' = set_isdb m (isdb m')
  ∧ db (isdb m') = db (isdb m)
  ∧ best_confirmed_height (isdb m') = best_confirmed_height (isdb m)
  ∧ (caches_coherent (isdb m) → caches_coherent (isdb m')).

(** The transaction that the manager tracks under [k], if any: an entry
    made only for the children of [k] has none. *)
Definition entry_tx (m : CInstantSendManager) (k : uint256) : option CTransaction :=
  nonLockedTxs m !! k ≫= info_tx.

(** Whether the hash that the store records for the txid is committed or
    archived. *)
Definition store_locked (d : CDBWrapper) (txHash : uint256) : bool :=
  let islockHash := default 0 (is_tx d !! txHash) in
  bool_decide (committed d islockHash ≠ None) || bool_decide (is_Some (is_a2 d !! islockHash)).

Module Signer.
Section methods.
Context `{HeaderDecls} `{Primitives}.
Variable env : Env.
Variable node : NodeEnv.
Variable sig : SigningEnv.

(** The first loop of [TrySignInputLocks]: [None] when it returns false,
    otherwise [alreadyVotedCount]. *)
Fixpoint TrySignInputLocks_scan (txHash : uint256) (ins : list CTxIn)
    (alreadyVotedCount : nat) : option nat :=
  match ins with
  | [] => Some alreadyVotedCount
  | i :: ins' =>
      let id := InputLockRequestId (prevout i) in
      match GetVoteForId node id with
      | Some otherTxHash =>
          if bool_decide (otherTxHash ≠ txHash) then None
          else if IsConflicting node id txHash then None
          else TrySignInputLocks_scan txHash ins' (S alreadyVotedCount)
      | None =>
          if IsConflicting node id txHash then None
          else TrySignInputLocks_scan txHash ins' alreadyVotedCount
      end
  end.

(** [TrySignInputLocks]: the result, and the ids for which
    [AsyncSignIfMember] is called with the hash of the transaction, in
    order. *)
Definition TrySignInputLocks (tx : CTransaction) (fRetroactive : bool)
  : MgrM (bool * list uint256) :=
  match TrySignInputLocks_scan (tx_hash tx) (vin tx) 0 with
  | None => mret (false, [])
  | Some alreadyVotedCount =>
      if negb fRetroactive && bool_decide (alreadyVotedCount = length (vin tx))
      then mret (true, [])
      else
        _ ← for_each (vin tx) (λ i,
              modify_mgr (λ m,
                set_inputRequestIds m
                  ({[InputLockRequestId (prevout i)]} ∪ inputRequestIds m)));
        mret (true, map (λ i, InputLockRequestId (prevout i)) (vin tx))
  end.

(** [ProcessTx]: the input ids for which a signature is requested, and
    whether one is requested for a lock of the transaction. *)
Definition ProcessTx (tx : CTransaction) (fRetroactive : bool)
  : MgrM (list uint256 * bool) :=
  if negb (fMasternodeMode node) || negb (IsBlockchainSynced node) then mret ([], false)
  else if llmqTypeInstantSend_is_none node then mret ([], false)
  else
    ok ← Manager.CheckCanLock env tx true;
    if negb (ok : bool) then mret ([], false)
    else
      conflictingLock ← Tracking.GetConflictingLock env tx;
      match conflictingLock with
      | Some _ => mret ([], false)
      | None =>
          if negb (IsInstantSendMempoolSigningEnabled env node) && negb fRetroactive
          then mret ([], false)
          else
            r ← TrySignInputLocks tx fRetroactive;
            if negb r.1 then mret (r.2, false)
            else
              b ← Tracking.TrySignInstantSendLock env sig tx;
              mret (r.2, b)
      end.



(** [TransactionAddedToMempool]: the requests of [ProcessTx]. *)
Definition TransactionAddedToMempool (tx : CTransaction) : MgrM (list uint256 * bool) :=
  if negb (IsInstantSendEnabled env) || negb (IsBlockchainSynced node)
     || bool_decide (vin tx = [])
  then mret ([], false)
  else
    islock ← on_db (GetInstantSendLockByTxid (tx_hash tx));
    match islock with
    | None =>
        r ← ProcessTx tx false;
        _ ← Tracking.AddNonLockedTx tx None;
        mret r
    | Some l =>
        _ ← Manager.RemoveNonLockedTx (tx_hash tx) true;
        let inv := mkInv (if IsDeterministic l then MSG_ISDLOCK else MSG_ISLOCK)
                         (SerializeHash ser_islock l) in
        _ ← emit (RelayInvFiltered_tx inv tx
                    (if IsDeterministic l then ISDLOCK_PROTO_VERSION
                     else LLMQS_PROTO_VERSION));
        _ ← emit (NotifyTransactionLock tx l);
        mret ([], false)
    end.

(** The loop of [BlockConnected] over the transactions of the block; the
    result lists the requests of each [ProcessTx]. *)
Fixpoint BlockConnected_loop (pindex : CBlockIndex) (vtx : list CTransaction)
  : MgrM (list (list uint256 * bool)) :=
  match vtx with
  | [] => mret []
  | tx :: vtx' =>
      if is_coinbase tx || bool_decide (vin tx = []) then BlockConnected_loop pindex vtx'
      else
        locked ← Manager.IsLockedInternal (tx_hash tx);
        r ← (if negb (locked : bool)
                && negb (HasChainLock env (nHeight pindex) (block_hash pindex))
             then
               r ← ProcessTx tx true;
               _ ← Tracking.AddNonLockedTx tx (Some pindex);
               mret [r]
             else
               _ ← Manager.RemoveNonLockedTx (tx_hash tx) true;
               mret []);
        rs ← BlockConnected_loop pindex vtx';
        mret (r ++ rs)
  end.

(** [BlockConnected] *)
Definition BlockConnected (vtx : list CTransaction) (pindex : CBlockIndex)
    (vtxConflicted : list CTransaction) : MgrM (list (list uint256 * bool)) :=
  if negb (IsInstantSendEnabled env) then mret []
  else
    _ ← for_each vtxConflicted (λ tx, Manager.RemoveConflictedTx tx);
    rs ← (if IsBlockchainSynced node then BlockConnected_loop pindex vtx else mret []);
    _ ← on_db (WriteBlockInstantSendLocks vtx pindex);
    mret rs.
End methods.
End Signer.

(** ** Example nodes *)

Module SigningExamples.
Import Examples ExampleRuns MoreExamples.

(** A synced masternode with mempool signing on that has voted on no input,
    and one that has voted for transaction 99 on every input. *)
Definition node0 : NodeEnv :=
  {| fMasternodeMode := true; IsBlockchainSynced := true;
     llmqTypeInstantSend_is_none := false;
     GetSporkValue := λ _, 0;
     GetVoteForId := λ _, None;
     IsConflicting := λ _ _, false |}.
Definition node_voted : NodeEnv :=
  {| fMasternodeMode := true; IsBlockchainSynced := true;
     llmqTypeInstantSend_is_none := false;
     GetSporkValue := λ _, 0;
     GetVoteForId := λ _, Some 99;
     IsConflicting := λ _ _, false |}.

(** The transaction of [lock_a]. *)
Definition tx_a : CTransaction :=
  mkTx 7 [mkTxIn (mkOutPoint 3 0) [] 0; mkTxIn (mkOutPoint 3 1) [] 0] false.



End SigningExamples.

(** ** Conflicts of a lock with mined transactions *)

(** The tracked transaction [tx], mined in the block [pindex], spends an
    input of the lock and is not the transaction of the lock: what the
    first loop of [ResolveBlockConflicts] collects. *)
Definition conflicting_tx (m : CInstantSendManager) (islock : CInstantSendLock)
    (pindex : CBlockIndex) (tx : CTransaction) : Prop :=
  ∃ i conflictTxid info,
    i ∈ inputs islock
    ∧ nonLockedTxsByOutpoints m !! i = Some conflictTxid
    ∧ conflictTxid ≠ txid islock
    ∧ nonLockedTxs m !! conflictTxid = Some info
    ∧ pindexMined info = Some pindex
    ∧ info_tx info = Some tx.

(** The transaction [tx] of the mempool spends an input of the lock and is
    not the transaction of the lock: what the first loop of
    [RemoveMempoolConflictsForLock] collects. *)
Definition mempool_conflict (env : Env) (islock : CInstantSendLock) (spender : CTransaction)
  : Prop :=
  ∃ i, i ∈ inputs islock ∧ mempool_mapNextTx env i = Some spender
       ∧ tx_hash spender ≠ txid islock.

(** One step of the first loop of [ResolveBlockConflicts], so that
    [collect_conflicts m islock] is [foldl (collect_step m islock) ∅
    (inputs islock)]. *)
Definition collect_step (m : CInstantSendManager) (islock : CInstantSendLock)
    (conflicts : gmap CBlockIndex (gmap uint256 CTransaction)) (i : COutPoint)
  : gmap CBlockIndex (gmap uint256 CTransaction) :=
  match nonLockedTxsByOutpoints m !! i with
  | None => conflicts
  | Some conflictTxid =>
      if bool_decide (conflictTxid = txid islock) then conflicts
      else
        match nonLockedTxs m !! conflictTxid with
        | None => conflicts
        | Some info =>
            match pindexMined info, info_tx info with
            | Some pindex, Some tx =>
                <[pindex := emplace conflictTxid tx (default ∅ (conflicts !! pindex))]>
                  conflicts
            | _, _ => conflicts
            end
        end
  end.

(** Every transaction collected is the one tracked under its txid, mined
    in the block it is collected for. *)
Definition collected_ok (m : CInstantSendManager)
    (acc : gmap CBlockIndex (gmap uint256 CTransaction)) : Prop :=
  ∀ pindex txs t tx, acc !! pindex = Some txs → txs !! t = Some tx →
    ∃ info, nonLockedTxs m !! t = Some info ∧ pindexMined info = Some pindex
            ∧ info_tx info = Some tx.

(** One step of the first loop of [RemoveMempoolConflictsForLock], and the
    map [toDelete] it builds. *)
Definition toDelete_step (env : Env) (islock : CInstantSendLock)
    (toDelete : gmap uint256 (option CTransaction)) (i : COutPoint)
  : gmap uint256 (option CTransaction) :=
  match mempool_mapNextTx env i with
  | None => toDelete
  | Some spender =>
      if bool_decide (tx_hash spender ≠ txid islock)
      then emplace (tx_hash spender) (mempool_get env (tx_hash spender)) toDelete
      else toDelete
  end.

Definition mempool_toDelete (env : Env) (islock : CInstantSendLock)
  : gmap uint256 (option CTransaction) :=
  foldl (toDelete_step env islock) ∅ (inputs islock).

(** ** Example conflicts *)

Module ConflictExamples.
Import Examples ExampleRuns MoreExamples.

(** A manager that tracks [tx_conflict], mined at height 99, which spends
    an input of [lock_a]. *)
Definition mgr_conflict : CInstantSendManager :=
  set_nonLocked (mgr_of db0)
    {[9 := mkInfo (Some (mkIndex 99 1099)) (Some tx_conflict) ∅]}
    {[mkOutPoint 3 1 := 9]} ∅.

(** The node of [env0] with [tx_conflict] in its mempool. *)
Definition env_mempool : Env :=
  {| fReindex := false; fImporting := false;
     IsSporkActive := λ _, true;
     mempool_get := λ h, if h =? 9 then Some tx_conflict else None;
     mempool_mapNextTx := λ o,
       if bool_decide (o = mkOutPoint 3 1) then Some tx_conflict else None;
     GetTransaction := GetTransaction env0;
     LookupBlockIndex := LookupBlockIndex env0;
     chainActive_Height := 100;
     HasChainLock := λ _ _, false;
     InvalidateBlock := λ _, true;
     ActivateBestChain := true;
     nInstantSendConfirmationsRequired := 6;
     dkgInterval := 24 |}.

(** The node of [env0] on which the block at height 99 is ChainLocked, and
    a manager over the store with [lock_a] that tracks [tx_conflict], mined
    in that block. *)
Definition env_chainlocked : Env :=
  {| fReindex := false; fImporting := false;
     IsSporkActive := λ _, true;
     mempool_get := mempool_get env0;
     mempool_mapNextTx := mempool_mapNextTx env0;
     GetTransaction := GetTransaction env0;
     LookupBlockIndex := LookupBlockIndex env0;
     chainActive_Height := 100;
     HasChainLock := λ h b, (h =? 99) && (b =? 1099);
     InvalidateBlock := λ _, true;
     ActivateBestChain := true;
     nInstantSendConfirmationsRequired := 6;
     dkgInterval := 24 |}.

Definition mgr_conflict_a : CInstantSendManager :=
  set_nonLocked (mgr_of db_a)
    {[9 := mkInfo (Some (mkIndex 99 1099)) (Some tx_conflict) ∅]}
    {[mkOutPoint 3 1 := 9]} ∅.

End ConflictExamples.

(** * Properties *)

(** ** Byte strings *)

Module BytesFacts.

Lemma pow256_pos (k : nat) : 0 < 256 ^ Z.of_nat k.
Proof. apply Z.pow_pos_nonneg; lia. Qed.

Lemma pow256_S (k : nat) : 256 ^ Z.of_nat (S k) = 256 * 256 ^ Z.of_nat k.
Proof. rewrite Nat2Z.inj_succ, Z.pow_succ_r by lia. reflexivity. Qed.

Lemma le_bytes_length (k : nat) (x : Z) : length (le_bytes k x) = k.
Proof. revert x. induction k as [|k IH]; intros x; simpl; [done|]. by rewrite IH. Qed.

Lemma be_bytes_length (k : nat) (x : Z) : length (be_bytes k x) = k.
Proof. induction k as [|k IH]; simpl; [done|]. by rewrite IH. Qed.

Lemma le_bytes_is_byte (k : nat) (x : Z) : Forall is_byte (le_bytes k x).
Proof.
  revert x. induction k as [|k IH]; intros x; simpl; constructor; [|apply IH].
  unfold is_byte. apply Z.mod_pos_bound. lia.
Qed.

Lemma be_bytes_is_byte (k : nat) (x : Z) : Forall is_byte (be_bytes k x).
Proof.
  induction k as [|k IH]; simpl; constructor; [|apply IH].
  unfold is_byte. apply Z.mod_pos_bound. lia.
Qed.


Lemma le_bytes_le_value (bs : list Z) :
  Forall is_byte bs → le_bytes (length bs) (le_value bs) = bs.
Proof.
  induction 1 as [|b bs Hb _ IH]; [done|].
  cbn [length le_bytes le_value]. unfold is_byte in Hb.
  rewrite <- (Z.mod_unique (b + 256 * le_value bs) 256 (le_value bs) b) by lia.
  rewrite <- (Z.div_unique (b + 256 * le_value bs) 256 (le_value bs) b) by lia.
  by rewrite IH.
Qed.

Lemma be_value_be_bytes (k : nat) (x : Z) : be_value (be_bytes k x) = x mod 256 ^ Z.of_nat k.
Proof.
  induction k as [|k IH].
  - simpl. by rewrite Z.mod_1_r.
  - cbn [be_bytes be_value]. rewrite be_bytes_length, IH, pow256_S.
    pose proof (pow256_pos k).
    rewrite (Z.mul_comm 256), Z.rem_mul_r by lia. lia.
Qed.

Lemma be_bytes_mod (k m : nat) (x : Z) :
  (k ≤ m)%nat → be_bytes k (x mod 256 ^ Z.of_nat m) = be_bytes k x.
Proof.
  induction k as [|k IH]; intros Hkm; [done|].
  cbn [be_bytes]. rewrite IH by lia. f_equal.
  replace (Z.of_nat m) with (Z.of_nat k + Z.of_nat (S (m - S k))) by lia.
  rewrite Z.pow_add_r, pow256_S by lia.
  pose proof (pow256_pos k). pose proof (pow256_pos (m - S k)).
  rewrite Z.rem_mul_r by lia.
  rewrite (Z.mul_comm (256 ^ Z.of_nat k)), Z.div_add by lia.
  rewrite (Z.div_small (x mod _)) by (apply Z.mod_pos_bound; lia).
  rewrite Z.add_0_l, Z.rem_mul_r by lia.
  rewrite (Z.mul_comm 256), Z.mod_add by lia.
  by rewrite Z.mod_mod by lia.
Qed.

(** The big-endian bytes order numbers as the numbers are ordered. *)
Lemma be_bytes_compare (k : nat) (a b : Z) :
  0 <= a < 256 ^ Z.of_nat k → 0 <= b < 256 ^ Z.of_nat k →
  bytes_compare (be_bytes k a) (be_bytes k b) = (a ?= b).
Proof.
  revert a b. induction k as [|k IH]; intros a b Ha Hb.
  - simpl in *. assert (a = 0) by lia. assert (b = 0) by lia. by subst.
  - rewrite pow256_S in Ha, Hb. pose proof (pow256_pos k) as Hp.
    cbn [be_bytes bytes_compare].
    assert (0 <= a / 256 ^ Z.of_nat k < 256) as Hqa.
    { split; [apply Z.div_pos; lia|apply Z.div_lt_upper_bound; lia]. }
    assert (0 <= b / 256 ^ Z.of_nat k < 256) as Hqb.
    { split; [apply Z.div_pos; lia|apply Z.div_lt_upper_bound; lia]. }
    rewrite !Z.mod_small by lia.
    pose proof (Z.div_mod a (256 ^ Z.of_nat k) ltac:(lia)) as Ea.
    pose proof (Z.div_mod b (256 ^ Z.of_nat k) ltac:(lia)) as Eb.
    pose proof (Z.mod_pos_bound a (256 ^ Z.of_nat k) Hp) as Ma.
    pose proof (Z.mod_pos_bound b (256 ^ Z.of_nat k) Hp) as Mb.
    destruct (Z.compare_spec (a / 256 ^ Z.of_nat k) (b / 256 ^ Z.of_nat k)) as [E|L|G].
    + rewrite <- (be_bytes_mod k k a), <- (be_bytes_mod k k b) by lia.
      rewrite IH by lia.
      destruct (Z.compare_spec (a mod 256 ^ Z.of_nat k) (b mod 256 ^ Z.of_nat k));
        symmetry; [apply Z.compare_eq_iff|apply Z.compare_lt_iff|apply Z.compare_gt_iff]; nia.
    + symmetry. apply Z.compare_lt_iff. nia.
    + symmetry. apply Z.compare_gt_iff. nia.
Qed.

Lemma bytes_compare_refl (a : list Z) : bytes_compare a a = Eq.
Proof. induction a as [|x a IH]; simpl; [done|]. by rewrite Z.compare_refl. Qed.

Lemma bytes_compare_eq (a b : list Z) : bytes_compare a b = Eq → a = b.
Proof.
  revert b. induction a as [|x a IH]; intros [|y b]; simpl; try done.
  destruct (Z.compare_spec x y); try done. intros. subst. f_equal. by apply IH.
Qed.

Lemma bytes_compare_antisym (a b : list Z) :
  bytes_compare b a = CompOpp (bytes_compare a b).
Proof.
  revert b. induction a as [|x a IH]; intros [|y b]; simpl; try done.
  rewrite (Z.compare_antisym x y). destruct (x ?= y); simpl; auto.
Qed.

Lemma bytes_compare_app (a b c d : list Z) :
  length a = length b →
  bytes_compare (a ++ c) (b ++ d) =
    match bytes_compare a b with Eq => bytes_compare c d | r => r end.
Proof.
  revert b. induction a as [|x a IH]; intros [|y b] Hl; simpl in *; try done.
  destruct (x ?= y); auto.
Qed.

Lemma bytes_compare_lt_trans (a b d : list Z) :
  bytes_compare a b = Lt → bytes_compare b d = Lt → bytes_compare a d = Lt.
Proof.
  revert b d. induction a as [|x a IH]; intros [|y b] [|z d]; simpl; try done.
  destruct (Z.compare_spec x y), (Z.compare_spec y z), (Z.compare_spec x z);
    subst; try done; try lia; eauto.
Qed.

Lemma bytes_leb_refl (a : list Z) : bytes_leb a a = true.
Proof. unfold bytes_leb. by rewrite bytes_compare_refl. Qed.

Lemma bytes_leb_trans (a b d : list Z) :
  bytes_leb a b = true → bytes_leb b d = true → bytes_leb a d = true.
Proof.
  unfold bytes_leb. intros Hab Hbd.
  destruct (bytes_compare a b) eqn:E1; [| |done].
  { apply bytes_compare_eq in E1. by subst. }
  destruct (bytes_compare b d) eqn:E2; [| |done].
  { apply bytes_compare_eq in E2. subst. by rewrite E1. }
  by rewrite (bytes_compare_lt_trans a b d).
Qed.

Lemma bytes_leb_total (a b : list Z) : bytes_leb a b = true ∨ bytes_leb b a = true.
Proof.
  unfold bytes_leb. rewrite (bytes_compare_antisym a b).
  destruct (bytes_compare a b); simpl; auto.
Qed.

Lemma bytes_leb_antisym (a b : list Z) :
  bytes_leb a b = true → bytes_leb b a = true → a = b.
Proof.
  unfold bytes_leb. rewrite (bytes_compare_antisym a b).
  destruct (bytes_compare a b) eqn:E; simpl; try done.
  intros _ _. by apply bytes_compare_eq.
Qed.

Lemma ser_htobe32 (x : Z) : ser_uint32 (htobe32 x) = be_bytes 4 x.
Proof.
  unfold ser_uint32, htobe32.
  rewrite <- (be_bytes_length 4 x) at 1.
  apply le_bytes_le_value, be_bytes_is_byte.
Qed.

Lemma be32toh_htobe32 (x : Z) : be32toh (htobe32 x) = x mod 2 ^ 32.
Proof.
  unfold be32toh. fold (ser_uint32 (htobe32 x)).
  rewrite ser_htobe32, be_value_be_bytes. reflexivity.
Qed.

End BytesFacts.

(** ** The inverse big-endian height keys *)

Module InversedKey.
Import BytesFacts.

Lemma inversed_field (k : DBPrefix) (h : Z) (islockHash : uint256) :
  0 <= h < 2 ^ 32 →
  ser_uint32 (BuildInversedISLockKey k h islockHash).1.2 = be_bytes 4 (2 ^ 32 - 1 - h).
Proof.
  intros Hh. unfold BuildInversedISLockKey. cbn [fst snd].
  rewrite ser_htobe32. unfold to_uint32, uint32_max.
  rewrite Z.mod_small by lia. f_equal.
Qed.

Lemma inversed_height (k : DBPrefix) (h : Z) (islockHash : uint256) :
  InversedKeyHeight (BuildInversedISLockKey k h islockHash) = to_uint32 h.
Proof.
  unfold InversedKeyHeight, BuildInversedISLockKey. cbn [fst snd].
  rewrite be32toh_htobe32. unfold to_uint32, uint32_max.
  rewrite Z.mod_mod by lia. rewrite Zminus_mod_idemp_r. f_equal; lia.
Qed.

(** C6: the height field of a mined or archived key is htobe32 of
    (2^32 - 1 - height), whose serialized bytes are the big-endian bytes of
    that number; for heights h1 < h2 in [0, 2^32) the bytes of h2 come
    strictly before those of h1 in the lexicographic byte order, for the
    height field alone and for the whole key with any lock hashes, so the
    encoding is injective and order-reversing; and 2^32 - 1 - be32toh(field)
    gives the height back. *)
Theorem inversed_key_reverses_heights (k : DBPrefix) (h1 h2 : Z) (hash1 hash2 : uint256) :
  0 <= h1 → h1 < h2 → h2 < 2 ^ 32 →
  ser_uint32 (BuildInversedISLockKey k h1 hash1).1.2 = be_bytes 4 (2 ^ 32 - 1 - h1)
  ∧ ser_uint32 (BuildInversedISLockKey k h2 hash2).1.2 = be_bytes 4 (2 ^ 32 - 1 - h2)
  ∧ bytes_lt (ser_uint32 (BuildInversedISLockKey k h2 hash2).1.2)
             (ser_uint32 (BuildInversedISLockKey k h1 hash1).1.2)
  ∧ bytes_lt (ser_inversed ((BuildInversedISLockKey k h2 hash2).1.2, hash2))
             (ser_inversed ((BuildInversedISLockKey k h1 hash1).1.2, hash1))
  ∧ (BuildInversedISLockKey k h1 hash1).1.2 ≠ (BuildInversedISLockKey k h2 hash2).1.2
  ∧ InversedKeyHeight (BuildInversedISLockKey k h1 hash1) = h1
  ∧ InversedKeyHeight (BuildInversedISLockKey k h2 hash2) = h2.
Proof.
  intros H0 H12 H2.
  pose proof (inversed_field k h1 hash1 ltac:(lia)) as E1.
  pose proof (inversed_field k h2 hash2 ltac:(lia)) as E2.
  assert (bytes_compare (be_bytes 4 (2 ^ 32 - 1 - h2)) (be_bytes 4 (2 ^ 32 - 1 - h1)) = Lt) as Hlt.
  { rewrite be_bytes_compare by (change (256 ^ Z.of_nat 4) with (2 ^ 32); lia).
    apply Z.compare_lt_iff. lia. }
  split_and!; try done.
  - unfold bytes_lt. by rewrite E1, E2.
  - unfold bytes_lt, ser_inversed. cbn [fst snd].
    rewrite bytes_compare_app by (unfold ser_uint32; by rewrite !le_bytes_length).
    fold (ser_uint32 (BuildInversedISLockKey k h2 hash2).1.2).
    by rewrite E1, E2, Hlt.
  - intros E. rewrite E, E2 in E1. rewrite E1, bytes_compare_refl in Hlt. done.
  - rewrite inversed_height. unfold to_uint32. apply Z.mod_small. lia.
  - rewrite inversed_height. unfold to_uint32. apply Z.mod_small. lia.
Qed.

Lemma inversed_key_reverses_heights_witness :
  bytes_lt (ser_uint32 (BuildInversedISLockKey DB_MINED_BY_HEIGHT_AND_HASH 7 2).1.2)
           (ser_uint32 (BuildInversedISLockKey DB_MINED_BY_HEIGHT_AND_HASH 5 1).1.2)
  ∧ InversedKeyHeight (BuildInversedISLockKey DB_MINED_BY_HEIGHT_AND_HASH 5 1) = 5.
Proof.
  pose proof (inversed_key_reverses_heights DB_MINED_BY_HEIGHT_AND_HASH 5 7 1 2
                ltac:(lia) ltac:(lia) ltac:(lia)) as (_ & _ & H & _ & _ & H5 & _).
  exact (conj H H5).
Defined.

End InversedKey.

(** ** The lock store *)

Module LockStore.
Import BytesFacts.

Ltac unfold_monad :=
  unfold mbind, mret, DbM_bind, DbM_ret, get_state, modify_state in *.

Lemma same_store_refl s : same_store s s.
Proof. done. Qed.

Lemma same_store_trans s1 s2 s3 : same_store s1 s2 → same_store s2 s3 → same_store s1 s3.
Proof. unfold same_store. intros [-> ->] [-> ->]. done. Qed.

#[local] Hint Resolve same_store_refl : core.

Section facts.
Context `{HeaderDecls}.

Lemma ReadInstantSendLock_lookup (d : CDBWrapper) (h : uint256) :
  ReadInstantSendLock d h = is_i d !! h.
Proof.
  unfold ReadInstantSendLock, Read_islock.
  destruct (is_i d !! h) as [w|]; [|done]. simpl.
  unfold Unserialize_islock. by destruct w as [[] ? ? ? ?].
Qed.

Lemma GetInstantSendLockByHash_uncached (h : uint256) (s : CInstantSendDb) :
  GetInstantSendLockByHash h false s =
    (committed (db s) h,
     if IsNull h then s
     else set_islockCache s (lru_insert h (committed (db s) h) (islockCache s))).
Proof.
  unfold GetInstantSendLockByHash, committed.
  destruct (IsNull h); [done|]. by rewrite ReadInstantSendLock_lookup.
Qed.

Lemma GetInstantSendLockByHash_same (h : uint256) (uc : bool) (s : CInstantSendDb) :
  same_store s (GetInstantSendLockByHash h uc s).2.
Proof.
  unfold GetInstantSendLockByHash.
  destruct (IsNull h); [done|].
  destruct uc; [destruct (lru_get h (islockCache s)) as [[ret|] c]|]; done.
Qed.

Lemma GetInstantSendLockHashByTxid_same (t : uint256) (s : CInstantSendDb) :
  same_store s (GetInstantSendLockHashByTxid t s).2.
Proof.
  unfold GetInstantSendLockHashByTxid.
  destruct (lru_get t (txidCache s)) as [[ret|] c]; done.
Qed.

Lemma GetInstantSendLockByTxid_same (t : uint256) (s : CInstantSendDb) :
  same_store s (GetInstantSendLockByTxid t s).2.
Proof.
  unfold GetInstantSendLockByTxid. unfold_monad.
  pose proof (GetInstantSendLockHashByTxid_same t s) as H1.
  destruct (GetInstantSendLockHashByTxid t s) as [h s1]. simpl in *.
  eapply same_store_trans; [exact H1|]. apply GetInstantSendLockByHash_same.
Qed.

Lemma GetInstantSendLockByInput_same (o : COutPoint) (s : CInstantSendDb) :
  same_store s (GetInstantSendLockByInput o s).2.
Proof.
  unfold GetInstantSendLockByInput. unfold_monad.
  destruct (lru_get o (outpointCache s)) as [[ret|] c];
    (eapply same_store_trans; [|apply GetInstantSendLockByHash_same]); done.
Qed.

Lemma KnownInstantSendLock_same (h : uint256) (s : CInstantSendDb) :
  same_store s (KnownInstantSendLock h s).2.
Proof.
  unfold KnownInstantSendLock. unfold_monad.
  pose proof (GetInstantSendLockByHash_same h use_cache_default s) as H1.
  by destruct (GetInstantSendLockByHash h use_cache_default s) as [r s1].
Qed.

Lemma RemoveInstantSendLock_same batch h ol kc (s : CInstantSendDb) :
  same_store s (RemoveInstantSendLock batch h ol kc s).2.
Proof.
  unfold RemoveInstantSendLock. unfold_monad.
  destruct ol as [l|].
  - by destruct kc.
  - pose proof (GetInstantSendLockByHash_same h false s) as H1.
    destruct (GetInstantSendLockByHash h false s) as [[l|] s1]; [|done].
    by destruct kc.
Qed.

Lemma RemoveConfirmed_loop_same nUntil it batch ret (s : CInstantSendDb) :
  same_store s (RemoveConfirmed_loop nUntil it batch ret s).2.
Proof.
  revert batch ret s. induction it as [|[[x h] b] it IH]; intros batch ret s; [done|].
  cbn [RemoveConfirmed_loop]. case_match; [done|]. unfold_monad.
  pose proof (GetInstantSendLockByHash_same h false s) as H1.
  destruct (GetInstantSendLockByHash h false s) as [[l|] s1].
  - pose proof (RemoveInstantSendLock_same batch h (Some l) keep_cache_default s1) as H2.
    destruct (RemoveInstantSendLock batch h (Some l) keep_cache_default s1) as [b2 s2].
    eapply same_store_trans; [|apply IH]. eapply same_store_trans; eauto.
  - eapply same_store_trans; [|apply IH]. done.
Qed.

Lemma BlockInstantSendLocks_loop_same upd vtx nH batch (s : CInstantSendDb) :
  same_store s (BlockInstantSendLocks_loop upd vtx nH batch s).2.
Proof.
  revert batch s. induction vtx as [|tx vtx IH]; intros batch s; [done|].
  cbn [BlockInstantSendLocks_loop]. case_match; [apply IH|]. unfold_monad.
  pose proof (GetInstantSendLockHashByTxid_same (tx_hash tx) s) as H1.
  destruct (GetInstantSendLockHashByTxid (tx_hash tx) s) as [h s1].
  eapply same_store_trans; [exact H1|apply IH].
Qed.

Lemma RemoveChained_children_same nH children v (s : CInstantSendDb) :
  same_store s (RemoveChained_children nH children v s).2.
Proof.
  revert v s. induction children as [|c children IH]; intros v s; [done|].
  cbn [RemoveChained_children]. unfold_monad.
  pose proof (GetInstantSendLockByHash_same c false s) as H1.
  destruct (GetInstantSendLockByHash c false s) as [[l|] s1].
  - pose proof (RemoveInstantSendLock_same (ch_batch v) c (Some l) false s1) as H2.
    destruct (RemoveInstantSendLock (ch_batch v) c (Some l) false s1) as [b2 s2].
    eapply same_store_trans; [|apply IH]. eapply same_store_trans; eauto.
  - eapply same_store_trans; [exact H1|apply IH].
Qed.

Lemma RemoveChained_while_same fuel nH v (s : CInstantSendDb) :
  same_store s (RemoveChained_while fuel nH v s).2.
Proof.
  revert v s. induction fuel as [|fuel IH]; intros v s; simpl.
  - by destruct (ch_stack v).
  - destruct (ch_stack v) as [|back st]; [done|]. unfold_monad.
    unfold GetInstantSendLocksByParent at 1.
    match goal with |- context [RemoveChained_children ?a ?b ?c ?d] =>
      pose proof (RemoveChained_children_same a b c d) as H1;
      destruct (RemoveChained_children a b c d) as [v1 s1] end.
    eapply same_store_trans; [exact H1|apply IH].
Qed.

(** The confirmed height after one operation. *)
Lemma run_op_best (s : CInstantSendDb) (op : DbOp) :
  best_confirmed_height s <= best_confirmed_height (run_op s op).
Proof.
  destruct op as [known|hash islock|hash nHeight|nUntilHeight|nUntilHeight
                 |vtx pindexConnected|vtx pindexDisconnected|islockHash|
                 |hash use_cache|txid|txid|outpoint|islockHash txid nHeight];
    cbn [run_op].
  - unfold Upgrade. case_match; simpl; lia.
  - simpl. lia.
  - simpl. lia.
  - unfold RemoveConfirmedInstantSendLocks.
    destruct (Z.leb_spec nUntilHeight (best_confirmed_height s)); [simpl; lia|].
    match goal with |- context [RemoveConfirmed_loop ?a ?b ?c ?d ?e] =>
      pose proof (RemoveConfirmed_loop_same a b c d e) as [_ H1];
      destruct (RemoveConfirmed_loop a b c d e) as [[b1 r1] s1] end.
    simpl in *. lia.
  - unfold RemoveArchivedInstantSendLocks. case_match; simpl; lia.
  - unfold WriteBlockInstantSendLocks. unfold_monad.
    match goal with |- context [BlockInstantSendLocks_loop ?a ?b ?c ?d ?e] =>
      pose proof (BlockInstantSendLocks_loop_same a b c d e) as [_ H1];
      destruct (BlockInstantSendLocks_loop a b c d e) as [b1 s1] end.
    simpl in *. lia.
  - unfold RemoveBlockInstantSendLocks. unfold_monad.
    match goal with |- context [BlockInstantSendLocks_loop ?a ?b ?c ?d ?e] =>
      pose proof (BlockInstantSendLocks_loop_same a b c d e) as [_ H1];
      destruct (BlockInstantSendLocks_loop a b c d e) as [b1 s1] end.
    simpl in *. lia.
  - pose proof (KnownInstantSendLock_same islockHash s) as [_ ?]. lia.
  - simpl. lia.
  - pose proof (GetInstantSendLockByHash_same hash use_cache s) as [_ ?]. lia.
  - pose proof (GetInstantSendLockHashByTxid_same txid s) as [_ ?]. lia.
  - pose proof (GetInstantSendLockByTxid_same txid s) as [_ ?]. lia.
  - pose proof (GetInstantSendLockByInput_same outpoint s) as [_ ?]. lia.
  - unfold RemoveChainedInstantSendLocks.
    match goal with |- context [RemoveChained_while ?a ?b ?c ?d] =>
      pose proof (RemoveChained_while_same a b c d) as [_ H1];
      destruct (RemoveChained_while a b c d) as [[v1|] s1] end; simpl in *; [|lia].
    match goal with |- context [RemoveInstantSendLock ?a ?b ?c ?d ?e] =>
      pose proof (RemoveInstantSendLock_same a b c d e) as [_ H2];
      destruct (RemoveInstantSendLock a b c d e) as [b2 s2] end.
    simpl in *. lia.
Qed.

(** C4: best_confirmed_height never decreases over a sequence of calls of
    the public methods of the lock store; RemoveConfirmedInstantSendLocks
    at a height not above it returns the empty map and leaves the whole
    state (store, caches, height) as it was; at a height above it the
    call leaves best_confirmed_height at that height. *)
Theorem best_confirmed_height_monotone (s : CInstantSendDb) (ops : list DbOp)
    (nUntilHeight : Z) :
  best_confirmed_height s <= best_confirmed_height (run_ops s ops)
  ∧ (nUntilHeight <= best_confirmed_height s →
     RemoveConfirmedInstantSendLocks nUntilHeight s = (∅, s))
  ∧ (best_confirmed_height s < nUntilHeight →
     best_confirmed_height (RemoveConfirmedInstantSendLocks nUntilHeight s).2
     = nUntilHeight).
Proof.
  split_and!.
  - revert s. induction ops as [|op ops IH]; intros s; simpl; [lia|].
    etrans; [apply (run_op_best s op)|apply IH].
  - intros Hle. unfold RemoveConfirmedInstantSendLocks.
    by destruct (Z.leb_spec nUntilHeight (best_confirmed_height s)); [|lia].
  - intros Hlt. unfold RemoveConfirmedInstantSendLocks.
    destruct (Z.leb_spec nUntilHeight (best_confirmed_height s)); [lia|].
    match goal with |- context [RemoveConfirmed_loop ?a ?b ?c ?d ?e] =>
      pose proof (RemoveConfirmed_loop_same a b c d e) as [_ H1];
      destruct (RemoveConfirmed_loop a b c d e) as [[b1 r1] s1] end.
    simpl in *. done.
Qed.
End facts.
End LockStore.

(** ** Batches and iterators *)

Module StoreFacts.
Import BytesFacts.

Lemma WriteBatch_app d b1 b2 : WriteBatch d (b1 ++ b2) = WriteBatch (WriteBatch d b1) b2.
Proof. unfold WriteBatch. apply foldl_app. Qed.

Lemma WriteBatch_snoc d b op : WriteBatch d (b ++ [op]) = apply_op (WriteBatch d b) op.
Proof. by rewrite WriteBatch_app. Qed.

(** What a batch does to one key. *)
Ltac batch_ind batch :=
  induction batch as [|op batch IH] using rev_ind; [|rewrite WriteBatch_snoc].

Lemma is_i_WriteBatch_keep d batch h :
  (∀ l, Write_islock h l ∉ batch) → Erase_islock h ∉ batch →
  is_i (WriteBatch d batch) !! h = is_i d !! h.
Proof.
  batch_ind batch; intros Hw He; [done|].
  rewrite <- IH by set_solver.
  destruct op as [h' l'| h'| | | | |[[[] ?] ?]|[[[] ?] ?]| | |]; simpl; try done.
  - rewrite lookup_insert_ne; [done|]. intros ->. apply (Hw l'). set_solver.
  - rewrite lookup_delete_ne; [done|]. intros ->. apply He. set_solver.
Qed.

Lemma is_i_WriteBatch_erased d batch h :
  (∀ l, Write_islock h l ∉ batch) → Erase_islock h ∈ batch →
  is_i (WriteBatch d batch) !! h = None.
Proof.
  batch_ind batch; intros Hw He; [set_solver|].
  destruct (decide (op = Erase_islock h)) as [->|Hne].
  { simpl. apply lookup_delete_eq. }
  assert (is_i (WriteBatch d batch) !! h = None) as E.
  { apply IH; set_solver. }
  destruct op as [h' l'| h'| | | | |[[[] ?] ?]|[[[] ?] ?]| | |]; simpl; try done.
  - rewrite lookup_insert_ne; [done|]. intros ->. apply (Hw l'). set_solver.
  - rewrite lookup_delete_ne; [done|]. congruence.
Qed.

Lemma is_i_WriteBatch_subseteq d batch :
  (∀ h l, Write_islock h l ∉ batch) → is_i (WriteBatch d batch) ⊆ is_i d.
Proof.
  batch_ind batch; intros Hw; [done|].
  etrans; [|apply IH; set_solver].
  destruct op as [h' l'| h'| | | | |[[[] ?] ?]|[[[] ?] ?]| | |]; simpl; try done.
  - exfalso. apply (Hw h' l'). set_solver.
  - apply delete_subseteq.
Qed.

Lemma is_tx_WriteBatch_erased d batch t :
  (∀ h, Write_txid t h ∉ batch) → Erase_txid t ∈ batch →
  is_tx (WriteBatch d batch) !! t = None.
Proof.
  batch_ind batch; intros Hw He; [set_solver|].
  destruct (decide (op = Erase_txid t)) as [->|Hne].
  { simpl. apply lookup_delete_eq. }
  assert (is_tx (WriteBatch d batch) !! t = None) as E.
  { apply IH; set_solver. }
  destruct op as [| |t' h'|t'| | |[[[] ?] ?]|[[[] ?] ?]| | |]; simpl; try done.
  - rewrite lookup_insert_ne; [done|]. intros ->. apply (Hw h'). set_solver.
  - rewrite lookup_delete_ne; [done|]. congruence.
Qed.

Lemma is_in_WriteBatch_erased d batch o :
  (∀ h, Write_outpoint o h ∉ batch) → Erase_outpoint o ∈ batch →
  is_in (WriteBatch d batch) !! o = None.
Proof.
  batch_ind batch; intros Hw He; [set_solver|].
  destruct (decide (op = Erase_outpoint o)) as [->|Hne].
  { simpl. apply lookup_delete_eq. }
  assert (is_in (WriteBatch d batch) !! o = None) as E.
  { apply IH; set_solver. }
  destruct op as [| | | |o' h'|o'|[[[] ?] ?]|[[[] ?] ?]| | |]; simpl; try done.
  - rewrite lookup_insert_ne; [done|]. intros ->. apply (Hw h'). set_solver.
  - rewrite lookup_delete_ne; [done|]. congruence.
Qed.

Lemma is_a2_WriteBatch_written d batch h :
  Erase_archived_hash h ∉ batch → Write_archived_hash h ∈ batch →
  is_a2 (WriteBatch d batch) !! h = Some true.
Proof.
  batch_ind batch; intros He Hw; [set_solver|].
  destruct (decide (op = Write_archived_hash h)) as [->|Hne].
  { simpl. apply lookup_insert_eq. }
  assert (is_a2 (WriteBatch d batch) !! h = Some true) as E.
  { apply IH; set_solver. }
  destruct op as [| | | | | |[[[] ?] ?]|[[[] ?] ?]|h'|h'|]; simpl; try done.
  - rewrite lookup_insert_ne; [done|]. congruence.
  - rewrite lookup_delete_ne; [done|]. intros ->. apply He. set_solver.
Qed.

Lemma is_a2_WriteBatch_keep d batch h :
  Erase_archived_hash h ∉ batch → Write_archived_hash h ∉ batch →
  is_a2 (WriteBatch d batch) !! h = is_a2 d !! h.
Proof.
  batch_ind batch; intros He Hw; [done|].
  rewrite <- IH by set_solver.
  destruct op as [| | | | | |[[[] ?] ?]|[[[] ?] ?]|h'|h'|]; simpl; try done.
  - rewrite lookup_insert_ne; [done|]. intros ->. apply Hw. set_solver.
  - rewrite lookup_delete_ne; [done|]. intros ->. apply He. set_solver.
Qed.


Lemma is_a1_WriteBatch_lookup d batch x h :
  is_Some (is_a1 (WriteBatch d batch) !! (x, h)) →
  is_Some (is_a1 d !! (x, h))
  ∨ Write_inversed (DB_ARCHIVED_BY_HEIGHT_AND_HASH, x, h) ∈ batch.
Proof.
  batch_ind batch; [auto|].
  assert (is_Some (is_a1 (WriteBatch d batch) !! (x, h)) →
          is_Some (is_a1 d !! (x, h))
          ∨ Write_inversed (DB_ARCHIVED_BY_HEIGHT_AND_HASH, x, h) ∈ batch ++ [op]) as IH'.
  { intros E. destruct (IH E); [by left|right]. set_solver. }
  destruct op as [| | | | | |[[[] x'] h']|[[[] x'] h']| | |]; simpl; try done.
  - destruct (decide ((x', h') = (x, h))) as [[= -> ->]|Hne].
    + intros _. right. set_solver.
    + by rewrite lookup_insert_ne.
  - destruct (decide ((x', h') = (x, h))) as [[= -> ->]|Hne].
    + rewrite lookup_delete_eq. by intros [? ?].
    + by rewrite lookup_delete_ne.
Qed.

Lemma is_m_WriteBatch_lookup d batch x h :
  is_Some (is_m (WriteBatch d batch) !! (x, h)) →
  is_Some (is_m d !! (x, h))
  ∨ Write_inversed (DB_MINED_BY_HEIGHT_AND_HASH, x, h) ∈ batch.
Proof.
  batch_ind batch; [auto|].
  assert (is_Some (is_m (WriteBatch d batch) !! (x, h)) →
          is_Some (is_m d !! (x, h))
          ∨ Write_inversed (DB_MINED_BY_HEIGHT_AND_HASH, x, h) ∈ batch ++ [op]) as IH'.
  { intros E. destruct (IH E); [by left|right]. set_solver. }
  destruct op as [| | | | | |[[[] x'] h']|[[[] x'] h']| | |]; simpl; try done.
  - destruct (decide ((x', h') = (x, h))) as [[= -> ->]|Hne].
    + intros _. right. set_solver.
    + by rewrite lookup_insert_ne.
  - destruct (decide ((x', h') = (x, h))) as [[= -> ->]|Hne].
    + rewrite lookup_delete_eq. by intros [? ?].
    + by rewrite lookup_delete_ne.
Qed.

Lemma is_a1_WriteBatch_untouched d batch :
  (∀ key, Write_inversed key ∉ batch) → (∀ key, Erase_inversed key ∉ batch) →
  is_a1 (WriteBatch d batch) = is_a1 d ∧ is_m (WriteBatch d batch) = is_m d.
Proof.
  batch_ind batch; intros Hw He; [done|].
  destruct IH as [IH1 IH2]; [set_solver..|]. rewrite <- IH1, <- IH2.
  destruct op as [| | | | | |key|key| | |]; simpl; try done.
  - exfalso. apply (Hw key). set_solver.
  - exfalso. apply (He key). set_solver.
Qed.

(** The entries an iterator yields. *)
Lemma elem_of_db_seek {K V : Type} `{Countable K} (ser : K → list Z)
    (m : gmap K V) (firstKey k : K) (v : V) :
  (k, v) ∈ db_seek ser m firstKey ↔ m !! k = Some v ∧ key_le ser firstKey k.
Proof.
  unfold db_seek. rewrite list_elem_of_filter, merge_sort_Permutation, elem_of_map_to_list.
  simpl. tauto.
Qed.

End StoreFacts.

(** ** Removing confirmed locks *)

Module Confirmed.
Import BytesFacts StoreFacts LockStore.

Lemma be_value_bound (bs : list Z) :
  Forall is_byte bs → 0 <= be_value bs < 256 ^ Z.of_nat (length bs).
Proof.
  induction 1 as [|b bs Hb _ IH]; [simpl; lia|].
  cbn [be_value length]. rewrite pow256_S. unfold is_byte in Hb.
  pose proof (pow256_pos (length bs)). nia.
Qed.

Lemma bytes_compare_be_value (a b : list Z) :
  length a = length b → Forall is_byte a → Forall is_byte b →
  bytes_compare a b = (be_value a ?= be_value b).
Proof.
  revert b. induction a as [|x a IH]; intros [|y b] Hl Ha Hb; simpl in Hl; try done.
  inversion Ha as [|? ? Hx Ha']; inversion Hb as [|? ? Hy Hb']; subst.
  cbn [bytes_compare be_value]. injection Hl as Hl. rewrite <- Hl.
  pose proof (be_value_bound a Ha'). pose proof (be_value_bound b Hb') as Hbb.
  rewrite <- Hl in Hbb. pose proof (pow256_pos (length a)).
  destruct (Z.compare_spec x y) as [->|L|G].
  - rewrite IH by done.
    destruct (Z.compare_spec (be_value a) (be_value b));
      symmetry; [apply Z.compare_eq_iff|apply Z.compare_lt_iff|apply Z.compare_gt_iff]; nia.
  - symmetry. apply Z.compare_lt_iff. nia.
  - symmetry. apply Z.compare_gt_iff. nia.
Qed.

Lemma le_bytes_zero_min (k : nat) (x : Z) : bytes_leb (le_bytes k 0) (le_bytes k x) = true.
Proof.
  unfold bytes_leb. revert x. induction k as [|k IH]; intros x; [done|].
  cbn [le_bytes bytes_compare]. change (0 mod 256) with 0. change (0 / 256) with 0.
  pose proof (Z.mod_pos_bound x 256 ltac:(lia)).
  destruct (Z.compare_spec 0 (x mod 256)); [apply IH|done|lia].
Qed.

Lemma to_uint32_bound (z : Z) : 0 <= to_uint32 z < 2 ^ 32.
Proof. unfold to_uint32. apply Z.mod_pos_bound. lia. Qed.

Lemma to_uint32_inverse (z : Z) : to_uint32 (uint32_max - z) = uint32_max - to_uint32 z.
Proof.
  unfold to_uint32, uint32_max.
  pose proof (Z.mod_pos_bound z (2 ^ 32) ltac:(lia)).
  symmetry. apply Z.mod_unique with (q := - (z / 2 ^ 32)); [lia|].
  pose proof (Z.div_mod z (2 ^ 32) ltac:(lia)). lia.
Qed.

(** The first component of a key at or after [firstKey] of a height. *)
Lemma seek_key_height (k : DBPrefix) (nUntilHeight : Z) (x : Z) (h : uint256) :
  key_le ser_inversed ((BuildInversedISLockKey k nUntilHeight 0).1.2, 0) (x, h) →
  InversedKeyHeight (k, x, h) <= to_uint32 nUntilHeight.
Proof.
  unfold key_le, ser_inversed, BuildInversedISLockKey, InversedKeyHeight. cbn [fst snd].
  intros Hle. apply Is_true_true in Hle. unfold bytes_leb in Hle.
  rewrite bytes_compare_app in Hle by (unfold ser_uint32; by rewrite !le_bytes_length).
  rewrite ser_htobe32 in Hle.
  rewrite bytes_compare_be_value in Hle;
    [|by rewrite be_bytes_length; unfold ser_uint32; rewrite le_bytes_length
     |apply be_bytes_is_byte|apply le_bytes_is_byte].
  rewrite be_value_be_bytes in Hle.
  change (be_value (ser_uint32 x)) with (be32toh x) in Hle.
  pose proof (to_uint32_bound (uint32_max - nUntilHeight)) as Hb.
  change (256 ^ Z.of_nat 4) with (2 ^ 32) in Hle.
  rewrite Z.mod_small in Hle by done.
  pose proof (be_value_bound (le_bytes 4 x) (le_bytes_is_byte 4 x)) as Hx.
  rewrite le_bytes_length in Hx. change (256 ^ Z.of_nat 4) with (2 ^ 32) in Hx.
  fold (be32toh x) in Hx.
  rewrite to_uint32_inverse in Hle. pose proof (to_uint32_bound nUntilHeight).
  assert (uint32_max - to_uint32 nUntilHeight <= be32toh x) as Hle'.
  { destruct (uint32_max - to_uint32 nUntilHeight ?= be32toh x) eqn:E; [| |done].
    - rewrite Z.compare_eq_iff in E. clear Hle. lia.
    - rewrite Z.compare_lt_iff in E. clear Hle. lia. }
  clear Hle. unfold to_uint32 at 1. unfold uint32_max in *. rewrite Z.mod_small; lia.
Qed.

Section confirmed.
Context `{HeaderDecls}.

Lemma RemoveInstantSendLock_batch batch h l kc (s : CInstantSendDb) :
  (RemoveInstantSendLock batch h (Some l) kc s).1 = batch ++ remove_ops h l.
Proof. unfold RemoveInstantSendLock. unfold_monad. by destruct kc. Qed.

Lemma RemoveInstantSendLock_batch_lookup batch h kc (s : CInstantSendDb) :
  (RemoveInstantSendLock batch h None kc s).1 =
    batch ++ match committed (db s) h with Some l => remove_ops h l | None => [] end.
Proof.
  unfold RemoveInstantSendLock. unfold_monad.
  rewrite GetInstantSendLockByHash_uncached.
  destruct (committed (db s) h) as [l|]; [by destruct kc|by rewrite app_nil_r].
Qed.

Lemma RemoveConfirmed_loop_batch nUntil it batch ret (s : CInstantSendDb) :
  (∀ x h b, (x, h, b) ∈ it →
     InversedKeyHeight (DB_MINED_BY_HEIGHT_AND_HASH, x, h) <= to_uint32 nUntil) →
  (RemoveConfirmed_loop nUntil it batch ret s).1.1
    = batch ++ flat_map (confirmed_entry_ops (db s)) it.
Proof.
  revert batch ret s. induction it as [|[[x h] b] it IH]; intros batch ret s Hnb.
  { simpl. by rewrite app_nil_r. }
  cbn [RemoveConfirmed_loop flat_map].
  pose proof (Hnb x h b ltac:(set_solver)) as Hxh.
  destruct (Z.ltb_spec (to_uint32 nUntil) (InversedKeyHeight (DB_MINED_BY_HEIGHT_AND_HASH, x, h)));
    [lia|].
  unfold_monad. rewrite GetInstantSendLockByHash_uncached.
  unfold confirmed_entry_ops at 1. cbn [fst snd].
  destruct (committed (db s) h) as [l|] eqn:Ec.
  - match goal with |- context [RemoveInstantSendLock ?a ?b ?c ?d ?e] =>
      pose proof (RemoveInstantSendLock_batch a b l d e) as Hb;
      pose proof (RemoveInstantSendLock_same a b c d e) as [Hd _];
      destruct (RemoveInstantSendLock a b c d e) as [b2 s2] end.
    simpl in Hb, Hd. subst b2. cbn [fst snd].
    rewrite IH by (intros ? ? b' ?; apply (Hnb _ _ b'); set_solver).
    rewrite Hd. replace (db (if IsNull h then s else _)) with (db s) by (by destruct (IsNull h)).
    unfold WriteInstantSendLockArchived, archive_ops. by rewrite <- !app_assoc.
  - cbn [fst snd].
    rewrite IH by (intros ? ? b' ?; apply (Hnb _ _ b'); set_solver).
    replace (db (if IsNull h then s else _)) with (db s) by (by destruct (IsNull h)).
    unfold WriteInstantSendLockArchived, archive_ops. by rewrite <- !app_assoc.
Qed.

(** The store after [RemoveConfirmedInstantSendLocks] above the confirmed
    height. *)
Lemma RemoveConfirmed_db nUntil (s : CInstantSendDb) :
  best_confirmed_height s < nUntil →
  db (RemoveConfirmedInstantSendLocks nUntil s).2 =
    WriteBatch (db s)
      (flat_map (confirmed_entry_ops (db s))
         (db_seek ser_inversed (is_m (db s))
            ((BuildInversedISLockKey DB_MINED_BY_HEIGHT_AND_HASH nUntil 0).1.2, 0))).
Proof.
  intros Hlt. unfold RemoveConfirmedInstantSendLocks.
  destruct (Z.leb_spec nUntil (best_confirmed_height s)); [lia|].
  cbn [fst snd].
  match goal with |- context [RemoveConfirmed_loop ?a ?b ?c ?d ?e] =>
    pose proof (RemoveConfirmed_loop_batch a b c d e) as Hb;
    pose proof (RemoveConfirmed_loop_same a b c d e) as [Hd _];
    destruct (RemoveConfirmed_loop a b c d e) as [[b1 r1] s1] end.
  simpl in Hb, Hd |- *. rewrite Hd, Hb; [done|].
  intros x h b Hin. apply elem_of_db_seek in Hin as [_ Hle].
  by apply seek_key_height.
Qed.
End confirmed.
End Confirmed.

(** ** The round trip of a confirmed lock *)

Module RoundTrip.
Import BytesFacts StoreFacts LockStore Confirmed.

Lemma to_int32_small (z : Z) : - 2 ^ 31 <= z < 2 ^ 31 → to_int32 z = z.
Proof. intros Hz. unfold to_int32. rewrite Z.mod_small; lia. Qed.

Lemma to_uint32_to_int32 (z : Z) : to_uint32 (to_int32 z) = to_uint32 z.
Proof.
  unfold to_uint32, to_int32. rewrite Zminus_mod_idemp_l. f_equal. lia.
Qed.

Lemma elem_of_RemoveArchived_loop nUntil it batch op :
  op ∈ RemoveArchived_loop nUntil it batch →
  op ∈ batch ∨ ∃ x h b, (x, h, b) ∈ it ∧
    (op = Erase_archived_hash h ∨ op = Erase_inversed (DB_ARCHIVED_BY_HEIGHT_AND_HASH, x, h)).
Proof.
  revert batch. induction it as [|[[x h] b] it IH]; intros batch; simpl; [auto|].
  case_match; [auto|]. intros Hin. apply IH in Hin as [Hin|(x' & h' & b' & Hin & Hop)].
  - rewrite elem_of_app in Hin. destruct Hin as [?|Hin]; [by left|].
    right. exists x, h, b. set_solver.
  - right. exists x', h', b'. set_solver.
Qed.

Lemma elem_of_confirmed_ops d it op :
  op ∈ flat_map (confirmed_entry_ops d) it →
  ∃ x h b, (x, h, b) ∈ it ∧
    ((∃ l, committed d h = Some l ∧ op ∈ remove_ops h l)
     ∨ op ∈ archive_ops h (to_int32 (InversedKeyHeight (DB_MINED_BY_HEIGHT_AND_HASH, x, h)))
     ∨ op = Erase_inversed (DB_MINED_BY_HEIGHT_AND_HASH, x, h)).
Proof.
  rewrite list_elem_of_In, in_flat_map. intros ([[x h] b] & Hin & Hop).
  apply list_elem_of_In in Hin, Hop. exists x, h, b. split; [done|].
  unfold confirmed_entry_ops in Hop. cbn [fst snd] in Hop.
  rewrite !elem_of_app in Hop. destruct Hop as [Hop|[Hop|Hop]].
  - left. destruct (committed d h) as [l|]; [eauto|set_solver].
  - by right; left.
  - right; right. set_solver.
Qed.

Lemma confirmed_ops_elem d it x h b op :
  (x, h, b) ∈ it → op ∈ confirmed_entry_ops d (x, h, b) →
  op ∈ flat_map (confirmed_entry_ops d) it.
Proof.
  intros Hin Hop. rewrite list_elem_of_In, in_flat_map.
  exists (x, h, b). by rewrite <- !list_elem_of_In.
Qed.

Section round_trip.
Context `{HeaderDecls}.

Lemma WriteBatch_outpoints d ins hash :
  WriteBatch d (map (λ i, Write_outpoint i hash) ins) =
    mkDB (is_i d) (is_tx d) (foldl (λ m i, <[i := hash]> m) (is_in d) ins)
         (is_m d) (is_a1 d) (is_a2 d) (is_v d).
Proof.
  revert d. induction ins as [|i ins IH]; intros d; [by destruct d|].
  cbn [map]. change (WriteBatch d (?op :: ?b)) with (WriteBatch (apply_op d op) b).
  by rewrite IH.
Qed.

Lemma WriteNew_db hash l (s : CInstantSendDb) :
  db (WriteNewInstantSendLock hash l s).2 =
    mkDB (<[hash := l]> (is_i (db s))) (<[txid l := hash]> (is_tx (db s)))
         (foldl (λ m i, <[i := hash]> m) (is_in (db s)) (inputs l))
         (is_m (db s)) (is_a1 (db s)) (is_a2 (db s)) (is_v (db s)).
Proof.
  cbn -[WriteBatch app].
  change (WriteBatch ?d ([?a; ?b] ++ ?c)) with (WriteBatch (apply_op (apply_op d a) b) c).
  by rewrite WriteBatch_outpoints.
Qed.

Lemma WriteNew_best hash l (s : CInstantSendDb) :
  best_confirmed_height (WriteNewInstantSendLock hash l s).2 = best_confirmed_height s.
Proof. done. Qed.

Lemma WriteMined_db hash h (s : CInstantSendDb) :
  db (WriteInstantSendLockMined hash h s).2 =
    mkDB (is_i (db s)) (is_tx (db s)) (is_in (db s))
         (<[((BuildInversedISLockKey DB_MINED_BY_HEIGHT_AND_HASH h hash).1.2, hash) := true]>
            (is_m (db s)))
         (is_a1 (db s)) (is_a2 (db s)) (is_v (db s)).
Proof. done. Qed.

Lemma Known_archived hash (s : CInstantSendDb) :
  is_Some (is_a2 (db s) !! hash) → (KnownInstantSendLock hash s).1 = true.
Proof.
  intros Ha. unfold KnownInstantSendLock. unfold_monad.
  pose proof (GetInstantSendLockByHash_same hash use_cache_default s) as [Hd _].
  destruct (GetInstantSendLockByHash hash use_cache_default s) as [r s1].
  cbn [fst snd] in *. rewrite Hd. rewrite (bool_decide_eq_true_2 _ Ha).
  apply orb_true_r.
Qed.

(** The key of a seek is not above the keys of the same height. *)
Lemma seek_key_le (x : Z) (h : uint256) : key_le ser_inversed (x, 0) (x, h).
Proof.
  unfold key_le, ser_inversed. cbn [fst snd]. apply Is_true_true.
  unfold bytes_leb. rewrite bytes_compare_app by done.
  rewrite bytes_compare_refl. apply le_bytes_zero_min.
Qed.

(** The entries of a hash archived at the height [h] only: they outlive
    [RemoveArchivedInstantSendLocks] below [h]. *)
Lemma RemoveArchived_keeps_younger (s : CInstantSendDb) (hash : uint256) (h n : Z) :
  n < h → h < 2 ^ 31 →
  is_a2 (db s) !! hash = Some true →
  (∀ x, is_Some (is_a1 (db s) !! (x, hash)) →
        InversedKeyHeight (DB_ARCHIVED_BY_HEIGHT_AND_HASH, x, hash) = to_uint32 h) →
  is_a2 (db (RemoveArchivedInstantSendLocks n s).2) !! hash = Some true
  ∧ ∀ x, is_Some (is_a1 (db (RemoveArchivedInstantSendLocks n s).2) !! (x, hash)) →
         InversedKeyHeight (DB_ARCHIVED_BY_HEIGHT_AND_HASH, x, hash) = to_uint32 h.
Proof.
  intros Hn Hh Ha Hold. unfold RemoveArchivedInstantSendLocks.
  destruct (Z.leb_spec n 0) as [|Hn0]; [done|]. cbn [snd set_db db].
  split.
  - rewrite is_a2_WriteBatch_keep; [done| |].
    2:{ intros Hop. apply elem_of_RemoveArchived_loop in Hop as [?|(x & h' & b & _ & Hop)];
          [set_solver|]. by destruct Hop. }
    intros Hop. apply elem_of_RemoveArchived_loop in Hop as [?|(x & h' & b & Hx & Hop)];
      [set_solver|].
    destruct Hop as [[= <-]|?]; [|done].
    apply elem_of_db_seek in Hx as [Hx Hle].
    apply seek_key_height in Hle. rewrite Hold in Hle by (by eexists).
    unfold to_uint32 in Hle. rewrite !Z.mod_small in Hle by lia. lia.
  - intros x Hx. apply Hold.
    apply is_a1_WriteBatch_lookup in Hx as [?|Hop]; [done|].
    apply elem_of_RemoveArchived_loop in Hop as [?|(x' & h' & b & _ & Hop)];
      [set_solver|]. by destruct Hop.
Qed.

(** C3: for a lock written under a non-null hash, marked mined at a height
    h above best_confirmed_height and then confirmed up to h, the store no
    longer holds the lock: ISLOCK_BY_HASH has no entry for the hash and the
    lookup that bypasses the cache returns no lock; KnownInstantSendLock
    still returns true; and it keeps returning true after any number of
    calls of RemoveArchivedInstantSendLocks at heights below h, when h is
    an int (h < 2^31) and the store held no mined and no archived
    by-height entry for the hash before the lock was written. *)
Theorem confirmed_lock_removed_but_known (s : CInstantSendDb) (hash : uint256)
    (l : CInstantSendLock) (h : Z) :
  best_confirmed_height s < h →
  IsNull hash = false →
  let s1 := (WriteNewInstantSendLock hash l s).2 in
  let s2 := (WriteInstantSendLockMined hash h s1).2 in
  let s3 := (RemoveConfirmedInstantSendLocks h s2).2 in
  is_i (db s3) !! hash = None
  ∧ (GetInstantSendLockByHash hash false s3).1 = None
  ∧ (KnownInstantSendLock hash s3).1 = true
  ∧ ∀ ns, Forall (λ n, n < h) ns → h < 2 ^ 31 →
      (∀ x, is_m (db s) !! (x, hash) = None) →
      (∀ x, is_a1 (db s) !! (x, hash) = None) →
      (KnownInstantSendLock hash
         (foldl (λ s' n, (RemoveArchivedInstantSendLocks n s').2) s3 ns)).1 = true.
Proof.
  intros Hbest Hnn s1 s2 s3.
  set (K := (BuildInversedISLockKey DB_MINED_BY_HEIGHT_AND_HASH h hash).1.2).
  assert (db s2 = mkDB (<[hash := l]> (is_i (db s))) (<[txid l := hash]> (is_tx (db s)))
           (foldl (λ m i, <[i := hash]> m) (is_in (db s)) (inputs l))
           (<[(K, hash) := true]> (is_m (db s)))
           (is_a1 (db s)) (is_a2 (db s)) (is_v (db s))) as Hd2.
  { unfold s2. rewrite WriteMined_db. unfold s1. by rewrite WriteNew_db. }
  assert (best_confirmed_height s2 < h) as Hb2 by done.
  pose proof (RemoveConfirmed_db h s2 Hb2) as Hd3. fold s3 in Hd3.
  set (it := db_seek _ _ _) in Hd3.
  assert ((K, hash, true) ∈ it) as Hin.
  { apply elem_of_db_seek. split.
    - rewrite Hd2. cbn [is_m]. apply lookup_insert_eq.
    - apply seek_key_le. }
  assert (committed (db s2) hash = Some l) as Hc.
  { unfold committed. rewrite Hnn, Hd2. cbn [is_i]. apply lookup_insert_eq. }
  set (batch := flat_map _ it) in Hd3.
  assert (∀ op, op ∈ batch →
            match op with
            | Write_islock _ _ | Write_txid _ _ | Write_outpoint _ _
            | Erase_archived_hash _ | Write_version _ => False
            | _ => True
            end) as Hkinds.
  { intros op Hop. apply elem_of_confirmed_ops in Hop as (x & h' & b & _ & Hop).
    destruct Hop as [(l' & _ & Hop)|[Hop|Hop]].
    - unfold remove_ops in Hop. rewrite elem_of_app, list_elem_of_fmap in Hop.
      destruct Hop as [Hop|(o & -> & _)]; [|done].
      set_unfold in Hop. naive_solver.
    - unfold archive_ops in Hop. set_unfold in Hop. naive_solver.
    - by subst. }
  assert (is_i (db s3) !! hash = None) as Hi.
  { rewrite Hd3. apply is_i_WriteBatch_erased.
    - intros l' Hop. by apply Hkinds in Hop.
    - eapply confirmed_ops_elem; [exact Hin|].
      unfold confirmed_entry_ops. cbn [fst snd]. rewrite Hc. set_solver. }
  assert (is_a2 (db s3) !! hash = Some true) as Ha.
  { rewrite Hd3. apply is_a2_WriteBatch_written.
    - intros Hop. by apply Hkinds in Hop.
    - eapply confirmed_ops_elem; [exact Hin|].
      unfold confirmed_entry_ops, archive_ops. cbn [fst snd]. set_solver. }
  split_and!; [done| |by apply Known_archived|].
  { rewrite GetInstantSendLockByHash_uncached. unfold committed. by rewrite Hnn. }
  intros ns Hns Hh Hfm Hfa. apply Known_archived.
  assert (∀ x, is_Some (is_a1 (db s3) !! (x, hash)) →
               InversedKeyHeight (DB_ARCHIVED_BY_HEIGHT_AND_HASH, x, hash) = to_uint32 h)
    as Hkeys.
  { intros x Hx. rewrite Hd3 in Hx.
    destruct (is_a1_WriteBatch_lookup (db s2) batch x hash Hx) as [Hold|Hw].
    { rewrite Hd2 in Hold. cbn [is_a1] in Hold. rewrite Hfa in Hold. by destruct Hold. }
    apply elem_of_confirmed_ops in Hw as (xm & hm & bm & Hm & Hw).
    destruct Hw as [(l' & _ & Hw)|[Hw|Hw]]; [| |done].
    { unfold remove_ops in Hw. rewrite elem_of_app, list_elem_of_fmap in Hw.
      destruct Hw as [Hw|(o & ? & _)]; [|done]. set_unfold in Hw. naive_solver. }
    unfold archive_ops in Hw. set_unfold in Hw. destruct Hw as [Hw|[Hw|[]]]; [|discriminate Hw].
    injection Hw as Ex Eh. subst hm.
    apply elem_of_db_seek in Hm as [Hm _].
    rewrite Hd2 in Hm. cbn [is_m] in Hm.
    destruct (decide ((K, hash) = (xm, hash))) as [[= <-]|Hne].
    2:{ rewrite lookup_insert_ne in Hm by done. by rewrite Hfm in Hm. }
    rewrite (InversedKey.inversed_height DB_MINED_BY_HEIGHT_AND_HASH h hash :
               InversedKeyHeight (DB_MINED_BY_HEIGHT_AND_HASH, K, hash) = to_uint32 h) in Ex.
    subst x.
    rewrite (InversedKey.inversed_height DB_ARCHIVED_BY_HEIGHT_AND_HASH
               (to_int32 (to_uint32 h)) hash :
               InversedKeyHeight (DB_ARCHIVED_BY_HEIGHT_AND_HASH, _, hash) = _).
    rewrite to_uint32_to_int32. unfold to_uint32. by rewrite Z.mod_mod. }
  clearbody s3. clear -Hns Hh Ha Hkeys.
  revert s3 Ha Hkeys. induction Hns as [|n ns Hn Hns IH]; intros s3 Ha Hkeys.
  { cbn [foldl]. by rewrite Ha. }
  cbn [foldl].
  destruct (RemoveArchived_keeps_younger s3 hash h n Hn Hh Ha Hkeys) as [Ha' Hkeys'].
  by apply IH.
Qed.
End round_trip.
End RoundTrip.

(** ** Chained removal: the children of a transaction *)

Module Children.
Import BytesFacts StoreFacts LockStore Confirmed.



#[local] Instance outpoint_entry_le_trans : Transitive outpoint_entry_le.
Proof.
  intros a b c. unfold outpoint_entry_le, key_le. rewrite !Is_true_true.
  apply bytes_leb_trans.
Qed.

#[local] Instance outpoint_entry_le_total : Total outpoint_entry_le.
Proof.
  intros a b. unfold outpoint_entry_le, key_le. rewrite !Is_true_true.
  apply bytes_leb_total.
Qed.







End Children.

(** ** Chained removal: the walk *)

Module Chained.
Import BytesFacts StoreFacts LockStore Confirmed Children.


Lemma committed_stored d h l : committed d h = Some l → is_i d !! h = Some l.
Proof. unfold committed. by destruct (IsNull h). Qed.

Lemma stored_txids_elem d h l : is_i d !! h = Some l → txid l ∈ stored_txids d.
Proof.
  intros Hl. unfold stored_txids. apply elem_of_list_to_set, list_elem_of_fmap.
  exists (h, l). split; [done|]. by apply elem_of_map_to_list.
Qed.

Lemma size_list_to_set_le (l : list Z) : (size (list_to_set l : gset Z) ≤ length l)%nat.
Proof.
  induction l as [|x l IH]; [by rewrite list_to_set_nil, size_empty|].
  rewrite list_to_set_cons, size_union_alt, size_singleton. cbn [length].
  pose proof (subseteq_size (list_to_set l ∖ {[x]}) (list_to_set l : gset Z) ltac:(set_solver)).
  lia.
Qed.

Lemma stored_txids_size d : (size (stored_txids d) ≤ size (is_i d))%nat.
Proof.
  unfold stored_txids. etrans; [apply size_list_to_set_le|].
  by rewrite length_map, length_map_to_list.
Qed.

Section walk.
Context (d : CDBWrapper) (t0 : uint256) (nHeight : Z).







(** The children of one transaction leave the measure as it is, whatever
    the outpoint index holds. *)
Lemma chained_children_measure cs v :
  ch_added v ⊆ stored_txids d →
  ch_added (chained_children d nHeight cs v) ⊆ stored_txids d
  ∧ chained_measure d (chained_children d nHeight cs v) = chained_measure d v.
Proof.
  revert v. induction cs as [|c cs IH]; intros v Hsub; simpl; [done|].
  destruct (committed d c) as [l|] eqn:Hc; [|by apply IH].
  assert (txid l ∈ stored_txids d) as Hl by (eapply stored_txids_elem, committed_stored, Hc).
  destruct (IH (chained_step nHeight v c l)) as [Hs Hm].
  { unfold chained_step. case_bool_decide; cbn; set_solver. }
  split; [done|]. rewrite Hm. unfold chained_step, chained_measure.
  case_bool_decide as Hin; cbn; [done|].
  rewrite size_union, size_singleton by set_solver.
  pose proof (subseteq_size ({[txid l]} ∪ ch_added v) (stored_txids d) ltac:(set_solver))
    as Hsz.
  rewrite size_union, size_singleton in Hsz by set_solver. lia.
Qed.

Lemma chained_while_returns fuel v :
  ch_added v ⊆ stored_txids d → (chained_measure d v ≤ fuel)%nat →
  is_Some (chained_while d fuel nHeight v).
Proof.
  revert v. induction fuel as [|fuel IH]; intros v Hsub Hm.
  - unfold chained_measure in Hm. destruct (ch_stack v) as [|b st] eqn:Es; [|simpl in Hm; lia].
    simpl. rewrite Es. by eexists.
  - simpl. destruct (ch_stack v) as [|back st] eqn:Es; [by eexists|].
    set (v0 := mkChained (ch_batch v) (ch_result v) st (ch_added v)).
    destruct (chained_children_measure (kids d back) v0 Hsub) as [Hs Hm'].
    apply IH; [done|]. rewrite Hm'. unfold chained_measure in *. rewrite Es in Hm.
    cbn in *. lia.
Qed.

(** The loop empties the stack within its fuel on every store. *)
Lemma chained_while_total :
  is_Some (chained_while d (S (size (is_i d))) nHeight (mkChained [] [] [t0] ∅)).
Proof.
  apply chained_while_returns; [set_solver|].
  unfold chained_measure. cbn. rewrite size_empty.
  pose proof (stored_txids_size d). lia.
Qed.
End walk.
End Chained.

(** ** Chained removal: the store and the caches after it *)

Module ChainedStore.
Import BytesFacts StoreFacts LockStore Confirmed Children Chained.

Section cache.
Context {K V : Type} `{EqDecision K}.
Implicit Types (l : list (K * V)) (c : unordered_lru_cache K V).

Lemma assoc_find_remove_eq k l : assoc_find k (assoc_remove k l) = None.
Proof.
  induction l as [|[k' v] l IH]; simpl; [done|].
  destruct (decide (k' = k)) as [->|Hne]; [done|]. simpl. by rewrite decide_False.
Qed.

Lemma assoc_find_remove_None k k' l :
  assoc_find k l = None → assoc_find k (assoc_remove k' l) = None.
Proof.
  induction l as [|[k1 v] l IH]; simpl; [done|].
  destruct (decide (k1 = k)) as [->|Hne]; [done|]. intros Hl.
  destruct (decide (k1 = k')); simpl; [auto|]. rewrite decide_False by done. auto.
Qed.

Lemma assoc_find_take_None k l (m : nat) :
  assoc_find k l = None → assoc_find k (take m l) = None.
Proof.
  revert m. induction l as [|[k1 v] l IH]; intros [|m]; simpl; try done.
  destruct (decide (k1 = k)); [done|]. auto.
Qed.

Lemma lru_insert_find_None k k' v c :
  k ≠ k' → assoc_find k (cacheMap c) = None →
  assoc_find k (cacheMap (lru_insert k' v c)) = None.
Proof.
  intros Hne Hc. unfold lru_insert. cbn [cacheMap].
  apply assoc_find_take_None. simpl. rewrite decide_False by done.
  by apply assoc_find_remove_None.
Qed.

Lemma lru_erase_find_eq k c : assoc_find k (cacheMap (lru_erase k c)) = None.
Proof. apply assoc_find_remove_eq. Qed.

Lemma lru_erase_find_None k k' c :
  assoc_find k (cacheMap c) = None → assoc_find k (cacheMap (lru_erase k' c)) = None.
Proof. apply assoc_find_remove_None. Qed.

Lemma lru_get_miss k c : assoc_find k (cacheMap c) = None → lru_get k c = (None, c).
Proof. unfold lru_get. by intros ->. Qed.

End cache.


Lemma IsNull_committed d h l : committed d h = Some l → IsNull h = false.
Proof. unfold committed. by destruct (IsNull h). Qed.

Section run.
Context `{HeaderDecls}.

(** A lookup of an uncached hash reads the store. *)
Lemma GetInstantSendLockByHash_miss (h : uint256) (uc : bool) (s : CInstantSendDb) :
  islock_uncached s h → (GetInstantSendLockByHash h uc s).1 = committed (db s) h.
Proof.
  intros Hu. unfold GetInstantSendLockByHash, committed.
  destruct (IsNull h); [done|].
  destruct uc; [rewrite lru_get_miss by done|]; cbn; apply ReadInstantSendLock_lookup.
Qed.

(** Removing the committed lock of [c] without keeping the cache. *)
Lemma remove_child_run batch c l (s : CInstantSendDb) :
  committed (db s) c = Some l →
  let s1 := (GetInstantSendLockByHash c false s).2 in
  let r := RemoveInstantSendLock batch c (Some l) false s1 in
  r.1 = batch ++ remove_ops c l
  ∧ db r.2 = db s
  ∧ islock_uncached r.2 c
  ∧ ∀ h, islock_uncached s h → islock_uncached r.2 h.
Proof.
  intros Hc s1 r.
  pose proof (IsNull_committed _ _ _ Hc) as Hnn.
  unfold r, s1. rewrite GetInstantSendLockByHash_uncached, Hnn.
  unfold RemoveInstantSendLock. unfold_monad. cbn.
  split_and!; [done..| |].
  - apply assoc_find_remove_eq.
  - intros h Hh. unfold islock_uncached in *. cbn.
    destruct (decide (h = c)) as [->|Hne]; [apply assoc_find_remove_eq|].
    apply assoc_find_remove_None, assoc_find_take_None. simpl.
    rewrite decide_False by done. by apply assoc_find_remove_None.
Qed.

Lemma RemoveChained_children_found nH c cs v l (s : CInstantSendDb) :
  committed (db s) c = Some l →
  RemoveChained_children nH (c :: cs) v s =
    RemoveChained_children nH cs (chained_step nH v c l)
      (RemoveInstantSendLock (ch_batch v) c (Some l) false
         (GetInstantSendLockByHash c false s).2).2.
Proof.
  intros Hc. cbn [RemoveChained_children]. unfold_monad.
  rewrite GetInstantSendLockByHash_uncached, Hc. cbn [fst snd].
  unfold RemoveInstantSendLock. unfold_monad. cbn [fst snd].
  f_equal. unfold chained_step, WriteInstantSendLockArchived, archive_ops, remove_ops.
  rewrite <- !app_assoc. by case_bool_decide.
Qed.

Lemma RemoveChained_children_missing nH c cs v (s : CInstantSendDb) :
  committed (db s) c = None →
  RemoveChained_children nH (c :: cs) v s =
    RemoveChained_children nH cs v (GetInstantSendLockByHash c false s).2.
Proof.
  intros Hc. cbn [RemoveChained_children]. unfold_monad.
  by rewrite GetInstantSendLockByHash_uncached, Hc.
Qed.

Lemma RemoveChained_children_run nH cs v (s : CInstantSendDb) :
  (∀ h, h ∈ ch_result v → is_Some (committed (db s) h)) →
  (∀ h, h ∈ ch_result v → islock_uncached s h) →
  (RemoveChained_children nH cs v s).1 = chained_children (db s) nH cs v
  ∧ db (RemoveChained_children nH cs v s).2 = db s
  ∧ (∀ h, h ∈ ch_result (RemoveChained_children nH cs v s).1 →
         is_Some (committed (db s) h))
  ∧ (∀ h, h ∈ ch_result (RemoveChained_children nH cs v s).1 →
         islock_uncached (RemoveChained_children nH cs v s).2 h).
Proof.
  revert v s. induction cs as [|c cs IH]; intros v s Hcom Hunc; [done|].
  cbn [chained_children].
  destruct (committed (db s) c) as [l|] eqn:Hc.
  - rewrite (RemoveChained_children_found nH c cs v l s Hc).
    destruct (remove_child_run (ch_batch v) c l s Hc) as (_ & Hd & Hu & Hpres).
    set (s2 := (RemoveInstantSendLock _ _ _ _ _).2) in *.
    assert (∀ h, h ∈ ch_result (chained_step nH v c l) → h ∈ ch_result v ∨ h = c) as Hres.
    { intros h Hh. unfold chained_step in Hh.
      assert (h ∈ ch_result v ++ [c]) as Hh' by (by case_bool_decide).
      apply elem_of_app in Hh' as [?|Hh']; [auto|].
      apply list_elem_of_singleton in Hh'. auto. }
    destruct (IH (chained_step nH v c l) s2) as (E1 & E2 & E3 & E4).
    + rewrite Hd. intros h [?| ->]%Hres; [auto|]. by rewrite Hc.
    + intros h [?| ->]%Hres; auto.
    + rewrite Hd in E1, E2, E3. split_and!; [done|congruence|done..].
  - rewrite (RemoveChained_children_missing nH c cs v s Hc).
    pose proof (GetInstantSendLockByHash_same c false s) as [Hd _].
    set (s1 := (GetInstantSendLockByHash c false s).2) in *.
    destruct (IH v s1) as (E1 & E2 & E3 & E4).
    + by rewrite Hd.
    + intros h Hh. unfold s1. rewrite GetInstantSendLockByHash_uncached. cbn [snd].
      destruct (IsNull c); [auto|].
      unfold islock_uncached. cbn. apply assoc_find_take_None. simpl.
      rewrite decide_False.
      * apply assoc_find_remove_None. by apply Hunc.
      * intros ->. destruct (Hcom h Hh) as [? ?]. congruence.
    + rewrite Hd in E1, E2, E3. split_and!; [done|congruence|done..].
Qed.

Lemma RemoveChained_while_run fuel nH v (s : CInstantSendDb) :
  (∀ h, h ∈ ch_result v → is_Some (committed (db s) h)) →
  (∀ h, h ∈ ch_result v → islock_uncached s h) →
  (RemoveChained_while fuel nH v s).1 = chained_while (db s) fuel nH v
  ∧ db (RemoveChained_while fuel nH v s).2 = db s
  ∧ (∀ v', (RemoveChained_while fuel nH v s).1 = Some v' →
       ∀ h, h ∈ ch_result v' → islock_uncached (RemoveChained_while fuel nH v s).2 h).
Proof.
  revert v s. induction fuel as [|fuel IH]; intros v s Hcom Hunc; simpl.
  - destruct (ch_stack v); cbn; split_and!; try done. by intros ? [= <-].
  - destruct (ch_stack v) as [|back st] eqn:Es.
    { cbn. split_and!; try done. by intros ? [= <-]. }
    unfold_monad. unfold GetInstantSendLocksByParent. fold (kids (db s) back).
    set (v0 := mkChained _ _ _ _).
    destruct (RemoveChained_children_run nH (kids (db s) back) v0 s Hcom Hunc)
      as (E1 & E2 & E3 & E4).
    destruct (RemoveChained_children nH (kids (db s) back) v0 s) as [v1 s1].
    cbn [fst snd] in *.
    destruct (IH v1 s1) as (F1 & F2 & F3).
    + by rewrite E2.
    + done.
    + split_and!.
      * by rewrite F1, E2, E1.
      * by rewrite F2.
      * done.
Qed.

Lemma RemoveInstantSendLock_lookup batch h l kc (s : CInstantSendDb) :
  committed (db s) h = Some l →
  RemoveInstantSendLock batch h None kc s =
    RemoveInstantSendLock batch h (Some l) kc (GetInstantSendLockByHash h false s).2.
Proof.
  intros Hc. unfold RemoveInstantSendLock. unfold_monad.
  by rewrite GetInstantSendLockByHash_uncached, Hc.
Qed.




End run.
End ChainedStore.

(** ** Request ids *)

Module RequestIds.
Section request_ids.
Context `{Primitives}.

(** C5: the request id of an input lock is the hash of the serialized
    pair ("inlock", outpoint), byte for byte the length-prefixed string
    followed by the 32+4 bytes of the outpoint; the request id of a lock is
    the hash of the serialized pair ("islock", inputs), byte for byte the
    length-prefixed string followed by the input vector; and two locks
    with the same inputs in the same order have the same request id,
    whatever their version, txid, cycleHash and signature. *)
Theorem request_id_deterministic :
  (∀ o : COutPoint,
     InputLockRequestId o
     = SerializeHash (ser_pair ser_string ser_outpoint) (INPUTLOCK_REQUESTID_PREFIX, o)
     ∧ InputLockRequestId o
       = Hash256 ([6; 105; 110; 108; 111; 99; 107]
                  ++ ser_uint256 (hash o) ++ ser_uint32 (n o)))
  ∧ (∀ l : CInstantSendLock,
       GetRequestId l
       = SerializeHash (ser_pair ser_string (ser_vector ser_outpoint))
                       (ISLOCK_REQUESTID_PREFIX, inputs l)
       ∧ GetRequestId l
         = Hash256 ([6; 105; 115; 108; 111; 99; 107]
                    ++ ser_vector ser_outpoint (inputs l)))
  ∧ (∀ (ins : list COutPoint) v1 t1 c1 s1 v2 t2 c2 s2,
       GetRequestId (mkLock v1 t1 ins c1 s1) = GetRequestId (mkLock v2 t2 ins c2 s2)).
Proof.
  split_and!.
  - intros o. split; [done|].
    unfold InputLockRequestId, SerializeHash, ser_pair, ser_outpoint. cbn [fst snd].
    by rewrite app_nil_l.
  - intros l. by split.
  - done.
Qed.
End request_ids.
End RequestIds.

(** ** Queries and pre-verification *)

Module Queries.
Import LockStore.

Ltac unfold_mgr :=
  unfold mbind, mret, MgrM_bind, MgrM_ret, get_mgr, modify_mgr, emit, mgr_return, abort in *.

Lemma PreVerify_loop_spec (ins : list COutPoint) (dups : gset COutPoint) :
  PreVerify_loop ins dups = true ↔ NoDup ins ∧ ∀ o, o ∈ ins → o ∉ dups.
Proof.
  revert dups. induction ins as [|o ins IH]; intros dups; simpl.
  - split; [|done]. intros _. split; [constructor|]. by intros o ?%elem_of_nil.
  - case_bool_decide as Hin.
    + split; [done|]. intros [_ Hd]. exfalso. apply (Hd o); [left|done].
    + rewrite IH, NoDup_cons. split.
      * intros [Hnd Hd]. split_and!; [|done|].
        -- intros Ho. apply (Hd o Ho). set_solver.
        -- intros o' [->|Ho']%elem_of_cons; [done|]. specialize (Hd o' Ho'). set_solver.
      * intros [[Hno Hnd] Hd]. split; [done|].
        intros o' Ho'. specialize (Hd o' ltac:(by right)). set_solver.
Qed.

Section queries.
Context `{HeaderDecls} `{Primitives}.

(** C8: PreVerifyInstantSendLock returns false exactly when the txid is
    null, the inputs are empty or some input occurs twice; and then
    ProcessMessageInstantSendLock, after erasing the object request, calls
    Misbehaving(peer, 100) and returns: the manager is as before but for
    these two calls, so nothing is added to pendingInstantSendLocks. *)
Theorem PreVerify_rejects (env : Env) (pfrom : Z) (islock : CInstantSendLock)
    (m : CInstantSendManager) :
  (PreVerifyInstantSendLock islock = false
   ↔ IsNull (txid islock) = true ∨ inputs islock = [] ∨ ¬ NoDup (inputs islock))
  ∧ (PreVerifyInstantSendLock islock = false →
     ∃ m', Manager.ProcessMessageInstantSendLock env pfrom islock m = Some (tt, m')
           ∧ m' = set_events m
                    (events m
                     ++ [EraseObjectRequest pfrom
                           (mkInv (if IsDeterministic islock then MSG_ISDLOCK
                                   else MSG_ISLOCK)
                                  (SerializeHash ser_islock islock));
                         Misbehaving pfrom 100])
           ∧ pendingInstantSendLocks m' = pendingInstantSendLocks m).
Proof.
  split.
  - unfold PreVerifyInstantSendLock.
    destruct (IsNull (txid islock)); [by intuition|]. simpl.
    case_bool_decide as Hempty; [by intuition|].
    rewrite <- not_true_iff_false, PreVerify_loop_spec. split.
    + intros Hn. right; right. intros Hnd. apply Hn. split; [done|]. set_solver.
    + intros [?|[?|Hn]]; [done..|]. by intros [? _].
  - intros Hpre. unfold Manager.ProcessMessageInstantSendLock. unfold_mgr.
    rewrite Hpre. cbn. eexists. split; [reflexivity|]. split; [|done].
    unfold set_events. cbn. by rewrite <- app_assoc.
Qed.

(** C10: with InstantSend disabled, IsLocked returns false and
    GetInstantSendLockByTxid returns null for every txid, and AlreadyHave
    returns true for every inventory item; none of them touches the lock
    store: the manager, caches included, is left as it was. *)
Theorem disabled_queries (env : Env) (txHash : uint256) (inv : CInv)
    (m : CInstantSendManager) :
  IsInstantSendEnabled env = false →
  Manager.IsLocked env txHash m = Some (false, m)
  ∧ Manager.GetInstantSendLockByTxid env txHash m = Some (None, m)
  ∧ Manager.AlreadyHave env inv m = Some (true, m).
Proof.
  intros Hoff.
  unfold Manager.IsLocked, Manager.GetInstantSendLockByTxid, Manager.AlreadyHave.
  by rewrite Hoff.
Qed.

Lemma on_db_run {A : Type} (c : DbM A) (m : CInstantSendManager) :
  on_db c m = Some ((c (isdb m)).1, set_isdb m (c (isdb m)).2).
Proof. unfold on_db. by destruct (c (isdb m)). Qed.

(** The lookup of [IsLockedInternal] always returns. *)
Lemma IsLockedInternal_run (txHash : uint256) (m : CInstantSendManager) :
  Manager.IsLockedInternal txHash m = Some (locked_now m txHash, after_lookup m txHash).
Proof. unfold Manager.IsLockedInternal. by rewrite on_db_run. Qed.

Lemma CheckCanLock_outpoint_true env o pd th (m : CInstantSendManager) :
  (∃ m', Manager.CheckCanLock_outpoint env o pd th m = Some (true, m')) ↔ lockable env m o.
Proof.
  unfold Manager.CheckCanLock_outpoint, lockable. unfold_mgr.
  rewrite IsLockedInternal_run.
  destruct (locked_now m (hash o)); [by intuition eauto|].
  destruct (mempool_get env (hash o)) as [mtx|].
  { split; [by intros [? [=]]|]. by intros [?|[? _]]. }
  destruct (GetTransaction env (hash o)) as [[tx hb]|].
  2:{ split; [by intros [? [=]]|]. by intros [?|[_ (? & ? & ? & ? & _)]]. }
  destruct (LookupBlockIndex env hb) as [pindex|] eqn:Ei.
  2:{ split; [by intros [? [=]]|]. intros [?|[_ (? & ? & ? & ? & ? & _)]]; [done|].
      simplify_eq. }
  destruct (Z.ltb_spec (chainActive_Height env - nHeight pindex + 1)
              (nInstantSendConfirmationsRequired env)) as [Hlt|Hge];
    destruct (HasChainLock env (nHeight pindex) (block_hash pindex)) eqn:Ecl; cbn.
  - split; [|by eauto]. intros _. right. split; [done|]. exists tx, hb, pindex. auto.
  - split; [by intros [? [=]]|].
    intros [?|[_ (tx' & hb' & p' & E1 & E2 & Hc)]]; [done|]. simplify_eq.
    destruct Hc; [lia|congruence].
  - split; [|by eauto]. intros _. right. split; [done|]. exists tx, hb, pindex. auto.
  - split; [|by eauto]. intros _. right. split; [done|]. exists tx, hb, pindex.
    split_and!; first [done|left; lia].
Qed.

Lemma CheckCanLock_outpoint_state env o pd th (m m' : CInstantSendManager) b :
  Manager.CheckCanLock_outpoint env o pd th m = Some (b, m') →
  m' = after_lookup m (hash o).
Proof.
  unfold Manager.CheckCanLock_outpoint. unfold_mgr. rewrite IsLockedInternal_run.
  repeat case_match; by intros [= <- <-].
Qed.

Lemma CheckCanLock_loop_true env ins pd th (m : CInstantSendManager) :
  (∃ m', Manager.CheckCanLock_loop env ins pd th m = Some (true, m'))
  ↔ all_lockable env ins m.
Proof.
  revert m. induction ins as [|i ins IH]; intros m; simpl.
  { split; [done|]. intros _. by eexists. }
  unfold_mgr. split.
  - intros [m' Hrun].
    destruct (Manager.CheckCanLock_outpoint env (prevout i) pd th m) as [[b m1]|] eqn:E;
      [|done].
    pose proof (CheckCanLock_outpoint_state _ _ _ _ _ _ _ E) as ->.
    destruct b; [|done]. split.
    + apply (CheckCanLock_outpoint_true env _ pd th). eauto.
    + apply IH. eauto.
  - intros [Hl Hrest]. apply (CheckCanLock_outpoint_true env _ pd th) in Hl as [m1 E].
    rewrite E. cbn.
    pose proof (CheckCanLock_outpoint_state _ _ _ _ _ _ _ E) as ->.
    by apply IH.
Qed.

(** C2: CheckCanLock(tx) returns true if and only if tx has an input and
    every input, when its turn comes, either has a source transaction that
    the lock store reports as locked, or has a source transaction that is
    not in the mempool, is found by GetTransaction, and is mined at depth
    (tip height - mined height + 1) >= nInstantSendConfirmationsRequired
    or in a ChainLocked block. *)
Theorem CheckCanLock_iff (env : Env) (tx : CTransaction) (printDebug : bool)
    (m : CInstantSendManager) :
  (∃ m', Manager.CheckCanLock env tx printDebug m = Some (true, m'))
  ↔ vin tx ≠ [] ∧ all_lockable env (vin tx) m.
Proof.
  unfold Manager.CheckCanLock. case_bool_decide as Hv.
  - split; [by intros [? [=]]|]. by intros [? _].
  - rewrite CheckCanLock_loop_true. tauto.
Qed.
End queries.
End Queries.

(** ** Input exclusivity *)

Module Exclusive.
Import BytesFacts StoreFacts LockStore Confirmed RoundTrip Children Chained ChainedStore Queries.

Lemma locks_exclusive_subseteq (d d' : CDBWrapper) :
  is_i d' ⊆ is_i d → locks_exclusive d → locks_exclusive d'.
Proof.
  intros Hsub Hex h1 h2 l1 l2 Hne H1 H2.
  eapply Hex; [done|by eapply lookup_weaken..].
Qed.

Lemma locks_exclusive_insert (d d' : CDBWrapper) (h : uint256) (l : CInstantSendLock) :
  is_i d' ⊆ <[h := l]> (is_i d) → locks_exclusive d → ¬ collides d h l →
  locks_exclusive d'.
Proof.
  intros Hsub Hex Hnc h1 h2 l1 l2 Hne H1 H2.
  pose proof (lookup_weaken _ _ _ _ H1 Hsub) as H1'.
  pose proof (lookup_weaken _ _ _ _ H2 Hsub) as H2'.
  apply lookup_insert_Some in H1' as [[E1 E1']|[Hn1 H1']];
    apply lookup_insert_Some in H2' as [[E2 E2']|[Hn2 H2']].
  - congruence.
  - subst h1 l1. split.
    + intros E. apply Hnc. exists h2, l2. split_and!; [congruence|done|left; congruence].
    + intros o Ho Ho'. apply Hnc. exists h2, l2. split_and!; [congruence|done|]. right. eauto.
  - subst h2 l2. split.
    + intros E. apply Hnc. exists h1, l1. split_and!; [congruence|done|left; congruence].
    + intros o Ho Ho'. apply Hnc. exists h1, l1. split_and!; [congruence|done|]. right. eauto.
  - exact (Hex h1 h2 l1 l2 Hne H1' H2').
Qed.

Lemma elem_of_Upgrade_loop known it batch op :
  op ∈ Upgrade_loop known it batch →
  op ∈ batch ∨ match op with
               | Erase_islock _ | Erase_txid _ | Erase_outpoint _ => True
               | _ => False
               end.
Proof.
  revert batch. induction it as [|[k w] it IH]; intros batch; cbn [Upgrade_loop]; [auto|].
  intros Hop. apply IH in Hop as [Hop|?]; [|by right].
  destruct (Unserialize_islock islock_version w) as [l|]; [|by left].
  destruct (negb (known (txid l))); [|by left].
  rewrite !elem_of_app, list_elem_of_fmap in Hop.
  destruct Hop as [?|[Hop|[(o & -> & _)|Hop]]].
  - by left.
  - right. set_unfold in Hop. naive_solver.
  - by right.
  - right. set_unfold in Hop. naive_solver.
Qed.

Lemma elem_of_chained_children d nH cs v op :
  op ∈ ch_batch (chained_children d nH cs v) →
  op ∈ ch_batch v ∨ ∃ h l, op ∈ remove_ops h l ++ archive_ops h nH.
Proof.
  revert v. induction cs as [|c cs IH]; intros v; simpl; [auto|].
  destruct (committed d c) as [l|]; [|apply IH].
  intros Hop. apply IH in Hop as [Hop|?]; [|by right].
  unfold chained_step in Hop.
  assert (op ∈ ch_batch v ++ remove_ops c l ++ archive_ops c nH) as Hop'
    by (by case_bool_decide).
  apply elem_of_app in Hop' as [?|?]; [by left|right; by exists c, l].
Qed.

Lemma elem_of_chained_while d fuel nH v v' op :
  chained_while d fuel nH v = Some v' → op ∈ ch_batch v' →
  op ∈ ch_batch v ∨ ∃ h l, op ∈ remove_ops h l ++ archive_ops h nH.
Proof.
  revert v. induction fuel as [|fuel IH]; intros v; simpl.
  - destruct (ch_stack v); [|done]. intros [= <-]. auto.
  - destruct (ch_stack v) as [|back st]; [intros [= <-]; auto|].
    intros Hw Hop. destruct (IH _ Hw Hop) as [Hop'|?]; [|by right].
    by apply elem_of_chained_children in Hop'.
Qed.

Lemma removal_ops_no_write h l nH op :
  op ∈ remove_ops h l ++ archive_ops h nH →
  match op with Write_islock _ _ => False | _ => True end.
Proof.
  unfold remove_ops, archive_ops. rewrite !elem_of_app, list_elem_of_fmap.
  intros [[Hop|(o & -> & _)]|Hop]; [|done|]; set_unfold in Hop; naive_solver.
Qed.

Section exclusive.
Context `{HeaderDecls}.

Lemma BlockInstantSendLocks_loop_ops upd vtx nH batch (s : CInstantSendDb) op :
  (∀ b h z, ∃ key, upd b h z = b ++ [Write_inversed key]
                   ∨ upd b h z = b ++ [Erase_inversed key]) →
  op ∈ (BlockInstantSendLocks_loop upd vtx nH batch s).1 →
  op ∈ batch ∨ ∃ key, op = Write_inversed key ∨ op = Erase_inversed key.
Proof.
  intros Hupd. revert batch s. induction vtx as [|tx vtx IH]; intros batch s; simpl; [auto|].
  case_match; [apply IH|]. unfold_monad.
  destruct (GetInstantSendLockHashByTxid (tx_hash tx) s) as [h s1].
  intros Hop. apply IH in Hop as [Hop|?]; [|by right].
  destruct (IsNull h); [by left|].
  destruct (Hupd batch h nH) as [key [E|E]]; rewrite E in Hop;
    apply elem_of_app in Hop as [?|Hop%list_elem_of_singleton]; eauto.
Qed.

Lemma RemoveChained_is_i islockHash roottxid nH (s : CInstantSendDb) :
  is_i (db (RemoveChainedInstantSendLocks islockHash roottxid nH s).2) ⊆ is_i (db s).
Proof.
  unfold RemoveChainedInstantSendLocks.
  destruct (RemoveChained_while_run (S (size (is_i (db s)))) nH
              (mkChained [] [] [roottxid] ∅) s) as (E1 & E2 & _);
    [by intros ? ?%elem_of_nil..|].
  destruct (RemoveChained_while _ _ _ s) as [[v|] s1]; cbn [fst snd] in *;
    [|by rewrite E2].
  pose proof (RemoveInstantSendLock_same (ch_batch v) islockHash None false s1) as [Hd _].
  pose proof (RemoveInstantSendLock_batch_lookup (ch_batch v) islockHash false s1) as Hb.
  destruct (RemoveInstantSendLock _ _ _ _ _) as [b2 s2]. cbn [fst snd db set_db] in *.
  subst b2. rewrite Hd, E2. apply is_i_WriteBatch_subseteq.
  intros h l Hop. unfold WriteInstantSendLockArchived in Hop.
  rewrite !elem_of_app in Hop. destruct Hop as [[Hop|Hop]|Hop].
  - symmetry in E1.
    destruct (elem_of_chained_while _ _ _ _ _ _ E1 Hop) as [Hnil|(? & ? & Hk)];
      [by apply elem_of_nil in Hnil|]. by apply removal_ops_no_write in Hk.
  - destruct (committed _ islockHash) as [l'|]; [|by apply elem_of_nil in Hop].
    by apply (removal_ops_no_write islockHash l' nH (Write_islock h l)), elem_of_app; left.
  - set_unfold in Hop. naive_solver.
Qed.

(** Only [WriteNewInstantSendLock] adds to ISLOCK_BY_HASH. *)
Lemma run_op_is_i (s : CInstantSendDb) (op : DbOp) :
  match op with
  | OpWriteNewInstantSendLock hash l =>
      is_i (db (run_op s op)) = <[hash := l]> (is_i (db s))
  | _ => is_i (db (run_op s op)) ⊆ is_i (db s)
  end.
Proof.
  destruct op as [known|hash islock|hash nHeight|nUntilHeight|nUntilHeight
                 |vtx pindexConnected|vtx pindexDisconnected|islockHash|
                 |hash use_cache|txid|txid|outpoint|islockHash txid nHeight];
    cbn [run_op].
  - unfold Upgrade. case_match; [|done]. cbn [snd db set_db].
    apply is_i_WriteBatch_subseteq. intros h l Hop.
    apply elem_of_app in Hop as [Hop|Hop]; [|set_unfold in Hop; naive_solver].
    apply elem_of_Upgrade_loop in Hop as [?|?]; [set_solver|done].
  - by rewrite WriteNew_db.
  - by rewrite WriteMined_db.
  - destruct (decide (best_confirmed_height s < nUntilHeight)) as [Hlt|Hge].
    + rewrite RemoveConfirmed_db by done. apply is_i_WriteBatch_subseteq.
      intros h l Hop. apply elem_of_confirmed_ops in Hop as (x & h' & b & _ & Hop).
      destruct Hop as [(l' & _ & Hop)|[Hop|Hop]]; [| |done].
      * by apply (removal_ops_no_write h' l' 0 (Write_islock h l)), elem_of_app; left.
      * unfold archive_ops in Hop. set_unfold in Hop. naive_solver.
    + unfold RemoveConfirmedInstantSendLocks.
      destruct (Z.leb_spec nUntilHeight (best_confirmed_height s)); [done|lia].
  - unfold RemoveArchivedInstantSendLocks. case_match; [done|]. cbn [snd db set_db].
    apply is_i_WriteBatch_subseteq. intros h l Hop.
    apply elem_of_RemoveArchived_loop in Hop as [?|(? & ? & ? & _ & [?|?])];
      [set_solver|done..].
  - unfold WriteBlockInstantSendLocks. unfold_monad.
    pose proof (BlockInstantSendLocks_loop_same WriteInstantSendLockMined_batch vtx
                  (nHeight pindexConnected) [] s) as [Hd _].
    pose proof (λ op, BlockInstantSendLocks_loop_ops WriteInstantSendLockMined_batch vtx
                  (nHeight pindexConnected) [] s op) as Hops.
    destruct (BlockInstantSendLocks_loop _ _ _ _ s) as [b1 s1]. cbn [fst snd db set_db] in *.
    rewrite Hd. apply is_i_WriteBatch_subseteq. intros h l Hop.
    destruct (Hops _ ltac:(intros; eexists; by left) Hop) as [Hnil|[key [?|?]]];
      [by apply elem_of_nil in Hnil|done..].
  - unfold RemoveBlockInstantSendLocks. unfold_monad.
    pose proof (BlockInstantSendLocks_loop_same RemoveInstantSendLockMined vtx
                  (nHeight pindexDisconnected) [] s) as [Hd _].
    pose proof (λ op, BlockInstantSendLocks_loop_ops RemoveInstantSendLockMined vtx
                  (nHeight pindexDisconnected) [] s op) as Hops.
    destruct (BlockInstantSendLocks_loop _ _ _ _ s) as [b1 s1]. cbn [fst snd db set_db] in *.
    rewrite Hd. apply is_i_WriteBatch_subseteq. intros h l Hop.
    destruct (Hops _ ltac:(intros; eexists; by right) Hop) as [Hnil|[key [?|?]]];
      [by apply elem_of_nil in Hnil|done..].
  - by pose proof (KnownInstantSendLock_same islockHash s) as [-> _].
  - done.
  - by pose proof (GetInstantSendLockByHash_same hash use_cache s) as [-> _].
  - by pose proof (GetInstantSendLockHashByTxid_same txid s) as [-> _].
  - by pose proof (GetInstantSendLockByTxid_same txid s) as [-> _].
  - by pose proof (GetInstantSendLockByInput_same outpoint s) as [-> _].
  - apply RemoveChained_is_i.
Qed.
End exclusive.
End Exclusive.

(** ** Input exclusivity: the manager *)

Module ExclusiveManager.
Import BytesFacts StoreFacts LockStore Confirmed RoundTrip Children Chained ChainedStore
       Queries Exclusive.

Section related.
Context {A B : Type}.

Lemma related_bind R1 R2 R3 (c : MgrM A) (k : A → MgrM B) :
  (∀ x y z, R1 x y → R2 y z → R3 x z) →
  islocks_related R1 c → (∀ a, islocks_related R2 (k a)) →
  islocks_related R3 (c ≫= k).
Proof.
  intros Hcomp Hc Hk m b m' Hrun. unfold mbind, MgrM_bind in Hrun.
  destruct (c m) as [[a m1]|] eqn:E; [|done].
  eapply Hcomp; [by eapply Hc|by eapply Hk].
Qed.

Lemma shrinks_bind (c : MgrM A) (k : A → MgrM B) :
  islocks_related shrinks c → (∀ a, islocks_related shrinks (k a)) →
  islocks_related shrinks (c ≫= k).
Proof. apply related_bind. intros x y z Hxy Hyz. unfold flip in *. by etrans. Qed.

Lemma shrinks_ret (a : A) : islocks_related shrinks (mret a).
Proof. by intros m a' m' [= <- <-]. Qed.

Lemma shrinks_abort : islocks_related shrinks (abort : MgrM A).
Proof. by intros m a' m'. Qed.

Lemma shrinks_on_db (c : DbM A) :
  (∀ s, is_i (db (c s).2) ⊆ is_i (db s)) → islocks_related shrinks (on_db c).
Proof. intros Hc m a m'. rewrite on_db_run. intros [= <- <-]. apply Hc. Qed.

End related.

Lemma shrinks_for_each {A : Type} (xs : list A) (body : A → MgrM unit) :
  (∀ x, islocks_related shrinks (body x)) → islocks_related shrinks (for_each xs body).
Proof.
  intros Hb. induction xs as [|x xs IH]; simpl.
  - by intros m a' m' [= <- <-].
  - apply shrinks_bind; [apply Hb|intros _; apply IH].
Qed.

Lemma shrinks_modify (f : CInstantSendManager → CInstantSendManager) :
  (∀ m, isdb (f m) = isdb m) → islocks_related shrinks (modify_mgr f).
Proof. intros Hf m a m' [= <- <-]. by rewrite Hf. Qed.

Lemma shrinks_emit (e : Event) : islocks_related shrinks (emit e).
Proof. by apply shrinks_modify. Qed.

Lemma shrinks_return : islocks_related shrinks mgr_return.
Proof. by intros m a' m' [= <- <-]. Qed.

Lemma shrinks_get_mgr : islocks_related shrinks get_mgr.
Proof. by intros m a' m' [= <- <-]. Qed.

Ltac solve_shrinks :=
  repeat first
    [ apply shrinks_return
    | apply shrinks_ret
    | apply shrinks_abort
    | apply shrinks_emit
    | apply shrinks_get_mgr
    | apply shrinks_modify; done
    | apply shrinks_for_each; intros ?
    | apply shrinks_bind; [|intros ?]
    | case_match ].

Section manager.
Context `{HeaderDecls} `{Primitives}.
Variable env : Env.

Lemma RemoveNonLockedTx_shrinks t rc :
  islocks_related shrinks (Manager.RemoveNonLockedTx t rc).
Proof. unfold Manager.RemoveNonLockedTx. solve_shrinks. Qed.

Lemma RemoveConflictedTx_shrinks tx :
  islocks_related shrinks (Manager.RemoveConflictedTx tx).
Proof.
  unfold Manager.RemoveConflictedTx.
  apply shrinks_bind; [apply RemoveNonLockedTx_shrinks|intros _]. solve_shrinks.
Qed.

Lemma TruncateRecoveredSigsForInputs_shrinks l :
  islocks_related shrinks (Manager.TruncateRecoveredSigsForInputs l).
Proof. unfold Manager.TruncateRecoveredSigsForInputs. solve_shrinks. Qed.

Lemma RemoveConflictingLock_shrinks h l :
  islocks_related shrinks (Manager.RemoveConflictingLock env h l).
Proof.
  unfold Manager.RemoveConflictingLock.
  apply shrinks_bind; [|intros ?; solve_shrinks].
  apply shrinks_on_db. intros s. apply RemoveChained_is_i.
Qed.

Lemma ResolveBlockConflicts_shrinks h l :
  islocks_related shrinks (Manager.ResolveBlockConflicts env h l).
Proof.
  unfold Manager.ResolveBlockConflicts.
  apply shrinks_bind; [apply shrinks_get_mgr|intros m].
  case_match; [apply RemoveConflictingLock_shrinks|].
  apply shrinks_bind; [|intros ?; solve_shrinks].
  apply shrinks_for_each. intros p.
  apply shrinks_bind; [|intros ?; solve_shrinks].
  apply shrinks_for_each. intros tx. apply RemoveConflictedTx_shrinks.
Qed.

Lemma RemoveMempoolConflictsForLock_shrinks h l :
  islocks_related shrinks (Manager.RemoveMempoolConflictsForLock env h l).
Proof.
  unfold Manager.RemoveMempoolConflictsForLock.
  apply shrinks_bind; [|intros ?].
  { apply shrinks_for_each. intros p. solve_shrinks. }
  case_match; [|apply shrinks_return].
  apply shrinks_bind; [|intros ?; apply shrinks_emit].
  apply shrinks_for_each. intros p.
  case_match; [apply RemoveConflictedTx_shrinks|apply shrinks_abort].
Qed.

Lemma shrinks_adds h l (c : MgrM unit) :
  islocks_related shrinks c → islocks_related (adds_at_most h l) c.
Proof. intros Hc m a m' Hrun. left. by apply (Hc m a m'). Qed.

Lemma adds_bind_l {A B : Type} h l (c : MgrM A) (k : A → MgrM B) :
  islocks_related shrinks c → (∀ a, islocks_related (adds_at_most h l) (k a)) →
  islocks_related (adds_at_most h l) (c ≫= k).
Proof.
  apply related_bind. intros x y z Hxy [Hyz|Hyz]; unfold flip in *.
  - left. by etrans.
  - right. etrans; [done|]. by apply insert_mono.
Qed.

Lemma adds_bind_r {A B : Type} h l (c : MgrM A) (k : A → MgrM B) :
  islocks_related (adds_at_most h l) c → (∀ a, islocks_related shrinks (k a)) →
  islocks_related (adds_at_most h l) (c ≫= k).
Proof.
  apply related_bind. intros x y z [Hxy|Hxy] Hyz; unfold flip in *.
  - left. by etrans.
  - right. by etrans.
Qed.

(** [ProcessInstantSendLock] adds at most the lock it is given. *)
Lemma ProcessInstantSendLock_adds from hash l :
  islocks_related (adds_at_most hash l) (Manager.ProcessInstantSendLock env from hash l).
Proof.
  unfold Manager.ProcessInstantSendLock.
  apply adds_bind_l; [by apply shrinks_modify|intros _].
  apply adds_bind_l; [|intros known].
  { apply shrinks_on_db. intros s. by pose proof (KnownInstantSendLock_same hash s) as [-> _]. }
  destruct known; [apply shrinks_adds, shrinks_return|].
  case_match; [apply shrinks_adds, shrinks_return|].
  apply adds_bind_l; [|intros _].
  { apply shrinks_on_db. intros s.
    by pose proof (GetInstantSendLockByTxid_same (txid l) s) as [-> _]. }
  apply adds_bind_l; [|intros _].
  { apply shrinks_for_each. intros i. apply shrinks_bind; [|intros ?; apply shrinks_return].
    apply shrinks_on_db. intros s.
    by pose proof (GetInstantSendLockByInput_same i s) as [-> _]. }
  apply adds_bind_r.
  { intros m a m' Hrun. rewrite on_db_run in Hrun. injection Hrun as _ <-. right.
    change (is_i (db (WriteNewInstantSendLock hash l (isdb m)).2)
            ⊆ <[hash := l]> (is_i (db (isdb m)))).
    by rewrite WriteNew_db. }
  intros _.
  apply shrinks_bind; [|intros _].
  { case_match; [|apply shrinks_return].
    apply shrinks_on_db. intros s. by rewrite WriteMined_db. }
  apply shrinks_bind; [apply RemoveNonLockedTx_shrinks|intros _].
  apply shrinks_bind; [apply TruncateRecoveredSigsForInputs_shrinks|intros _].
  apply shrinks_bind; [destruct (fst <$> _); apply shrinks_emit|intros _].
  apply shrinks_bind; [apply ResolveBlockConflicts_shrinks|intros _].
  apply shrinks_bind; [apply RemoveMempoolConflictsForLock_shrinks|intros _].
  destruct (fst <$> _); solve_shrinks.
Qed.

(** C1: input exclusivity and txid uniqueness over ISLOCK_BY_HASH hold
    after every sequence of calls of the lock store in which each written
    lock collides with no lock stored under another hash, and after
    ProcessInstantSendLock of such a lock; the code does not check it:
    WriteNewInstantSendLock stores any lock and points HASH_BY_TXID and
    HASH_BY_OUTPOINT of its txid and inputs at it. *)
Theorem locks_exclusive_when_no_collision :
  (∀ (s : CInstantSendDb) (ops : list DbOp),
     locks_exclusive (db s) → collision_free s ops →
     locks_exclusive (db (run_ops s ops)))
  ∧ (∀ (from : Z) (hash : uint256) (l : CInstantSendLock) (m m' : CInstantSendManager),
       Manager.ProcessInstantSendLock env from hash l m = Some (tt, m') →
       locks_exclusive (db (isdb m)) → ¬ collides (db (isdb m)) hash l →
       locks_exclusive (db (isdb m')))
  ∧ (∀ (s : CInstantSendDb) (hash : uint256) (l : CInstantSendLock),
       is_i (db (WriteNewInstantSendLock hash l s).2) !! hash = Some l
       ∧ is_tx (db (WriteNewInstantSendLock hash l s).2) !! txid l = Some hash
       ∧ ∀ o, o ∈ inputs l →
           is_in (db (WriteNewInstantSendLock hash l s).2) !! o = Some hash).
Proof.
  split_and!.
  - intros s ops. revert s. induction ops as [|op ops IH]; intros s Hex Hcf; [done|].
    destruct Hcf as [Hop Hcf]. cbn [run_ops foldl]. apply IH; [|done].
    pose proof (run_op_is_i s op) as Hi.
    destruct op; try (by eapply locks_exclusive_subseteq).
    eapply locks_exclusive_insert; [by rewrite Hi|done|done].
  - intros from hash l m m' Hrun Hex Hnc.
    destruct (ProcessInstantSendLock_adds from hash l m tt m' Hrun) as [Hs|Hs].
    + by eapply locks_exclusive_subseteq.
    + by eapply locks_exclusive_insert.
  - intros s hash l. rewrite WriteNew_db. cbn [is_i is_tx is_in].
    split_and!; [apply lookup_insert_eq..|].
    intros o Ho. revert Ho. generalize (is_in (db s)).
    induction (inputs l) as [|i ins IH] using rev_ind; intros m0 Ho.
    { by apply elem_of_nil in Ho. }
    rewrite foldl_app. cbn [foldl].
    destruct (decide (o = i)) as [->|Hne]; [apply lookup_insert_eq|].
    rewrite lookup_insert_ne by done. apply IH. set_solver.
Qed.
End manager.
End ExclusiveManager.

(** ** The cache of the lookup by hash *)

Module CacheFill.
Import LockStore ChainedStore Examples ExampleRuns.

(** C7: a lookup by hash that reads the store (no cache use, or a miss)
    reads the deterministic version first and the legacy version only when
    that read failed, and puts into the islock cache the result of the last
    read it made: the first read's when it succeeded, otherwise the second
    read's (nullptr when both fail). *)
Theorem lookup_caches_last_read (s : CInstantSendDb) (hash : uint256) (use_cache : bool) :
  IsNull hash = false →
  (use_cache = false ∨ assoc_find hash (cacheMap (islockCache s)) = None) →
  GetInstantSendLockByHash hash use_cache s =
    (match Read_islock (db s) hash isdlock_version with
     | Some ret => Some ret
     | None => Read_islock (db s) hash islock_version
     end,
     set_islockCache s
       (lru_insert hash
          (match Read_islock (db s) hash isdlock_version with
           | Some ret => Some ret
           | None => Read_islock (db s) hash islock_version
           end)
          (islockCache s))).
Proof.
  intros Hnn Hmiss. unfold GetInstantSendLockByHash. rewrite Hnn.
  destruct Hmiss as [->|Hmiss]; [done|].
  destruct use_cache; [|done]. by rewrite lru_get_miss.
Qed.

Lemma lookup_caches_last_read_witness :
  GetInstantSendLockByHash hash_a true (cold db_a) =
    (Some lock_a,
     set_islockCache (cold db_a) (lru_insert hash_a (Some lock_a) (islockCache (cold db_a)))).
Proof.
  exact (lookup_caches_last_read (cold db_a) hash_a true eq_refl (or_intror eq_refl)).
Defined.

(** The cache does not hold the result of a second read when the first
    succeeded: neither of a legacy read after a deterministic one (the order
    of the code), nor of a deterministic read after a legacy one. *)
Lemma cache_not_second_read :
  ¬ cache_holds_second_read islock_version ∧ ¬ cache_holds_second_read isdlock_version.
Proof.
  split; intros Hc.
  - specialize (Hc (cold db_a) hash_a true eq_refl (or_intror eq_refl)).
    vm_compute in Hc. discriminate Hc.
  - specialize (Hc (cold db_a_legacy) hash_a_legacy true eq_refl (or_intror eq_refl)).
    vm_compute in Hc. discriminate Hc.
Qed.

End CacheFill.

(** ** Runs on the example states *)

Module Runs.
Import BytesFacts StoreFacts LockStore Confirmed RoundTrip Children Chained ChainedStore
       Queries Exclusive ExclusiveManager Examples ExampleRuns.

#[local] Existing Instance upstream_header.
#[local] Existing Instance example_primitives.

Lemma best_confirmed_height_monotone_witness :
  RemoveConfirmedInstantSendLocks 3 db_confirmed = (∅, db_confirmed)
  ∧ best_confirmed_height (RemoveConfirmedInstantSendLocks 9 db_confirmed).2 = 9.
Proof.
  split.
  - apply (best_confirmed_height_monotone db_confirmed [] 3).
    vm_compute. discriminate.
  - apply (best_confirmed_height_monotone db_confirmed [] 9).
    vm_compute. reflexivity.
Defined.

Lemma confirmed_lock_removed_but_known_witness :
  best_confirmed_height db0 < 5
  ∧ IsNull hash_a = false
  ∧ is_i (db db_confirmed) !! hash_a = None
  ∧ (GetInstantSendLockByHash hash_a false db_confirmed).1 = None
  ∧ (KnownInstantSendLock hash_a db_confirmed).1 = true
  ∧ (KnownInstantSendLock hash_a
       (RemoveArchivedInstantSendLocks 4
          (RemoveArchivedInstantSendLocks 3 db_confirmed).2).2).1 = true.
Proof.
  assert (best_confirmed_height db0 < 5) as H1 by (vm_compute; reflexivity).
  assert (IsNull hash_a = false) as H2 by reflexivity.
  pose proof (confirmed_lock_removed_but_known db0 hash_a lock_a 5 H1 H2)
    as (Ha & Hb & Hc & Hd).
  assert (Forall (λ n, n < 5) [3; 4]) as Hns by (repeat constructor).
  specialize (Hd [3; 4] Hns eq_refl (λ x, lookup_empty _) (λ x, lookup_empty _)).
  exact (conj H1 (conj H2 (conj Ha (conj Hb (conj Hc Hd))))).
Defined.

(** With the defaults of the header (caches used, and kept when a confirmed
    lock is removed), the lookup by hash still returns the lock after it was
    confirmed and removed from the store. *)
Lemma confirmed_lock_still_cached :
  best_confirmed_height db0 < 5
  ∧ (GetInstantSendLockByHash hash_a use_cache_default db_confirmed).1
    = Some lock_a
  ∧ (GetInstantSendLockByHash hash_a use_cache_default db_confirmed).1
    ≠ None.
Proof. split_and!; [vm_compute; reflexivity|vm_compute; reflexivity|vm_compute; discriminate]. Qed.

(** Why the round trip needs a store without an older mined entry for the
    hash: with a mined mark at height 3 left in the store, confirming up to
    height 5 archives the hash at both heights, and
    RemoveArchivedInstantSendLocks(3) then erases its archive entry by
    hash; after a restart (cold caches) KnownInstantSendLock no longer
    knows the lock. *)
Lemma older_mined_mark_ages_out :
  is_m (db (WriteInstantSendLockMined hash_a 3 db0).2)
    !! ((BuildInversedISLockKey DB_MINED_BY_HEIGHT_AND_HASH 3 hash_a).1.2, hash_a) = Some true
  ∧ best_confirmed_height (WriteInstantSendLockMined hash_a 3 db0).2 < 5
  ∧ is_a2 (db (RemoveConfirmedInstantSendLocks 5
                 (WriteInstantSendLockMined hash_a 5
                    (WriteNewInstantSendLock hash_a lock_a
                       (WriteInstantSendLockMined hash_a 3 db0).2).2).2).2) !! hash_a
    = Some true
  ∧ is_a2 (db (RemoveArchivedInstantSendLocks 3
                 (RemoveConfirmedInstantSendLocks 5
                    (WriteInstantSendLockMined hash_a 5
                       (WriteNewInstantSendLock hash_a lock_a
                          (WriteInstantSendLockMined hash_a 3 db0).2).2).2).2).2) !! hash_a
    = None
  ∧ (KnownInstantSendLock hash_a
       (cold (RemoveArchivedInstantSendLocks 3
                (RemoveConfirmedInstantSendLocks 5
                   (WriteInstantSendLockMined hash_a 5
                      (WriteNewInstantSendLock hash_a lock_a
                         (WriteInstantSendLockMined hash_a 3 db0).2).2).2).2).2)).1 = false.
Proof. split_and!; vm_compute; reflexivity. Qed.

Lemma disabled_queries_witness :
  IsInstantSendEnabled env_disabled = false
  ∧ Manager.IsLocked env_disabled 7 (mgr_of db_a) = Some (false, mgr_of db_a)
  ∧ Manager.AlreadyHave env_disabled (mkInv MSG_ISLOCK hash_a) (mgr_of db_a)
    = Some (true, mgr_of db_a).
Proof.
  pose proof (disabled_queries env_disabled 7 (mkInv MSG_ISLOCK hash_a)
                (mgr_of db_a) eq_refl) as (Ha & _ & Hc).
  exact (conj eq_refl (conj Ha Hc)).
Defined.

Lemma PreVerify_rejects_witness :
  PreVerifyInstantSendLock lock_no_inputs = false
  ∧ ∃ m', Manager.ProcessMessageInstantSendLock env0 5
            lock_no_inputs (mgr_of db0) = Some (tt, m')
          ∧ pendingInstantSendLocks m' = ∅.
Proof.
  split; [reflexivity|].
  destruct (proj2 (PreVerify_rejects env0 5
                     lock_no_inputs (mgr_of db0)) eq_refl) as (m' & Hrun & _ & Hp).
  exists m'. exact (conj Hrun Hp).
Defined.

Lemma CheckCanLock_iff_witness :
  vin tx_b ≠ [] ∧ all_lockable env0 (vin tx_b) (mgr_of db0).
Proof.
  apply (CheckCanLock_iff env0 tx_b false (mgr_of db0)).
  eexists. vm_compute. reflexivity.
Defined.




Lemma db_chain_exclusive : locks_exclusive (db db_chain).
Proof.
  intros h1 h2 l1 l2 Hne Hl1 Hl2. apply elem_of_map_to_list in Hl1, Hl2.
  vm_compute in Hl1, Hl2.
  apply elem_of_cons in Hl1 as [Hl1|Hl1]; [|apply elem_of_cons in Hl1 as [Hl1|Hl1];
    [|by apply elem_of_nil in Hl1]];
  (apply elem_of_cons in Hl2 as [Hl2|Hl2]; [|apply elem_of_cons in Hl2 as [Hl2|Hl2];
    [|by apply elem_of_nil in Hl2]]);
  injection Hl1 as -> ->; injection Hl2 as -> ->; try done;
  (split; [discriminate|]); intros o Ho Ho';
  repeat (apply elem_of_cons in Ho as [->|Ho];
          [repeat (apply elem_of_cons in Ho' as [Ho'|Ho']; [discriminate Ho'|]);
           by apply elem_of_nil in Ho'|]);
  by apply elem_of_nil in Ho.
Qed.

Lemma lock_free_no_collision : ¬ collides (db db_chain) hash_free lock_free.
Proof.
  intros (h' & l' & _ & Hl & Hcol). apply elem_of_map_to_list in Hl. vm_compute in Hl.
  apply elem_of_cons in Hl as [Hl|Hl]; [|apply elem_of_cons in Hl as [Hl|Hl];
    [|by apply elem_of_nil in Hl]];
  injection Hl as -> ->;
  (destruct Hcol as [Ht|(o & Ho & Ho')]; [discriminate Ht|]);
  apply list_elem_of_singleton in Ho; subst o;
  repeat (apply elem_of_cons in Ho' as [Ho'|Ho']; [discriminate Ho'|]);
  by apply elem_of_nil in Ho'.
Qed.

Lemma locks_exclusive_when_no_collision_witness :
  (locks_exclusive (db db_chain)
   ∧ collision_free db_chain [OpWriteNewInstantSendLock hash_free lock_free;
                              OpWriteInstantSendLockMined hash_free 5]
   ∧ is_i (db (run_ops db_chain [OpWriteNewInstantSendLock hash_free lock_free;
                                OpWriteInstantSendLockMined hash_free 5])) !! hash_free
     = Some lock_free
   ∧ locks_exclusive (db (run_ops db_chain [OpWriteNewInstantSendLock hash_free lock_free;
                                           OpWriteInstantSendLockMined hash_free 5])))
  ∧ (¬ collides (db (isdb (mgr_of db_chain))) hash_free lock_free
     ∧ ∃ m', Manager.ProcessInstantSendLock env0 1 hash_free lock_free (mgr_of db_chain)
             = Some (tt, m')
             ∧ is_i (db (isdb m')) !! hash_a = Some lock_a
             ∧ is_i (db (isdb m')) !! hash_child = Some lock_child
             ∧ is_i (db (isdb m')) !! hash_free = Some lock_free
             ∧ locks_exclusive (db (isdb m')))
  ∧ is_tx (db (WriteNewInstantSendLock hash_a_legacy lock_a_legacy db_a).2) !! 7
    = Some hash_a_legacy.
Proof.
  destruct (locks_exclusive_when_no_collision env0) as (Hops & Hproc & Hwrite).
  assert (collision_free db_chain [OpWriteNewInstantSendLock hash_free lock_free;
                                   OpWriteInstantSendLockMined hash_free 5]) as Hcf.
  { split; [exact lock_free_no_collision|]. split; exact I. }
  split_and!.
  - exact db_chain_exclusive.
  - exact Hcf.
  - vm_compute. reflexivity.
  - exact (Hops db_chain _ db_chain_exclusive Hcf).
  - exact lock_free_no_collision.
  - assert (∃ m', Manager.ProcessInstantSendLock env0 1 hash_free lock_free (mgr_of db_chain)
                  = Some (tt, m')) as [m' Hrun] by (eexists; vm_compute; reflexivity).
    exists m'. split; [exact Hrun|].
    pose proof (Hproc 1 hash_free lock_free (mgr_of db_chain) m' Hrun db_chain_exclusive
                  lock_free_no_collision) as Hex.
    vm_compute in Hrun. injection Hrun as <-.
    split_and!; [vm_compute; reflexivity..|exact Hex].
  - exact (proj1 (proj2 (Hwrite db_a hash_a_legacy lock_a_legacy))).
Defined.
(** ProcessInstantSendLock commits a lock for a txid that is already locked
    under another hash: both locks are then in ISLOCK_BY_HASH, and a third
    lock that spends an input of the first is committed as well. *)
Lemma ProcessInstantSendLock_commits_colliding_lock :
  locks_exclusive (db (isdb (mgr_of db_a)))
  ∧ ∃ m1 m2,
      Manager.ProcessInstantSendLock env0 1 hash_a_legacy lock_a_legacy (mgr_of db_a)
        = Some (tt, m1)
      ∧ Manager.ProcessInstantSendLock env0 1 hash_conflict lock_conflict m1 = Some (tt, m2)
      ∧ is_i (db (isdb m1)) !! hash_a = Some lock_a
      ∧ is_i (db (isdb m1)) !! hash_a_legacy = Some lock_a_legacy
      ∧ is_i (db (isdb m2)) !! hash_conflict = Some lock_conflict
      ∧ ¬ locks_exclusive (db (isdb m1))
      ∧ ¬ locks_exclusive (db (isdb m2)).
Proof.
  split.
  { intros h1 h2 l1 l2 Hne Hl1 Hl2. apply elem_of_map_to_list in Hl1, Hl2.
    vm_compute in Hl1, Hl2.
    apply elem_of_cons in Hl1 as [Hl1|Hl1]; [|by apply elem_of_nil in Hl1].
    apply elem_of_cons in Hl2 as [Hl2|Hl2]; [|by apply elem_of_nil in Hl2].
    congruence. }
  eexists _, _. split_and!; [vm_compute; reflexivity..| |].
  - intros Hex.
    destruct (Hex hash_a hash_a_legacy lock_a lock_a_legacy) as [Ht _];
      [discriminate|vm_compute; reflexivity..|].
    by apply Ht.
  - intros Hex.
    destruct (Hex hash_a hash_conflict lock_a lock_conflict) as [_ Hin];
      [discriminate|vm_compute; reflexivity..|].
    apply (Hin (mkOutPoint 3 1)); simpl; set_solver.
Qed.

End Runs.

(** ** Coherence of the caches *)

Module CacheCoherence.
Import LockStore StoreFacts RoundTrip ChainedStore Exclusive.

Section cache.
Context {K V : Type} `{EqDecision K}.
Implicit Types (c : unordered_lru_cache K V) (l : list (K * V)).

Lemma assoc_find_take_Some k l (m : nat) v :
  assoc_find k (take m l) = Some v → assoc_find k l = Some v.
Proof.
  revert m. induction l as [|[k' v'] l IH]; intros [|m]; simpl; try done.
  destruct (decide (k' = k)); [done|]. apply IH.
Qed.

Lemma assoc_find_remove_Some k k' l v :
  assoc_find k (assoc_remove k' l) = Some v → k ≠ k' ∧ assoc_find k l = Some v.
Proof.
  induction l as [|[k1 v1] l IH]; simpl; [done|].
  destruct (decide (k1 = k')) as [->|Hne].
  - intros [Hk Hf]%IH. split; [done|]. by destruct (decide (k' = k)) as [->|].
  - simpl. destruct (decide (k1 = k)) as [->|]; [|done].
    intros [= ->]. split; [by intros ->|done].
Qed.

Lemma assoc_find_remove_ne k k' l :
  k ≠ k' → assoc_find k (assoc_remove k' l) = assoc_find k l.
Proof.
  intros Hne. induction l as [|[k1 v1] l IH]; simpl; [done|].
  destruct (decide (k1 = k')) as [->|Hne1].
  - destruct (decide (k' = k)); [by subst|done].
  - simpl. by destruct (decide (k1 = k)).
Qed.

Lemma lru_insert_find k k' v c x :
  assoc_find k (cacheMap (lru_insert k' v c)) = Some x →
  (k = k' ∧ x = v) ∨ (k ≠ k' ∧ assoc_find k (cacheMap c) = Some x).
Proof.
  unfold lru_insert. cbn [cacheMap]. intros Hf%assoc_find_take_Some.
  simpl in Hf. destruct (decide (k' = k)) as [->|Hne].
  - left. by injection Hf as ->.
  - right. apply assoc_find_remove_Some in Hf as [? ?]. done.
Qed.

Lemma lru_erase_find k k' c x :
  assoc_find k (cacheMap (lru_erase k' c)) = Some x →
  k ≠ k' ∧ assoc_find k (cacheMap c) = Some x.
Proof. unfold lru_erase. cbn [cacheMap]. apply assoc_find_remove_Some. Qed.

Lemma lru_get_result k c : (lru_get k c).1 = assoc_find k (cacheMap c).
Proof. unfold lru_get. by destruct (assoc_find k (cacheMap c)). Qed.

Lemma lru_get_find k c k' :
  assoc_find k' (cacheMap (lru_get k c).2) = assoc_find k' (cacheMap c).
Proof.
  unfold lru_get. destruct (assoc_find k (cacheMap c)) as [v|] eqn:E; [|done].
  cbn [snd cacheMap]. simpl. destruct (decide (k = k')) as [->|Hne]; [done|].
  by apply assoc_find_remove_ne.
Qed.

Lemma cache_agrees_insert (f : K → V) k c :
  cache_agrees f c → cache_agrees f (lru_insert k (f k) c).
Proof.
  intros Hc k' v [[-> ->]|[_ Hf]]%lru_insert_find; [done|]. by apply Hc.
Qed.

Lemma cache_agrees_erase (f : K → V) k c :
  cache_agrees f c → cache_agrees f (lru_erase k c).
Proof. intros Hc k' v [_ Hf]%lru_erase_find. by apply Hc. Qed.

Lemma cache_agrees_get (f : K → V) k c :
  cache_agrees f c → cache_agrees f (lru_get k c).2.
Proof. intros Hc k' v. rewrite lru_get_find. apply Hc. Qed.

(** A change of the function off the cached keys keeps the agreement. *)
Lemma cache_agrees_ext (f g : K → V) c :
  cache_agrees f c → (∀ k, is_Some (assoc_find k (cacheMap c)) → g k = f k) →
  cache_agrees g c.
Proof. intros Hc Hfg k v Hf. rewrite Hfg by done. by apply Hc. Qed.

(** The lookup through a cache: a hit, or a read that is cached. *)
Lemma cached_read (f : K → V) k c :
  cache_agrees f c →
  match lru_get k c with
  | (Some v, c') => v = f k ∧ cache_agrees f c'
  | (None, _) => cache_agrees f (lru_insert k (f k) c)
  end.
Proof.
  intros Hc. pose proof (lru_get_result k c) as Hr.
  pose proof (cache_agrees_get f k c Hc) as Hg.
  destruct (lru_get k c) as [[v|] c']; cbn [fst snd] in *.
  - split; [by apply Hc|done].
  - by apply cache_agrees_insert.
Qed.
End cache.

Section coherent.
Context `{HeaderDecls}.

Lemma coherent_same_indexes (s s' : CInstantSendDb) :
  is_i (db s') = is_i (db s) → is_tx (db s') = is_tx (db s) → is_in (db s') = is_in (db s) →
  islockCache s' = islockCache s → txidCache s' = txidCache s →
  outpointCache s' = outpointCache s →
  caches_coherent s → caches_coherent s'.
Proof. unfold caches_coherent. by intros -> -> -> -> -> ->. Qed.

Lemma GetInstantSendLockByHash_coherent h uc (s : CInstantSendDb) :
  caches_coherent s →
  (GetInstantSendLockByHash h uc s).1 = committed (db s) h
  ∧ caches_coherent (GetInstantSendLockByHash h uc s).2.
Proof.
  intros (Hi & Ht & Ho). unfold GetInstantSendLockByHash, committed.
  destruct (IsNull h); [done|].
  rewrite ReadInstantSendLock_lookup.
  destruct uc.
  - pose proof (cached_read _ h _ Hi) as Hr.
    destruct (lru_get h (islockCache s)) as [[v|] c'].
    + destruct Hr as [-> Hc]. done.
    + done.
  - cbn. split; [done|]. split; [|done]. by apply (cache_agrees_insert (λ h, is_i (db s) !! h)).
Qed.

Lemma GetInstantSendLockHashByTxid_coherent t (s : CInstantSendDb) :
  caches_coherent s →
  (GetInstantSendLockHashByTxid t s).1 = default 0 (is_tx (db s) !! t)
  ∧ caches_coherent (GetInstantSendLockHashByTxid t s).2.
Proof.
  intros (Hi & Ht & Ho). unfold GetInstantSendLockHashByTxid.
  pose proof (cached_read _ t _ Ht) as Hr.
  destruct (lru_get t (txidCache s)) as [[v|] c'].
  - destruct Hr as [-> Hc]. done.
  - done.
Qed.

Lemma GetInstantSendLockByTxid_coherent t (s : CInstantSendDb) :
  caches_coherent s →
  (GetInstantSendLockByTxid t s).1 = committed (db s) (default 0 (is_tx (db s) !! t))
  ∧ caches_coherent (GetInstantSendLockByTxid t s).2.
Proof.
  intros Hc. unfold GetInstantSendLockByTxid. unfold_monad.
  destruct (GetInstantSendLockHashByTxid_coherent t s Hc) as [Hr Hc1].
  pose proof (GetInstantSendLockHashByTxid_same t s) as [Hd _].
  destruct (GetInstantSendLockHashByTxid t s) as [h s1]. cbn [fst snd] in *. subst h.
  rewrite <- Hd. by apply GetInstantSendLockByHash_coherent.
Qed.

Lemma GetInstantSendLockByInput_coherent o (s : CInstantSendDb) :
  caches_coherent s →
  (GetInstantSendLockByInput o s).1 = committed (db s) (default 0 (is_in (db s) !! o))
  ∧ caches_coherent (GetInstantSendLockByInput o s).2.
Proof.
  intros (Hi & Ht & Ho). unfold GetInstantSendLockByInput. unfold_monad.
  pose proof (cached_read _ o _ Ho) as Hr.
  destruct (lru_get o (outpointCache s)) as [[v|] c'].
  - destruct Hr as [-> Hc].
    by apply (GetInstantSendLockByHash_coherent _ _ (set_outpointCache s c')).
  - by apply (GetInstantSendLockByHash_coherent _ _ (set_outpointCache s _)).
Qed.

Lemma KnownInstantSendLock_coherent h (s : CInstantSendDb) :
  caches_coherent s →
  (KnownInstantSendLock h s).1
    = bool_decide (committed (db s) h ≠ None) || bool_decide (is_Some (is_a2 (db s) !! h))
  ∧ caches_coherent (KnownInstantSendLock h s).2.
Proof.
  intros Hc. unfold KnownInstantSendLock. unfold_monad.
  destruct (GetInstantSendLockByHash_coherent h use_cache_default s Hc) as [Hr Hc1].
  pose proof (GetInstantSendLockByHash_same h use_cache_default s) as [Hd _].
  destruct (GetInstantSendLockByHash h use_cache_default s) as [r s1]. cbn [fst snd] in *.
  subst r. by rewrite <- Hd.
Qed.

(** A batch of mined, archived and version entries leaves the primary
    indexes as they are. *)
Lemma WriteBatch_secondary d batch :
  (∀ op, op ∈ batch →
     match op with
     | Write_inversed _ | Erase_inversed _ | Write_archived_hash _
     | Erase_archived_hash _ | Write_version _ => True
     | _ => False
     end) →
  is_i (WriteBatch d batch) = is_i d ∧ is_tx (WriteBatch d batch) = is_tx d
  ∧ is_in (WriteBatch d batch) = is_in d.
Proof.
  batch_ind batch; intros Hops; [done|].
  destruct IH as (<- & <- & <-); [intros ? ?; apply Hops; set_solver|].
  specialize (Hops op ltac:(set_solver)).
  by destruct op as [| | | | | |[[[] ?] ?]|[[[] ?] ?]| | |].
Qed.

Lemma cache_agrees_insert_new {K V : Type} `{EqDecision K} (f g : K → V) k v
    (c : unordered_lru_cache K V) :
  cache_agrees f c → g k = v → (∀ k', k' ≠ k → g k' = f k') →
  cache_agrees g (lru_insert k v c).
Proof.
  intros Hc Hk Hne k' x [[-> ->]|[Hk' Hf]]%lru_insert_find; [done|].
  rewrite Hne by done. by apply Hc.
Qed.

Lemma outpoints_coherent (hash : uint256) (ins : list COutPoint)
    (m : gmap COutPoint uint256) (c : unordered_lru_cache COutPoint uint256) :
  cache_agrees (λ o, default 0 (m !! o)) c →
  cache_agrees (λ o, default 0 (foldl (λ m i, <[i := hash]> m) m ins !! o))
               (foldl (λ c i, lru_insert i hash c) c ins).
Proof.
  revert m c. induction ins as [|i ins IH]; intros m c Hc; [done|].
  cbn [foldl]. apply IH.
  eapply cache_agrees_insert_new; [exact Hc|..].
  - cbn beta. by rewrite lookup_insert_eq.
  - intros k' Hk'. cbn beta. by rewrite lookup_insert_ne.
Qed.

Lemma WriteNewInstantSendLock_coherent hash l (s : CInstantSendDb) :
  caches_coherent s → caches_coherent (WriteNewInstantSendLock hash l s).2.
Proof.
  intros (Hi & Ht & Ho). unfold caches_coherent. rewrite WriteNew_db.
  cbn [is_i is_tx is_in]. unfold WriteNewInstantSendLock. unfold_monad.
  cbn [snd islockCache txidCache outpointCache set_outpointCache set_txidCache
       set_islockCache set_db].
  split_and!.
  - eapply cache_agrees_insert_new; [exact Hi|..].
    + cbn beta. by rewrite lookup_insert_eq.
    + intros k' Hk'. cbn beta. by rewrite lookup_insert_ne.
  - eapply cache_agrees_insert_new; [exact Ht|..].
    + cbn beta. by rewrite lookup_insert_eq.
    + intros k' Hk'. cbn beta. by rewrite lookup_insert_ne.
  - by apply outpoints_coherent.
Qed.

Lemma BlockInstantSendLocks_loop_coherent upd vtx nH batch (s : CInstantSendDb) :
  caches_coherent s → caches_coherent (BlockInstantSendLocks_loop upd vtx nH batch s).2.
Proof.
  revert batch s. induction vtx as [|tx vtx IH]; intros batch s Hc; [done|].
  cbn [BlockInstantSendLocks_loop].
  destruct (is_coinbase tx || bool_decide (vin tx = [])); [by apply IH|].
  unfold_monad.
  destruct (GetInstantSendLockHashByTxid_coherent (tx_hash tx) s Hc) as [_ Hc1].
  destruct (GetInstantSendLockHashByTxid (tx_hash tx) s) as [h s1]. by apply IH.
Qed.

Lemma block_update_coherent upd vtx nH (s : CInstantSendDb) :
  (∀ b h z, ∃ key, upd b h z = b ++ [Write_inversed key]
                   ∨ upd b h z = b ++ [Erase_inversed key]) →
  caches_coherent s →
  caches_coherent
    ((batch ← BlockInstantSendLocks_loop upd vtx nH [];
      modify_state (λ s, set_db s (WriteBatch (db s) batch))) s).2.
Proof.
  intros Hupd Hc. unfold_monad.
  pose proof (BlockInstantSendLocks_loop_coherent upd vtx nH [] s Hc) as Hc1.
  pose proof (λ op, BlockInstantSendLocks_loop_ops upd vtx nH [] s op Hupd) as Hops.
  destruct (BlockInstantSendLocks_loop upd vtx nH [] s) as [batch s1]. cbn [fst snd] in *.
  destruct (WriteBatch_secondary (db s1) batch) as (Ei & Et & Eo).
  { intros op [Hin|[key [-> | ->]]]%Hops; [by apply elem_of_nil in Hin|done..]. }
  eapply coherent_same_indexes; [..|exact Hc1]; done.
Qed.

Lemma RemoveArchivedInstantSendLocks_coherent n (s : CInstantSendDb) :
  caches_coherent s → caches_coherent (RemoveArchivedInstantSendLocks n s).2.
Proof.
  intros Hc. unfold RemoveArchivedInstantSendLocks. case_match; [done|].
  cbn [snd].
  match goal with |- context [WriteBatch ?d ?b] =>
    destruct (WriteBatch_secondary d b) as (Ei & Et & Eo) end.
  { intros op [Hin|(x & h & b & _ & [-> | ->])]%elem_of_RemoveArchived_loop;
      [by apply elem_of_nil in Hin|done..]. }
  eapply coherent_same_indexes; [..|exact Hc]; done.
Qed.

Lemma WriteInstantSendLockMined_coherent hash h (s : CInstantSendDb) :
  caches_coherent s → caches_coherent (WriteInstantSendLockMined hash h s).2.
Proof.
  intros Hc. eapply coherent_same_indexes; [..|exact Hc]; try done;
    by rewrite WriteMined_db.
Qed.
End coherent.

End CacheCoherence.

Module ChainedCaches.
Import LockStore StoreFacts RoundTrip ChainedStore Exclusive CacheCoherence.

Lemma is_tx_WriteBatch_keep d batch t :
  (∀ h, Write_txid t h ∉ batch) → Erase_txid t ∉ batch →
  is_tx (WriteBatch d batch) !! t = is_tx d !! t.
Proof.
  batch_ind batch; intros Hw He; [done|].
  rewrite <- IH by set_solver.
  destruct op as [| |t' h'|t'| | |[[[] ?] ?]|[[[] ?] ?]| | |]; simpl; try done.
  - rewrite lookup_insert_ne; [done|]. intros ->. apply (Hw h'). set_solver.
  - rewrite lookup_delete_ne; [done|]. intros ->. apply He. set_solver.
Qed.

Lemma is_in_WriteBatch_keep d batch o :
  (∀ h, Write_outpoint o h ∉ batch) → Erase_outpoint o ∉ batch →
  is_in (WriteBatch d batch) !! o = is_in d !! o.
Proof.
  batch_ind batch; intros Hw He; [done|].
  rewrite <- IH by set_solver.
  destruct op as [| | | |o' h'|o'|[[[] ?] ?]|[[[] ?] ?]| | |]; simpl; try done.
  - rewrite lookup_insert_ne; [done|]. intros ->. apply (Hw h'). set_solver.
  - rewrite lookup_delete_ne; [done|]. intros ->. apply He. set_solver.
Qed.

Lemma erase_all_agrees {K V : Type} `{EqDecision K} (f : K → V) (ks : list K)
    (c : unordered_lru_cache K V) :
  cache_agrees f c → cache_agrees f (foldl (λ c k, lru_erase k c) c ks).
Proof.
  revert c. induction ks as [|k ks IH]; intros c Hc; [done|].
  cbn [foldl]. by apply IH, cache_agrees_erase.
Qed.

Lemma erase_all_find {K V : Type} `{EqDecision K} (k : K) (ks : list K)
    (c : unordered_lru_cache K V) :
  k ∈ ks ∨ assoc_find k (cacheMap c) = None →
  assoc_find k (cacheMap (foldl (λ c k, lru_erase k c) c ks)) = None.
Proof.
  revert c. induction ks as [|k' ks IH]; intros c Hk; cbn [foldl].
  - destruct Hk as [Hk|Hk]; [by apply elem_of_nil in Hk|done].
  - apply IH. destruct Hk as [[->|Hk]%elem_of_cons|Hk].
    + right. apply lru_erase_find_eq.
    + by left.
    + right. by apply lru_erase_find_None.
Qed.

Section chained.
Context `{HeaderDecls}.

(** A found child: looked up, removed from the caches. *)
Lemma remove_child_caches batch c l res (s : CInstantSendDb) :
  committed (db s) c = Some l →
  caches_coherent s → removed_uncached (db s) s res →
  let r := RemoveInstantSendLock batch c (Some l) false
             (GetInstantSendLockByHash c false s).2 in
  caches_coherent r.2 ∧ removed_uncached (db s) r.2 (res ++ [c]).
Proof.
  intros Hc Hcoh Hun r.
  pose proof (IsNull_committed _ _ _ Hc) as Hnn.
  destruct (GetInstantSendLockByHash_coherent c false s Hcoh) as [_ Hcoh1].
  unfold r. clear r. revert Hcoh1.
  rewrite GetInstantSendLockByHash_uncached, Hnn.
  cbn [snd]. intros (Hi & Ht & Ho).
  unfold RemoveInstantSendLock. unfold_monad.
  cbn [snd fst db islockCache txidCache outpointCache set_islockCache set_txidCache
       set_outpointCache] in *.
  split.
  - split_and!; cbn [db islockCache txidCache outpointCache].
    + by apply cache_agrees_erase.
    + by apply cache_agrees_erase.
    + by apply erase_all_agrees.
  - intros h l' [Hh|Hh%list_elem_of_singleton]%elem_of_app Hc';
      cbn [islockCache txidCache outpointCache].
    + destruct (Hun h l' Hh Hc') as (Hui & Hut & Huo). split_and!.
      * destruct (decide (h = c)) as [->|Hne]; [apply lru_erase_find_eq|].
        by apply lru_erase_find_None, lru_insert_find_None.
      * by apply lru_erase_find_None.
      * intros o Hin. apply erase_all_find. right. by apply Huo.
    + subst h. assert (l' = l) as -> by congruence. split_and!.
      * apply lru_erase_find_eq.
      * apply lru_erase_find_eq.
      * intros o Hin. apply erase_all_find. by left.
Qed.

(** A child that is not in the store: looked up only. *)
Lemma missing_child_caches c res (s : CInstantSendDb) :
  committed (db s) c = None →
  caches_coherent s → removed_uncached (db s) s res →
  caches_coherent (GetInstantSendLockByHash c false s).2
  ∧ removed_uncached (db s) (GetInstantSendLockByHash c false s).2 res.
Proof.
  intros Hc Hcoh Hun.
  split; [by apply GetInstantSendLockByHash_coherent|].
  rewrite GetInstantSendLockByHash_uncached. cbn [snd].
  destruct (IsNull c); [done|].
  intros h l Hh Hc'. destruct (Hun h l Hh Hc') as (Hui & Hut & Huo).
  split_and!; [|done..]. cbn [islockCache set_islockCache].
  apply lru_insert_find_None; [|done]. intros ->. congruence.
Qed.

Lemma RemoveChained_children_caches nH cs v (s : CInstantSendDb) :
  chained_cache_inv (db s) nH s v →
  chained_cache_inv (db s) nH (RemoveChained_children nH cs v s).2
                    (RemoveChained_children nH cs v s).1.
Proof.
  revert v s. induction cs as [|c cs IH]; intros v s Hinv; [done|].
  destruct Hinv as (_ & Hcoh & Hb & Hun).
  destruct (committed (db s) c) as [l|] eqn:Hc.
  - rewrite (RemoveChained_children_found _ _ _ _ l) by done.
    destruct (remove_child_caches (ch_batch v) c l (ch_result v) s Hc Hcoh Hun)
      as [Hcoh1 Hun1].
    destruct (remove_child_run (ch_batch v) c l s Hc) as (_ & Hd & _).
    cbn zeta in *.
    set (s1 := (RemoveInstantSendLock _ _ _ _ _).2) in *.
    rewrite <- Hd. apply IH. rewrite Hd.
    assert (ch_result (chained_step nH v c l) = ch_result v ++ [c]
            ∧ ch_batch (chained_step nH v c l)
              = ch_batch v ++ remove_ops c l ++ archive_ops c nH) as [Er Eb].
    { unfold chained_step. by case_bool_decide. }
    split_and!; [done|done| |by rewrite Er].
    intros op. rewrite Eb, Er. intros [Hop|Hop]%elem_of_app.
    + destruct (Hb op Hop) as (h & l' & Hh & Hc' & Hin).
      exists h, l'. split_and!; [set_solver|done..].
    + exists c, l. split_and!; [set_solver|done..].
  - rewrite RemoveChained_children_missing by done.
    destruct (missing_child_caches c (ch_result v) s Hc Hcoh Hun) as [Hcoh1 Hun1].
    pose proof (GetInstantSendLockByHash_same c false s) as [Hd _].
    set (s1 := (GetInstantSendLockByHash c false s).2) in *.
    rewrite <- Hd. apply IH. rewrite Hd. done.
Qed.

Lemma RemoveChained_while_caches fuel nH v (s : CInstantSendDb) :
  chained_cache_inv (db s) nH s v →
  caches_coherent (RemoveChained_while fuel nH v s).2
  ∧ ∀ v', (RemoveChained_while fuel nH v s).1 = Some v' →
      chained_cache_inv (db s) nH (RemoveChained_while fuel nH v s).2 v'.
Proof.
  revert v s. induction fuel as [|fuel IH]; intros v s Hinv; cbn [RemoveChained_while].
  - destruct (ch_stack v); (split; [apply Hinv|]); [by intros ? [= <-]|done].
  - destruct (ch_stack v) as [|back st] eqn:Est.
    { split; [apply Hinv|]. by intros ? [= <-]. }
    unfold_monad. unfold GetInstantSendLocksByParent.
    set (v0 := mkChained _ _ _ _).
    assert (chained_cache_inv (db s) nH s v0) as Hinv0 by apply Hinv.
    pose proof (RemoveChained_children_caches nH
                  (ByParent_loop back
                     (db_seek ser_outpoint (is_in (db s)) (mkOutPoint back 0)) []) v0 s Hinv0)
      as Hinv1.
    destruct (RemoveChained_children _ _ v0 s) as [v1 s1]. cbn [fst snd] in *.
    assert (db s1 = db s) as Hd by apply Hinv1.
    rewrite <- Hd. apply IH. by rewrite Hd.
Qed.

Lemma RemoveInstantSendLock_missing batch h kc (s : CInstantSendDb) :
  committed (db s) h = None →
  RemoveInstantSendLock batch h None kc s = (batch, (GetInstantSendLockByHash h false s).2).
Proof.
  intros Hc. unfold RemoveInstantSendLock. unfold_monad.
  rewrite GetInstantSendLockByHash_uncached, Hc. done.
Qed.

(** Writing a batch that removes and archives uncached locks keeps the
    caches coherent. *)
Lemma write_removals_coherent nH root res batch (s : CInstantSendDb) :
  caches_coherent s →
  (∀ op, op ∈ batch →
     (∃ h l, h ∈ res ∧ committed (db s) h = Some l
             ∧ op ∈ remove_ops h l ++ archive_ops h nH)
     ∨ op ∈ archive_ops root nH) →
  removed_uncached (db s) s res →
  caches_coherent (set_db s (WriteBatch (db s) batch)).
Proof.
  intros (Hi & Ht & Ho) Hb Hun.
  assert (∀ op, op ∈ batch →
            match op with
            | Erase_islock h => ∃ l, h ∈ res ∧ committed (db s) h = Some l
            | Erase_txid t => ∃ h l, h ∈ res ∧ committed (db s) h = Some l ∧ t = txid l
            | Erase_outpoint o =>
                ∃ h l, h ∈ res ∧ committed (db s) h = Some l ∧ o ∈ inputs l
            | Write_inversed _ | Write_archived_hash _ => True
            | _ => False
            end) as Hkinds.
  { intros op [(h & l & Hh & Hc & Hop)|Hop]%Hb.
    - unfold remove_ops, archive_ops in Hop.
      rewrite !elem_of_app, list_elem_of_fmap in Hop.
      destruct Hop as [[Hop|(o & -> & Hin)]|Hop].
      + apply elem_of_cons in Hop as [->|Hop]; [by eauto|].
        apply list_elem_of_singleton in Hop as ->. by eauto.
      + by eauto.
      + apply elem_of_cons in Hop as [->|Hop]; [done|].
        by apply list_elem_of_singleton in Hop as ->.
    - unfold archive_ops in Hop.
      apply elem_of_cons in Hop as [->|Hop]; [done|].
      by apply list_elem_of_singleton in Hop as ->. }
  split_and!; cbn [db set_db islockCache txidCache outpointCache].
  - intros k v Hf. rewrite is_i_WriteBatch_keep; [by apply Hi| |].
    + intros l Hop. by apply Hkinds in Hop.
    + intros (l & Hk & Hc)%Hkinds. destruct (Hun k l Hk Hc) as (Hu & _). congruence.
  - intros k v Hf. rewrite is_tx_WriteBatch_keep; [by apply Ht| |].
    + intros h Hop. by apply Hkinds in Hop.
    + intros (h & l & Hk & Hc & ->)%Hkinds. destruct (Hun h l Hk Hc) as (_ & Hu & _).
      congruence.
  - intros k v Hf. rewrite is_in_WriteBatch_keep; [by apply Ho| |].
    + intros h Hop. by apply Hkinds in Hop.
    + intros (h & l & Hk & Hc & Hin)%Hkinds. destruct (Hun h l Hk Hc) as (_ & _ & Hu).
      rewrite Hu in Hf by done. done.
Qed.

Lemma RemoveChainedInstantSendLocks_coherent islockHash roottxid nH (s : CInstantSendDb) :
  caches_coherent s →
  caches_coherent (RemoveChainedInstantSendLocks islockHash roottxid nH s).2.
Proof.
  intros Hcoh. unfold RemoveChainedInstantSendLocks.
  set (v0 := mkChained [] [] [roottxid] ∅).
  assert (chained_cache_inv (db s) nH s v0) as Hinit.
  { split_and!; [done|done|by intros ? ?%elem_of_nil|by intros ? ? ?%elem_of_nil]. }
  destruct (RemoveChained_while_caches (S (size (is_i (db s)))) nH v0 s Hinit)
    as [Hcoh1 Hinv].
  destruct (RemoveChained_while _ nH v0 s) as [[v|] s1]; cbn [fst snd] in *; [|done].
  destruct (Hinv v eq_refl) as (Hd & _ & Hb & Hun). rewrite <- Hd in Hb, Hun.
  destruct (committed (db s1) islockHash) as [lroot|] eqn:Hroot.
  - rewrite (RemoveInstantSendLock_lookup _ _ lroot) by done.
    destruct (remove_child_caches (ch_batch v) islockHash lroot (ch_result v) s1
                Hroot Hcoh1 Hun) as [Hcoh2 Hun2].
    destruct (remove_child_run (ch_batch v) islockHash lroot s1 Hroot) as (Eb & Ed & _).
    cbn zeta in *.
    destruct (RemoveInstantSendLock _ _ _ _ _) as [b2 s2]. cbn [fst snd] in *. subst b2.
    rewrite <- Ed in Hun2, Hb, Hroot.
    apply (write_removals_coherent nH islockHash (ch_result v ++ [islockHash]));
      [done| |done].
    intros op. unfold WriteInstantSendLockArchived. fold (archive_ops islockHash nH).
    rewrite !elem_of_app. intros [[Hop|Hop]|Hop]; [| |by right].
    + left. destruct (Hb op Hop) as (h & l & Hh & Hc & Hin).
      exists h, l. rewrite elem_of_app. by eauto.
    + left. exists islockHash, lroot. rewrite !elem_of_app.
      split_and!; [right; by apply list_elem_of_singleton|done|by left].
  - rewrite RemoveInstantSendLock_missing by done.
    destruct (missing_child_caches islockHash (ch_result v) s1 Hroot Hcoh1 Hun)
      as [Hcoh2 Hun2].
    pose proof (GetInstantSendLockByHash_same islockHash false s1) as [Ed _].
    set (s2 := (GetInstantSendLockByHash islockHash false s1).2) in *.
    rewrite <- Ed in Hun2, Hb.
    apply (write_removals_coherent nH islockHash (ch_result v)); [done| |done].
    intros op. unfold WriteInstantSendLockArchived. fold (archive_ops islockHash nH).
    rewrite elem_of_app. intros [Hop|Hop]; [left; by apply Hb|by right].
Qed.

(** X1: lookups through coherent caches return what the store holds: the
    lock committed under the hash, the hash indexed under the txid (null if
    none), and the lock committed under the hash that the txid or the
    outpoint is indexed to; KnownInstantSendLock is true exactly for a
    committed or archived hash. *)
Theorem coherent_lookups_read_the_store (s : CInstantSendDb) :
  caches_coherent s →
  (∀ h uc, (GetInstantSendLockByHash h uc s).1 = committed (db s) h)
  ∧ (∀ t, (GetInstantSendLockHashByTxid t s).1 = default 0 (is_tx (db s) !! t))
  ∧ (∀ t, (GetInstantSendLockByTxid t s).1
          = committed (db s) (default 0 (is_tx (db s) !! t)))
  ∧ (∀ o, (GetInstantSendLockByInput o s).1
          = committed (db s) (default 0 (is_in (db s) !! o)))
  ∧ (∀ h, (KnownInstantSendLock h s).1 = true
          ↔ is_Some (committed (db s) h) ∨ is_Some (is_a2 (db s) !! h)).
Proof.
  intros Hc. split_and!.
  - intros h uc. by apply GetInstantSendLockByHash_coherent.
  - intros t. by apply GetInstantSendLockHashByTxid_coherent.
  - intros t. by apply GetInstantSendLockByTxid_coherent.
  - intros o. by apply GetInstantSendLockByInput_coherent.
  - intros h. destruct (KnownInstantSendLock_coherent h s Hc) as [-> _].
    rewrite orb_true_iff, !bool_decide_eq_true.
    destruct (committed (db s) h) as [l|]; split; intros [Hk|Hk]; eauto;
      try done; by destruct Hk.
Qed.

(** X2: the caches stay coherent with the store over every sequence of
    lookups, WriteNewInstantSendLock, WriteInstantSendLockMined,
    RemoveArchivedInstantSendLocks, Write/RemoveBlockInstantSendLocks and
    RemoveChainedInstantSendLocks (which erases the cache entries of what
    it removes). Upgrade and RemoveConfirmedInstantSendLocks are left out:
    they erase locks from the store without touching the caches. *)
Theorem caches_stay_coherent (s : CInstantSendDb) (ops : list DbOp) :
  caches_coherent s →
  Forall (λ op, match op with
                | OpUpgrade _ | OpRemoveConfirmedInstantSendLocks _ => False
                | _ => True
                end) ops →
  caches_coherent (run_ops s ops).
Proof.
  intros Hc Hops. revert s Hc. induction Hops as [|op ops Hop _ IH]; intros s Hc; [done|].
  cbn [run_ops foldl]. apply IH.
  destruct op as [known|hash islock|hash nHeight|nUntilHeight|nUntilHeight
                 |vtx pindexConnected|vtx pindexDisconnected|islockHash|
                 |hash use_cache|txid|txid|outpoint|islockHash txid nHeight];
    cbn [run_op]; try (exfalso; exact Hop).
  - by apply WriteNewInstantSendLock_coherent.
  - by apply WriteInstantSendLockMined_coherent.
  - by apply RemoveArchivedInstantSendLocks_coherent.
  - apply block_update_coherent; [|done]. intros b h z. eexists. by left.
  - apply block_update_coherent; [|done]. intros b h z. eexists. by right.
  - by apply KnownInstantSendLock_coherent.
  - done.
  - by apply GetInstantSendLockByHash_coherent.
  - by apply GetInstantSendLockHashByTxid_coherent.
  - by apply GetInstantSendLockByTxid_coherent.
  - by apply GetInstantSendLockByInput_coherent.
  - by apply RemoveChainedInstantSendLocks_coherent.
Qed.

End chained.
End ChainedCaches.

(** ** A written lock is found *)

Module ReadYourWrite.
Import LockStore StoreFacts RoundTrip ChainedStore CacheCoherence.

Lemma is_in_foldl_insert (hash : uint256) (ins : list COutPoint)
    (m : gmap COutPoint uint256) (o : COutPoint) :
  o ∈ ins → foldl (λ m i, <[i := hash]> m) m ins !! o = Some hash.
Proof.
  induction ins as [|i ins IH] using rev_ind; [by intros ?%elem_of_nil|].
  rewrite foldl_snoc. intros [Ho|Ho%list_elem_of_singleton]%elem_of_app.
  - destruct (decide (o = i)) as [->|Hne]; [apply lookup_insert_eq|].
    rewrite lookup_insert_ne by done. by apply IH.
  - subst o. apply lookup_insert_eq.
Qed.

Lemma outpointCache_foldl_insert (hash : uint256) (ins : list COutPoint)
    (c : unordered_lru_cache COutPoint uint256) (o : COutPoint) (v : uint256) :
  o ∈ ins →
  assoc_find o (cacheMap (foldl (λ c i, lru_insert i hash c) c ins)) = Some v → v = hash.
Proof.
  revert v. induction ins as [|i ins IH] using rev_ind; intros v; [by intros ?%elem_of_nil|].
  rewrite foldl_snoc. intros Ho [[_ ->]|[Hne Hf]]%lru_insert_find; [done|].
  apply IH; [|done]. apply elem_of_app in Ho as [Ho|Ho%list_elem_of_singleton]; done.
Qed.

(** A lookup through a cache whose entry for the key, if any, is right. *)
Lemma cached_read_at {K V : Type} `{EqDecision K} (x : V) (k : K)
    (c : unordered_lru_cache K V) :
  (∀ v, assoc_find k (cacheMap c) = Some v → v = x) →
  match lru_get k c with
  | (Some v, _) => v = x
  | (None, _) => True
  end.
Proof.
  intros Hk. pose proof (lru_get_result k c) as Hr.
  destruct (lru_get k c) as [[v|] c']; [|done]. by apply Hk.
Qed.

Section written.
Context `{HeaderDecls}.

Lemma GetInstantSendLockByHash_at h uc l (s : CInstantSendDb) :
  IsNull h = false → is_i (db s) !! h = Some l →
  (∀ v, assoc_find h (cacheMap (islockCache s)) = Some v → v = Some l) →
  (GetInstantSendLockByHash h uc s).1 = Some l.
Proof.
  intros Hnn Hl Hk. unfold GetInstantSendLockByHash. rewrite Hnn.
  rewrite ReadInstantSendLock_lookup, Hl.
  destruct uc; [|done].
  pose proof (cached_read_at (Some l) h _ Hk) as Hr.
  by destruct (lru_get h (islockCache s)) as [[v|] c'].
Qed.

(** X3: a lock written by WriteNewInstantSendLock under a non-null hash is
    found by every lookup, whatever the caches held before: by its hash
    (with or without the cache), by its txid (hash and lock) and by each of
    its inputs. *)
Theorem written_lock_is_found (s : CInstantSendDb) (hash : uint256) (l : CInstantSendLock) :
  IsNull hash = false →
  (∀ uc, (GetInstantSendLockByHash hash uc (WriteNewInstantSendLock hash l s).2).1 = Some l)
  ∧ (GetInstantSendLockHashByTxid (txid l) (WriteNewInstantSendLock hash l s).2).1 = hash
  ∧ (GetInstantSendLockByTxid (txid l) (WriteNewInstantSendLock hash l s).2).1 = Some l
  ∧ (∀ o, o ∈ inputs l →
       (GetInstantSendLockByInput o (WriteNewInstantSendLock hash l s).2).1 = Some l)
  ∧ (KnownInstantSendLock hash (WriteNewInstantSendLock hash l s).2).1 = true.
Proof.
  intros Hnn. pose proof (WriteNew_db hash l s) as Hd.
  set (s' := (WriteNewInstantSendLock hash l s).2) in *.
  assert (islockCache s' = lru_insert hash (Some l) (islockCache s)) as Eic by done.
  assert (txidCache s' = lru_insert (txid l) hash (txidCache s)) as Etc by done.
  assert (outpointCache s'
          = foldl (λ c i, lru_insert i hash c) (outpointCache s) (inputs l)) as Eoc by done.
  assert (∀ v, assoc_find hash (cacheMap (islockCache s')) = Some v → v = Some l) as Hic.
  { rewrite Eic. by intros v [[_ ->]|[? _]]%lru_insert_find. }
  assert (is_i (db s') !! hash = Some l) as Hi.
  { rewrite Hd. cbn [is_i]. apply lookup_insert_eq. }
  assert (∀ uc s'', db s'' = db s' → islockCache s'' = islockCache s' →
            (GetInstantSendLockByHash hash uc s'').1 = Some l) as Hget.
  { intros uc s'' E1 E2. apply GetInstantSendLockByHash_at; [done|by rewrite E1|].
    by rewrite E2. }
  assert ((GetInstantSendLockHashByTxid (txid l) s').1 = hash) as Htx.
  { unfold GetInstantSendLockHashByTxid.
    pose proof (cached_read_at hash (txid l) (txidCache s')) as Hr.
    destruct (lru_get (txid l) (txidCache s')) as [[v|] c'].
    - apply Hr. rewrite Etc. by intros v' [[_ ->]|[? _]]%lru_insert_find.
    - assert (is_tx (db s') !! txid l = Some hash) as Ht.
      { rewrite Hd. cbn [is_tx]. apply lookup_insert_eq. }
      cbn [fst]. by rewrite Ht. }
  split_and!.
  - intros uc. by apply Hget.
  - done.
  - unfold GetInstantSendLockByTxid. unfold_monad.
    pose proof (GetInstantSendLockHashByTxid_same (txid l) s') as [Ed _].
    assert (islockCache (GetInstantSendLockHashByTxid (txid l) s').2 = islockCache s') as Ec.
    { unfold GetInstantSendLockHashByTxid. by destruct (lru_get _ _) as [[?|] ?]. }
    destruct (GetInstantSendLockHashByTxid (txid l) s') as [h s1]. cbn [fst snd] in *.
    subst h. by apply Hget.
  - intros o Ho. unfold GetInstantSendLockByInput. unfold_monad.
    pose proof (cached_read_at hash o (outpointCache s')) as Hr.
    destruct (lru_get o (outpointCache s')) as [[v|] c'].
    + rewrite Hr; [by apply Hget|].
      rewrite Eoc. intros v'. by apply outpointCache_foldl_insert.
    + assert (is_in (db s') !! o = Some hash) as ->.
      { rewrite Hd. cbn [is_in]. by apply is_in_foldl_insert. }
      by apply Hget.
  - unfold KnownInstantSendLock. unfold_monad.
    specialize (Hget use_cache_default s' eq_refl eq_refl).
    destruct (GetInstantSendLockByHash hash use_cache_default s') as [r s1].
    cbn [fst] in Hget. subst r. done.
Qed.
End written.
End ReadYourWrite.

(** ** Counting and upgrading *)

Module WholeStore.
Import BytesFacts LockStore StoreFacts Confirmed RoundTrip ChainedStore Exclusive
       CacheCoherence.

(** A seek to the null hash visits every lock. *)
Lemma db_seek_all {V : Type} (m : gmap uint256 V) :
  db_seek ser_uint256 m 0 ≡ₚ map_to_list m.
Proof.
  unfold db_seek.
  assert (∀ l : list (uint256 * V), filter (λ kv, key_le ser_uint256 0 kv.1) l = l) as ->;
    [|apply merge_sort_Permutation].
  induction l as [|kv l IH]; [done|].
  rewrite filter_cons_True, IH; [done|].
  unfold key_le, ser_uint256. apply Is_true_true, le_bytes_zero_min.
Qed.

Section whole.
Context `{HeaderDecls}.

(** X4: GetInstantSendLockCount returns the number of entries of
    ISLOCK_BY_HASH and changes nothing; writing a lock under a hash that
    has no entry raises the count by one, writing under a hash that has one
    leaves it. *)
Theorem GetInstantSendLockCount_counts (s : CInstantSendDb) (hash : uint256)
    (l : CInstantSendLock) :
  GetInstantSendLockCount s = (size (is_i (db s)), s)
  ∧ (GetInstantSendLockCount (WriteNewInstantSendLock hash l s).2).1
    = match is_i (db s) !! hash with
      | None => S (GetInstantSendLockCount s).1
      | Some _ => (GetInstantSendLockCount s).1
      end.
Proof.
  assert (∀ s : CInstantSendDb, GetInstantSendLockCount s = (size (is_i (db s)), s)) as Hcnt.
  { intros s0. unfold GetInstantSendLockCount. f_equal.
    by rewrite db_seek_all, length_map_to_list. }
  split; [done|]. rewrite !Hcnt. cbn [fst]. rewrite WriteNew_db. cbn [is_i].
  destruct (is_i (db s) !! hash) as [l0|] eqn:E.
  - by rewrite map_size_insert_Some.
  - by rewrite map_size_insert_None.
Qed.

Lemma Upgrade_loop_batch known it batch :
  Upgrade_loop known it batch = batch ++ flat_map (upgrade_entry_ops known) it.
Proof.
  revert batch. induction it as [|[k w] it IH]; intros batch; cbn [Upgrade_loop flat_map].
  { by rewrite app_nil_r. }
  rewrite IH. unfold upgrade_entry_ops. cbn [fst snd].
  destruct (Unserialize_islock islock_version w) as [l|]; [|done].
  destruct (negb (known (txid l))); [|done].
  by rewrite <- !app_assoc.
Qed.

Lemma elem_of_upgrade_ops known (d : CDBWrapper) op :
  op ∈ flat_map (upgrade_entry_ops known) (db_seek ser_uint256 (is_i d) 0) ↔
  ∃ h w l, is_i d !! h = Some w ∧ Unserialize_islock islock_version w = Some l
           ∧ known (txid l) = false
           ∧ (op = Erase_txid (txid l) ∨ (∃ o, o ∈ inputs l ∧ op = Erase_outpoint o)
              ∨ op = Erase_islock h).
Proof.
  rewrite list_elem_of_In, in_flat_map. setoid_rewrite <- list_elem_of_In.
  split.
  - intros ([h w] & Hin & Hop). rewrite db_seek_all in Hin.
    apply elem_of_map_to_list in Hin. unfold upgrade_entry_ops in Hop. cbn [fst snd] in Hop.
    destruct (Unserialize_islock islock_version w) as [l|] eqn:El;
      [|by apply elem_of_nil in Hop].
    destruct (known (txid l)) eqn:Ek; [by apply elem_of_nil in Hop|]. cbn [negb] in Hop.
    exists h, w, l. split_and!; [done..|].
    rewrite !elem_of_app, list_elem_of_fmap, !list_elem_of_singleton in Hop.
    destruct Hop as [->|[(o & -> & Ho)| ->]]; eauto.
  - intros (h & w & l & Hl & El & Ek & Hop). exists (h, w). split.
    + rewrite db_seek_all. by apply elem_of_map_to_list.
    + unfold upgrade_entry_ops. cbn [fst snd]. rewrite El, Ek. cbn [negb].
      rewrite !elem_of_app, list_elem_of_fmap, !list_elem_of_singleton.
      destruct Hop as [->|[(o & Ho & ->)| ->]]; eauto.
Qed.

(** X5: Upgrade does nothing on a store whose version is CURRENT_VERSION or
    above. On an older or unversioned store it sets the version to
    CURRENT_VERSION, keeps every legacy lock whose transaction is found,
    and drops every legacy lock whose transaction is not found, with the
    HASH_BY_TXID entry of its txid and the HASH_BY_OUTPOINT entries of its
    inputs; the caches and best_confirmed_height are not touched, and a second
    Upgrade does nothing. *)
Theorem Upgrade_drops_unknown (known : uint256 → bool) (s : CInstantSendDb) :
  (∀ v, is_v (db s) = Some v → CURRENT_VERSION <= v → Upgrade known s = (tt, s))
  ∧ (is_v (db s) = None ∨ (∃ v, is_v (db s) = Some v ∧ v < CURRENT_VERSION) →
     is_v (db (Upgrade known s).2) = Some CURRENT_VERSION
     ∧ (∀ h w, is_i (db s) !! h = Some w → nVersion w = islock_version →
          if known (txid w)
          then is_i (db (Upgrade known s).2) !! h = Some w
          else is_i (db (Upgrade known s).2) !! h = None
               ∧ is_tx (db (Upgrade known s).2) !! txid w = None
               ∧ ∀ o, o ∈ inputs w → is_in (db (Upgrade known s).2) !! o = None)
     ∧ islockCache (Upgrade known s).2 = islockCache s
     ∧ txidCache (Upgrade known s).2 = txidCache s
     ∧ outpointCache (Upgrade known s).2 = outpointCache s
     ∧ best_confirmed_height (Upgrade known s).2 = best_confirmed_height s
     ∧ Upgrade known (Upgrade known s).2 = (tt, (Upgrade known s).2)).
Proof.
  split.
  - intros v Hv Hle. unfold Upgrade. rewrite Hv. cbn [default].
    rewrite bool_decide_eq_false_2 by done.
    by rewrite (proj2 (Z.ltb_ge _ _)) by done.
  - intros Hold.
    set (batch := flat_map (upgrade_entry_ops known) (db_seek ser_uint256 (is_i (db s)) 0)).
    assert (Upgrade known s
            = (tt, set_db s (WriteBatch (db s) (batch ++ [Write_version CURRENT_VERSION]))))
      as ->.
    { unfold Upgrade.
      assert (bool_decide (is_v (db s) = None)
              || (default 0 (is_v (db s)) <? CURRENT_VERSION) = true) as ->.
      { destruct Hold as [->|(v & -> & Hv)]; [done|]. cbn [default].
        rewrite (proj2 (Z.ltb_lt _ _)) by done. apply orb_true_r. }
      by rewrite Upgrade_loop_batch. }
    cbn [snd db set_db islockCache txidCache outpointCache best_confirmed_height].
    assert (∀ op, op ∈ batch →
              match op with
              | Erase_txid _ | Erase_outpoint _ | Erase_islock _ => True
              | _ => False
              end) as Hkinds.
    { intros op (h & w & l & _ & _ & _ & [->|[(o & _ & ->)| ->]])%elem_of_upgrade_ops;
        done. }
    rewrite WriteBatch_snoc.
    split_and!; [done| |done..|].
    + intros h w Hw Hver.
      assert (Unserialize_islock islock_version w = Some w) as El.
      { unfold Unserialize_islock. by rewrite Hver. }
      cbn [apply_op is_i is_tx is_in].
      destruct (known (txid w)) eqn:Ek.
      * rewrite is_i_WriteBatch_keep; [done| |].
        -- intros l Hop. by apply Hkinds in Hop.
        -- intros (h' & w' & l & Hl & El' & Ek' & [?|[(? & _ & ?)|[= ->]]])%elem_of_upgrade_ops;
             [done..|].
           assert (w' = w) as -> by congruence. congruence.
      * split_and!.
        -- apply is_i_WriteBatch_erased; [intros l Hop; by apply Hkinds in Hop|].
           apply elem_of_upgrade_ops. exists h, w, w. by eauto 10.
        -- apply is_tx_WriteBatch_erased; [intros l Hop; by apply Hkinds in Hop|].
           apply elem_of_upgrade_ops. exists h, w, w. by eauto 10.
        -- intros o Ho. apply is_in_WriteBatch_erased; [intros l Hop; by apply Hkinds in Hop|].
           apply elem_of_upgrade_ops. exists h, w, w. by eauto 10.
    + unfold Upgrade. cbn [db set_db apply_op is_v default].
      rewrite bool_decide_eq_false_2 by done.
      by rewrite Z.ltb_irrefl.
Qed.
End whole.
End WholeStore.

(** ** Archived hashes expire *)

Module Archive.
Import BytesFacts InversedKey LockStore StoreFacts Confirmed RoundTrip.

(** The keys from the seek key of a height on are the keys of that height
    and below. *)
Lemma seek_key_iff (k : DBPrefix) (nUntilHeight : Z) (x : Z) (h : uint256) :
  key_le ser_inversed ((BuildInversedISLockKey k nUntilHeight 0).1.2, 0) (x, h)
  ↔ InversedKeyHeight (k, x, h) <= to_uint32 nUntilHeight.
Proof.
  split; [apply seek_key_height|].
  unfold key_le, ser_inversed, BuildInversedISLockKey, InversedKeyHeight. cbn [fst snd].
  intros Hle. apply Is_true_true. unfold bytes_leb.
  rewrite bytes_compare_app by (unfold ser_uint32; by rewrite !le_bytes_length).
  rewrite ser_htobe32.
  rewrite bytes_compare_be_value;
    [|by rewrite be_bytes_length; unfold ser_uint32; rewrite le_bytes_length
     |apply be_bytes_is_byte|apply le_bytes_is_byte].
  rewrite be_value_be_bytes.
  change (be_value (ser_uint32 x)) with (be32toh x).
  pose proof (to_uint32_bound (uint32_max - nUntilHeight)) as Hb.
  change (256 ^ Z.of_nat 4) with (2 ^ 32).
  rewrite Z.mod_small by done.
  pose proof (be_value_bound (le_bytes 4 x) (le_bytes_is_byte 4 x)) as Hx.
  rewrite le_bytes_length in Hx. change (256 ^ Z.of_nat 4) with (2 ^ 32) in Hx.
  fold (be32toh x) in Hx.
  rewrite to_uint32_inverse. pose proof (to_uint32_bound nUntilHeight).
  assert (uint32_max - to_uint32 nUntilHeight <= be32toh x) as Hle'.
  { unfold to_uint32 in Hle at 1. unfold uint32_max in *.
    rewrite Z.mod_small in Hle; lia. }
  destruct (uint32_max - to_uint32 nUntilHeight ?= be32toh x) eqn:E.
  - pose proof (le_bytes_zero_min 32 h) as Hz. unfold bytes_leb, ser_uint256 in *.
    by destruct (bytes_compare (le_bytes 32 0) (le_bytes 32 h)).
  - done.
  - rewrite Z.compare_gt_iff in E. lia.
Qed.

Lemma RemoveArchived_loop_ops nUntil it batch op :
  (∀ x h b, (x, h, b) ∈ it →
     InversedKeyHeight (DB_ARCHIVED_BY_HEIGHT_AND_HASH, x, h) <= to_uint32 nUntil) →
  op ∈ RemoveArchived_loop nUntil it batch ↔
  op ∈ batch ∨ ∃ x h b, (x, h, b) ∈ it ∧
    (op = Erase_archived_hash h ∨ op = Erase_inversed (DB_ARCHIVED_BY_HEIGHT_AND_HASH, x, h)).
Proof.
  intros Hit. split; [apply elem_of_RemoveArchived_loop|].
  revert batch Hit. induction it as [|[[x h] b] it IH]; intros batch Hit; simpl.
  { intros [?|(? & ? & ? & []%elem_of_nil & _)]. done. }
  rewrite (proj2 (Z.ltb_ge _ _)) by (apply (Hit x h b); by left).
  intros Hop. apply IH; [intros ? ? ? ?; eapply Hit; by right|].
  destruct Hop as [Hop|(x' & h' & b' & [[= -> -> ->]|Hin]%elem_of_cons & Hop)].
  - left. set_solver.
  - left. set_solver.
  - right. eauto 10.
Qed.

Lemma is_a1_WriteBatch_erasures d batch x h :
  (∀ key, Write_inversed key ∉ batch) →
  is_a1 (WriteBatch d batch) !! (x, h)
  = if decide (Erase_inversed (DB_ARCHIVED_BY_HEIGHT_AND_HASH, x, h) ∈ batch) then None
    else is_a1 d !! (x, h).
Proof.
  batch_ind batch; intros Hw.
  { rewrite decide_False; [done|]. by intros ?%elem_of_nil. }
  assert (∀ key, op ≠ Write_inversed key) as Hnw by set_solver.
  specialize (IH ltac:(set_solver)). clear Hw.
  destruct (decide (op = Erase_inversed (DB_ARCHIVED_BY_HEIGHT_AND_HASH, x, h))) as [->|Hne].
  { cbn [apply_op is_a1]. rewrite lookup_delete_eq. rewrite decide_True; [done|set_solver]. }
  assert (is_a1 (apply_op (WriteBatch d batch) op) !! (x, h)
          = is_a1 (WriteBatch d batch) !! (x, h)) as ->.
  { destruct op as [| | | | | |[[k0 x0] h0]|[[[] x'] h']| | |]; simpl; try done.
    - by destruct (Hnw (k0, x0, h0)).
    - rewrite lookup_delete_ne; [done|]. intros [= -> ->]. done. }
  rewrite IH. repeat case_decide; set_solver.
Qed.

Lemma is_a2_WriteBatch_erasures d batch h :
  (∀ h', Write_archived_hash h' ∉ batch) →
  is_a2 (WriteBatch d batch) !! h
  = if decide (Erase_archived_hash h ∈ batch) then None else is_a2 d !! h.
Proof.
  intros Hw. case_decide as He.
  - revert Hw He. batch_ind batch; intros Hw He; [by apply elem_of_nil in He|].
    destruct (decide (op = Erase_archived_hash h)) as [->|Hne].
    { simpl. apply lookup_delete_eq. }
    assert (is_a2 (WriteBatch d batch) !! h = None) as E by (apply IH; set_solver).
    destruct op as [| | | | | |[[[] ?] ?]|[[[] ?] ?]|h'|h'|]; simpl; try done.
    + destruct (Hw h'). set_solver.
    + rewrite lookup_delete_ne; [done|]. by intros ->.
  - apply is_a2_WriteBatch_keep; [done|apply Hw].
Qed.

Section archive.
Context `{HeaderDecls}.

(** X6: RemoveArchivedInstantSendLocks does nothing for a height of 0 or
    below. For a height n above 0 it erases every archived-by-height key
    whose height is n or below, with the archived-by-hash entry of its
    hash, and keeps the keys above n; a hash all of whose archived keys are
    above n stays archived by hash. The locks, the mined keys, the caches
    and best_confirmed_height are not touched. *)
Theorem RemoveArchived_expires (n : Z) (s : CInstantSendDb) :
  (n <= 0 → RemoveArchivedInstantSendLocks n s = (tt, s))
  ∧ (0 < n < 2 ^ 31 →
     (∀ x h, is_a1 (db (RemoveArchivedInstantSendLocks n s).2) !! (x, h)
             = if decide (InversedKeyHeight (DB_ARCHIVED_BY_HEIGHT_AND_HASH, x, h) <= n)
               then None else is_a1 (db s) !! (x, h))
     ∧ (∀ a h, 0 <= a < 2 ^ 31 →
          is_a1 (db (RemoveArchivedInstantSendLocks n s).2)
            !! ((BuildInversedISLockKey DB_ARCHIVED_BY_HEIGHT_AND_HASH a h).1.2, h)
          = if decide (a <= n) then None
            else is_a1 (db s)
                   !! ((BuildInversedISLockKey DB_ARCHIVED_BY_HEIGHT_AND_HASH a h).1.2, h))
     ∧ (∀ x h, is_Some (is_a1 (db s) !! (x, h)) →
          InversedKeyHeight (DB_ARCHIVED_BY_HEIGHT_AND_HASH, x, h) <= n →
          is_a2 (db (RemoveArchivedInstantSendLocks n s).2) !! h = None)
     ∧ (∀ h, (∀ x, is_Some (is_a1 (db s) !! (x, h)) →
                n < InversedKeyHeight (DB_ARCHIVED_BY_HEIGHT_AND_HASH, x, h)) →
          is_a2 (db (RemoveArchivedInstantSendLocks n s).2) !! h = is_a2 (db s) !! h)
     ∧ is_i (db (RemoveArchivedInstantSendLocks n s).2) = is_i (db s)
     ∧ is_tx (db (RemoveArchivedInstantSendLocks n s).2) = is_tx (db s)
     ∧ is_in (db (RemoveArchivedInstantSendLocks n s).2) = is_in (db s)
     ∧ is_m (db (RemoveArchivedInstantSendLocks n s).2) = is_m (db s)
     ∧ islockCache (RemoveArchivedInstantSendLocks n s).2 = islockCache s
     ∧ txidCache (RemoveArchivedInstantSendLocks n s).2 = txidCache s
     ∧ outpointCache (RemoveArchivedInstantSendLocks n s).2 = outpointCache s
     ∧ best_confirmed_height (RemoveArchivedInstantSendLocks n s).2
       = best_confirmed_height s).
Proof.
  split.
  { intros Hn. unfold RemoveArchivedInstantSendLocks.
    by rewrite (proj2 (Z.leb_le _ _)) by done. }
  intros Hn.
  assert (to_uint32 n = n) as Un by (unfold to_uint32; rewrite Z.mod_small; lia).
  set (it := db_seek ser_inversed (is_a1 (db s))
               ((BuildInversedISLockKey DB_ARCHIVED_BY_HEIGHT_AND_HASH n 0).1.2, 0)).
  set (batch := RemoveArchived_loop n it []).
  assert (RemoveArchivedInstantSendLocks n s = (tt, set_db s (WriteBatch (db s) batch)))
    as ->.
  { unfold RemoveArchivedInstantSendLocks. by rewrite (proj2 (Z.leb_gt _ _)) by lia. }
  cbn [snd db set_db islockCache txidCache outpointCache best_confirmed_height].
  assert (∀ x h b, (x, h, b) ∈ it ↔
            is_a1 (db s) !! (x, h) = Some b
            ∧ InversedKeyHeight (DB_ARCHIVED_BY_HEIGHT_AND_HASH, x, h) <= n) as Hit.
  { intros x h b. unfold it. rewrite elem_of_db_seek, seek_key_iff, Un. done. }
  assert (∀ op, op ∈ batch ↔
            ∃ x h b, (x, h, b) ∈ it ∧
              (op = Erase_archived_hash h
               ∨ op = Erase_inversed (DB_ARCHIVED_BY_HEIGHT_AND_HASH, x, h))) as Hops.
  { intros op. unfold batch. rewrite RemoveArchived_loop_ops.
    - split; [intros [[]%elem_of_nil|?]; done|by right].
    - intros x h b [_ ?]%Hit. by rewrite Un. }
  assert (∀ x h, is_a1 (WriteBatch (db s) batch) !! (x, h)
                 = if decide (InversedKeyHeight (DB_ARCHIVED_BY_HEIGHT_AND_HASH, x, h) <= n)
                   then None else is_a1 (db s) !! (x, h)) as Ha1.
  { intros x h. rewrite is_a1_WriteBatch_erasures.
    - destruct (is_a1 (db s) !! (x, h)) as [b|] eqn:E.
      + repeat case_decide; try done.
        * exfalso. match goal with H : _ ∈ batch |- _ => apply Hops in H end.
          set_solver.
        * exfalso. match goal with H : ¬ (_ ∈ batch) |- _ => apply H end.
          apply Hops. exists x, h, b. split; [by apply Hit|by right].
      + by repeat case_decide.
    - intros key (? & ? & ? & _ & [?|?])%Hops; done. }
  assert (is_i (WriteBatch (db s) batch) = is_i (db s)
          ∧ is_tx (WriteBatch (db s) batch) = is_tx (db s)
          ∧ is_in (WriteBatch (db s) batch) = is_in (db s)
          ∧ is_m (WriteBatch (db s) batch) = is_m (db s)) as (Ei & Et & Eo & Em).
  { assert (∀ op, op ∈ batch →
              match op with
              | Erase_archived_hash _
              | Erase_inversed (DB_ARCHIVED_BY_HEIGHT_AND_HASH, _, _) => True
              | _ => False
              end) as Hk.
    { intros op (? & ? & ? & _ & [-> | ->])%Hops; done. }
    clearbody batch. clear Hops Ha1.
    induction batch as [|op batch IH] using rev_ind; [done|].
    rewrite WriteBatch_snoc. destruct IH as (<- & <- & <- & <-); [set_solver|].
    specialize (Hk op ltac:(set_solver)).
    by destruct op as [| | | | | |[[[] ?] ?]|[[[] ?] ?]| | |]. }
  split_and!; try done.
  - intros a h Ha. rewrite Ha1.
    change (DB_ARCHIVED_BY_HEIGHT_AND_HASH,
            (BuildInversedISLockKey DB_ARCHIVED_BY_HEIGHT_AND_HASH a h).1.2, h)
      with (BuildInversedISLockKey DB_ARCHIVED_BY_HEIGHT_AND_HASH a h).
    rewrite inversed_height.
    assert (to_uint32 a = a) as -> by (unfold to_uint32; rewrite Z.mod_small; lia). done.
  - intros x h [b Hb] Hle. rewrite is_a2_WriteBatch_erasures.
    + rewrite decide_True; [done|]. apply Hops. exists x, h, b.
      split; [by apply Hit|by left].
    + intros h' (? & ? & ? & _ & [?|?])%Hops; done.
  - intros h Habove. rewrite is_a2_WriteBatch_erasures.
    + rewrite decide_False; [done|].
      intros (x & h' & b & [Hl Hle]%Hit & [[= <-]|?])%Hops; [|done].
      specialize (Habove x ltac:(by rewrite Hl)). lia.
    + intros h' (? & ? & ? & _ & [?|?])%Hops; done.
Qed.
End archive.
End Archive.

(** ** Mined marks of a block *)

Module BlockMarks.
Import BytesFacts LockStore StoreFacts RoundTrip Exclusive CacheCoherence.

Lemma WriteBatch_mined_writes d nH hs :
  WriteBatch d (map (λ h, Write_inversed
                            (BuildInversedISLockKey DB_MINED_BY_HEIGHT_AND_HASH nH h)) hs)
  = mkDB (is_i d) (is_tx d) (is_in d)
         (foldl (λ m h, <[mined_key nH h := true]> m) (is_m d) hs)
         (is_a1 d) (is_a2 d) (is_v d).
Proof.
  revert d. induction hs as [|h hs IH]; intros d; [by destruct d|].
  cbn [map foldl]. unfold WriteBatch in *. cbn [foldl]. by rewrite IH.
Qed.

Lemma WriteBatch_mined_erasures d nH hs :
  WriteBatch d (map (λ h, Erase_inversed
                            (BuildInversedISLockKey DB_MINED_BY_HEIGHT_AND_HASH nH h)) hs)
  = mkDB (is_i d) (is_tx d) (is_in d)
         (foldl (λ m h, delete (mined_key nH h) m) (is_m d) hs)
         (is_a1 d) (is_a2 d) (is_v d).
Proof.
  revert d. induction hs as [|h hs IH]; intros d; [by destruct d|].
  cbn [map foldl]. unfold WriteBatch in *. cbn [foldl]. by rewrite IH.
Qed.

Lemma lookup_foldl_insert_keys {K V : Type} `{Countable K} {A : Type} (f : A → K) (v : V)
    (xs : list A) (m : gmap K V) (k : K) :
  foldl (λ m x, <[f x := v]> m) m xs !! k
  = if decide (k ∈ map f xs) then Some v else m !! k.
Proof.
  revert m. induction xs as [|x xs IH]; intros m; cbn [foldl map].
  { rewrite decide_False; [done|]. by intros ?%elem_of_nil. }
  rewrite IH. destruct (decide (k = f x)) as [->|Hne].
  - rewrite lookup_insert_eq. repeat case_decide; set_solver.
  - rewrite lookup_insert_ne by done. repeat case_decide; set_solver.
Qed.

Lemma lookup_foldl_delete_keys {K V : Type} `{Countable K} {A : Type} (f : A → K)
    (xs : list A) (m : gmap K V) (k : K) :
  foldl (λ m x, delete (f x) m) m xs !! k
  = if decide (k ∈ map f xs) then None else m !! k.
Proof.
  revert m. induction xs as [|x xs IH]; intros m; cbn [foldl map].
  { rewrite decide_False; [done|]. by intros ?%elem_of_nil. }
  rewrite IH. destruct (decide (k = f x)) as [->|Hne].
  - rewrite lookup_delete_eq. repeat case_decide; set_solver.
  - rewrite lookup_delete_ne by done. repeat case_decide; set_solver.
Qed.

Lemma block_islocks_cons d tx vtx :
  block_islocks d (tx :: vtx)
  = (if is_coinbase tx || bool_decide (vin tx = []) then []
     else if IsNull (default 0 (is_tx d !! tx_hash tx)) then []
          else [default 0 (is_tx d !! tx_hash tx)])
    ++ block_islocks d vtx.
Proof.
  unfold block_islocks. simpl.
  destruct (is_coinbase tx || bool_decide (vin tx = [])); simpl; [done|].
  by destruct (IsNull (default 0 (is_tx d !! tx_hash tx))).
Qed.

Section block.
Context `{HeaderDecls}.

Lemma BlockInstantSendLocks_loop_batch upd vtx nH batch (s : CInstantSendDb) :
  caches_coherent s →
  (BlockInstantSendLocks_loop upd vtx nH batch s).1
  = foldl (λ b h, upd b h nH) batch (block_islocks (db s) vtx).
Proof.
  revert batch s. induction vtx as [|tx vtx IH]; intros batch s Hc; [done|].
  rewrite block_islocks_cons. cbn [BlockInstantSendLocks_loop].
  destruct (is_coinbase tx || bool_decide (vin tx = [])); [by apply IH|].
  unfold_monad.
  destruct (GetInstantSendLockHashByTxid_coherent (tx_hash tx) s Hc) as [Hr Hc1].
  pose proof (GetInstantSendLockHashByTxid_same (tx_hash tx) s) as [Hd _].
  destruct (GetInstantSendLockHashByTxid (tx_hash tx) s) as [h s1]. cbn [fst snd] in *.
  subst h. rewrite IH by done. rewrite Hd.
  by destruct (IsNull (default 0 (is_tx (db s) !! tx_hash tx))).
Qed.

Lemma WriteBlock_db vtx pindex (s : CInstantSendDb) :
  caches_coherent s →
  db (WriteBlockInstantSendLocks vtx pindex s).2
  = mkDB (is_i (db s)) (is_tx (db s)) (is_in (db s))
         (foldl (λ m h, <[mined_key (nHeight pindex) h := true]> m) (is_m (db s))
                (block_islocks (db s) vtx))
         (is_a1 (db s)) (is_a2 (db s)) (is_v (db s)).
Proof.
  intros Hc. unfold WriteBlockInstantSendLocks. unfold_monad.
  pose proof (BlockInstantSendLocks_loop_batch WriteInstantSendLockMined_batch vtx
                (nHeight pindex) [] s Hc) as Hb.
  pose proof (BlockInstantSendLocks_loop_same WriteInstantSendLockMined_batch vtx
                (nHeight pindex) [] s) as [Hd _].
  destruct (BlockInstantSendLocks_loop _ _ _ _ s) as [batch s1]. cbn [fst snd] in *.
  rewrite Hd, Hb, <- WriteBatch_mined_writes. cbn [db set_db]. f_equal.
  generalize (block_islocks (db s) vtx). intros hs.
  unfold WriteInstantSendLockMined_batch.
  induction hs as [|h hs IH] using rev_ind; [done|].
  by rewrite foldl_snoc, map_app, IH.
Qed.

Lemma RemoveBlock_db vtx pindex (s : CInstantSendDb) :
  caches_coherent s →
  db (RemoveBlockInstantSendLocks vtx pindex s).2
  = mkDB (is_i (db s)) (is_tx (db s)) (is_in (db s))
         (foldl (λ m h, delete (mined_key (nHeight pindex) h) m) (is_m (db s))
                (block_islocks (db s) vtx))
         (is_a1 (db s)) (is_a2 (db s)) (is_v (db s)).
Proof.
  intros Hc. unfold RemoveBlockInstantSendLocks. unfold_monad.
  pose proof (BlockInstantSendLocks_loop_batch RemoveInstantSendLockMined vtx
                (nHeight pindex) [] s Hc) as Hb.
  pose proof (BlockInstantSendLocks_loop_same RemoveInstantSendLockMined vtx
                (nHeight pindex) [] s) as [Hd _].
  destruct (BlockInstantSendLocks_loop _ _ _ _ s) as [batch s1]. cbn [fst snd] in *.
  rewrite Hd, Hb, <- WriteBatch_mined_erasures. cbn [db set_db]. f_equal.
  generalize (block_islocks (db s) vtx). intros hs.
  unfold RemoveInstantSendLockMined.
  induction hs as [|h hs IH] using rev_ind; [done|].
  by rewrite foldl_snoc, map_app, IH.
Qed.

(** X7: with coherent caches, WriteBlockInstantSendLocks marks as mined at
    the height of the block exactly the lock hashes that HASH_BY_TXID gives
    for the block's transactions that are not coinbase and have inputs, and
    RemoveBlockInstantSendLocks erases exactly these marks; neither touches
    another index. Disconnecting a block after connecting it brings back the
    store as it was when none of the marks existed before. *)
Theorem block_marks_round_trip (vtx : list CTransaction) (pindex : CBlockIndex)
    (s : CInstantSendDb) :
  caches_coherent s →
  (∀ key, is_m (db (WriteBlockInstantSendLocks vtx pindex s).2) !! key
          = if decide (key ∈ map (mined_key (nHeight pindex)) (block_islocks (db s) vtx))
            then Some true else is_m (db s) !! key)
  ∧ (∀ key, is_m (db (RemoveBlockInstantSendLocks vtx pindex s).2) !! key
            = if decide (key ∈ map (mined_key (nHeight pindex)) (block_islocks (db s) vtx))
              then None else is_m (db s) !! key)
  ∧ (∀ tx h, tx ∈ vtx → is_coinbase tx = false → vin tx ≠ [] →
       is_tx (db s) !! tx_hash tx = Some h → IsNull h = false →
       is_m (db (WriteBlockInstantSendLocks vtx pindex s).2) !! mined_key (nHeight pindex) h
       = Some true)
  ∧ is_i (db (WriteBlockInstantSendLocks vtx pindex s).2) = is_i (db s)
  ∧ is_tx (db (WriteBlockInstantSendLocks vtx pindex s).2) = is_tx (db s)
  ∧ is_in (db (WriteBlockInstantSendLocks vtx pindex s).2) = is_in (db s)
  ∧ ((∀ h, h ∈ block_islocks (db s) vtx →
        is_m (db s) !! mined_key (nHeight pindex) h = None) →
     db (RemoveBlockInstantSendLocks vtx pindex
           (WriteBlockInstantSendLocks vtx pindex s).2).2 = db s).
Proof.
  intros Hc.
  pose proof (WriteBlock_db vtx pindex s Hc) as Hw.
  pose proof (RemoveBlock_db vtx pindex s Hc) as Hr.
  assert (caches_coherent (WriteBlockInstantSendLocks vtx pindex s).2) as Hc1.
  { apply block_update_coherent; [|done]. intros b h z. eexists. by left. }
  pose proof (RemoveBlock_db vtx pindex _ Hc1) as Hrw.
  set (s1 := (WriteBlockInstantSendLocks vtx pindex s).2) in *.
  assert (∀ key, is_m (db s1) !! key
                 = if decide (key ∈ map (mined_key (nHeight pindex))
                                        (block_islocks (db s) vtx))
                   then Some true else is_m (db s) !! key) as Hm.
  { intros key. rewrite Hw. cbn [is_m]. apply lookup_foldl_insert_keys. }
  split_and!.
  - done.
  - intros key. rewrite Hr. cbn [is_m]. apply lookup_foldl_delete_keys.
  - intros tx h Htx Hcb Hvin Hl Hnn. rewrite Hm, decide_True; [done|].
    apply list_elem_of_fmap. exists h. split; [done|].
    unfold block_islocks. apply list_elem_of_omap. exists tx. split; [done|].
    rewrite Hcb, bool_decide_eq_false_2 by done. rewrite Hl. simpl. by rewrite Hnn.
  - by rewrite Hw.
  - by rewrite Hw.
  - by rewrite Hw.
  - intros Hfresh. rewrite Hrw.
    assert (block_islocks (db s1) vtx = block_islocks (db s) vtx) as ->.
    { unfold block_islocks. by rewrite Hw. }
    rewrite Hw. cbn [is_i is_tx is_in is_m is_a1 is_a2 is_v].
    destruct (db s) as [mi mt mo mm ma1 ma2 mv]. cbn [is_i is_tx is_in is_m is_a1 is_a2 is_v]
      in *. f_equal.
    apply map_eq. intros key.
    rewrite lookup_foldl_delete_keys, lookup_foldl_insert_keys.
    case_decide as Hk; [|done].
    apply list_elem_of_fmap in Hk as (h & -> & Hh). symmetry. by apply Hfresh.
Qed.
End block.
End BlockMarks.

(** ** What a confirmation removes *)

Module ConfirmedLocks.
Import BytesFacts InversedKey LockStore StoreFacts Confirmed RoundTrip Archive.

Lemma is_m_WriteBatch_erasures d batch x h :
  (∀ x' h', Write_inversed (DB_MINED_BY_HEIGHT_AND_HASH, x', h') ∉ batch) →
  is_m (WriteBatch d batch) !! (x, h)
  = if decide (Erase_inversed (DB_MINED_BY_HEIGHT_AND_HASH, x, h) ∈ batch) then None
    else is_m d !! (x, h).
Proof.
  batch_ind batch; intros Hw.
  { rewrite decide_False; [done|]. by intros ?%elem_of_nil. }
  assert (∀ x' h', op ≠ Write_inversed (DB_MINED_BY_HEIGHT_AND_HASH, x', h')) as Hnw
    by set_solver.
  specialize (IH ltac:(set_solver)). clear Hw.
  destruct (decide (op = Erase_inversed (DB_MINED_BY_HEIGHT_AND_HASH, x, h))) as [->|Hne].
  { cbn [apply_op is_m]. rewrite lookup_delete_eq. rewrite decide_True; [done|set_solver]. }
  assert (is_m (apply_op (WriteBatch d batch) op) !! (x, h)
          = is_m (WriteBatch d batch) !! (x, h)) as ->.
  { destruct op as [| | | | | |[[[] x0] h0]|[[[] x'] h']| | |]; simpl; try done.
    - by destruct (Hnw x0 h0).
    - rewrite lookup_delete_ne; [done|]. intros [= -> ->]. done. }
  rewrite IH. repeat case_decide; set_solver.
Qed.

Section confirmed.
Context `{HeaderDecls}.

Lemma RemoveConfirmed_loop_ret nUntil it batch ret (s : CInstantSendDb) (h : uint256) :
  (∀ x h b, (x, h, b) ∈ it →
     InversedKeyHeight (DB_MINED_BY_HEIGHT_AND_HASH, x, h) <= to_uint32 nUntil) →
  (RemoveConfirmed_loop nUntil it batch ret s).1.2 !! h
  = match ret !! h with
    | Some l => Some l
    | None => if decide (h ∈ map (λ e, e.1.2) it) then committed (db s) h else None
    end.
Proof.
  revert batch ret s. induction it as [|[[x h'] b] it IH]; intros batch ret s Hnb.
  { simpl. by destruct (ret !! h). }
  cbn [RemoveConfirmed_loop].
  pose proof (Hnb x h' b ltac:(set_solver)) as Hxh.
  destruct (Z.ltb_spec (to_uint32 nUntil)
              (InversedKeyHeight (DB_MINED_BY_HEIGHT_AND_HASH, x, h'))); [lia|].
  unfold_monad. rewrite GetInstantSendLockByHash_uncached.
  assert (∀ s', db s' = db s →
            (if decide (h ∈ map (λ e : Z * uint256 * bool, e.1.2) it)
             then committed (db s') h else None)
            = if decide (h ∈ map (λ e : Z * uint256 * bool, e.1.2) it)
              then committed (db s) h else None) as Hsame.
  { by intros s' ->. }
  destruct (committed (db s) h') as [l|] eqn:Ec.
  - match goal with |- context [RemoveInstantSendLock ?a ?b ?c ?d ?e] =>
      pose proof (RemoveInstantSendLock_same a b c d e) as [Hd _];
      destruct (RemoveInstantSendLock a b c d e) as [b2 s2] end.
    cbn [fst snd] in *.
    rewrite IH by (intros ? ? b' ?; apply (Hnb _ _ b'); set_solver).
    rewrite Hsame by (rewrite Hd; by destruct (IsNull h')).
    unfold emplace. cbn [map fst snd].
    destruct (decide (h = h')) as [->|Hne].
    + destruct (ret !! h') as [l0|] eqn:Er; [by rewrite Er|].
      rewrite lookup_insert_eq. rewrite decide_True by set_solver. done.
    + assert (match ret !! h' with Some _ => ret | None => <[h' := l]> ret end !! h
              = ret !! h) as ->.
      { destruct (ret !! h'); [done|]. by rewrite lookup_insert_ne. }
      destruct (ret !! h); [done|]. repeat case_decide; set_solver.
  - cbn [fst snd].
    rewrite IH by (intros ? ? b' ?; apply (Hnb _ _ b'); set_solver).
    rewrite Hsame by (by destruct (IsNull h')).
    destruct (ret !! h); [done|]. cbn [map fst snd].
    destruct (decide (h = h')) as [->|Hne].
    + rewrite (decide_True (P := h' ∈ h' :: _)) by set_solver.
      case_decide; by rewrite ?Ec.
    + repeat case_decide; set_solver.
Qed.

(** X8: above best_confirmed_height, RemoveConfirmedInstantSendLocks(n)
    returns exactly the committed locks that have a mined mark at a height
    of n or below; it erases all mined marks of n and below and keeps the
    marks above n; every returned lock leaves ISLOCK_BY_HASH; every hash
    with such a mark is archived by hash, committed or not; a lock without
    such a mark stays. *)
Theorem RemoveConfirmed_removes_mined (n : Z) (s : CInstantSendDb) :
  best_confirmed_height s < n → 0 <= n < 2 ^ 31 →
  (∀ h l, (RemoveConfirmedInstantSendLocks n s).1 !! h = Some l ↔
          committed (db s) h = Some l
          ∧ ∃ x, is_Some (is_m (db s) !! (x, h))
                 ∧ InversedKeyHeight (DB_MINED_BY_HEIGHT_AND_HASH, x, h) <= n)
  ∧ (∀ x h, is_m (db (RemoveConfirmedInstantSendLocks n s).2) !! (x, h)
            = if decide (InversedKeyHeight (DB_MINED_BY_HEIGHT_AND_HASH, x, h) <= n)
              then None else is_m (db s) !! (x, h))
  ∧ (∀ h, is_Some ((RemoveConfirmedInstantSendLocks n s).1 !! h) →
          is_i (db (RemoveConfirmedInstantSendLocks n s).2) !! h = None)
  ∧ (∀ x h, is_Some (is_m (db s) !! (x, h)) →
            InversedKeyHeight (DB_MINED_BY_HEIGHT_AND_HASH, x, h) <= n →
            is_a2 (db (RemoveConfirmedInstantSendLocks n s).2) !! h = Some true)
  ∧ (∀ h, (∀ x, is_Some (is_m (db s) !! (x, h)) →
                n < InversedKeyHeight (DB_MINED_BY_HEIGHT_AND_HASH, x, h)) →
          is_i (db (RemoveConfirmedInstantSendLocks n s).2) !! h = is_i (db s) !! h).
Proof.
  intros Hbest Hn.
  assert (to_uint32 n = n) as Un by (unfold to_uint32; rewrite Z.mod_small; lia).
  pose proof (RemoveConfirmed_db n s Hbest) as Hdb.
  set (it := db_seek ser_inversed (is_m (db s))
               ((BuildInversedISLockKey DB_MINED_BY_HEIGHT_AND_HASH n 0).1.2, 0)) in *.
  assert (∀ x h b, (x, h, b) ∈ it ↔
            is_m (db s) !! (x, h) = Some b
            ∧ InversedKeyHeight (DB_MINED_BY_HEIGHT_AND_HASH, x, h) <= n) as Hit.
  { intros x h b. unfold it. rewrite elem_of_db_seek, seek_key_iff, Un. done. }
  assert (∀ h, (RemoveConfirmedInstantSendLocks n s).1 !! h
               = if decide (h ∈ map (λ e : Z * uint256 * bool, e.1.2) it)
                 then committed (db s) h else None) as Hret.
  { intros h. unfold RemoveConfirmedInstantSendLocks.
    destruct (Z.leb_spec n (best_confirmed_height s)); [lia|].
    pose proof (RemoveConfirmed_loop_ret n it [] ∅ (set_best s n) h) as Hl.
    change (db_seek ser_inversed (is_m (db (set_best s n)))
              ((BuildInversedISLockKey DB_MINED_BY_HEIGHT_AND_HASH n 0).1.2,
               (BuildInversedISLockKey DB_MINED_BY_HEIGHT_AND_HASH n 0).2)) with it.
    destruct (RemoveConfirmed_loop n it [] ∅ (set_best s n)) as [[b1 r1] s1].
    cbn [fst snd] in *. rewrite Hl, lookup_empty; [done|].
    intros x h' b [_ ?]%Hit. by rewrite Un. }
  assert (∀ h, h ∈ map (λ e : Z * uint256 * bool, e.1.2) it ↔
            ∃ x, is_Some (is_m (db s) !! (x, h))
                 ∧ InversedKeyHeight (DB_MINED_BY_HEIGHT_AND_HASH, x, h) <= n) as Hmarks.
  { intros h. rewrite list_elem_of_fmap. split.
    - intros ([[x h'] b] & Heq & [Hl Hle]%Hit). cbn [fst snd] in Heq. subst h'.
      exists x. by rewrite Hl.
    - intros (x & [b Hl] & Hle). exists (x, h, b). split; [done|]. by apply Hit. }
  set (batch := flat_map (confirmed_entry_ops (db s)) it) in *.
  assert (∀ op, op ∈ batch →
            match op with
            | Write_islock _ _ | Write_txid _ _ | Write_outpoint _ _
            | Write_inversed (DB_MINED_BY_HEIGHT_AND_HASH, _, _)
            | Erase_archived_hash _ | Write_version _ => False
            | _ => True
            end) as Hkinds.
  { intros op (x & h & b & _ & [(l & _ & Hop)|[Hop|Hop]])%elem_of_confirmed_ops.
    - unfold remove_ops in Hop. rewrite elem_of_app, list_elem_of_fmap in Hop.
      destruct Hop as [Hop|(o & -> & _)]; [|done]. set_unfold in Hop. naive_solver.
    - unfold archive_ops, BuildInversedISLockKey in Hop. set_unfold in Hop. naive_solver.
    - by subst op. }
  split_and!.
  - intros h l. rewrite Hret. case_decide as Hin.
    + apply Hmarks in Hin. naive_solver.
    + split; [done|]. intros [_ Hm]. by apply Hmarks in Hm.
  - intros x h. rewrite Hdb, is_m_WriteBatch_erasures.
    + destruct (is_m (db s) !! (x, h)) as [b|] eqn:E.
      * repeat case_decide; try done.
        -- exfalso.
           match goal with H : _ ∈ batch |- _ =>
             apply elem_of_confirmed_ops in H
               as (x' & h' & b' & [_ Hle]%Hit & [(l & _ & Hop)|[Hop|Hop]]) end.
           ++ unfold remove_ops in Hop. rewrite elem_of_app, list_elem_of_fmap in Hop.
              destruct Hop as [Hop|(o & ? & _)]; [|done]. set_unfold in Hop. naive_solver.
           ++ unfold archive_ops, BuildInversedISLockKey in Hop. set_unfold in Hop.
              naive_solver.
           ++ injection Hop as <- <-. done.
        -- exfalso. match goal with H : ¬ (_ ∈ batch) |- _ => apply H end.
           eapply (confirmed_ops_elem _ _ x h b); [by apply Hit|].
           unfold confirmed_entry_ops. cbn [fst snd]. set_solver.
      * by repeat case_decide.
    + intros x' h' Hop. by apply Hkinds in Hop.
  - intros h [l Hl]. rewrite Hret in Hl. case_decide as Hin; [|done].
    apply list_elem_of_fmap in Hin as ([[x h'] b] & Heq & Hin). cbn [fst snd] in Heq.
    subst h'.
    rewrite Hdb. apply is_i_WriteBatch_erased.
    + intros l' Hop. by apply Hkinds in Hop.
    + eapply (confirmed_ops_elem _ _ x h b); [done|].
      unfold confirmed_entry_ops, remove_ops. cbn [fst snd]. rewrite Hl. set_solver.
  - intros x h [b Hl] Hle. rewrite Hdb. apply is_a2_WriteBatch_written.
    + intros Hop. by apply Hkinds in Hop.
    + eapply (confirmed_ops_elem _ _ x h b); [by apply Hit|].
      unfold confirmed_entry_ops, archive_ops. cbn [fst snd]. set_solver.
  - intros h Habove. rewrite Hdb. apply is_i_WriteBatch_keep.
    + intros l' Hop. by apply Hkinds in Hop.
    + intros (x & h' & b & [Hl Hle]%Hit & [(l & _ & Hop)|[Hop|Hop]])%elem_of_confirmed_ops.
      * unfold remove_ops in Hop. rewrite elem_of_app, list_elem_of_fmap in Hop.
        destruct Hop as [Hop|(o & ? & _)]; [|done].
        apply elem_of_cons in Hop as [[= <-]|Hop]; [|set_unfold in Hop; naive_solver].
        specialize (Habove x ltac:(by rewrite Hl)). lia.
      * unfold archive_ops in Hop. set_unfold in Hop. naive_solver.
      * done.
Qed.
End confirmed.
End ConfirmedLocks.

(** ** Messages and queries of the manager *)

Module Messages.
Import LockStore StoreFacts Confirmed RoundTrip Chained ChainedStore Queries Exclusive
       CacheCoherence.

Section reads.
Context `{HeaderDecls}.

(** A second lookup by hash with the same flag gives the same result. *)
Lemma GetInstantSendLockByHash_again h uc (s : CInstantSendDb) :
  (GetInstantSendLockByHash h uc (GetInstantSendLockByHash h uc s).2).1
  = (GetInstantSendLockByHash h uc s).1.
Proof.
  unfold GetInstantSendLockByHash. destruct (IsNull h) eqn:Hnn; [done|].
  destruct uc; [|done].
  unfold lru_get at 2 3 4 5.
  destruct (assoc_find h (cacheMap (islockCache s))) as [v|] eqn:E;
    cbn [fst snd islockCache set_islockCache db].
  - unfold lru_get. cbn [cacheMap assoc_find]. rewrite E. by destruct (decide (h = h)).
  - unfold lru_get, lru_insert. cbn [cacheMap maxSize]. rewrite E.
    destruct (maxSize (islockCache s)) as [|k]; [done|].
    cbn [take assoc_find]. by destruct (decide (h = h)).
Qed.

Lemma KnownInstantSendLock_again h (s : CInstantSendDb) :
  (KnownInstantSendLock h (KnownInstantSendLock h s).2).1 = (KnownInstantSendLock h s).1.
Proof.
  unfold KnownInstantSendLock. unfold_monad.
  pose proof (GetInstantSendLockByHash_again h use_cache_default s) as Ha.
  pose proof (GetInstantSendLockByHash_same h use_cache_default s) as [Hd _].
  destruct (GetInstantSendLockByHash h use_cache_default s) as [r s1]. cbn [fst snd] in *.
  pose proof (GetInstantSendLockByHash_same h use_cache_default s1) as [Hd1 _].
  destruct (GetInstantSendLockByHash h use_cache_default s1) as [r1 s2]. cbn [fst snd] in *.
  subst r1. by rewrite Hd1, Hd.
Qed.
End reads.

Section messages.
Context `{HeaderDecls} `{Primitives}.
Variable env : Env.

(** The queueing of a lock at the end of [ProcessMessageInstantSendLock]
    and of [HandleNewInstantSendLockRecoveredSig], as one step. *)
Lemma enqueue_run pfrom islock (m : CInstantSendManager) :
  let hash := SerializeHash ser_islock islock in
  (m' ← get_mgr;
   if bool_decide (is_Some (pendingInstantSendLocks m' !! hash)) then mgr_return
   else
     known ← on_db (KnownInstantSendLock hash);
     if (known : bool) then mgr_return
     else modify_mgr (λ m,
            set_pending m (<[hash := (pfrom, islock)]> (pendingInstantSendLocks m)))) m
  = Some (tt,
      if bool_decide (is_Some (pendingInstantSendLocks m !! hash)) then m
      else if (KnownInstantSendLock hash (isdb m)).1
           then set_isdb m (KnownInstantSendLock hash (isdb m)).2
           else set_pending (set_isdb m (KnownInstantSendLock hash (isdb m)).2)
                  (<[hash := (pfrom, islock)]> (pendingInstantSendLocks m))).
Proof.
  intros hash. unfold mbind at 1. unfold MgrM_bind at 1. unfold get_mgr.
  case_bool_decide; [done|]. unfold mbind, MgrM_bind. rewrite on_db_run.
  by destruct (KnownInstantSendLock hash (isdb m)).1.
Qed.


Lemma ProcessMessage_accepted (pfrom : Z) (islock : CInstantSendLock)
    (m : CInstantSendManager) :
  PreVerifyInstantSendLock islock = true →
  (IsDeterministic islock = true →
   ∃ blockIndex, LookupBlockIndex env (cycleHash islock) = Some blockIndex
                 ∧ Z.rem (nHeight blockIndex) (dkgInterval env) = 0) →
  let hash := SerializeHash ser_islock islock in
  let m0 := set_events m
              (events m
               ++ [EraseObjectRequest pfrom
                     (mkInv (if IsDeterministic islock then MSG_ISDLOCK else MSG_ISLOCK)
                            hash)]) in
  Manager.ProcessMessageInstantSendLock env pfrom islock m
  = Some (tt,
      if bool_decide (is_Some (pendingInstantSendLocks m !! hash)) then m0
      else if (KnownInstantSendLock hash (isdb m)).1
           then set_isdb m0 (KnownInstantSendLock hash (isdb m)).2
           else set_pending (set_isdb m0 (KnownInstantSendLock hash (isdb m)).2)
                  (<[hash := (pfrom, islock)]> (pendingInstantSendLocks m))).
Proof.
  intros Hpre Hcycle hash m0. unfold Manager.ProcessMessageInstantSendLock.
  fold hash. rewrite Hpre. cbn [negb].
  unfold mbind at 1. unfold MgrM_bind at 1. unfold emit at 1, modify_mgr at 1.
  fold m0. pose proof (enqueue_run pfrom islock m0) as Henq. cbn zeta in Henq.
  fold hash in Henq.
  destruct (IsDeterministic islock); [|exact Henq].
  destruct (Hcycle eq_refl) as (bi & -> & Hrem).
  rewrite bool_decide_eq_false_2 by (by intros ?). exact Henq.
Qed.

Lemma AlreadyHave_run (inv : CInv) (m : CInstantSendManager) :
  IsInstantSendEnabled env = true →
  Manager.AlreadyHave env inv m
  = Some (bool_decide (is_Some (pendingInstantSendLocks m !! inv_hash inv))
          || (KnownInstantSendLock (inv_hash inv) (isdb m)).1,
          if bool_decide (is_Some (pendingInstantSendLocks m !! inv_hash inv)) then m
          else set_isdb m (KnownInstantSendLock (inv_hash inv) (isdb m)).2).
Proof.
  intros Hon. unfold Manager.AlreadyHave. rewrite Hon. cbn [negb].
  unfold mbind, MgrM_bind, get_mgr.
  destruct (bool_decide (is_Some (pendingInstantSendLocks m !! inv_hash inv))); [done|].
  by rewrite on_db_run.
Qed.

(** X10: once a lock message has been taken (it passes PreVerify and the
    cycle check), AlreadyHave answers true for its hash, and the same lock
    from any peer changes the pending locks no more. *)
Theorem accepted_lock_is_had (pfrom pfrom' : Z) (t : InvType) (islock : CInstantSendLock)
    (m m' : CInstantSendManager) :
  IsInstantSendEnabled env = true →
  PreVerifyInstantSendLock islock = true →
  (IsDeterministic islock = true →
   ∃ blockIndex, LookupBlockIndex env (cycleHash islock) = Some blockIndex
                 ∧ Z.rem (nHeight blockIndex) (dkgInterval env) = 0) →
  Manager.ProcessMessageInstantSendLock env pfrom islock m = Some (tt, m') →
  (∃ m'', Manager.AlreadyHave env (mkInv t (SerializeHash ser_islock islock)) m'
          = Some (true, m''))
  ∧ ∃ m'', Manager.ProcessMessageInstantSendLock env pfrom' islock m' = Some (tt, m'')
           ∧ pendingInstantSendLocks m'' = pendingInstantSendLocks m'.
Proof.
  intros Hon Hpre Hcycle Hrun.
  rewrite ProcessMessage_accepted in Hrun by done. cbn zeta in Hrun.
  set (hash := SerializeHash ser_islock islock) in *.
  assert (is_Some (pendingInstantSendLocks m' !! hash)
          ∨ (pendingInstantSendLocks m' !! hash = None
             ∧ (KnownInstantSendLock hash (isdb m')).1 = true)) as Hhad.
  { injection Hrun as <-.
    destruct (bool_decide (is_Some (pendingInstantSendLocks m !! hash))) eqn:Hp.
    - left. by apply bool_decide_eq_true in Hp.
    - apply bool_decide_eq_false in Hp.
      destruct (KnownInstantSendLock hash (isdb m)).1 eqn:Hk.
      + right. cbn. split; [by apply eq_None_not_Some|].
        by rewrite KnownInstantSendLock_again.
      + left. cbn. rewrite lookup_insert_eq. by eexists. }
  split.
  - eexists. rewrite AlreadyHave_run by done. cbn [inv_hash]. f_equal. f_equal.
    destruct Hhad as [Hp|[Hp Hk]].
    + by rewrite bool_decide_eq_true_2.
    + rewrite Hk. apply orb_true_r.
  - eexists. rewrite ProcessMessage_accepted by done. cbn zeta. fold hash.
    split; [reflexivity|].
    destruct Hhad as [Hp|[Hp Hk]].
    + by rewrite bool_decide_eq_true_2.
    + rewrite bool_decide_eq_false_2 by (by rewrite Hp; intros []). by rewrite Hk.
Qed.

(** [RemoveChainedInstantSendLocks] returns on every store; the root hash
    is the last hash it returns, is archived by hash and, unless it is
    null, has no entry in ISLOCK_BY_HASH afterwards. *)
Lemma RemoveChained_removes_root islockHash roottxid nH (s : CInstantSendDb) :
  ∃ res s',
    RemoveChainedInstantSendLocks islockHash roottxid nH s = (Some (res ++ [islockHash]), s')
    ∧ is_a2 (db s') !! islockHash = Some true
    ∧ (IsNull islockHash = false → is_i (db s') !! islockHash = None).
Proof.
  pose proof (RemoveChained_is_i islockHash roottxid nH s) as Hsub.
  unfold RemoveChainedInstantSendLocks in *.
  destruct (RemoveChained_while_run (S (size (is_i (db s)))) nH
              (mkChained [] [] [roottxid] ∅) s) as (E1 & E2 & _);
    [by intros ? ?%elem_of_nil..|].
  destruct (chained_while_total (db s) roottxid nH) as [v Hw].
  destruct (RemoveChained_while _ _ _ s) as [ov s1]. cbn [fst snd] in *.
  rewrite Hw in E1. subst ov.
  pose proof (RemoveInstantSendLock_same (ch_batch v) islockHash None false s1) as [Hd _].
  pose proof (RemoveInstantSendLock_batch_lookup (ch_batch v) islockHash false s1) as Hb.
  destruct (RemoveInstantSendLock _ _ _ _ _) as [b2 s2]. cbn [fst snd db set_db] in *.
  subst b2. eexists _, _. split; [reflexivity|]. split.
  { unfold WriteInstantSendLockArchived. rewrite WriteBatch_app. unfold WriteBatch at 1.
    cbn [foldl apply_op is_a2 BuildInversedISLockKey]. apply lookup_insert_eq. }
  intros Hnn.
  destruct (is_i (db s) !! islockHash) as [l|] eqn:Hl.
  - cbn [db set_db]. rewrite Hd, E2. unfold committed. rewrite Hnn, Hl.
    apply is_i_WriteBatch_erased.
    + intros l' Hop. unfold WriteInstantSendLockArchived in Hop.
      rewrite !elem_of_app in Hop. destruct Hop as [[Hop|Hop]|Hop].
      * destruct (elem_of_chained_while _ _ _ _ _ _ Hw Hop) as [Hnil|(? & ? & Hk)];
          [by apply elem_of_nil in Hnil|]. by apply removal_ops_no_write in Hk.
      * by apply (removal_ops_no_write islockHash l nH (Write_islock islockHash l')),
          elem_of_app; left.
      * rewrite !elem_of_cons, elem_of_nil in Hop. by destruct Hop as [?|[?|[]]].
    + unfold WriteInstantSendLockArchived, remove_ops. set_solver.
  - cbn [db set_db] in Hsub |- *.
    apply eq_None_not_Some. intros [l' Hl'].
    eapply lookup_weaken in Hl'; [|exact Hsub]. congruence.
Qed.

(** [RemoveConflictingLock] returns on every store: it archives the hash,
    takes it out of ISLOCK_BY_HASH and leaves the rest of the manager as it is. *)
Lemma RemoveConflictingLock_run (islockHash : uint256) (islock : CInstantSendLock)
    (m : CInstantSendManager) :
  ∃ m1, Manager.RemoveConflictingLock env islockHash islock m = Some (tt, m1)
    ∧ is_a2 (db (isdb m1)) !! islockHash = Some true
    ∧ (IsNull islockHash = false → is_i (db (isdb m1)) !! islockHash = None)
    ∧ is_i (db (isdb m1)) ⊆ is_i (db (isdb m))
    ∧ events m1 = events m
    ∧ tracking m1 = tracking m
    ∧ pendingInstantSendLocks m1 = pendingInstantSendLocks m.
Proof.
  unfold Manager.RemoveConflictingLock. unfold mbind, MgrM_bind. rewrite on_db_run.
  pose proof (RemoveChained_is_i islockHash (txid islock) (chainActive_Height env) (isdb m))
    as Hsub.
  destruct (RemoveChained_removes_root islockHash (txid islock) (chainActive_Height env)
              (isdb m)) as (res & s' & Hrun & Ha & Hi).
  rewrite Hrun in Hsub |- *. eexists. split; [reflexivity|]. by split_and!.
Qed.

(** X11: RemoveConflictingLock returns on every state of the manager (the
    walk of RemoveChainedInstantSendLocks always ends), and the lock it
    removed stays out: its hash is archived and, unless it is the null hash,
    has no entry in ISLOCK_BY_HASH; AlreadyHave answers true for the hash,
    and ProcessInstantSendLock with that hash returns at once, leaving the
    store, the pending locks, the tracked transactions and the outbound
    calls as they are. *)
Theorem removed_lock_stays_out (islockHash : uint256) (islock : CInstantSendLock)
    (m : CInstantSendManager) :
  ∃ m1, Manager.RemoveConflictingLock env islockHash islock m = Some (tt, m1)
    ∧ is_a2 (db (isdb m1)) !! islockHash = Some true
    ∧ (IsNull islockHash = false → is_i (db (isdb m1)) !! islockHash = None)
    ∧ (∀ t, ∃ m2, Manager.AlreadyHave env (mkInv t islockHash) m1 = Some (true, m2))
    ∧ ∀ from l, ∃ m2,
        Manager.ProcessInstantSendLock env from islockHash l m1 = Some (tt, m2)
        ∧ db (isdb m2) = db (isdb m1)
        ∧ pendingInstantSendLocks m2 = pendingInstantSendLocks m1
        ∧ tracking m2 = tracking m1
        ∧ events m2 = events m1.
Proof.
  destruct (RemoveConflictingLock_run islockHash islock m) as (m1 & Hrun & Ha & Hi & _).
  exists m1. split; [exact Hrun|].
  assert (∀ s : CInstantSendDb, db s = db (isdb m1) →
            (KnownInstantSendLock islockHash s).1 = true) as Hk.
  { intros s Hs. apply Known_archived. by rewrite Hs, Ha. }
  split_and!; [done|done| |].
  - intros t. destruct (IsInstantSendEnabled env) eqn:Hon.
    + eexists. rewrite AlreadyHave_run by done. cbn [inv_hash].
      rewrite (Hk _ eq_refl). by rewrite orb_true_r.
    + eexists. unfold Manager.AlreadyHave. by rewrite Hon.
  - intros from l. unfold Manager.ProcessInstantSendLock.
    unfold mbind at 1. unfold MgrM_bind at 1. unfold modify_mgr at 1.
    unfold mbind at 1. unfold MgrM_bind at 1. rewrite on_db_run.
    cbn [isdb set_creating]. rewrite (Hk _ eq_refl).
    eexists. split; [reflexivity|]. cbn.
    by destruct (KnownInstantSendLock_same islockHash (isdb m1)) as [-> _].
Qed.
End messages.

End Messages.

(** ** Processing a lock *)

Module ProcessLock.
Import LockStore StoreFacts RoundTrip ChainedStore Queries CacheCoherence ReadYourWrite
       Messages.

Section stable.
Context {A B : Type}.
Implicit Types (P : CInstantSendManager → Prop).

Lemma stable_bind P (c : MgrM A) (k : A → MgrM B) :
  stable P c → (∀ a, stable P (k a)) → stable P (c ≫= k).
Proof.
  intros Hc Hk m b m' HP. unfold mbind, MgrM_bind.
  destruct (c m) as [[a m1]|] eqn:E; [|done]. intros Hrun.
  eapply Hk; [|exact Hrun]. by eapply Hc.
Qed.

Lemma stable_ret P (a : A) : stable P (mret a).
Proof. by intros m a' m' HP [= _ <-]. Qed.

Lemma stable_abort P : stable P (abort : MgrM A).
Proof. by intros m a m' _ Hrun. Qed.

Lemma stable_on_db P (c : DbM A) :
  (∀ m, P m → P (set_isdb m (c (isdb m)).2)) → stable P (on_db c).
Proof. intros Hc m a m' HP. rewrite on_db_run. intros [= _ <-]. by apply Hc. Qed.
End stable.

Lemma stable_modify P (f : CInstantSendManager → CInstantSendManager) :
  (∀ m, P m → P (f m)) → stable P (modify_mgr f).
Proof. intros Hf m a m' HP [= _ <-]. by apply Hf. Qed.

Lemma stable_emit P (e : Event) :
  (∀ m x, P m → P (set_events m x)) → stable P (emit e).
Proof. intros He. apply stable_modify. intros m HP. by apply He. Qed.

Lemma stable_return P : stable P mgr_return.
Proof. apply stable_ret. Qed.

Lemma stable_get_mgr P : stable P get_mgr.
Proof. by intros m a m' HP [= _ <-]. Qed.

Lemma stable_for_each {A : Type} P (xs : list A) (body : A → MgrM unit) :
  (∀ x, stable P (body x)) → stable P (for_each xs body).
Proof.
  intros Hb. induction xs as [|x xs IH]; cbn [for_each]; [apply stable_return|].
  apply stable_bind; [apply Hb|by intros _].
Qed.

Section process.
Context `{HeaderDecls} `{Primitives}.
Variable env : Env.

(** What does not depend on the outbound calls, the request ids and the
    tracked transactions but for the entries by outpoint, which only go. *)
Lemma RemoveNonLockedTx_stable P t rc :
  (∀ m x, P m → P (set_events m x)) →
  (∀ m x y z, P m → nonLockedTxsByOutpoints m = y ∨ (∃ o, y = delete o (nonLockedTxsByOutpoints m)) →
              P (set_nonLocked m x y z)) →
  stable P (Manager.RemoveNonLockedTx t rc).
Proof.
  intros Pe Pt. unfold Manager.RemoveNonLockedTx.
  apply stable_bind; [apply stable_get_mgr|intros m0].
  destruct (nonLockedTxs m0 !! t) as [info|]; [|apply stable_return].
  apply stable_bind; [|intros _].
  { destruct rc; [|apply stable_return]. apply stable_modify. intros m HP.
    apply Pt; [done|by left]. }
  apply stable_bind; [|intros _].
  { destruct (info_tx info) as [tx|]; [|apply stable_return].
    apply stable_for_each. intros i. apply stable_modify. intros m HP.
    apply Pt; [done|right; by eexists]. }
  apply stable_modify. intros m HP. apply Pt; [done|by left].
Qed.

Lemma RemoveConflictedTx_stable P tx :
  (∀ m x, P m → P (set_events m x)) →
  (∀ m x, P m → P (set_inputRequestIds m x)) →
  (∀ m x y z, P m → nonLockedTxsByOutpoints m = y ∨ (∃ o, y = delete o (nonLockedTxsByOutpoints m)) →
              P (set_nonLocked m x y z)) →
  stable P (Manager.RemoveConflictedTx tx).
Proof.
  intros Pe Pi Pt. unfold Manager.RemoveConflictedTx.
  apply stable_bind; [by apply RemoveNonLockedTx_stable|intros _].
  apply stable_for_each. intros i. apply stable_modify. intros m HP. by apply Pi.
Qed.

Lemma TruncateRecoveredSigsForInputs_stable P l :
  (∀ m x, P m → P (set_events m x)) →
  (∀ m x, P m → P (set_inputRequestIds m x)) →
  stable P (Manager.TruncateRecoveredSigsForInputs l).
Proof.
  intros Pe Pi. unfold Manager.TruncateRecoveredSigsForInputs.
  apply stable_for_each. intros i.
  apply stable_bind; [|intros _; by apply stable_emit].
  apply stable_modify. intros m HP. by apply Pi.
Qed.

Lemma RemoveMempoolConflictsForLock_stable P hash l :
  (∀ m x, P m → P (set_events m x)) →
  (∀ m x, P m → P (set_inputRequestIds m x)) →
  (∀ m x y z, P m → nonLockedTxsByOutpoints m = y ∨ (∃ o, y = delete o (nonLockedTxsByOutpoints m)) →
              P (set_nonLocked m x y z)) →
  stable P (Manager.RemoveMempoolConflictsForLock env hash l).
Proof.
  intros Pe Pi Pt. unfold Manager.RemoveMempoolConflictsForLock.
  apply stable_bind; [|intros _].
  { apply stable_for_each. intros [k [tx|]]; cbn [snd]; [by apply stable_emit|apply stable_abort]. }
  case_bool_decide; [|apply stable_return].
  apply stable_bind; [|intros _; by apply stable_emit].
  apply stable_for_each. intros [k [tx|]]; cbn [snd];
    [by apply RemoveConflictedTx_stable|apply stable_abort].
Qed.

Lemma collect_conflicts_none (m : CInstantSendManager) (l : CInstantSendLock) :
  (∀ i, i ∈ inputs l → nonLockedTxsByOutpoints m !! i = None) →
  Manager.collect_conflicts m l = ∅.
Proof.
  unfold Manager.collect_conflicts. generalize (∅ : gmap CBlockIndex (gmap uint256 CTransaction)).
  induction (inputs l) as [|i ins IH]; intros acc Hnone; [done|].
  cbn [foldl]. rewrite (Hnone i) by set_solver. apply IH. intros ? ?. apply Hnone. set_solver.
Qed.

Lemma locked_after_write hash l (s : CInstantSendDb) :
  IsNull hash = false →
  is_i (db s) !! hash = Some l → is_tx (db s) !! txid l = Some hash →
  (∀ v, assoc_find hash (cacheMap (islockCache s)) = Some v → v = Some l) →
  (∀ v, assoc_find (txid l) (cacheMap (txidCache s)) = Some v → v = hash) →
  ((islockHash ← GetInstantSendLockHashByTxid (txid l);
    KnownInstantSendLock islockHash) s).1 = true.
Proof.
  intros Hnn Hi Ht Hic Htc. unfold_monad.
  assert ((GetInstantSendLockHashByTxid (txid l) s).1 = hash) as Hh.
  { unfold GetInstantSendLockHashByTxid.
    pose proof (cached_read_at hash (txid l) (txidCache s) Htc) as Hr.
    destruct (lru_get (txid l) (txidCache s)) as [[v|] c']; [done|].
    cbn [fst]. by rewrite Ht. }
  pose proof (GetInstantSendLockHashByTxid_same (txid l) s) as [Hd _].
  assert (islockCache (GetInstantSendLockHashByTxid (txid l) s).2 = islockCache s) as Hc.
  { unfold GetInstantSendLockHashByTxid. by destruct (lru_get _ _) as [[?|] ?]. }
  destruct (GetInstantSendLockHashByTxid (txid l) s) as [h s1]. cbn [fst snd] in *. subst h.
  unfold KnownInstantSendLock. unfold_monad.
  pose proof (GetInstantSendLockByHash_at hash use_cache_default l s1 Hnn) as Hg.
  rewrite Hd, Hc in Hg. specialize (Hg Hi Hic).
  destruct (GetInstantSendLockByHash hash use_cache_default s1) as [r s2].
  cbn [fst] in *. by subst r.
Qed.

(** The lookups before the write touch the caches only. *)
Lemma input_lookups_run (ins : list COutPoint) (m : CInstantSendManager) :
  ∃ s, for_each ins (λ i, otherIsLock ← on_db (GetInstantSendLockByInput i); mgr_return) m
       = Some (tt, set_isdb m s)
       ∧ same_store (isdb m) s.
Proof.
  revert m. induction ins as [|i ins IH]; intros m.
  { exists (isdb m). split; [by destruct m|done]. }
  cbn [for_each]. unfold mbind at 1. unfold MgrM_bind at 1.
  unfold mbind at 1. unfold MgrM_bind at 1. rewrite on_db_run. cbn [mgr_return mret MgrM_ret].
  destruct (IH (set_isdb m (GetInstantSendLockByInput i (isdb m)).2)) as (s & Hrun & Hs).
  exists s. split; [by rewrite Hrun|].
  eapply same_store_trans; [apply GetInstantSendLockByInput_same|exact Hs].
Qed.

Lemma ResolveBlockConflicts_none hash l (m : CInstantSendManager) :
  (∀ i, i ∈ inputs l → nonLockedTxsByOutpoints m !! i = None) →
  Manager.ResolveBlockConflicts env hash l m = Some (tt, m).
Proof.
  intros Hnone. unfold Manager.ResolveBlockConflicts.
  unfold mbind, MgrM_bind, get_mgr. rewrite collect_conflicts_none by done.
  by rewrite map_to_list_empty.
Qed.

(** X12: ProcessInstantSendLock of a lock that is not yet known, whose
    transaction is not mined in a ChainLocked block and none of whose inputs
    is spent by a tracked transaction, commits the lock: afterwards
    ISLOCK_BY_HASH holds it under its hash, HASH_BY_TXID and
    HASH_BY_OUTPOINT point its txid and inputs at the hash, the mined mark
    is written when the transaction is mined, IsLockedInternal reports
    the transaction as locked, and the lock is no longer among the locks
    being created. *)
Theorem ProcessInstantSendLock_locks (from : Z) (hash : uint256) (l : CInstantSendLock)
    (m m' : CInstantSendManager) :
  IsNull hash = false →
  (KnownInstantSendLock hash (isdb m)).1 = false →
  (∀ tx hashBlock pindex,
     GetTransaction env (txid l) = Some (tx, hashBlock) → IsNull hashBlock = false →
     LookupBlockIndex env hashBlock = Some pindex →
     HasChainLock env (nHeight pindex) (block_hash pindex) = false) →
  (∀ i, i ∈ inputs l → nonLockedTxsByOutpoints m !! i = None) →
  Manager.ProcessInstantSendLock env from hash l m = Some (tt, m') →
  is_i (db (isdb m')) !! hash = Some l
  ∧ is_tx (db (isdb m')) !! txid l = Some hash
  ∧ (∀ o, o ∈ inputs l → is_in (db (isdb m')) !! o = Some hash)
  ∧ (∀ tx hashBlock pindex,
       GetTransaction env (txid l) = Some (tx, hashBlock) → IsNull hashBlock = false →
       LookupBlockIndex env hashBlock = Some pindex →
       is_m (db (isdb m')) !! mined_key (nHeight pindex) hash = Some true)
  ∧ (∃ m'', Manager.IsLockedInternal (txid l) m' = Some (true, m''))
  ∧ creatingInstantSendLocks m' !! GetRequestId l = None.
Proof.
  intros Hnn Hknown Hncl Hnone Hrun.
  unfold Manager.ProcessInstantSendLock in Hrun.
  unfold mbind at 1 in Hrun. unfold MgrM_bind at 1 in Hrun. unfold modify_mgr at 1 in Hrun.
  set (mc := set_creating m _ _) in Hrun.
  unfold mbind at 1 in Hrun. unfold MgrM_bind at 1 in Hrun. rewrite on_db_run in Hrun.
  change (isdb mc) with (isdb m) in Hrun. rewrite Hknown in Hrun.
  set (s1 := (KnownInstantSendLock hash (isdb m)).2) in Hrun.
  set (pindexMined := match GetTransaction env (txid l) with
                      | Some (_, hashBlock) =>
                          if negb (IsNull hashBlock) then LookupBlockIndex env hashBlock
                          else None
                      | None => None
                      end) in Hrun.
  assert (match pindexMined with
          | Some pindex => HasChainLock env (nHeight pindex) (block_hash pindex)
          | None => false
          end = false) as Hcl.
  { unfold pindexMined. destruct (GetTransaction env (txid l)) as [[tx hb]|] eqn:Eg; [|done].
    destruct (IsNull hb) eqn:En; [done|]. cbn [negb].
    destruct (LookupBlockIndex env hb) as [p|] eqn:El; [|done]. by eapply Hncl. }
  rewrite Hcl in Hrun.
  unfold mbind at 1 in Hrun. unfold MgrM_bind at 1 in Hrun. rewrite on_db_run in Hrun.
  set (m2 := set_isdb _ (GetInstantSendLockByTxid (txid l) _).2) in Hrun.
  unfold mbind at 1 in Hrun. unfold MgrM_bind at 1 in Hrun.
  destruct (input_lookups_run (inputs l) m2) as (s3 & Hlook & Hs3). rewrite Hlook in Hrun.
  unfold mbind at 1 in Hrun. unfold MgrM_bind at 1 in Hrun. rewrite on_db_run in Hrun.
  cbn [isdb set_isdb] in Hrun.
  unfold mbind at 1 in Hrun. unfold MgrM_bind at 1 in Hrun.
  set (sw := (WriteNewInstantSendLock hash l s3).2) in Hrun.
  set (d := match pindexMined with
            | Some pindex => (WriteInstantSendLockMined hash (nHeight pindex) sw).2
            | None => sw
            end).
  set (mw := set_isdb mc d).
  assert (match pindexMined with
          | Some pindex => on_db (WriteInstantSendLockMined hash (nHeight pindex))
          | None => mgr_return
          end (set_isdb (set_isdb m2 s3) sw) = Some (tt, mw)) as Hw.
  { unfold mw, d. destruct pindexMined; [by rewrite on_db_run|done]. }
  rewrite Hw in Hrun. clear Hw.
  (* the store after the writes *)
  assert (is_i (db d) !! hash = Some l
          ∧ is_tx (db d) !! txid l = Some hash
          ∧ (∀ o, o ∈ inputs l → is_in (db d) !! o = Some hash)
          ∧ (∀ pindex, pindexMined = Some pindex →
               is_m (db d) !! mined_key (nHeight pindex) hash = Some true)
          ∧ islockCache d = islockCache sw ∧ txidCache d = txidCache sw) as Hd.
  { pose proof (WriteNew_db hash l s3) as Hwn. fold sw in Hwn.
    assert (is_i (db sw) !! hash = Some l) as Hi by (rewrite Hwn; apply lookup_insert_eq).
    assert (is_tx (db sw) !! txid l = Some hash) as Ht
      by (rewrite Hwn; apply lookup_insert_eq).
    assert (∀ o, o ∈ inputs l → is_in (db sw) !! o = Some hash) as Ho.
    { intros o Hin. rewrite Hwn. cbn [is_in]. by apply is_in_foldl_insert. }
    unfold d. destruct pindexMined as [p|].
    - rewrite WriteMined_db. cbn [is_i is_tx is_in is_m]. split_and!; try done.
      intros ? [= <-]. apply lookup_insert_eq.
    - split_and!; done. }
  destruct Hd as (Hi & Ht & Ho & Hm & Eic & Etc).
  (* the rest keeps the store *)
  set (Q := λ m0 : CInstantSendManager,
              isdb m0 = d
              ∧ (∀ i, i ∈ inputs l → nonLockedTxsByOutpoints m0 !! i = None)
              ∧ creatingInstantSendLocks m0 !! GetRequestId l = None).
  assert (∀ m0 x, Q m0 → Q (set_events m0 x)) as Qe by (by intros ? ? ?).
  assert (∀ m0 x, Q m0 → Q (set_inputRequestIds m0 x)) as Qi by (by intros ? ? ?).
  assert (∀ m0 x y z, Q m0 →
            nonLockedTxsByOutpoints m0 = y ∨ (∃ o, y = delete o (nonLockedTxsByOutpoints m0)) →
            Q (set_nonLocked m0 x y z)) as Qt.
  { intros m0 x y z (E1 & E2 & E3) Hy. split_and!; [done| |done].
    intros i Hin. cbn. destruct Hy as [<-|(o & ->)]; [by apply E2|].
    apply lookup_delete_None. right. by apply E2. }
  assert (Q mw) as HQ.
  { split_and!; [done|done|]. cbn. apply lookup_delete_eq. }
  assert (Q m') as (Em' & _ & Hcr).
  { match type of Hrun with
    | ?c mw = _ => assert (stable Q c) as Hst
    end.
    { apply stable_bind; [by apply RemoveNonLockedTx_stable|intros _].
      apply stable_bind; [by apply TruncateRecoveredSigsForInputs_stable|intros _].
      apply stable_bind; [destruct (fst <$> _); by apply stable_emit|intros _].
      apply stable_bind.
      { intros m0 a m1 HQ0 Hr. rewrite ResolveBlockConflicts_none in Hr by apply HQ0.
        by simplify_eq. }
      intros _. apply stable_bind; [by apply RemoveMempoolConflictsForLock_stable|intros _].
      destruct (fst <$> _); [|apply stable_return].
      apply stable_bind; [by apply stable_emit|intros _; by apply stable_emit]. }
    by eapply Hst. }
  rewrite Em'. split_and!; try done.
  - intros tx hb p Hg Hnb Hl. apply Hm. unfold pindexMined. by rewrite Hg, Hnb.
  - rewrite IsLockedInternal_run. unfold locked_now. rewrite Em'.
    rewrite (locked_after_write hash l); [by eexists|done..| |].
    + rewrite Eic. unfold sw, WriteNewInstantSendLock. unfold_monad. cbn.
      by intros v [[_ ->]|[? _]]%lru_insert_find.
    + rewrite Etc. unfold sw, WriteNewInstantSendLock. unfold_monad. cbn.
      by intros v [[_ ->]|[? _]]%lru_insert_find.
Qed.

(** X13: ProcessInstantSendLock ignores a lock that is already known
    (committed, cached or archived) and a lock whose transaction is mined in
    a ChainLocked block: it only forgets the lock among those being
    created; the store, the pending locks, the request ids and the tracked
    transactions stay as they are and nothing is relayed or notified. *)
Theorem ProcessInstantSendLock_ignores (from : Z) (hash : uint256) (l : CInstantSendLock)
    (m : CInstantSendManager) :
  (KnownInstantSendLock hash (isdb m)).1 = true
  ∨ (∃ tx hashBlock pindex,
       GetTransaction env (txid l) = Some (tx, hashBlock) ∧ IsNull hashBlock = false
       ∧ LookupBlockIndex env hashBlock = Some pindex
       ∧ HasChainLock env (nHeight pindex) (block_hash pindex) = true) →
  ∃ m', Manager.ProcessInstantSendLock env from hash l m = Some (tt, m')
        ∧ db (isdb m') = db (isdb m)
        ∧ events m' = events m
        ∧ pendingInstantSendLocks m' = pendingInstantSendLocks m
        ∧ inputRequestIds m' = inputRequestIds m
        ∧ tracking m' = tracking m
        ∧ creatingInstantSendLocks m' = delete (GetRequestId l) (creatingInstantSendLocks m)
        ∧ txToCreatingInstantSendLocks m'
          = delete (txid l) (txToCreatingInstantSendLocks m).
Proof.
  intros Hcase. unfold Manager.ProcessInstantSendLock.
  unfold mbind at 1. unfold MgrM_bind at 1. unfold modify_mgr at 1.
  unfold mbind at 1. unfold MgrM_bind at 1. rewrite on_db_run.
  cbn [isdb set_creating].
  pose proof (KnownInstantSendLock_same hash (isdb m)) as [Hd _].
  destruct (KnownInstantSendLock hash (isdb m)).1 eqn:Hk.
  { eexists. split; [reflexivity|]. by cbn. }
  destruct Hcase as [?|(tx & hb & p & -> & Hnb & Hl & Hcl)]; [done|].
  rewrite Hnb. cbn [negb]. rewrite Hl, Hcl.
  eexists. split; [reflexivity|]. by cbn.
Qed.
End process.
End ProcessLock.

(** ** Tracking the transactions without a lock *)

Module TrackingFacts.
Import Queries ProcessLock.

Lemma for_each_modify {A : Type} (xs : list A)
    (f : A → CInstantSendManager → CInstantSendManager) (m : CInstantSendManager) :
  for_each xs (λ x, modify_mgr (f x)) m = Some (tt, foldl (λ m x, f x m) m xs).
Proof.
  revert m. induction xs as [|x xs IH]; intros m; [done|].
  cbn [for_each foldl]. unfold mbind, MgrM_bind, modify_mgr at 1. apply IH.
Qed.

(** The step of the loop of [AddNonLockedTx] and of [RemoveNonLockedTx]. *)
Lemma add_loop (txid : uint256) (ins : list CTxIn) (m : CInstantSendManager) :
  let m' := foldl (λ m i,
              set_nonLocked m
                (<[hash (prevout i) :=
                     mkInfo (pindexMined (default (mkInfo None None ∅)
                                            (nonLockedTxs m !! hash (prevout i))))
                            (info_tx (default (mkInfo None None ∅)
                                        (nonLockedTxs m !! hash (prevout i))))
                            ({[txid]} ∪ children (default (mkInfo None None ∅)
                                                   (nonLockedTxs m !! hash (prevout i))))]>
                   (nonLockedTxs m))
                (match nonLockedTxsByOutpoints m !! prevout i with
                 | Some _ => nonLockedTxsByOutpoints m
                 | None => <[prevout i := txid]> (nonLockedTxsByOutpoints m)
                 end)
                (pendingRetryTxs m)) m ins in
  (∀ k, nonLockedTxs m' !! k
        = if decide (k ∈ map (λ i, hash (prevout i)) ins)
          then Some (add_child txid (default (mkInfo None None ∅) (nonLockedTxs m !! k)))
          else nonLockedTxs m !! k)
  ∧ (∀ o, nonLockedTxsByOutpoints m' !! o
          = match nonLockedTxsByOutpoints m !! o with
            | Some v => Some v
            | None => if decide (o ∈ map prevout ins) then Some txid else None
            end)
  ∧ isdb m' = isdb m ∧ inputRequestIds m' = inputRequestIds m
  ∧ creatingInstantSendLocks m' = creatingInstantSendLocks m
  ∧ txToCreatingInstantSendLocks m' = txToCreatingInstantSendLocks m
  ∧ pendingInstantSendLocks m' = pendingInstantSendLocks m
  ∧ pendingRetryTxs m' = pendingRetryTxs m ∧ events m' = events m.
Proof.
  revert m. induction ins as [|i ins IH]; intros m; cbn zeta.
  { split_and!; try done.
    intros o. cbn [foldl]. destruct (nonLockedTxsByOutpoints m !! o); [done|].
    rewrite decide_False; [done|]. by intros ?%elem_of_nil. }
  cbn [foldl]. set (m1 := set_nonLocked m _ _ _).
  destruct (IH m1) as (Ht & Ho & E1 & E2 & E3 & E4 & E5 & E6 & E7). cbn zeta in *.
  split_and!; try done.
  - intros k. rewrite Ht. cbn [map]. unfold m1. cbn [nonLockedTxs set_nonLocked].
    destruct (decide (k = hash (prevout i))) as [->|Hne].
    + rewrite lookup_insert_eq. cbn [default].
      rewrite (decide_True (P := _ ∈ _ :: _)) by set_solver.
      case_decide; [|done]. f_equal. unfold add_child. cbn. f_equal. set_solver.
    + rewrite lookup_insert_ne by done. repeat case_decide; set_solver.
  - intros o. rewrite Ho. cbn [map]. unfold m1. cbn [nonLockedTxsByOutpoints set_nonLocked].
    destruct (decide (o = prevout i)) as [->|Hne].
    + destruct (nonLockedTxsByOutpoints m !! prevout i) as [v|] eqn:E; [by rewrite E|].
      rewrite lookup_insert_eq. by rewrite decide_True by set_solver.
    + assert (match nonLockedTxsByOutpoints m !! prevout i with
              | Some _ => nonLockedTxsByOutpoints m
              | None => <[prevout i := txid]> (nonLockedTxsByOutpoints m)
              end !! o = nonLockedTxsByOutpoints m !! o) as ->.
      { destruct (nonLockedTxsByOutpoints m !! prevout i); [done|].
        by rewrite lookup_insert_ne. }
      destruct (nonLockedTxsByOutpoints m !! o); [done|]. repeat case_decide; set_solver.
Qed.

Lemma del_child_again c j j' : del_child c j = Some j' → del_child c j' = Some j'.
Proof.
  unfold del_child. cbn zeta. intros Hd.
  destruct (bool_decide _ && bool_decide _) eqn:E; [done|]. injection Hd as <-. cbn.
  assert (children j ∖ {[c]} ∖ {[c]} = children j ∖ {[c]}) as -> by set_solver.
  cbn in E. by rewrite E.
Qed.

Lemma remove_loop (txid : uint256) (ins : list CTxIn) (m : CInstantSendManager) :
  let m' := foldl (λ m i,
              set_nonLocked m
                (match nonLockedTxs m !! hash (prevout i) with
                 | None => nonLockedTxs m
                 | Some j =>
                     if bool_decide (info_tx (mkInfo (pindexMined j) (info_tx j)
                                                (children j ∖ {[txid]})) = None)
                        && bool_decide (children (mkInfo (pindexMined j) (info_tx j)
                                                    (children j ∖ {[txid]})) = ∅)
                     then delete (hash (prevout i)) (nonLockedTxs m)
                     else <[hash (prevout i) := mkInfo (pindexMined j) (info_tx j)
                                                  (children j ∖ {[txid]})]>
                            (nonLockedTxs m)
                 end)
                (delete (prevout i) (nonLockedTxsByOutpoints m))
                (pendingRetryTxs m)) m ins in
  (∀ k, nonLockedTxs m' !! k
        = if decide (k ∈ map (λ i, hash (prevout i)) ins)
          then nonLockedTxs m !! k ≫= del_child txid
          else nonLockedTxs m !! k)
  ∧ (∀ o, nonLockedTxsByOutpoints m' !! o
          = if decide (o ∈ map prevout ins) then None
            else nonLockedTxsByOutpoints m !! o)
  ∧ isdb m' = isdb m ∧ inputRequestIds m' = inputRequestIds m
  ∧ creatingInstantSendLocks m' = creatingInstantSendLocks m
  ∧ txToCreatingInstantSendLocks m' = txToCreatingInstantSendLocks m
  ∧ pendingInstantSendLocks m' = pendingInstantSendLocks m
  ∧ pendingRetryTxs m' = pendingRetryTxs m ∧ events m' = events m.
Proof.
  revert m. induction ins as [|i ins IH]; intros m; cbn zeta.
  { split_and!; done. }
  cbn [foldl]. set (m1 := set_nonLocked m _ _ _).
  destruct (IH m1) as (Ht & Ho & E1 & E2 & E3 & E4 & E5 & E6 & E7). cbn zeta in *.
  assert (∀ k, nonLockedTxs m1 !! k
               = if decide (k = hash (prevout i))
                 then nonLockedTxs m !! k ≫= del_child txid
                 else nonLockedTxs m !! k) as Hm1.
  { intros k. unfold m1. cbn [nonLockedTxs set_nonLocked].
    destruct (decide (k = hash (prevout i))) as [->|Hne].
    - destruct (nonLockedTxs m !! hash (prevout i)) as [j|] eqn:E; [|by rewrite E].
      cbn [mbind option_bind]. unfold del_child. cbn zeta.
      destruct (bool_decide _ && bool_decide _);
        [apply lookup_delete_eq|apply lookup_insert_eq].
    - destruct (nonLockedTxs m !! hash (prevout i)) as [j|]; [|done].
      destruct (bool_decide _ && bool_decide _);
        [by rewrite lookup_delete_ne|by rewrite lookup_insert_ne]. }
  split_and!; try done.
  - intros k. rewrite Ht, Hm1. cbn [map].
    destruct (decide (k = hash (prevout i))) as [->|Hne].
    + rewrite (decide_True (P := _ ∈ _ :: _)) by set_solver.
      case_decide; [|done].
      destruct (nonLockedTxs m !! hash (prevout i)) as [j|]; [|done].
      cbn [mbind option_bind]. destruct (del_child txid j) as [j'|] eqn:Ed; [|done].
      cbn [mbind option_bind]. by apply (del_child_again _ j).
    + repeat case_decide; set_solver.
  - intros o. rewrite Ho. cbn [map]. unfold m1. cbn [nonLockedTxsByOutpoints set_nonLocked].
    destruct (decide (o = prevout i)) as [->|Hne].
    + rewrite lookup_delete_eq. repeat case_decide; set_solver.
    + rewrite lookup_delete_ne by done. repeat case_decide; set_solver.
Qed.

Section tracking.
Context `{HeaderDecls} `{Primitives}.

(** X14: AddNonLockedTx of a transaction that is not tracked, does not
    spend itself and whose outpoints are free records it with its block,
    makes it a child of the transaction of each input and claims each
    outpoint; RemoveNonLockedTx then brings the manager back to what it
    was (entries made for the parents go again), provided no entry
    listed it as a child before and no entry was empty. *)
Theorem track_then_untrack (tx : CTransaction) (mined : option CBlockIndex) (rc : bool)
    (m : CInstantSendManager) :
  nonLockedTxs m !! tx_hash tx = None →
  (∀ i, i ∈ vin tx → hash (prevout i) ≠ tx_hash tx) →
  (∀ i, i ∈ vin tx → nonLockedTxsByOutpoints m !! prevout i = None) →
  (∀ k j, nonLockedTxs m !! k = Some j →
          (tx_hash tx ∉ children j) ∧ (info_tx j = None → children j ≠ ∅)) →
  ∃ m1, Tracking.AddNonLockedTx tx mined m = Some (tt, m1)
    ∧ nonLockedTxs m1 !! tx_hash tx = Some (mkInfo mined (Some tx) ∅)
    ∧ (∀ i, i ∈ vin tx →
         nonLockedTxsByOutpoints m1 !! prevout i = Some (tx_hash tx)
         ∧ ∃ j, nonLockedTxs m1 !! hash (prevout i) = Some j ∧ tx_hash tx ∈ children j)
    ∧ Manager.RemoveNonLockedTx (tx_hash tx) rc m1 = Some (tt, m).
Proof.
  intros Hun Hself Hfree Hwf.
  set (txid := tx_hash tx) in *.
  set (mA := set_nonLocked m (<[txid := mkInfo mined (Some tx) ∅]> (nonLockedTxs m))
               (nonLockedTxsByOutpoints m) (pendingRetryTxs m)).
  pose proof (add_loop txid (vin tx) mA) as Hadd. cbn zeta in Hadd.
  set (m1 := foldl _ mA (vin tx)) in Hadd.
  destruct Hadd as (Ht1 & Ho1 & A1 & A2 & A3 & A4 & A5 & A6 & A7).
  assert (txid ∉ map (λ i, hash (prevout i)) (vin tx)) as Hnp.
  { intros (i & Hi & Hin)%list_elem_of_fmap. by apply (Hself i). }
  assert (nonLockedTxs m1 !! txid = Some (mkInfo mined (Some tx) ∅)) as Hinfo.
  { rewrite Ht1, decide_False by done. apply lookup_insert_eq. }
  exists m1. split_and!.
  - unfold Tracking.AddNonLockedTx. unfold mbind at 1. unfold MgrM_bind at 1. unfold get_mgr.
    fold txid. rewrite Hun, bool_decide_eq_true_2 by done.
    unfold mbind, MgrM_bind, modify_mgr at 1. cbn [default children].
    by rewrite for_each_modify.
  - done.
  - intros i Hi. split.
    + rewrite Ho1. change (nonLockedTxsByOutpoints mA) with (nonLockedTxsByOutpoints m).
      rewrite Hfree by done. rewrite decide_True; [done|].
      apply list_elem_of_fmap. by exists i.
    + rewrite Ht1, decide_True by (apply list_elem_of_fmap; by exists i).
      eexists. split; [done|]. unfold add_child. cbn. set_solver.
  - unfold Manager.RemoveNonLockedTx. unfold mbind at 1. unfold MgrM_bind at 1.
    unfold get_mgr. fold txid. rewrite Hinfo. cbn [info_tx children].
    set (mR := if rc then set_nonLocked m1 (nonLockedTxs m1) (nonLockedTxsByOutpoints m1)
                            (∅ ∪ pendingRetryTxs m1) else m1).
    assert ((if rc then
               modify_mgr (λ m0, set_nonLocked m0 (nonLockedTxs m0)
                                   (nonLockedTxsByOutpoints m0) (∅ ∪ pendingRetryTxs m0))
             else mgr_return) m1 = Some (tt, mR)) as HR by (by destruct rc).
    unfold mbind at 1. unfold MgrM_bind at 1. rewrite HR.
    unfold mbind at 1. unfold MgrM_bind at 1. rewrite for_each_modify.
    pose proof (remove_loop txid (vin tx) mR) as Hrem. cbn zeta in Hrem.
    set (m2 := foldl _ mR (vin tx)) in *.
    destruct Hrem as (Ht2 & Ho2 & R1 & R2 & R3 & R4 & R5 & R6 & R7).
    unfold modify_mgr. f_equal. f_equal.
    assert (nonLockedTxs mR = nonLockedTxs m1
            ∧ nonLockedTxsByOutpoints mR = nonLockedTxsByOutpoints m1
            ∧ pendingRetryTxs mR = pendingRetryTxs m1
            ∧ isdb mR = isdb m1 ∧ inputRequestIds mR = inputRequestIds m1
            ∧ creatingInstantSendLocks mR = creatingInstantSendLocks m1
            ∧ txToCreatingInstantSendLocks mR = txToCreatingInstantSendLocks m1
            ∧ pendingInstantSendLocks mR = pendingInstantSendLocks m1
            ∧ events mR = events m1) as (S1 & S2 & S3 & S4 & S5 & S6 & S7 & S8 & S9).
    { unfold mR. destruct rc; split_and!; try done. cbn. apply union_empty_l_L. }
    assert (delete txid (nonLockedTxs m2) = nonLockedTxs m) as Et.
    { apply map_eq. intros k. destruct (decide (k = txid)) as [->|Hne].
      { by rewrite lookup_delete_eq, Hun. }
      rewrite lookup_delete_ne by done. rewrite Ht2, S1, Ht1.
      change (nonLockedTxs mA) with (<[txid := mkInfo mined (Some tx) ∅]> (nonLockedTxs m)).
      rewrite lookup_insert_ne by done.
      case_decide as Hk; [|done]. cbn [mbind option_bind].
      unfold del_child, add_child. cbn zeta. cbn [info_tx children pindexMined].
      destruct (nonLockedTxs m !! k) as [j|] eqn:Ej; cbn [default from_option id].
      - destruct (Hwf k j Ej) as [Hnc Hne'].
        assert (({[txid]} ∪ children j) ∖ {[txid]} = children j) as -> by set_solver.
        destruct (info_tx j) eqn:Ei.
        + rewrite bool_decide_eq_false_2 by done. cbn. destruct j. cbn in *. by subst.
        + rewrite (bool_decide_eq_false_2 (children j = ∅)) by (by apply Hne').
          rewrite andb_false_r. destruct j. cbn in *. by subst.
      - cbn [info_tx children].
        assert (({[txid]} ∪ ∅) ∖ {[txid]} = (∅ : gset uint256)) as -> by set_solver.
        by rewrite !bool_decide_eq_true_2. }
    assert (nonLockedTxsByOutpoints m2 = nonLockedTxsByOutpoints m) as Eo.
    { apply map_eq. intros o. rewrite Ho2, S2, Ho1.
      change (nonLockedTxsByOutpoints mA) with (nonLockedTxsByOutpoints m).
      case_decide as Hk.
      - apply list_elem_of_fmap in Hk as (i & -> & Hi). symmetry. by apply Hfree.
      - by destruct (nonLockedTxsByOutpoints m !! o). }
    rewrite Et, Eo, R6, S3, A6. unfold set_nonLocked.
    rewrite R1, R2, R3, R4, R5, R7, S4, S5, S6, S7, S8, S9, A1, A2, A3, A4, A5, A7.
    by destruct m.
Qed.
End tracking.
End TrackingFacts.

(** ** Conflicting locks *)

Module Conflicts.
Import LockStore Queries CacheCoherence.

Lemma first_conflict_Some d t ins l :
  first_conflict d t ins = Some l →
  ∃ i h, i ∈ ins ∧ is_in d !! prevout i = Some h ∧ committed d h = Some l ∧ txid l ≠ t.
Proof.
  induction ins as [|i ins IH]; cbn [first_conflict]; [done|].
  destruct (committed d (default 0 (is_in d !! prevout i))) as [l'|] eqn:Ec.
  - case_bool_decide as Ht.
    + intros [= ->]. destruct (is_in d !! prevout i) as [h|] eqn:Eh.
      * exists i, h. split_and!; [by left|done..].
      * by unfold committed in Ec.
    + intros (i' & h & ? & ?)%IH. exists i', h. split; [by right|done].
  - intros (i' & h & ? & ?)%IH. exists i', h. split; [by right|done].
Qed.

Lemma first_conflict_None d t ins :
  first_conflict d t ins = None ↔
  ∀ i h l, i ∈ ins → is_in d !! prevout i = Some h → committed d h = Some l → txid l = t.
Proof.
  induction ins as [|i ins IH]; cbn [first_conflict].
  { split; [|done]. by intros _ ? ? ? ?%elem_of_nil. }
  destruct (committed d (default 0 (is_in d !! prevout i))) as [l'|] eqn:Ec.
  - case_bool_decide as Ht.
    + split; [done|]. intros Hall. exfalso. apply Ht.
      destruct (is_in d !! prevout i) as [h|] eqn:Eh; [|by unfold committed in Ec].
      eapply (Hall i h); [by left|done..].
    + rewrite IH. split.
      * intros Hall i' h l [->|Hin]%elem_of_cons Hh Hc; [|by eapply Hall].
        rewrite Hh in Ec. cbn in Ec. congruence.
      * intros Hall i' h l Hin. apply Hall. by right.
  - rewrite IH. split.
    + intros Hall i' h l [->|Hin]%elem_of_cons Hh Hc; [|by eapply Hall].
      rewrite Hh in Ec. cbn in Ec. congruence.
    + intros Hall i' h l Hin. apply Hall. by right.
Qed.

Section conflicts.
Context `{HeaderDecls} `{Primitives}.
Variable env : Env.

Lemma GetConflictingLockInternal_loop_run ins t (m : CInstantSendManager) :
  caches_coherent (isdb m) →
  ∃ m', Tracking.GetConflictingLockInternal_loop ins t m
        = Some (first_conflict (db (isdb m)) t ins, m')
        ∧ db (isdb m') = db (isdb m) ∧ caches_coherent (isdb m')
        ∧ tracking m' = tracking m ∧ events m' = events m
        ∧ pendingInstantSendLocks m' = pendingInstantSendLocks m.
Proof.
  revert m. induction ins as [|i ins IH]; intros m Hc.
  { exists m. by split_and!. }
  cbn [Tracking.GetConflictingLockInternal_loop first_conflict].
  unfold mbind at 1. unfold MgrM_bind at 1. rewrite on_db_run.
  destruct (GetInstantSendLockByInput_coherent (prevout i) (isdb m) Hc) as [Hr Hc1].
  pose proof (GetInstantSendLockByInput_same (prevout i) (isdb m)) as [Hd _].
  rewrite Hr.
  set (m1 := set_isdb m _) in *.
  destruct (IH m1 Hc1) as (m' & Hrun & Hd' & Hc' & Et & Ee & Ep).
  change (db (isdb m1)) with (db (GetInstantSendLockByInput (prevout i) (isdb m)).2) in *.
  rewrite Hd in Hrun, Hd'.
  destruct (committed (db (isdb m)) (default 0 (is_in (db (isdb m)) !! prevout i)))
    as [l|].
  - case_bool_decide.
    + exists m1. split_and!; try done.
    + exists m'. by split_and!.
  - exists m'. by split_and!.
Qed.

(** X15: GetConflictingLock returns nothing when InstantSend is disabled,
    without a lookup. Enabled and with coherent caches it returns the first
    lock, in the order of the inputs, that the store has for an input of
    the transaction and that locks another transaction; so it returns a
    lock only if some input is locked for another txid, and nothing
    exactly when every locked input is locked for this transaction. It
    changes the caches only. *)
Theorem GetConflictingLock_first (tx : CTransaction) (m : CInstantSendManager) :
  (IsInstantSendEnabled env = false → Tracking.GetConflictingLock env tx m = Some (None, m))
  ∧ (IsInstantSendEnabled env = true → caches_coherent (isdb m) →
     ∃ r m', Tracking.GetConflictingLock env tx m = Some (r, m')
       ∧ r = first_conflict (db (isdb m)) (tx_hash tx) (vin tx)
       ∧ (∀ l, r = Some l →
            ∃ i h, i ∈ vin tx ∧ is_in (db (isdb m)) !! prevout i = Some h
                   ∧ committed (db (isdb m)) h = Some l ∧ txid l ≠ tx_hash tx)
       ∧ (r = None ↔
          ∀ i h l, i ∈ vin tx → is_in (db (isdb m)) !! prevout i = Some h →
                   committed (db (isdb m)) h = Some l → txid l = tx_hash tx)
       ∧ db (isdb m') = db (isdb m) ∧ caches_coherent (isdb m')
       ∧ tracking m' = tracking m ∧ events m' = events m
       ∧ pendingInstantSendLocks m' = pendingInstantSendLocks m).
Proof.
  split.
  - intros Hoff. unfold Tracking.GetConflictingLock. by rewrite Hoff.
  - intros Hon Hc. unfold Tracking.GetConflictingLock, Tracking.GetConflictingLockInternal.
    rewrite Hon. cbn [negb].
    destruct (GetConflictingLockInternal_loop_run (vin tx) (tx_hash tx) m Hc)
      as (m' & Hrun & Hd & Hc' & Et & Ee & Ep).
    eexists _, m'. split; [exact Hrun|]. split_and!; try done.
    + intros l. apply first_conflict_Some.
    + apply first_conflict_None.
Qed.
End conflicts.
End Conflicts.

(** ** Signing a lock and receiving its recovered signature *)

Module Signing.
Import LockStore Queries CacheCoherence Messages.

Section signing.
Context `{HeaderDecls} `{Primitives}.
Variable env : Env.
Variable sig : SigningEnv.

(** X16: Assume the DKG interval is not 0, every input of the transaction
    has its recovered signature, the chain has the block at the last
    multiple of the DKG interval, the signing manager has no recovered
    signature yet for the lock's request id, no lock is being created under
    that id, and the signed lock's hash is not pending and
    KnownInstantSendLock answers false for it. Then TrySignInstantSendLock
    returns true and registers a deterministic lock with the transaction's
    prevouts in order, that block's hash as cycleHash and an empty
    signature; a second call returns false and changes nothing; the
    recovered signature for that id and txid then removes the lock from the
    creating maps and queues it, signed, as coming from peer -1. The request
    id does not depend on the signature; store, outbound calls and tracked
    transactions are as before, and coherent caches stay coherent. *)
Theorem sign_then_recover (tx : CTransaction) (quorumBlock : CBlockIndex) (s : list Z)
    (m : CInstantSendManager) :
  let quorumHeight :=
    chainActive_Height env - Z.rem (chainActive_Height env) (dkgInterval env) in
  let created := mkLock isdlock_version (tx_hash tx) (map prevout (vin tx))
                        (block_hash quorumBlock) (empty_sig sig) in
  let islock := mkLock isdlock_version (tx_hash tx) (map prevout (vin tx))
                       (block_hash quorumBlock) s in
  let id := GetRequestId created in
  let hash := SerializeHash ser_islock islock in
  dkgInterval env ≠ 0 →
  (∀ i, i ∈ vin tx →
        HasRecoveredSig sig (InputLockRequestId (prevout i)) (tx_hash tx) = true) →
  chainActive_at sig quorumHeight = Some quorumBlock →
  HasRecoveredSigForId sig id = false →
  creatingInstantSendLocks m !! id = None →
  pendingInstantSendLocks m !! hash = None →
  (KnownInstantSendLock hash (isdb m)).1 = false →
  ∃ m1 m2,
    Tracking.TrySignInstantSendLock env sig tx m = Some (true, m1)
    ∧ creatingInstantSendLocks m1 !! id = Some created
    ∧ is_Some (txToCreatingInstantSendLocks m1 !! tx_hash tx)
    ∧ Tracking.TrySignInstantSendLock env sig tx m1 = Some (false, m1)
    ∧ Tracking.HandleNewInstantSendLockRecoveredSig (mkRecSig id (tx_hash tx) s) m1
      = Some (tt, m2)
    ∧ creatingInstantSendLocks m2 = creatingInstantSendLocks m
    ∧ txToCreatingInstantSendLocks m2 !! tx_hash tx = None
    ∧ pendingInstantSendLocks m2 = <[hash := (-1, islock)]> (pendingInstantSendLocks m)
    ∧ GetRequestId islock = id
    ∧ IsDeterministic islock = true
    ∧ Z.rem quorumHeight (dkgInterval env) = 0
    ∧ db (isdb m2) = db (isdb m)
    ∧ (caches_coherent (isdb m) → caches_coherent (isdb m2))
    ∧ events m2 = events m ∧ tracking m2 = tracking m.
Proof.
  intros quorumHeight created islock id hash Hdkg Hall Hq Hrec Hcr Hp Hk.
  assert (forallb (λ i, HasRecoveredSig sig (InputLockRequestId (prevout i)) (tx_hash tx))
                  (vin tx) = true) as Hfa.
  { apply forallb_forall. intros i Hi. apply Hall. by apply list_elem_of_In. }
  set (m1 := set_creating m (<[id := created]> (creatingInstantSendLocks m))
               (match txToCreatingInstantSendLocks m !! tx_hash tx with
                | Some _ => txToCreatingInstantSendLocks m
                | None => <[tx_hash tx := id]> (txToCreatingInstantSendLocks m)
                end)).
  assert (Tracking.TrySignInstantSendLock env sig tx m = Some (true, m1)) as Hrun1.
  { unfold Tracking.TrySignInstantSendLock. rewrite Hfa. cbn [negb].
    fold quorumHeight. rewrite Hq. fold created. fold id. rewrite Hrec.
    unfold mbind at 1. unfold MgrM_bind at 1. unfold get_mgr. rewrite Hcr.
    done. }
  assert (creatingInstantSendLocks m1 !! id = Some created) as Hcr1.
  { subst m1. cbn. by rewrite lookup_insert_eq. }
  pose proof (KnownInstantSendLock_same hash (isdb m)) as [Hd _].
  eexists m1, _. split; [exact Hrun1|]. split; [exact Hcr1|]. split.
  { subst m1. cbn. destruct (txToCreatingInstantSendLocks m !! tx_hash tx) eqn:E.
    - by rewrite E.
    - by rewrite lookup_insert_eq. }
  split.
  { unfold Tracking.TrySignInstantSendLock. rewrite Hfa. cbn [negb].
    fold quorumHeight. rewrite Hq. fold created. fold id. rewrite Hrec.
    unfold mbind at 1. unfold MgrM_bind at 1. unfold get_mgr. by rewrite Hcr1. }
  split.
  { unfold Tracking.HandleNewInstantSendLockRecoveredSig. cbn [rs_id rs_msgHash rs_sig].
    unfold mbind at 1. unfold MgrM_bind at 1. unfold get_mgr at 1. rewrite Hcr1.
    unfold mbind at 1. unfold MgrM_bind at 1. unfold modify_mgr at 1.
    cbn [txid created nVersion inputs cycleHash].
    rewrite bool_decide_eq_false_2 by (by intros []).
    fold islock. fold hash.
    pose proof (enqueue_run (-1) islock
      (set_creating m1 (delete id (creatingInstantSendLocks m1))
                       (delete (tx_hash tx) (txToCreatingInstantSendLocks m1)))) as Henq.
    cbn zeta in Henq. fold hash in Henq. rewrite Henq.
    reflexivity. }
  cbn [pendingInstantSendLocks set_creating m1 isdb].
  rewrite bool_decide_eq_false_2 by (rewrite Hp; by intros [? ?]).
  rewrite Hk.
  split_and!; try done.
  - cbn. by rewrite delete_insert_id.
  - cbn. by rewrite lookup_delete_eq.
  - subst quorumHeight.
    rewrite (Z.quot_rem' (chainActive_Height env) (dkgInterval env)) at 1.
    replace (dkgInterval env * (chainActive_Height env ÷ dkgInterval env)
             + Z.rem (chainActive_Height env) (dkgInterval env)
             - Z.rem (chainActive_Height env) (dkgInterval env))
      with ((chainActive_Height env ÷ dkgInterval env) * dkgInterval env) by lia.
    by apply Z.rem_mul.
  - intros Hc. by destruct (KnownInstantSendLock_coherent hash (isdb m) Hc).
Qed.
End signing.
End Signing.

(** ** Fully confirmed blocks *)

Module ConfirmedBlocks.
Import LockStore Queries CacheCoherence ProcessLock TrackingFacts.

Section confirmed.
Context `{HeaderDecls} `{Primitives}.
Variable env : Env.

(** [TruncateRecoveredSigsForInputs] in closed form. *)
Lemma TruncateRecoveredSigsForInputs_run (l : CInstantSendLock) (m : CInstantSendManager) :
  Manager.TruncateRecoveredSigsForInputs l m
  = Some (tt, set_events
                (set_inputRequestIds m
                   (inputRequestIds m ∖ list_to_set (map InputLockRequestId (inputs l))))
                (events m ++ map (λ o, TruncateRecoveredSig (InputLockRequestId o))
                                 (inputs l))).
Proof.
  unfold Manager.TruncateRecoveredSigsForInputs. generalize (inputs l) as os.
  intros os. revert m. induction os as [|o os IH]; intros m.
  - cbn [for_each map list_to_set]. unfold mgr_return, mret, MgrM_ret.
    rewrite difference_empty_L, app_nil_r. by destruct m.
  - cbn [for_each]. unfold mbind at 1. unfold MgrM_bind at 1.
    unfold mbind at 1. unfold MgrM_bind at 1. unfold modify_mgr at 1, emit at 1, modify_mgr at 1.
    rewrite IH. do 2 f_equal. destruct m; unfold set_events, set_inputRequestIds; cbn.
    f_equal.
    + cbn [map list_to_set]. set_solver.
    + by rewrite <- app_assoc.
Qed.

(** The first loop of [HandleFullyConfirmedBlock] in closed form. *)
Lemma truncate_removed_run (ps : list (uint256 * CInstantSendLock))
    (m : CInstantSendManager) :
  for_each ps (λ p, _ ← Manager.TruncateRecoveredSigsForInputs p.2;
                    emit (TruncateRecoveredSig (GetRequestId p.2))) m
  = Some (tt, set_events
                (set_inputRequestIds m
                   (inputRequestIds m
                    ∖ list_to_set (flat_map (λ p, map InputLockRequestId (inputs p.2)) ps)))
                (events m
                 ++ flat_map (λ p, map (λ o, TruncateRecoveredSig (InputLockRequestId o))
                                       (inputs p.2)
                                   ++ [TruncateRecoveredSig (GetRequestId p.2)]) ps)).
Proof.
  revert m. induction ps as [|p ps IH]; intros m.
  - cbn [for_each flat_map list_to_set]. unfold mgr_return, mret, MgrM_ret.
    rewrite difference_empty_L, app_nil_r. by destruct m.
  - cbn [for_each]. unfold mbind at 1. unfold MgrM_bind at 1.
    unfold mbind at 1. unfold MgrM_bind at 1.
    rewrite TruncateRecoveredSigsForInputs_run. unfold emit at 1, modify_mgr at 1.
    rewrite IH. do 2 f_equal. destruct m; unfold set_events, set_inputRequestIds; cbn.
    f_equal.
    + rewrite list_to_set_app_L. set_solver.
    + by rewrite <- !app_assoc.
Qed.

(** [RemoveNonLockedTx] always returns; the transaction is not tracked
    afterwards, no transaction becomes tracked, the set to retry only
    grows and nothing else changes. *)
Lemma RemoveNonLockedTx_run (t : uint256) (rc : bool) (m : CInstantSendManager) :
  ∃ m', Manager.RemoveNonLockedTx t rc m = Some (tt, m')
    ∧ nonLockedTxs m' !! t = None
    ∧ (∀ k, nonLockedTxs m !! k = None → nonLockedTxs m' !! k = None)
    ∧ pendingRetryTxs m ⊆ pendingRetryTxs m'
    ∧ isdb m' = isdb m ∧ inputRequestIds m' = inputRequestIds m
    ∧ creatingInstantSendLocks m' = creatingInstantSendLocks m
    ∧ txToCreatingInstantSendLocks m' = txToCreatingInstantSendLocks m
    ∧ pendingInstantSendLocks m' = pendingInstantSendLocks m
    ∧ events m' = events m.
Proof.
  unfold Manager.RemoveNonLockedTx. unfold mbind at 1. unfold MgrM_bind at 1.
  unfold get_mgr at 1.
  destruct (nonLockedTxs m !! t) as [info|] eqn:Et.
  2:{ exists m. by split_and!. }
  set (m1 := if rc then set_nonLocked m (nonLockedTxs m) (nonLockedTxsByOutpoints m)
                          (children info ∪ pendingRetryTxs m) else m).
  assert ((if rc then
             modify_mgr (λ m, set_nonLocked m (nonLockedTxs m) (nonLockedTxsByOutpoints m)
                                (children info ∪ pendingRetryTxs m))
           else mgr_return) m = Some (tt, m1)) as Hs1 by (by destruct rc).
  unfold mbind at 1. unfold MgrM_bind at 1. rewrite Hs1.
  assert (nonLockedTxs m1 = nonLockedTxs m ∧ pendingRetryTxs m ⊆ pendingRetryTxs m1
          ∧ isdb m1 = isdb m ∧ inputRequestIds m1 = inputRequestIds m
          ∧ creatingInstantSendLocks m1 = creatingInstantSendLocks m
          ∧ txToCreatingInstantSendLocks m1 = txToCreatingInstantSendLocks m
          ∧ pendingInstantSendLocks m1 = pendingInstantSendLocks m
          ∧ events m1 = events m) as (B0 & B1 & B2 & B3 & B4 & B5 & B6 & B7).
  { subst m1. destruct rc; cbn; split_and!; try done. set_solver. }
  clearbody m1. clear Hs1.
  unfold mbind at 1. unfold MgrM_bind at 1.
  destruct (info_tx info) as [tx|].
  - rewrite for_each_modify.
    pose proof (remove_loop t (vin tx) m1) as Hl. cbn zeta in Hl.
    set (m2 := foldl _ m1 (vin tx)) in *.
    destruct Hl as (Ht & _ & A1 & A2 & A3 & A4 & A5 & A6 & A7).
    unfold modify_mgr. eexists. split; [reflexivity|].
    cbn [nonLockedTxs set_nonLocked pendingRetryTxs isdb inputRequestIds
         creatingInstantSendLocks txToCreatingInstantSendLocks pendingInstantSendLocks events].
    split_and!; try congruence.
    + apply lookup_delete_eq.
    + intros k Hk. apply lookup_delete_None. right. rewrite Ht, B0, Hk.
      by case_decide.
    + by rewrite A6.
  - unfold mgr_return, mret, MgrM_ret, modify_mgr. eexists. split; [reflexivity|].
    cbn [nonLockedTxs set_nonLocked pendingRetryTxs isdb inputRequestIds
         creatingInstantSendLocks txToCreatingInstantSendLocks pendingInstantSendLocks events].
    split_and!; try congruence.
    + apply lookup_delete_eq.
    + intros k Hk. apply lookup_delete_None. right. by rewrite B0.
    + done.
Qed.

(** The last loop of [HandleFullyConfirmedBlock]. *)
Lemma untrack_all_run (ts : list uint256) (m : CInstantSendManager) :
  ∃ m', for_each ts (λ txid, Manager.RemoveNonLockedTx txid true) m = Some (tt, m')
    ∧ (∀ t, t ∈ ts → nonLockedTxs m' !! t = None)
    ∧ (∀ k, nonLockedTxs m !! k = None → nonLockedTxs m' !! k = None)
    ∧ pendingRetryTxs m ⊆ pendingRetryTxs m'
    ∧ isdb m' = isdb m ∧ inputRequestIds m' = inputRequestIds m
    ∧ creatingInstantSendLocks m' = creatingInstantSendLocks m
    ∧ txToCreatingInstantSendLocks m' = txToCreatingInstantSendLocks m
    ∧ pendingInstantSendLocks m' = pendingInstantSendLocks m
    ∧ events m' = events m.
Proof.
  revert m. induction ts as [|t ts IH]; intros m.
  { exists m. split_and!; try done. by intros t ?%elem_of_nil. }
  cbn [for_each]. unfold mbind at 1. unfold MgrM_bind at 1.
  destruct (RemoveNonLockedTx_run t true m)
    as (m1 & -> & Ht & Hk & Hr & A1 & A2 & A3 & A4 & A5 & A6).
  destruct (IH m1) as (m' & -> & Hts & Hk' & Hr' & C1 & C2 & C3 & C4 & C5 & C6).
  exists m'. split; [done|]. split_and!; try congruence.
  - intros t' [->|Hin]%elem_of_cons; [by apply Hk'|by apply Hts].
  - intros k Hn. by apply Hk', Hk.
  - set_solver.
Qed.

(** X17: HandleFullyConfirmedBlock (and NotifyChainLock, which only calls
    it) does nothing when InstantSend is disabled. Otherwise it always
    returns; the store is what RemoveConfirmedInstantSendLocks at the
    height of the block followed by RemoveArchivedInstantSendLocks 100
    blocks lower leave. For every lock the first call removed, the request
    ids of its inputs leave inputRequestIds, and the recovered signatures
    of those ids and of the lock itself are truncated; nothing else is
    truncated. Every tracked transaction mined in the block at its height
    on the chain of the confirmed block is no longer tracked, no
    transaction becomes tracked, and the set to retry only grows. The
    pending and creating locks are untouched. *)
Theorem HandleFullyConfirmedBlock_confirms
    (GetAncestor : CBlockIndex → Z → option CBlockIndex) (pindex : CBlockIndex)
    (m : CInstantSendManager) :
  Tracking.NotifyChainLock env GetAncestor pindex m
  = Tracking.HandleFullyConfirmedBlock env GetAncestor pindex m
  ∧ (IsInstantSendEnabled env = false →
     Tracking.HandleFullyConfirmedBlock env GetAncestor pindex m = Some (tt, m))
  ∧ (IsInstantSendEnabled env = true →
     let r1 := RemoveConfirmedInstantSendLocks (nHeight pindex) (isdb m) in
     let r2 := RemoveArchivedInstantSendLocks (nHeight pindex - 100) r1.2 in
     ∃ m' more,
       Tracking.HandleFullyConfirmedBlock env GetAncestor pindex m = Some (tt, m')
       ∧ isdb m' = r2.2
       ∧ (∀ id, id ∈ inputRequestIds m' ↔
                id ∈ inputRequestIds m
                ∧ ∀ h l o, r1.1 !! h = Some l → o ∈ inputs l → id ≠ InputLockRequestId o)
       ∧ events m' = events m ++ more
       ∧ (∀ e, e ∈ more ↔
               ∃ h l, r1.1 !! h = Some l
                 ∧ (e = TruncateRecoveredSig (GetRequestId l)
                    ∨ ∃ o, o ∈ inputs l ∧ e = TruncateRecoveredSig (InputLockRequestId o)))
       ∧ (∀ t info mined,
            nonLockedTxs m !! t = Some info → pindexMined info = Some mined →
            GetAncestor pindex (nHeight mined) = Some mined →
            nonLockedTxs m' !! t = None)
       ∧ (∀ k, nonLockedTxs m !! k = None → nonLockedTxs m' !! k = None)
       ∧ pendingRetryTxs m ⊆ pendingRetryTxs m'
       ∧ pendingInstantSendLocks m' = pendingInstantSendLocks m
       ∧ creatingInstantSendLocks m' = creatingInstantSendLocks m
       ∧ txToCreatingInstantSendLocks m' = txToCreatingInstantSendLocks m).
Proof.
  split; [done|]. split.
  { intros Hoff. unfold Tracking.HandleFullyConfirmedBlock. by rewrite Hoff. }
  intros Hon r1 r2. unfold Tracking.HandleFullyConfirmedBlock.
  rewrite Hon. cbn [negb].
  unfold mbind at 1. unfold MgrM_bind at 1. rewrite on_db_run. fold r1.
  unfold mbind at 1. unfold MgrM_bind at 1. rewrite truncate_removed_run.
  unfold mbind at 1. unfold MgrM_bind at 1. rewrite on_db_run.
  cbn [isdb set_events set_inputRequestIds set_isdb]. fold r2.
  unfold mbind at 1. unfold MgrM_bind at 1. unfold get_mgr at 1.
  set (m3 := set_isdb _ r2.2).
  set (toRemove := omap _ (map_to_list (nonLockedTxs m3))).
  destruct (untrack_all_run toRemove m3)
    as (m' & Hrun & Hts & Hk & Hr & C1 & C2 & C3 & C4 & C5 & C6).
  exists m', (flat_map (λ p, map (λ o, TruncateRecoveredSig (InputLockRequestId o))
                                 (inputs p.2)
                             ++ [TruncateRecoveredSig (GetRequestId p.2)])
                       (map_to_list r1.1)).
  split; [exact Hrun|].
  split; [by rewrite C1|]. split_and!.
  - intros id. rewrite C2. subst m3. cbn [inputRequestIds set_isdb set_events set_inputRequestIds].
    rewrite elem_of_difference, elem_of_list_to_set.
    rewrite list_elem_of_In, in_flat_map. setoid_rewrite <- list_elem_of_In.
    split.
    + intros [Hin Hno]. split; [done|]. intros h l o Hl Ho ->. apply Hno.
      exists (h, l). split; [by apply elem_of_map_to_list|].
      cbn. apply list_elem_of_fmap. by exists o.
    + intros [Hin Hno]. split; [done|]. intros ([h l] & Hp%elem_of_map_to_list & Hx).
      cbn in Hx. apply list_elem_of_fmap in Hx as (o & -> & Ho). by eapply Hno.
  - by rewrite C6.
  - intros e. rewrite list_elem_of_In, in_flat_map. setoid_rewrite <- list_elem_of_In.
    split.
    + intros ([h l] & Hp%elem_of_map_to_list & Hx). cbn in Hx.
      exists h, l. split; [done|].
      apply elem_of_app in Hx as [Hx|Hx].
      * right. apply list_elem_of_fmap in Hx as (o & -> & Ho). by exists o.
      * left. by apply list_elem_of_singleton in Hx.
    + intros (h & l & Hl & Hx). exists (h, l). split; [by apply elem_of_map_to_list|].
      cbn. apply elem_of_app. destruct Hx as [->|(o & Ho & ->)].
      * right. by apply list_elem_of_singleton.
      * left. apply list_elem_of_fmap. by exists o.
  - intros t info mined Hinfo Hmined Hanc. apply Hts. unfold toRemove.
    apply list_elem_of_omap. exists (t, info). split.
    + by apply elem_of_map_to_list.
    + cbn. rewrite Hmined. by rewrite bool_decide_eq_true_2.
  - done.
  - done.
  - by rewrite C5.
  - by rewrite C3.
  - by rewrite C4.
Qed.
End confirmed.
End ConfirmedBlocks.

(** ** The queries of the manager *)

Module ManagerQueries.
Import LockStore Queries CacheCoherence WholeStore.

Section queries.
Context `{HeaderDecls} `{Primitives}.
Variable env : Env.

(** X18: with InstantSend disabled the two getters with an out-parameter
    return false and leave it as it was. Enabled and with coherent caches,
    the queries of the manager read the store: GetInstantSendLockHashByTxid
    gives the hash recorded for the txid and whether it is non-null,
    GetInstantSendLockByTxid the lock committed under that hash,
    GetInstantSendLockByHash the lock committed under the hash asked for
    (the out-parameter is written only then), and IsLocked is true exactly
    when the hash recorded for the txid is committed or archived. So a txid
    for which GetInstantSendLockByTxid finds a lock is locked and has a
    non-null hash. None of them changes more than the caches.
    GetInstantSendLockCount does not ask whether InstantSend is enabled: it
    always gives the number of committed locks. *)
Theorem enabled_queries_read_the_store (txid hash ret_hash : uint256)
    (ret_lock : CInstantSendLock) (m : CInstantSendManager) :
  Tracking.GetInstantSendLockCount m = Some (size (is_i (db (isdb m))), m)
  ∧ (IsInstantSendEnabled env = false →
   Tracking.GetInstantSendLockHashByTxid env txid ret_hash m = Some ((false, ret_hash), m)
   ∧ Tracking.GetInstantSendLockByHash env hash ret_lock m = Some ((false, ret_lock), m))
  ∧ (IsInstantSendEnabled env = true → caches_coherent (isdb m) →
     let d := db (isdb m) in
     let h := default 0 (is_tx d !! txid) in
     ∃ m1 m2 m3 m4,
       Tracking.GetInstantSendLockHashByTxid env txid ret_hash m
       = Some ((negb (IsNull h), h), m1)
       ∧ Manager.GetInstantSendLockByTxid env txid m = Some (committed d h, m2)
       ∧ Tracking.GetInstantSendLockByHash env hash ret_lock m
         = Some (match committed d hash with
                 | Some l => (true, l)
                 | None => (false, ret_lock)
                 end, m3)
       ∧ Manager.IsLocked env txid m
         = Some (bool_decide (committed d h ≠ None) || bool_decide (is_Some (is_a2 d !! h)),
                 m4)
       ∧ (∀ l, committed d h = Some l →
               IsNull h = false
               ∧ Manager.IsLocked env txid m = Some (true, m4))
       ∧ Forall (λ m', db (isdb m') = d ∧ caches_coherent (isdb m')
                       ∧ set_isdb m' (isdb m) = m) [m1; m2; m3; m4]).
Proof.
  split.
  { unfold Tracking.GetInstantSendLockCount. rewrite on_db_run.
    unfold GetInstantSendLockCount. cbn [fst snd].
    rewrite db_seek_all, length_map_to_list. by destruct m. }
  split.
  { intros Hoff.
    unfold Tracking.GetInstantSendLockHashByTxid, Tracking.GetInstantSendLockByHash.
    by rewrite Hoff. }
  intros Hon Hc d h.
  unfold Tracking.GetInstantSendLockHashByTxid, Tracking.GetInstantSendLockByHash,
    Manager.GetInstantSendLockByTxid, Manager.IsLocked.
  rewrite Hon. cbn [negb]. rewrite IsLockedInternal_run.
  unfold mbind at 1 2. unfold MgrM_bind. rewrite !on_db_run.
  destruct (GetInstantSendLockHashByTxid_coherent txid (isdb m) Hc) as [E1 Hc1].
  pose proof (GetInstantSendLockHashByTxid_same txid (isdb m)) as [D1 _].
  destruct (GetInstantSendLockByTxid_coherent txid (isdb m) Hc) as [E2 Hc2].
  pose proof (GetInstantSendLockByTxid_same txid (isdb m)) as [D2 _].
  destruct (GetInstantSendLockByHash_coherent hash use_cache_default (isdb m) Hc)
    as [E3 Hc3].
  pose proof (GetInstantSendLockByHash_same hash use_cache_default (isdb m)) as [D3 _].
  destruct (KnownInstantSendLock_coherent (GetInstantSendLockHashByTxid txid (isdb m)).1
              (GetInstantSendLockHashByTxid txid (isdb m)).2 Hc1) as [E4 Hc4].
  pose proof (KnownInstantSendLock_same (GetInstantSendLockHashByTxid txid (isdb m)).1
                (GetInstantSendLockHashByTxid txid (isdb m)).2) as [D4 _].
  rewrite D1 in E4, D4. rewrite E1 in E4. fold d h in E1, E2, E3, E4.
  assert (locked_now m txid
          = (KnownInstantSendLock (GetInstantSendLockHashByTxid txid (isdb m)).1
               (GetInstantSendLockHashByTxid txid (isdb m)).2).1
          ∧ after_lookup m txid
            = set_isdb m (KnownInstantSendLock (GetInstantSendLockHashByTxid txid (isdb m)).1
                            (GetInstantSendLockHashByTxid txid (isdb m)).2).2) as [Hb1 Hb2].
  { unfold locked_now, after_lookup. unfold_monad.
    by destruct (GetInstantSendLockHashByTxid txid (isdb m)). }
  rewrite Hb1, Hb2, E1, E2, E3, E4.
  eexists _, _, _, _. split; [reflexivity|]. split; [reflexivity|].
  split.
  { destruct (committed d hash); reflexivity. }
  split; [reflexivity|]. split.
  { intros l Hl. split.
    - unfold committed in Hl. by destruct (IsNull h).
    - rewrite Hl. by rewrite bool_decide_eq_true_2. }
  rewrite E1 in Hc4, D4.
  repeat apply Forall_cons_2; [| | | |apply Forall_nil_2];
    (split_and!; [by cbn [isdb set_isdb]|by cbn [isdb set_isdb]|by destruct m]).
Qed.
End queries.
End ManagerQueries.

(** ** Signing the inputs of a transaction *)

Module SigningInputs.
Import LockStore Queries CacheCoherence ProcessLock TrackingFacts ConfirmedBlocks.

(** Lookups in the lock store compose. *)
Lemma looked_up_refl (m : CInstantSendManager) : looked_up m m.
Proof. split_and!; try done. by destruct m. Qed.

Lemma looked_up_trans (m1 m2 m3 : CInstantSendManager) :
  looked_up m1 m2 → looked_up m2 m3 → looked_up m1 m3.
Proof.
  intros (E1 & D1 & B1 & C1) (E2 & D2 & B2 & C2). split_and!.
  - rewrite E2 at 1. rewrite E1. by destruct m1.
  - congruence.
  - congruence.
  - auto.
Qed.

Lemma looked_up_fields (m m' : CInstantSendManager) :
  looked_up m m' →
  inputRequestIds m' = inputRequestIds m
  ∧ creatingInstantSendLocks m' = creatingInstantSendLocks m
  ∧ txToCreatingInstantSendLocks m' = txToCreatingInstantSendLocks m
  ∧ pendingInstantSendLocks m' = pendingInstantSendLocks m
  ∧ tracking m' = tracking m
  ∧ events m' = events m.
Proof. intros (-> & _). by destruct m. Qed.

Section lookups.
Context `{HeaderDecls}.

Lemma on_db_looked_up {A : Type} (c : DbM A) (m : CInstantSendManager) :
  same_store (isdb m) (c (isdb m)).2 →
  (caches_coherent (isdb m) → caches_coherent (c (isdb m)).2) →
  looked_up m (set_isdb m (c (isdb m)).2).
Proof. intros [Hd Hb] Hc. split_and!; try done. Qed.

Lemma IsLockedInternal_looked_up (t : uint256) (m : CInstantSendManager) :
  looked_up m (after_lookup m t).
Proof.
  unfold after_lookup. apply on_db_looked_up.
  - unfold_monad.
    pose proof (GetInstantSendLockHashByTxid_same t (isdb m)) as Hs1.
    destruct (GetInstantSendLockHashByTxid t (isdb m)) as [h s1]. cbn [fst snd] in *.
    eapply same_store_trans; [exact Hs1|apply KnownInstantSendLock_same].
  - intros Hc. unfold_monad.
    destruct (GetInstantSendLockHashByTxid_coherent t (isdb m) Hc) as [_ Hc1].
    destruct (GetInstantSendLockHashByTxid t (isdb m)) as [h s1]. cbn [fst snd] in *.
    by apply KnownInstantSendLock_coherent.
Qed.

Variable env : Env.

Lemma CheckCanLock_outpoint_looked_up o pd th (m : CInstantSendManager) b m' :
  Manager.CheckCanLock_outpoint env o pd th m = Some (b, m') → looked_up m m'.
Proof.
  unfold Manager.CheckCanLock_outpoint. unfold mbind, MgrM_bind.
  rewrite IsLockedInternal_run.
  pose proof (IsLockedInternal_looked_up (hash o) m) as Hl.
  destruct (locked_now m (hash o)); [by intros [= _ <-]|].
  destruct (mempool_get env (hash o)); [by intros [= _ <-]|].
  destruct (GetTransaction env (hash o)) as [[tx hb]|]; [|by intros [= _ <-]].
  destruct (LookupBlockIndex env hb) as [pm|]; [|done].
  cbn zeta. by destruct (_ && _); intros [= _ <-].
Qed.

Lemma CheckCanLock_looked_up tx pd (m : CInstantSendManager) b m' :
  Manager.CheckCanLock env tx pd m = Some (b, m') → looked_up m m'.
Proof.
  unfold Manager.CheckCanLock. case_bool_decide.
  { intros [= _ <-]. apply looked_up_refl. }
  generalize (vin tx) as ins. intros ins. revert m.
  induction ins as [|i ins IH]; intros m; cbn [Manager.CheckCanLock_loop].
  { intros [= _ <-]. apply looked_up_refl. }
  unfold mbind at 1. unfold MgrM_bind at 1.
  destruct (Manager.CheckCanLock_outpoint env (prevout i) pd (tx_hash tx) m)
    as [[ok m1]|] eqn:E; [|done].
  apply CheckCanLock_outpoint_looked_up in E.
  destruct ok; cbn [negb].
  - intros Hrun. eapply looked_up_trans; [exact E|by apply IH].
  - by intros [= _ <-].
Qed.

Lemma GetConflictingLock_looked_up tx (m : CInstantSendManager) r m' :
  Tracking.GetConflictingLock env tx m = Some (r, m') → looked_up m m'.
Proof.
  unfold Tracking.GetConflictingLock, Tracking.GetConflictingLockInternal.
  destruct (negb _). { intros [= _ <-]. apply looked_up_refl. }
  generalize (vin tx) as ins. intros ins. revert m.
  induction ins as [|i ins IH]; intros m; cbn [Tracking.GetConflictingLockInternal_loop].
  { intros [= _ <-]. apply looked_up_refl. }
  unfold mbind at 1. unfold MgrM_bind at 1. rewrite on_db_run.
  assert (looked_up m (set_isdb m (GetInstantSendLockByInput (prevout i) (isdb m)).2)) as Hl.
  { apply on_db_looked_up; [apply GetInstantSendLockByInput_same|].
    intros Hc. by apply GetInstantSendLockByInput_coherent. }
  destruct (GetInstantSendLockByInput (prevout i) (isdb m)).1 as [l|].
  - case_bool_decide; [by intros [= _ <-]|].
    intros Hrun. eapply looked_up_trans; [exact Hl|by eapply IH].
  - intros Hrun. eapply looked_up_trans; [exact Hl|by eapply IH].
Qed.
End lookups.

Section inputs.
Context `{HeaderDecls} `{Primitives}.
Variable env : Env.
Variable node : NodeEnv.
Variable sig : SigningEnv.

Lemma scan_None (txHash : uint256) (ins : list CTxIn) (c : nat) :
  Signer.TrySignInputLocks_scan node txHash ins c = None
  ↔ ∃ i, i ∈ ins ∧ vote_blocks node txHash i.
Proof.
  revert c. induction ins as [|i ins IH]; intros c; cbn [Signer.TrySignInputLocks_scan].
  { split; [done|]. by intros (i & ?%elem_of_nil & _). }
  assert ((∃ i', i' ∈ i :: ins ∧ vote_blocks node txHash i')
          ↔ vote_blocks node txHash i ∨ ∃ i', i' ∈ ins ∧ vote_blocks node txHash i') as ->.
  { split.
    - intros (i' & [->|Hin]%elem_of_cons & Hb); [by left|right; by exists i'].
    - intros [Hb|(i' & Hin & Hb)]; [exists i; split; [by left|done]|].
      exists i'. split; [by right|done]. }
  unfold vote_blocks at 1.
  destruct (GetVoteForId node (InputLockRequestId (prevout i))) as [o|] eqn:Ev.
  - case_bool_decide as Ho.
    { split; [|done]. intros _. left. left. by exists o. }
    destruct (IsConflicting node _ txHash) eqn:Ec.
    { split; [|done]. intros _. left. by right. }
    rewrite IH. split; [by right|].
    intros [[(o' & [= <-] & Hne)|?]|?]; [by destruct Ho|done..].
  - destruct (IsConflicting node _ txHash) eqn:Ec.
    { split; [|done]. intros _. left. by right. }
    rewrite IH. split; [by right|].
    intros [[(o' & [=] & _)|?]|?]; done.
Qed.

Lemma scan_Some (txHash : uint256) (ins : list CTxIn) (c c' : nat) :
  Signer.TrySignInputLocks_scan node txHash ins c = Some c' →
  (c' ≤ c + length ins)%nat
  ∧ (c' = (c + length ins)%nat
     ↔ ∀ i, i ∈ ins → GetVoteForId node (InputLockRequestId (prevout i)) = Some txHash).
Proof.
  revert c. induction ins as [|i ins IH]; intros c; cbn [Signer.TrySignInputLocks_scan length].
  { intros [= <-]. split; [lia|]. split; [by intros _ i ?%elem_of_nil|lia]. }
  destruct (GetVoteForId node (InputLockRequestId (prevout i))) as [o|] eqn:Ev.
  - case_bool_decide as Ho; [done|]. subst o.
    destruct (IsConflicting node _ txHash); [done|].
    intros [Hle Hiff]%IH. split; [lia|].
    rewrite Nat.add_succ_r, <- Nat.add_succ_l, Hiff. split.
    + intros Hall i' [->|Hin]%elem_of_cons; [done|by apply Hall].
    + intros Hall i' Hin. apply Hall. by right.
  - destruct (IsConflicting node _ txHash); [done|].
    intros [Hle Hiff]%IH. split; [lia|]. split; [lia|].
    intros Hall. specialize (Hall i (list_elem_of_here _ _)). congruence.
Qed.

Lemma register_ids_run (ins : list CTxIn) (m : CInstantSendManager) :
  for_each ins (λ i,
    modify_mgr (λ m,
      set_inputRequestIds m ({[InputLockRequestId (prevout i)]} ∪ inputRequestIds m))) m
  = Some (tt, set_inputRequestIds m
                (list_to_set (map (λ i, InputLockRequestId (prevout i)) ins)
                 ∪ inputRequestIds m)).
Proof.
  rewrite for_each_modify. do 2 f_equal. revert m.
  induction ins as [|i ins IH]; intros m; cbn [foldl map list_to_set].
  - rewrite (left_id_L ∅ (∪)). by destruct m.
  - rewrite IH. destruct m; unfold set_inputRequestIds; cbn. f_equal. set_solver.
Qed.

(** X19: TrySignInputLocks refuses, and changes nothing, as soon as the
    node has voted for another transaction on an input or a signing
    session on an input conflicts. Otherwise it returns true: without a
    request when it is not retroactive and the node has voted for this
    transaction on every input (so also for a transaction without inputs),
    and else after registering the request id of every input and asking
    for a signature on each, in order. TruncateRecoveredSigsForInputs of a
    lock on the prevouts of the transaction then erases all these ids
    again. *)
Theorem TrySignInputLocks_votes (tx : CTransaction) (fRetroactive : bool)
    (m : CInstantSendManager) :
  let ids := map (λ i, InputLockRequestId (prevout i)) (vin tx) in
  ((∃ i, i ∈ vin tx ∧ vote_blocks node (tx_hash tx) i) →
   Signer.TrySignInputLocks node tx fRetroactive m = Some ((false, []), m))
  ∧ ((∀ i, i ∈ vin tx → ¬ vote_blocks node (tx_hash tx) i) →
     (fRetroactive = false →
      (∀ i, i ∈ vin tx →
            GetVoteForId node (InputLockRequestId (prevout i)) = Some (tx_hash tx)) →
      Signer.TrySignInputLocks node tx fRetroactive m = Some ((true, []), m))
     ∧ (fRetroactive = true
        ∨ (∃ i, i ∈ vin tx
                ∧ GetVoteForId node (InputLockRequestId (prevout i)) ≠ Some (tx_hash tx)) →
        Signer.TrySignInputLocks node tx fRetroactive m
        = Some ((true, ids),
                set_inputRequestIds m (list_to_set ids ∪ inputRequestIds m))
        ∧ ∀ l, inputs l = map prevout (vin tx) →
            ∃ m', (_ ← Signer.TrySignInputLocks node tx fRetroactive;
                   Manager.TruncateRecoveredSigsForInputs l) m = Some (tt, m')
              ∧ inputRequestIds m' = inputRequestIds m ∖ list_to_set ids
              ∧ events m' = events m ++ map TruncateRecoveredSig ids
              ∧ set_events (set_inputRequestIds m' (inputRequestIds m)) (events m) = m)).
Proof.
  intros ids. split.
  { intros Hb%(scan_None (tx_hash tx) (vin tx) 0). unfold Signer.TrySignInputLocks.
    by rewrite Hb. }
  intros Hnb.
  destruct (Signer.TrySignInputLocks_scan node (tx_hash tx) (vin tx) 0) as [c|] eqn:Es.
  2:{ apply scan_None in Es as (i & Hi & Hb). by destruct (Hnb i Hi). }
  apply scan_Some in Es as Hc. destruct Hc as [Hle Hiff]. cbn [Nat.add] in Hle, Hiff.
  split.
  { intros -> Hall. unfold Signer.TrySignInputLocks. rewrite Es. cbn [negb andb].
    rewrite bool_decide_eq_true_2; [done|]. by apply Hiff. }
  intros Hsign.
  assert (Signer.TrySignInputLocks node tx fRetroactive m
          = Some ((true, ids), set_inputRequestIds m (list_to_set ids ∪ inputRequestIds m)))
    as Hrun.
  { unfold Signer.TrySignInputLocks. rewrite Es.
    assert (negb fRetroactive && bool_decide (c = length (vin tx)) = false) as ->.
    { destruct Hsign as [->|(i & Hi & Hv)]; [done|].
      apply andb_false_iff. right. apply bool_decide_eq_false. intros Hc.
      apply Hv. by apply Hiff. }
    unfold mbind, MgrM_bind. by rewrite register_ids_run. }
  split; [exact Hrun|]. intros l Hl.
  unfold mbind, MgrM_bind. rewrite Hrun, TruncateRecoveredSigsForInputs_run.
  eexists. split; [reflexivity|]. rewrite Hl, map_map. fold ids.
  cbn [inputRequestIds events set_events set_inputRequestIds].
  split_and!.
  - set_solver.
  - f_equal. unfold ids. by rewrite !map_map.
  - by destruct m.
Qed.

Lemma TrySignInputLocks_cases (tx : CTransaction) (fRetroactive : bool)
    (m : CInstantSendManager) r m' :
  Signer.TrySignInputLocks node tx fRetroactive m = Some (r, m') →
  (r.2 = [] ∧ m' = m
   ∧ (r.1 = false ↔ ∃ i, i ∈ vin tx ∧ vote_blocks node (tx_hash tx) i))
  ∨ (r = (true, map (λ i, InputLockRequestId (prevout i)) (vin tx))
     ∧ m' = set_inputRequestIds m
              (list_to_set (map (λ i, InputLockRequestId (prevout i)) (vin tx))
               ∪ inputRequestIds m)
     ∧ ¬ ∃ i, i ∈ vin tx ∧ vote_blocks node (tx_hash tx) i).
Proof.
  unfold Signer.TrySignInputLocks.
  destruct (Signer.TrySignInputLocks_scan node (tx_hash tx) (vin tx) 0) as [c|] eqn:Es.
  - assert (¬ ∃ i, i ∈ vin tx ∧ vote_blocks node (tx_hash tx) i) as Hnb.
    { intros Hb%(scan_None (tx_hash tx) (vin tx) 0). congruence. }
    destruct (negb fRetroactive && bool_decide (c = length (vin tx))).
    + intros [= <- <-]. left. by split_and!.
    + unfold mbind, MgrM_bind. rewrite register_ids_run. intros [= <- <-]. by right.
  - apply scan_None in Es. intros [= <- <-]. left. by split_and!.
Qed.

Lemma TrySignInstantSendLock_cases (tx : CTransaction) (m : CInstantSendManager) b m' :
  Tracking.TrySignInstantSendLock env sig tx m = Some (b, m') →
  (b = false ∧ m' = m)
  ∨ (b = true ∧ ∃ x y, m' = set_creating m x y).
Proof.
  unfold Tracking.TrySignInstantSendLock.
  destruct (negb _); [intros [= <- <-]; by left|].
  destruct (chainActive_at sig _) as [qb|]; [|done].
  cbn zeta. destruct (HasRecoveredSigForId sig _); [intros [= <- <-]; by left|].
  unfold mbind at 1. unfold MgrM_bind at 1. unfold get_mgr at 1.
  destruct (creatingInstantSendLocks m !! _); [intros [= <- <-]; by left|].
  intros [= <- <-]. right. split; [done|]. by eexists _, _.
Qed.

(** What [ProcessTx] leaves as it is. *)
Lemma ProcessTx_frame (tx : CTransaction) (fRetroactive : bool)
    (m m' : CInstantSendManager) (r : list uint256 * bool) :
  Signer.ProcessTx env node sig tx fRetroactive m = Some (r, m') →
  db (isdb m') = db (isdb m)
  ∧ best_confirmed_height (isdb m') = best_confirmed_height (isdb m)
  ∧ (caches_coherent (isdb m) → caches_coherent (isdb m'))
  ∧ pendingInstantSendLocks m' = pendingInstantSendLocks m
  ∧ tracking m' = tracking m
  ∧ events m' = events m
  ∧ inputRequestIds m' = list_to_set r.1 ∪ inputRequestIds m
  ∧ (r.1 = [] ∨ r.1 = map (λ i, InputLockRequestId (prevout i)) (vin tx))
  ∧ (r.2 = false →
     creatingInstantSendLocks m' = creatingInstantSendLocks m
     ∧ txToCreatingInstantSendLocks m' = txToCreatingInstantSendLocks m).
Proof.
  unfold Signer.ProcessTx. intros Hrun.
  assert (∀ m0 : CInstantSendManager, looked_up m m0 →
            db (isdb m0) = db (isdb m)
            ∧ best_confirmed_height (isdb m0) = best_confirmed_height (isdb m)
            ∧ (caches_coherent (isdb m) → caches_coherent (isdb m0))
            ∧ pendingInstantSendLocks m0 = pendingInstantSendLocks m
            ∧ tracking m0 = tracking m
            ∧ events m0 = events m
            ∧ inputRequestIds m0 = list_to_set [] ∪ inputRequestIds m
            ∧ ((([] : list uint256) = [])
               ∨ [] = map (λ i, InputLockRequestId (prevout i)) (vin tx))
            ∧ (false = false →
               creatingInstantSendLocks m0 = creatingInstantSendLocks m
               ∧ txToCreatingInstantSendLocks m0 = txToCreatingInstantSendLocks m)) as Hnone.
  { intros m0 Hl. pose proof (looked_up_fields _ _ Hl) as (F1 & F2 & F3 & F4 & F5 & F6).
    destruct Hl as (_ & Hd & Hb & Hc).
    split_and!; [done..| |by left|by intros _].
    cbn [list_to_set]. by rewrite (left_id_L ∅ (∪)). }
  destruct (negb (fMasternodeMode node) || negb (IsBlockchainSynced node)).
  { injection Hrun as <- <-. apply Hnone, looked_up_refl. }
  destruct (llmqTypeInstantSend_is_none node).
  { injection Hrun as <- <-. apply Hnone, looked_up_refl. }
  unfold mbind at 1 in Hrun. unfold MgrM_bind at 1 in Hrun.
  destruct (Manager.CheckCanLock env tx true m) as [[ok m1]|] eqn:Ecan; [|done].
  pose proof (CheckCanLock_looked_up env _ _ _ _ _ Ecan) as Hl1.
  destruct ok; cbn [negb] in Hrun.
  2:{ injection Hrun as <- <-. by apply Hnone. }
  unfold mbind at 1 in Hrun. unfold MgrM_bind at 1 in Hrun.
  destruct (Tracking.GetConflictingLock env tx m1) as [[cl m2]|] eqn:Econ; [|done].
  pose proof (GetConflictingLock_looked_up env _ _ _ _ Econ) as Hl2.
  pose proof (looked_up_trans _ _ _ Hl1 Hl2) as Hl12.
  destruct cl as [cl|].
  { injection Hrun as <- <-. by apply Hnone. }
  destruct (negb (IsInstantSendMempoolSigningEnabled env node) && negb fRetroactive).
  { injection Hrun as <- <-. by apply Hnone. }
  unfold mbind at 1 in Hrun. unfold MgrM_bind at 1 in Hrun.
  destruct (Signer.TrySignInputLocks node tx fRetroactive m2) as [[r1 m3]|] eqn:Ein; [|done].
  pose proof (TrySignInputLocks_cases _ _ _ _ _ Ein) as Hin.
  pose proof (looked_up_fields _ _ Hl12) as (F1 & F2 & F3 & F4 & F5 & F6).
  destruct Hl12 as (_ & Hd & Hb & Hc).
  destruct (negb r1.1) eqn:Er1.
  { injection Hrun as <- <-. cbn [fst snd].
    destruct Hin as [(Hr & -> & _)|(-> & _)]; [|done].
    rewrite Hr. split_and!; [done..| |by left|done].
    cbn [list_to_set]. by rewrite (left_id_L ∅ (∪)). }
  unfold mbind at 1 in Hrun. unfold MgrM_bind at 1 in Hrun.
  destruct (Tracking.TrySignInstantSendLock env sig tx m3) as [[b m4]|] eqn:Esl; [|done].
  injection Hrun as <- <-. cbn [fst snd].
  apply TrySignInstantSendLock_cases in Esl.
  assert (db (isdb m3) = db (isdb m)
          ∧ best_confirmed_height (isdb m3) = best_confirmed_height (isdb m)
          ∧ (caches_coherent (isdb m) → caches_coherent (isdb m3))
          ∧ pendingInstantSendLocks m3 = pendingInstantSendLocks m
          ∧ tracking m3 = tracking m
          ∧ events m3 = events m
          ∧ inputRequestIds m3 = list_to_set r1.2 ∪ inputRequestIds m
          ∧ (r1.2 = [] ∨ r1.2 = map (λ i, InputLockRequestId (prevout i)) (vin tx))
          ∧ creatingInstantSendLocks m3 = creatingInstantSendLocks m
          ∧ txToCreatingInstantSendLocks m3 = txToCreatingInstantSendLocks m)
    as (G1 & G2 & G3 & G4 & G5 & G6 & G7 & G8 & G9 & G10).
  { destruct Hin as [(Hr & -> & _)|(-> & -> & _)].
    - rewrite Hr. split_and!; try done; [|by left].
      cbn [list_to_set]. by rewrite (left_id_L ∅ (∪)).
    - cbn [fst snd isdb set_inputRequestIds pendingInstantSendLocks events
           inputRequestIds creatingInstantSendLocks txToCreatingInstantSendLocks].
      split_and!; try done; [by rewrite F1|by right]. }
  destruct Esl as [[-> ->]|(-> & x & y & ->)].
  - by split_and!.
  - cbn [isdb set_creating pendingInstantSendLocks events inputRequestIds].
    split_and!; try done.
Qed.

(** X20: ProcessTx never writes to the lock store, never queues a lock,
    never tracks a transaction and makes no outbound call: whenever it
    returns, the request ids are those from before and those it asked a
    signature for, which are none or those of all inputs, and the locks
    being created change only when it asks for the signature of a lock.
    It asks for nothing, and changes only the caches, when the node is not
    a synced masternode, has no InstantSend quorum type, CheckCanLock fails,
    a lock of another transaction holds an input (InstantSend enabled),
    mempool signing is off for a transaction that is not retroactive, or a
    vote of the node stands against an input. *)
Theorem ProcessTx_never_signs (tx : CTransaction) (fRetroactive : bool)
    (m m' : CInstantSendManager) (r : list uint256 * bool) :
  Signer.ProcessTx env node sig tx fRetroactive m = Some (r, m') →
  (db (isdb m') = db (isdb m)
   ∧ best_confirmed_height (isdb m') = best_confirmed_height (isdb m)
   ∧ (caches_coherent (isdb m) → caches_coherent (isdb m'))
   ∧ pendingInstantSendLocks m' = pendingInstantSendLocks m
   ∧ tracking m' = tracking m
   ∧ events m' = events m
   ∧ inputRequestIds m' = list_to_set r.1 ∪ inputRequestIds m
   ∧ (r.1 = [] ∨ r.1 = map (λ i, InputLockRequestId (prevout i)) (vin tx))
   ∧ (r.2 = false →
      creatingInstantSendLocks m' = creatingInstantSendLocks m
      ∧ txToCreatingInstantSendLocks m' = txToCreatingInstantSendLocks m))
  ∧ (fMasternodeMode node = false ∨ IsBlockchainSynced node = false
     ∨ llmqTypeInstantSend_is_none node = true
     ∨ (∃ m1, Manager.CheckCanLock env tx true m = Some (false, m1))
     ∨ (IsInstantSendEnabled env = true ∧ caches_coherent (isdb m)
        ∧ first_conflict (db (isdb m)) (tx_hash tx) (vin tx) ≠ None)
     ∨ (IsInstantSendMempoolSigningEnabled env node = false ∧ fRetroactive = false)
     ∨ (∃ i, i ∈ vin tx ∧ vote_blocks node (tx_hash tx) i) →
     r = ([], false) ∧ looked_up m m').
Proof.
  intros Hrun. split; [by apply (ProcessTx_frame tx fRetroactive)|].
  unfold Signer.ProcessTx in Hrun.
  destruct (negb (fMasternodeMode node) || negb (IsBlockchainSynced node)) eqn:Emn.
  { injection Hrun as <- <-. intros _. split; [done|apply looked_up_refl]. }
  apply orb_false_iff in Emn as [Emn Esy].
  apply negb_false_iff in Emn, Esy.
  destruct (llmqTypeInstantSend_is_none node) eqn:Eno.
  { injection Hrun as <- <-. intros _. split; [done|apply looked_up_refl]. }
  unfold mbind at 1 in Hrun. unfold MgrM_bind at 1 in Hrun.
  destruct (Manager.CheckCanLock env tx true m) as [[ok m1]|] eqn:Ecan; [|done].
  pose proof (CheckCanLock_looked_up env _ _ _ _ _ Ecan) as Hl1.
  destruct ok; cbn [negb] in Hrun.
  2:{ injection Hrun as <- <-. by intros _. }
  unfold mbind at 1 in Hrun. unfold MgrM_bind at 1 in Hrun.
  destruct (Tracking.GetConflictingLock env tx m1) as [[cl m2]|] eqn:Econ; [|done].
  pose proof (GetConflictingLock_looked_up env _ _ _ _ Econ) as Hl2.
  pose proof (looked_up_trans _ _ _ Hl1 Hl2) as Hl12.
  destruct cl as [cl|].
  { injection Hrun as <- <-. by intros _. }
  destruct (negb (IsInstantSendMempoolSigningEnabled env node) && negb fRetroactive) eqn:Ems.
  { injection Hrun as <- <-. by intros _. }
  unfold mbind at 1 in Hrun. unfold MgrM_bind at 1 in Hrun.
  destruct (Signer.TrySignInputLocks node tx fRetroactive m2) as [[r1 m3]|] eqn:Ein; [|done].
  pose proof (TrySignInputLocks_cases _ _ _ _ _ Ein) as Hin.
  intros Hany.
  destruct (decide (r1.1 = false)) as [Ef|Et].
  - destruct r1 as [b ids]. cbn in Ef. subst b. cbn [negb fst snd] in Hrun.
    injection Hrun as <- <-.
    destruct Hin as [(Hr & -> & _)|[[=] _]]. cbn in Hr. by subst ids.
  - exfalso.
    destruct Hany as [?|[?|[?|[[mx ?]|[(Hen & Hco & Hfc)|[[Hs Hr]|Hvb]]]]]];
      try congruence.
    + apply Hfc.
      unfold Tracking.GetConflictingLock, Tracking.GetConflictingLockInternal in Econ.
      rewrite Hen in Econ. cbn [negb] in Econ.
      destruct Hl1 as (_ & Hd1 & _ & Hc1).
      destruct (Conflicts.GetConflictingLockInternal_loop_run (vin tx) (tx_hash tx) m1
                  (Hc1 Hco)) as (mx & Hx & _).
      rewrite Hx in Econ. rewrite Hd1 in Econ. congruence.
    + rewrite Hs, Hr in Ems. done.
    + destruct Hin as [(_ & _ & Hiff)|(_ & _ & Hnb)]; [|done].
      apply Hiff in Hvb. done.
Qed.
End inputs.
End SigningInputs.

(** ** Transactions entering the mempool and blocks *)

Module MempoolAndBlocks.
Import LockStore Queries CacheCoherence ProcessLock TrackingFacts ConfirmedBlocks
       SigningInputs.

(** [AddNonLockedTx] always returns: the transaction has an entry with the
    block given, and with the transaction itself when there was no entry;
    the other entries keep their block and transaction. *)
Lemma AddNonLockedTx_run (tx : CTransaction) (mined : option CBlockIndex)
    (m : CInstantSendManager) :
  ∃ m', Tracking.AddNonLockedTx tx mined m = Some (tt, m')
    ∧ (∃ info, nonLockedTxs m' !! tx_hash tx = Some info ∧ pindexMined info = mined
         ∧ info_tx info = match nonLockedTxs m !! tx_hash tx with
                          | None => Some tx
                          | Some old => info_tx old
                          end)
    ∧ (∀ k, k ≠ tx_hash tx → entry_tx m' k = entry_tx m k)
    ∧ (∀ k j, k ≠ tx_hash tx → nonLockedTxs m !! k = Some j →
         ∃ j', nonLockedTxs m' !! k = Some j' ∧ pindexMined j' = pindexMined j
               ∧ info_tx j' = info_tx j)
    ∧ (∀ k, k ≠ tx_hash tx → (∀ i, i ∈ vin tx → hash (prevout i) ≠ k) →
         nonLockedTxs m' !! k = nonLockedTxs m !! k)
    ∧ isdb m' = isdb m ∧ inputRequestIds m' = inputRequestIds m
    ∧ creatingInstantSendLocks m' = creatingInstantSendLocks m
    ∧ txToCreatingInstantSendLocks m' = txToCreatingInstantSendLocks m
    ∧ pendingInstantSendLocks m' = pendingInstantSendLocks m
    ∧ pendingRetryTxs m' = pendingRetryTxs m ∧ events m' = events m.
Proof.
  unfold Tracking.AddNonLockedTx. unfold mbind at 1. unfold MgrM_bind at 1.
  unfold get_mgr at 1. cbn zeta.
  unfold mbind at 1. unfold MgrM_bind at 1. unfold modify_mgr at 1.
  set (t := tx_hash tx).
  destruct (nonLockedTxs m !! t) as [old|] eqn:Eold.
  - rewrite bool_decide_eq_false_2 by done. cbn [default].
    eexists. split; [reflexivity|].
    cbn [nonLockedTxs set_nonLocked isdb inputRequestIds creatingInstantSendLocks
         txToCreatingInstantSendLocks pendingInstantSendLocks pendingRetryTxs events].
    split_and!; try done.
    + eexists. rewrite lookup_insert_eq. by split_and!.
    + intros k Hk. unfold entry_tx. cbn. by rewrite lookup_insert_ne.
    + intros k j Hk Hj. exists j. by rewrite lookup_insert_ne.
    + intros k Hk _. by rewrite lookup_insert_ne.
  - rewrite bool_decide_eq_true_2 by done. cbn [default].
    rewrite for_each_modify.
    set (mA := set_nonLocked m _ _ _).
    pose proof (add_loop t (vin tx) mA) as Hadd. cbn zeta in Hadd.
    set (m1 := foldl _ mA (vin tx)) in *.
    destruct Hadd as (Ht & _ & A1 & A2 & A3 & A4 & A5 & A6 & A7).
    assert (∀ k, k ≠ t → nonLockedTxs mA !! k = nonLockedTxs m !! k) as HmA.
    { intros k Hk. unfold mA. cbn. by rewrite lookup_insert_ne. }
    assert (nonLockedTxs mA !! t = Some (mkInfo mined (Some tx) ∅)) as HmAt.
    { unfold mA. cbn. by rewrite lookup_insert_eq. }
    exists m1. split; [reflexivity|]. split_and!; try done.
    + rewrite Ht, HmAt. case_decide; eexists; by split_and!.
    + intros k Hk. unfold entry_tx. rewrite Ht, HmA by done.
      case_decide; [|done]. by destruct (nonLockedTxs m !! k).
    + intros k j Hk Hj. rewrite Ht, HmA, Hj by done.
      case_decide; eexists; by split_and!.
    + intros k Hk Hnp. rewrite Ht, HmA by done. rewrite decide_False; [done|].
      intros (i & -> & Hi)%list_elem_of_fmap. by apply (Hnp i).
Qed.

(** [RemoveNonLockedTx] keeps the transaction of every other entry, and the
    other entries that have one. *)
Lemma RemoveNonLockedTx_others (t : uint256) (rc : bool) (m m' : CInstantSendManager) :
  Manager.RemoveNonLockedTx t rc m = Some (tt, m') →
  (∀ k, k ≠ t → entry_tx m' k = entry_tx m k)
  ∧ (∀ k j, k ≠ t → nonLockedTxs m !! k = Some j → is_Some (info_tx j) →
       ∃ j', nonLockedTxs m' !! k = Some j' ∧ pindexMined j' = pindexMined j
             ∧ info_tx j' = info_tx j).
Proof.
  unfold Manager.RemoveNonLockedTx. unfold mbind at 1. unfold MgrM_bind at 1.
  unfold get_mgr at 1.
  destruct (nonLockedTxs m !! t) as [info|] eqn:Et.
  2:{ intros [= <-]. split; [done|]. intros k j _ Hj _. by exists j. }
  set (m1 := if rc then set_nonLocked m (nonLockedTxs m) (nonLockedTxsByOutpoints m)
                          (children info ∪ pendingRetryTxs m) else m).
  assert ((if rc then
             modify_mgr (λ m, set_nonLocked m (nonLockedTxs m) (nonLockedTxsByOutpoints m)
                                (children info ∪ pendingRetryTxs m))
           else mgr_return) m = Some (tt, m1)) as Hs1 by (by destruct rc).
  unfold mbind at 1. unfold MgrM_bind at 1. rewrite Hs1.
  assert (nonLockedTxs m1 = nonLockedTxs m) as B0 by (subst m1; by destruct rc).
  clearbody m1. clear Hs1.
  unfold mbind at 1. unfold MgrM_bind at 1.
  assert (∀ j, del_child t j = None → info_tx j = None) as Hdn.
  { intros j. unfold del_child. cbn zeta. cbn [info_tx children].
    destruct (bool_decide (info_tx j = None)) eqn:E; [|done].
    by apply bool_decide_eq_true in E. }
  assert (∀ j j', del_child t j = Some j' →
                  pindexMined j' = pindexMined j ∧ info_tx j' = info_tx j) as Hds.
  { intros j j'. unfold del_child. cbn zeta.
    destruct (_ && _); [done|]. by intros [= <-]. }
  destruct (info_tx info) as [tx|].
  - rewrite for_each_modify.
    pose proof (remove_loop t (vin tx) m1) as Hl. cbn zeta in Hl.
    set (m2 := foldl _ m1 (vin tx)) in *.
    destruct Hl as (Ht & _). unfold modify_mgr. intros [= <-].
    unfold entry_tx. cbn [nonLockedTxs set_nonLocked].
    split.
    + intros k Hk. rewrite lookup_delete_ne by done. rewrite Ht, B0.
      case_decide; [|done].
      destruct (nonLockedTxs m !! k) as [j|]; [|done]. cbn [mbind option_bind].
      destruct (del_child t j) as [j'|] eqn:Ed; cbn [mbind option_bind].
      * by apply Hds in Ed as [_ ->].
      * by rewrite (Hdn j Ed).
    + intros k j Hk Hj [txj Htx]. rewrite lookup_delete_ne by done. rewrite Ht, B0, Hj.
      case_decide; [|by exists j]. cbn [mbind option_bind].
      destruct (del_child t j) as [j'|] eqn:Ed.
      * exists j'. split; [done|]. by apply Hds.
      * apply Hdn in Ed. congruence.
  - unfold mgr_return, mret, MgrM_ret, modify_mgr. intros [= <-].
    unfold entry_tx. cbn [nonLockedTxs set_nonLocked]. split.
    + intros k Hk. by rewrite lookup_delete_ne, B0.
    + intros k j Hk Hj _. exists j. by rewrite lookup_delete_ne, B0.
Qed.

Section mempool.
Context `{HeaderDecls} `{Primitives}.
Variable env : Env.
Variable node : NodeEnv.
Variable sig : SigningEnv.

(** X21: TransactionAddedToMempool does nothing when InstantSend is
    disabled, the chain is not synced or the transaction has no inputs.
    Otherwise, with coherent caches: when the store has a lock for the
    txid, it always returns, the transaction is no longer tracked, the
    lock is relayed with the transaction (an ISDLOCK inv for a
    deterministic lock) and NotifyTransactionLock is called, and nothing
    is signed; when it has none and the call returns, the transaction is
    tracked as not mined, with the transaction itself if it had no entry,
    and no outbound call is made. The store and the pending locks are
    never written. *)
Theorem TransactionAddedToMempool_tracks (tx : CTransaction) (m : CInstantSendManager) :
  (IsInstantSendEnabled env = false ∨ IsBlockchainSynced node = false ∨ vin tx = [] →
   Signer.TransactionAddedToMempool env node sig tx m = Some (([], false), m))
  ∧ (IsInstantSendEnabled env = true → IsBlockchainSynced node = true → vin tx ≠ [] →
     caches_coherent (isdb m) →
     match committed (db (isdb m)) (default 0 (is_tx (db (isdb m)) !! tx_hash tx)) with
     | Some l =>
         ∃ m', Signer.TransactionAddedToMempool env node sig tx m = Some (([], false), m')
           ∧ nonLockedTxs m' !! tx_hash tx = None
           ∧ events m'
             = events m
               ++ [RelayInvFiltered_tx
                     (mkInv (if IsDeterministic l then MSG_ISDLOCK else MSG_ISLOCK)
                            (SerializeHash ser_islock l))
                     tx
                     (if IsDeterministic l then ISDLOCK_PROTO_VERSION
                      else LLMQS_PROTO_VERSION);
                   NotifyTransactionLock tx l]
           ∧ db (isdb m') = db (isdb m)
           ∧ pendingInstantSendLocks m' = pendingInstantSendLocks m
           ∧ inputRequestIds m' = inputRequestIds m
           ∧ creatingInstantSendLocks m' = creatingInstantSendLocks m
     | None =>
         ∀ r m', Signer.TransactionAddedToMempool env node sig tx m = Some (r, m') →
           (∃ info, nonLockedTxs m' !! tx_hash tx = Some info ∧ pindexMined info = None
                    ∧ (nonLockedTxs m !! tx_hash tx = None → info_tx info = Some tx))
           ∧ events m' = events m
           ∧ db (isdb m') = db (isdb m)
           ∧ pendingInstantSendLocks m' = pendingInstantSendLocks m
           ∧ inputRequestIds m' = list_to_set r.1 ∪ inputRequestIds m
     end).
Proof.
  split.
  { intros Hoff. unfold Signer.TransactionAddedToMempool.
    assert (negb (IsInstantSendEnabled env) || negb (IsBlockchainSynced node)
            || bool_decide (vin tx = []) = true) as ->; [|done].
    destruct Hoff as [->|[->|Hv]]; [done|by rewrite orb_true_r|].
    rewrite bool_decide_eq_true_2 by done. by rewrite orb_true_r. }
  intros Hon Hsy Hv Hc.
  destruct (GetInstantSendLockByTxid_coherent (tx_hash tx) (isdb m) Hc) as [Hr Hc1].
  pose proof (GetInstantSendLockByTxid_same (tx_hash tx) (isdb m)) as [Hd Hb].
  set (m0 := set_isdb m (GetInstantSendLockByTxid (tx_hash tx) (isdb m)).2).
  assert (∀ c : option CInstantSendLock → MgrM (list uint256 * bool),
            Signer.TransactionAddedToMempool env node sig tx m
            = (islock ← on_db (GetInstantSendLockByTxid (tx_hash tx)); c islock) m →
            Signer.TransactionAddedToMempool env node sig tx m
            = c (committed (db (isdb m)) (default 0 (is_tx (db (isdb m)) !! tx_hash tx)))
                m0) as Hstep.
  { intros c ->. unfold mbind, MgrM_bind. by rewrite on_db_run, Hr. }
  rewrite (Hstep (λ islock,
    match islock with
    | None =>
        r ← Signer.ProcessTx env node sig tx false;
        _ ← Tracking.AddNonLockedTx tx None;
        mret r
    | Some l =>
        _ ← Manager.RemoveNonLockedTx (tx_hash tx) true;
        _ ← emit (RelayInvFiltered_tx
                    (mkInv (if IsDeterministic l then MSG_ISDLOCK else MSG_ISLOCK)
                           (SerializeHash ser_islock l))
                    tx
                    (if IsDeterministic l then ISDLOCK_PROTO_VERSION
                     else LLMQS_PROTO_VERSION));
        _ ← emit (NotifyTransactionLock tx l);
        mret ([], false)
    end)).
  2:{ unfold Signer.TransactionAddedToMempool.
      rewrite Hon, Hsy. cbn [negb orb]. by rewrite bool_decide_eq_false_2 by done. }
  destruct (committed (db (isdb m)) (default 0 (is_tx (db (isdb m)) !! tx_hash tx)))
    as [l|].
  - destruct (RemoveNonLockedTx_run (tx_hash tx) true m0)
      as (m1 & Hrun & Hnone & _ & _ & A1 & A2 & A3 & A4 & A5 & A6).
    unfold mbind, MgrM_bind. rewrite Hrun. unfold emit, modify_mgr.
    eexists. split; [reflexivity|].
    cbn [nonLockedTxs set_events events isdb pendingInstantSendLocks inputRequestIds
         creatingInstantSendLocks].
    split_and!; try done.
    + rewrite A6. cbn. by rewrite <- app_assoc.
    + by rewrite A1.
  - intros r m'. unfold mbind at 1. unfold MgrM_bind at 1.
    destruct (Signer.ProcessTx env node sig tx false m0) as [[r1 m1]|] eqn:Ep; [|done].
    apply ProcessTx_frame in Ep as (P1 & P2 & P3 & P4 & P5 & P6 & P7 & P8 & P9).
    unfold mbind at 1. unfold MgrM_bind at 1.
    destruct (AddNonLockedTx_run tx None m1)
      as (m2 & -> & (info & Hi & Hm & Htx) & _ & _ & _ & A1 & A2 & A3 & A4 & A5 & A6 & A7).
    intros [= <- <-]. split_and!.
    + exists info. split_and!; [done..|]. intros Hnone. rewrite Htx.
      injection P5 as P5 _ _. change (nonLockedTxs m0) with (nonLockedTxs m) in P5.
      by rewrite P5, Hnone.
    + by rewrite A7, P6.
    + by rewrite A1, P1.
    + by rewrite A5, P4.
    + by rewrite A2, P7.
Qed.
End mempool.
End MempoolAndBlocks.

(** ** Connected blocks *)

Module BlockConnection.
Import LockStore Queries CacheCoherence ProcessLock TrackingFacts ConfirmedBlocks
       SigningInputs MempoolAndBlocks BlockMarks.

Section locked.
Context `{HeaderDecls}.

(** With coherent caches [IsLockedInternal] answers from the store. *)
Lemma IsLockedInternal_coherent (t : uint256) (m : CInstantSendManager) :
  caches_coherent (isdb m) → locked_now m t = store_locked (db (isdb m)) t.
Proof.
  intros Hc. unfold locked_now, store_locked. unfold_monad.
  destruct (GetInstantSendLockHashByTxid_coherent t (isdb m) Hc) as [E1 Hc1].
  pose proof (GetInstantSendLockHashByTxid_same t (isdb m)) as [D1 _].
  destruct (GetInstantSendLockHashByTxid t (isdb m)) as [h s1]. cbn [fst snd] in *.
  destruct (KnownInstantSendLock_coherent h s1 Hc1) as [E2 _].
  rewrite E2, D1, E1. done.
Qed.
End locked.

Lemma MgrM_bind_assoc {A B C : Type} (c : MgrM A) (f : A → MgrM B) (g : B → MgrM C)
    (m : CInstantSendManager) :
  ((c ≫= f) ≫= g) m = (c ≫= (λ a, f a ≫= g)) m.
Proof. unfold mbind, MgrM_bind. by destruct (c m) as [[a m']|]. Qed.

(** What the removal of a transaction keeps of another entry. *)
Lemma RemoveNonLockedTx_keeps (t : uint256) (rc : bool) (m : CInstantSendManager) :
  ∃ m', Manager.RemoveNonLockedTx t rc m = Some (tt, m')
    ∧ nonLockedTxs m' !! t = None
    ∧ (∀ k, nonLockedTxs m !! k = None → nonLockedTxs m' !! k = None)
    ∧ (∀ k, k ≠ t → entry_tx m' k = entry_tx m k)
    ∧ (∀ k j, k ≠ t → nonLockedTxs m !! k = Some j → is_Some (info_tx j) →
         ∃ j', nonLockedTxs m' !! k = Some j' ∧ pindexMined j' = pindexMined j
               ∧ info_tx j' = info_tx j)
    ∧ isdb m' = isdb m ∧ inputRequestIds m' = inputRequestIds m
    ∧ pendingInstantSendLocks m' = pendingInstantSendLocks m
    ∧ events m' = events m.
Proof.
  destruct (RemoveNonLockedTx_run t rc m)
    as (m' & Hrun & Hn & Hk & _ & A1 & A2 & _ & _ & A5 & A6).
  destruct (RemoveNonLockedTx_others t rc m m' Hrun) as [O1 O2].
  exists m'. by split_and!.
Qed.

Section blocks.
Context `{HeaderDecls} `{Primitives}.
Variable env : Env.
Variable node : NodeEnv.
Variable sig : SigningEnv.

(** One transaction of the block. *)
Lemma BlockConnected_step (pindex : CBlockIndex) (tx : CTransaction)
    (m m1 : CInstantSendManager) (r : list (list uint256 * bool)) :
  (locked ← Manager.IsLockedInternal (tx_hash tx);
   if negb (locked : bool) && negb (HasChainLock env (nHeight pindex) (block_hash pindex))
   then
     r ← Signer.ProcessTx env node sig tx true;
     _ ← Tracking.AddNonLockedTx tx (Some pindex);
     mret [r]
   else
     _ ← Manager.RemoveNonLockedTx (tx_hash tx) true;
     mret []) m = Some (r, m1) →
  (db (isdb m1) = db (isdb m)
   ∧ (caches_coherent (isdb m) → caches_coherent (isdb m1))
   ∧ pendingInstantSendLocks m1 = pendingInstantSendLocks m
   ∧ events m1 = events m)
  ∧ (∀ k, k ≠ tx_hash tx →
       entry_tx m1 k = entry_tx m k
       ∧ (∀ j, nonLockedTxs m !! k = Some j → is_Some (info_tx j) →
            ∃ j', nonLockedTxs m1 !! k = Some j' ∧ pindexMined j' = pindexMined j
                  ∧ info_tx j' = info_tx j)
       ∧ ((∀ i, i ∈ vin tx → hash (prevout i) ≠ k) →
          nonLockedTxs m !! k = None → nonLockedTxs m1 !! k = None))
  ∧ (caches_coherent (isdb m) →
     if store_locked (db (isdb m)) (tx_hash tx)
        || HasChainLock env (nHeight pindex) (block_hash pindex)
     then nonLockedTxs m1 !! tx_hash tx = None
     else ∃ info, nonLockedTxs m1 !! tx_hash tx = Some info
            ∧ pindexMined info = Some pindex
            ∧ info_tx info = match nonLockedTxs m !! tx_hash tx with
                             | None => Some tx
                             | Some old => info_tx old
                             end).
Proof.
  unfold mbind at 1. unfold MgrM_bind at 1. rewrite IsLockedInternal_run.
  pose proof (IsLockedInternal_looked_up (tx_hash tx) m) as Hl.
  pose proof (looked_up_fields _ _ Hl) as (F1 & F2 & F3 & F4 & F5 & F6).
  destruct Hl as (_ & Hd & _ & Hc).
  set (m0 := after_lookup m (tx_hash tx)) in *.
  clear F5. assert (nonLockedTxs m0 = nonLockedTxs m) as F5 by done.
  destruct (negb (locked_now m (tx_hash tx))
            && negb (HasChainLock env (nHeight pindex) (block_hash pindex))) eqn:Eb.
  - unfold mbind at 1. unfold MgrM_bind at 1.
    destruct (Signer.ProcessTx env node sig tx true m0) as [[r1 m2]|] eqn:Ep; [|done].
    apply ProcessTx_frame in Ep as (P1 & _ & P3 & P4 & P5 & P6 & _).
    injection P5 as P5 _ _.
    unfold mbind at 1. unfold MgrM_bind at 1.
    destruct (AddNonLockedTx_run tx (Some pindex) m2)
      as (m3 & -> & (info & Hi & Hm & Htx) & O1 & O2 & O3 & A1 & A2 & A3 & A4 & A5 & A6 & A7).
    intros [= <- <-]. split_and!.
    + by rewrite A1, P1.
    + intros Hco. rewrite A1. auto.
    + by rewrite A5, P4.
    + by rewrite A7, P6.
    + intros k Hk. unfold entry_tx in *. split_and!.
      * rewrite O1 by done. by rewrite P5.
      * intros j Hj Hs. apply (O2 k j Hk). by rewrite P5.
      * intros Hnp Hn. rewrite O3 by done. by rewrite P5.
    + intros Hco. rewrite <- (IsLockedInternal_coherent _ _ Hco).
      apply andb_true_iff in Eb as [E1 E2].
      apply negb_true_iff in E1, E2. rewrite E1, E2. cbn [orb].
      exists info. split_and!; [done..|]. by rewrite Htx, P5.
  - unfold mbind at 1. unfold MgrM_bind at 1.
    destruct (RemoveNonLockedTx_keeps (tx_hash tx) true m0)
      as (m3 & -> & Hn & Hk & O1 & O2 & A1 & A2 & A5 & A6).
    intros [= <- <-]. split_and!.
    + by rewrite A1.
    + intros Hco. rewrite A1. auto.
    + by rewrite A5.
    + by rewrite A6.
    + intros k Hk'. unfold entry_tx in *. split_and!.
      * by rewrite O1 by done.
      * intros j Hj Hs. by apply (O2 k j Hk').
      * intros _ Hnone. by apply Hk.
    + intros Hco. rewrite <- (IsLockedInternal_coherent _ _ Hco).
      apply andb_false_iff in Eb.
      assert (locked_now m (tx_hash tx)
              || HasChainLock env (nHeight pindex) (block_hash pindex) = true) as ->; [|done].
      destruct Eb as [E%negb_false_iff|E%negb_false_iff]; rewrite E; [done|].
      by rewrite orb_true_r.
Qed.

(** The loop, one transaction at a time. *)
Lemma BlockConnected_loop_cons (pindex : CBlockIndex) (tx : CTransaction)
    (vtx : list CTransaction) (m : CInstantSendManager) :
  Signer.BlockConnected_loop env node sig pindex (tx :: vtx) m
  = if is_coinbase tx || bool_decide (vin tx = [])
    then Signer.BlockConnected_loop env node sig pindex vtx m
    else
      match (locked ← Manager.IsLockedInternal (tx_hash tx);
             if negb (locked : bool)
                && negb (HasChainLock env (nHeight pindex) (block_hash pindex))
             then
               r ← Signer.ProcessTx env node sig tx true;
               _ ← Tracking.AddNonLockedTx tx (Some pindex);
               mret [r]
             else
               _ ← Manager.RemoveNonLockedTx (tx_hash tx) true;
               mret []) m with
      | Some (r, m1) =>
          match Signer.BlockConnected_loop env node sig pindex vtx m1 with
          | Some (rs, m2) => Some (r ++ rs, m2)
          | None => None
          end
      | None => None
      end.
Proof.
  cbn [Signer.BlockConnected_loop].
  destruct (is_coinbase tx || bool_decide (vin tx = [])); [done|].
  set (step := (locked ← Manager.IsLockedInternal (tx_hash tx);
                if negb (locked : bool)
                   && negb (HasChainLock env (nHeight pindex) (block_hash pindex))
                then
                  r ← Signer.ProcessTx env node sig tx true;
                  _ ← Tracking.AddNonLockedTx tx (Some pindex);
                  mret [r]
                else
                  _ ← Manager.RemoveNonLockedTx (tx_hash tx) true;
                  mret [])).
  transitivity ((step ≫= (λ r, rs ← Signer.BlockConnected_loop env node sig pindex vtx;
                               mret (r ++ rs))) m).
  - unfold step. symmetry. apply MgrM_bind_assoc.
  - unfold mbind at 1. unfold MgrM_bind at 1.
    destruct (step m) as [[r m1]|]; [|done].
    unfold mbind, MgrM_bind.
    by destruct (Signer.BlockConnected_loop env node sig pindex vtx m1) as [[rs m2]|].
Qed.

(** The loop over the block keeps the entries of the transactions that are
    not in the block. *)
Lemma BlockConnected_loop_others (pindex : CBlockIndex) (vtx : list CTransaction)
    (m m' : CInstantSendManager) (rs : list (list uint256 * bool)) :
  Signer.BlockConnected_loop env node sig pindex vtx m = Some (rs, m') →
  (db (isdb m') = db (isdb m)
   ∧ (caches_coherent (isdb m) → caches_coherent (isdb m'))
   ∧ pendingInstantSendLocks m' = pendingInstantSendLocks m
   ∧ events m' = events m)
  ∧ (∀ k, (∀ tx, tx ∈ vtx → tx_hash tx ≠ k) →
       entry_tx m' k = entry_tx m k
       ∧ (∀ j, nonLockedTxs m !! k = Some j → is_Some (info_tx j) →
            ∃ j', nonLockedTxs m' !! k = Some j' ∧ pindexMined j' = pindexMined j
                  ∧ info_tx j' = info_tx j)
       ∧ ((∀ tx i, tx ∈ vtx → i ∈ vin tx → hash (prevout i) ≠ k) →
          nonLockedTxs m !! k = None → nonLockedTxs m' !! k = None)).
Proof.
  revert m rs. induction vtx as [|tx vtx IH]; intros m rs.
  { intros [= <- <-]. split; [done|]. intros k _. split_and!; [done| |done].
    intros j Hj _. by exists j. }
  rewrite BlockConnected_loop_cons.
  destruct (is_coinbase tx || bool_decide (vin tx = [])).
  { intros (Hf & Hk)%IH. split; [done|]. intros k Hne.
    destruct (Hk k) as (K1 & K2 & K3).
    { intros tx' Hin. apply Hne. by right. }
    split_and!; [done..|]. intros Hnp. apply K3. intros tx' i Hin. apply Hnp. by right. }
  match goal with |- context [match ?c m with _ => _ end] =>
    destruct (c m) as [[r m1]|] eqn:Estep; [|done] end.
  apply BlockConnected_step in Estep as ((S1 & S2 & S3 & S4) & Sk & _).
  destruct (Signer.BlockConnected_loop env node sig pindex vtx m1) as [[rs1 m2]|] eqn:El;
    [|done].
  intros [= <- <-]. apply IH in El as ((L1 & L2 & L3 & L4) & Lk).
  split.
  { split_and!; [congruence|auto|congruence|congruence]. }
  intros k Hne.
  destruct (Sk k) as (K1 & K2 & K3). { apply not_eq_sym, Hne. by left. }
  destruct (Lk k) as (M1 & M2 & M3). { intros tx' Hin. apply Hne. by right. }
  split_and!.
  - congruence.
  - intros j Hj Hs. destruct (K2 j Hj Hs) as (j1 & Hj1 & E1 & E2).
    destruct (M2 j1 Hj1) as (j2 & Hj2 & E3 & E4); [by rewrite E2|].
    exists j2. split_and!; [done|congruence..].
  - intros Hnp Hn. apply M3.
    + intros tx' i Hin. apply Hnp. by right.
    + apply K3; [|done]. intros i. apply Hnp. by left.
Qed.

(** The transaction at a place of the block after the loop. *)
Lemma BlockConnected_loop_tracks (pindex : CBlockIndex) (before : list CTransaction)
    (tx : CTransaction) (after : list CTransaction)
    (m m' : CInstantSendManager) (rs : list (list uint256 * bool)) :
  Signer.BlockConnected_loop env node sig pindex (before ++ tx :: after) m = Some (rs, m') →
  caches_coherent (isdb m) →
  NoDup (map tx_hash (before ++ tx :: after)) →
  is_coinbase tx = false → vin tx ≠ [] →
  if store_locked (db (isdb m)) (tx_hash tx)
     || HasChainLock env (nHeight pindex) (block_hash pindex)
  then entry_tx m' (tx_hash tx) = None
  else (∀ j, nonLockedTxs m !! tx_hash tx = Some j → is_Some (info_tx j)) →
       (∀ tx' i, tx' ∈ before → i ∈ vin tx' → hash (prevout i) ≠ tx_hash tx) →
       ∃ info, nonLockedTxs m' !! tx_hash tx = Some info
         ∧ pindexMined info = Some pindex
         ∧ is_Some (info_tx info)
         ∧ (nonLockedTxs m !! tx_hash tx = None → info_tx info = Some tx).
Proof.
  revert m rs. induction before as [|b before IH]; intros m rs Hrun Hc Hnd Hcb Hvin.
  - cbn [app] in Hrun. rewrite BlockConnected_loop_cons in Hrun.
    rewrite Hcb in Hrun. rewrite bool_decide_eq_false_2 in Hrun by done.
    cbn [orb] in Hrun.
    match type of Hrun with context [match ?c m with _ => _ end] =>
      destruct (c m) as [[r m1]|] eqn:Estep; [|done] end.
    apply BlockConnected_step in Estep as (_ & _ & St). specialize (St Hc).
    destruct (Signer.BlockConnected_loop env node sig pindex after m1) as [[rs1 m2]|] eqn:El;
      [|done].
    injection Hrun as <- <-.
    apply BlockConnected_loop_others in El as (_ & Lk).
    cbn [app map] in Hnd. apply NoDup_cons in Hnd as [Hnin _].
    destruct (Lk (tx_hash tx)) as (M1 & M2 & _).
    { intros tx' Hin Heq. apply Hnin. rewrite <- Heq. by apply list_elem_of_fmap_2. }
    destruct (store_locked (db (isdb m)) (tx_hash tx)
              || HasChainLock env (nHeight pindex) (block_hash pindex)).
    + rewrite M1. unfold entry_tx. by rewrite St.
    + intros Hpre _. destruct St as (info & Hi & Hm & Htx).
      assert (is_Some (info_tx info)) as Hs.
      { rewrite Htx. destruct (nonLockedTxs m !! tx_hash tx) as [old|] eqn:Eo; [|done].
        by apply Hpre. }
      destruct (M2 info Hi Hs) as (j' & Hj' & E1 & E2).
      exists j'. split_and!; [done|congruence|by rewrite E2|].
      intros Hn. rewrite E2, Htx. by rewrite Hn.
  - cbn [app map] in Hnd. apply NoDup_cons in Hnd as [Hnin Hnd].
    assert (tx_hash b ≠ tx_hash tx) as Hbt.
    { intros Heq. apply Hnin. rewrite Heq. apply list_elem_of_fmap_2.
      apply elem_of_app. right. by left. }
    cbn [app] in Hrun. rewrite BlockConnected_loop_cons in Hrun.
    destruct (is_coinbase b || bool_decide (vin b = [])).
    { pose proof (IH m rs Hrun Hc Hnd Hcb Hvin) as Hres.
      destruct (store_locked (db (isdb m)) (tx_hash tx)
                || HasChainLock env (nHeight pindex) (block_hash pindex)); [done|].
      intros Hpre Hsp. apply Hres; [done|]. intros tx' i Hin. apply Hsp. by right. }
    match type of Hrun with context [match ?c m with _ => _ end] =>
      destruct (c m) as [[r m1]|] eqn:Estep; [|done] end.
    apply BlockConnected_step in Estep as ((S1 & S2 & _) & Sk & _).
    destruct (Sk (tx_hash tx)) as (K1 & K2 & K3); [by apply not_eq_sym|].
    destruct (Signer.BlockConnected_loop env node sig pindex (before ++ tx :: after) m1)
      as [[rs1 m2]|] eqn:El; [|done].
    injection Hrun as <- <-.
    pose proof (IH m1 rs1 El (S2 Hc) Hnd Hcb Hvin) as Hres. rewrite S1 in Hres.
    destruct (store_locked (db (isdb m)) (tx_hash tx)
              || HasChainLock env (nHeight pindex) (block_hash pindex)); [done|].
    intros Hpre Hsp.
    assert (nonLockedTxs m !! tx_hash tx = None → nonLockedTxs m1 !! tx_hash tx = None)
      as Hnone.
    { apply K3. intros i. apply Hsp. by left. }
    destruct Hres as (info & Hi & Hm & Hs & Htx).
    + intros j Hj. destruct (nonLockedTxs m !! tx_hash tx) as [j0|] eqn:E0.
      * destruct (K2 j0 eq_refl (Hpre j0 eq_refl)) as (j' & Hj' & _ & E2).
        rewrite Hj in Hj'. injection Hj' as <-. rewrite E2. by apply Hpre.
      * rewrite Hnone in Hj by done. done.
    + intros tx' i Hin. apply Hsp. by right.
    + exists info. split_and!; [done..|]. intros Hn. by apply Htx, Hnone.
Qed.

(** The removal of a conflicted transaction, and of those of a block. *)
Lemma RemoveConflictedTx_run (tx : CTransaction) (m : CInstantSendManager) :
  ∃ m0, Manager.RemoveConflictedTx tx m = Some (tt, m0)
    ∧ isdb m0 = isdb m
    ∧ events m0 = events m
    ∧ pendingInstantSendLocks m0 = pendingInstantSendLocks m
    ∧ (∀ k, nonLockedTxs m !! k = None → nonLockedTxs m0 !! k = None)
    ∧ (∀ k, (∀ j, nonLockedTxs m !! k = Some j → is_Some (info_tx j)) →
            ∀ j, nonLockedTxs m0 !! k = Some j → is_Some (info_tx j)).
Proof.
  unfold Manager.RemoveConflictedTx. unfold mbind, MgrM_bind.
  destruct (RemoveNonLockedTx_keeps (tx_hash tx) false m)
    as (m1 & -> & Hn & Hk & O1 & O2 & A1 & A2 & A5 & A6).
  rewrite for_each_modify.
  set (m2 := foldl _ m1 (vin tx)).
  assert (isdb m2 = isdb m1 ∧ events m2 = events m1
          ∧ pendingInstantSendLocks m2 = pendingInstantSendLocks m1
          ∧ nonLockedTxs m2 = nonLockedTxs m1) as (B1 & B2 & B3 & B4).
  { unfold m2. generalize (vin tx) as ins. intros ins. generalize m1 as mx.
    induction ins as [|i ins IHi]; intros mx; [done|]. cbn [foldl].
    destruct (IHi (set_inputRequestIds mx
                     (inputRequestIds mx ∖ {[ConflictedTxInRequestId i]})))
      as (C1 & C2 & C3 & C4).
    by split_and!. }
  exists m2. split; [done|]. split_and!; try congruence.
  - intros k Hnone. rewrite B4. by apply Hk.
  - intros k Hpre. rewrite B4. intros j Hj.
    destruct (decide (k = tx_hash tx)) as [->|Hne]; [congruence|].
    destruct (nonLockedTxs m !! k) as [j0|] eqn:E0.
    + destruct (O2 k j0 Hne E0 (Hpre j0 eq_refl)) as (j' & Hj' & _ & E2).
      rewrite Hj in Hj'. injection Hj' as <-. rewrite E2. by apply Hpre.
    + rewrite (Hk k E0) in Hj. done.
Qed.

Lemma RemoveConflictedTx_all_run (txs : list CTransaction) (m : CInstantSendManager) :
  ∃ m0, for_each txs (λ tx, Manager.RemoveConflictedTx tx) m = Some (tt, m0)
    ∧ isdb m0 = isdb m
    ∧ events m0 = events m
    ∧ pendingInstantSendLocks m0 = pendingInstantSendLocks m
    ∧ (∀ k, nonLockedTxs m !! k = None → nonLockedTxs m0 !! k = None)
    ∧ (∀ k, (∀ j, nonLockedTxs m !! k = Some j → is_Some (info_tx j)) →
            ∀ j, nonLockedTxs m0 !! k = Some j → is_Some (info_tx j)).
Proof.
  revert m. induction txs as [|tx txs IH]; intros m.
  { exists m. by split_and!. }
  cbn [for_each]. unfold mbind at 1. unfold MgrM_bind at 1.
  destruct (RemoveConflictedTx_run tx m) as (m1 & -> & B1 & B2 & B3 & B4 & B5).
  destruct (IH m1) as (m0 & -> & D1 & D2 & D3 & D4 & D5).
  exists m0. split; [done|]. split_and!; try congruence.
  - intros k Hnone. by apply D4, B4.
  - intros k Hpre. by apply D5, B5.
Qed.

(** X22: BlockConnected does nothing when InstantSend is disabled.
    Otherwise, whenever it returns, it has made no outbound call and left
    the pending locks alone, and with coherent caches the store is the one
    WriteBlockInstantSendLocks gives: the locks of the transactions of the
    block are marked as mined at its height. On a synced node, for a block
    without repeated txids, a transaction of the block that is not
    coinbase and has inputs is tracked as a transaction no longer when
    the store has its lock committed or archived or the block is
    ChainLocked; otherwise it is tracked with the block as the one it is
    mined in, provided that any entry it had before held a transaction and
    that no earlier transaction of the block spends one of its outputs. *)
Theorem BlockConnected_tracks (vtx : list CTransaction) (pindex : CBlockIndex)
    (vtxConflicted : list CTransaction) (m : CInstantSendManager) :
  (IsInstantSendEnabled env = false →
   Signer.BlockConnected env node sig vtx pindex vtxConflicted m = Some ([], m))
  ∧ (IsInstantSendEnabled env = true →
     ∀ rs m', Signer.BlockConnected env node sig vtx pindex vtxConflicted m = Some (rs, m') →
       events m' = events m
       ∧ pendingInstantSendLocks m' = pendingInstantSendLocks m
       ∧ (caches_coherent (isdb m) →
          caches_coherent (isdb m')
          ∧ db (isdb m') = db (WriteBlockInstantSendLocks vtx pindex (isdb m)).2
          ∧ (IsBlockchainSynced node = true → NoDup (map tx_hash vtx) →
             ∀ before tx after,
               vtx = before ++ tx :: after → is_coinbase tx = false → vin tx ≠ [] →
               if store_locked (db (isdb m)) (tx_hash tx)
                  || HasChainLock env (nHeight pindex) (block_hash pindex)
               then entry_tx m' (tx_hash tx) = None
               else (∀ j, nonLockedTxs m !! tx_hash tx = Some j → is_Some (info_tx j)) →
                    (∀ tx' i, tx' ∈ before → i ∈ vin tx' →
                              hash (prevout i) ≠ tx_hash tx) →
                    ∃ info, nonLockedTxs m' !! tx_hash tx = Some info
                      ∧ pindexMined info = Some pindex
                      ∧ is_Some (info_tx info)))).
Proof.
  split.
  { intros Hoff. unfold Signer.BlockConnected. by rewrite Hoff. }
  intros Hon rs m'. unfold Signer.BlockConnected. rewrite Hon. cbn [negb].
  unfold mbind at 1. unfold MgrM_bind at 1.
  destruct (RemoveConflictedTx_all_run vtxConflicted m)
    as (m0 & -> & D1 & D2 & D3 & D4 & D5).
  unfold mbind at 1. unfold MgrM_bind at 1.
  destruct ((if IsBlockchainSynced node
             then Signer.BlockConnected_loop env node sig pindex vtx
             else mret []) m0) as [[rs1 m1]|] eqn:El; [|done].
  unfold mbind at 1. unfold MgrM_bind at 1. rewrite on_db_run.
  intros [= <- <-].
  cbn [events pendingInstantSendLocks set_isdb isdb].
  assert (db (isdb m1) = db (isdb m0)
          ∧ (caches_coherent (isdb m0) → caches_coherent (isdb m1))
          ∧ pendingInstantSendLocks m1 = pendingInstantSendLocks m0
          ∧ events m1 = events m0) as (L1 & L2 & L3 & L4).
  { destruct (IsBlockchainSynced node).
    - by apply BlockConnected_loop_others in El as [? _].
    - by injection El as <- <-. }
  split; [congruence|]. split; [congruence|].
  intros Hc. rewrite <- D1 in Hc. pose proof (L2 Hc) as Hc1.
  split_and!.
  - apply (block_update_coherent WriteInstantSendLockMined_batch vtx (nHeight pindex));
      [|done]. intros b h z. eexists. by left.
  - rewrite !WriteBlock_db by (done || by rewrite <- D1). by rewrite L1, D1.
  - intros Hsy Hnd before tx after -> Hcb Hvin. rewrite Hsy in El.
    pose proof (BlockConnected_loop_tracks pindex before tx after m0 m1 rs1 El Hc Hnd
                  Hcb Hvin) as Hres.
    rewrite D1 in Hres.
    unfold entry_tx in *. cbn [nonLockedTxs set_isdb].
    destruct (store_locked (db (isdb m)) (tx_hash tx)
              || HasChainLock env (nHeight pindex) (block_hash pindex)); [done|].
    intros Hpre Hsp.
    destruct Hres as (info & Hi & Hm & Hs & _); [by apply D5|done|].
    by exists info.
Qed.
End blocks.
End BlockConnection.

(** ** Recovered signatures *)

Module RecoveredSigs.
Import LockStore Queries CacheCoherence Messages SigningInputs.

Section recovered.
Context `{HeaderDecls} `{Primitives}.
Variable env : Env.
Variable node : NodeEnv.
Variable sig : SigningEnv.



End recovered.
End RecoveredSigs.

(** ** Conflicts with mined and mempool transactions *)

Module BlockConflicts.
Import LockStore Queries CacheCoherence Messages ProcessLock TrackingFacts ConfirmedBlocks
       BlockConnection.

Section collect.
Variable m : CInstantSendManager.
Variable islock : CInstantSendLock.

Lemma collect_step_spec acc i :
  collected_ok m acc →
  collected_ok m (collect_step m islock acc i)
  ∧ (∀ pindex t tx,
       (∃ txs, collect_step m islock acc i !! pindex = Some txs ∧ txs !! t = Some tx)
       ↔ (∃ txs, acc !! pindex = Some txs ∧ txs !! t = Some tx)
         ∨ (∃ info, nonLockedTxsByOutpoints m !! i = Some t ∧ t ≠ txid islock
                    ∧ nonLockedTxs m !! t = Some info ∧ pindexMined info = Some pindex
                    ∧ info_tx info = Some tx))
  ∧ ((∀ pindex txs, acc !! pindex = Some txs → txs ≠ ∅) →
     ∀ pindex txs, collect_step m islock acc i !! pindex = Some txs → txs ≠ ∅).
Proof.
  intros Hok. unfold collect_step.
  destruct (nonLockedTxsByOutpoints m !! i) as [ct|] eqn:Eo.
  2:{ split_and!; [done| |done]. intros pindex t tx. split; [by left|].
      by intros [?|(info & [=] & _)]. }
  case_bool_decide as Hct.
  { split_and!; [done| |done]. intros pindex t tx. split; [by left|].
    intros [?|(info & [= ->] & Hne & _)]; done. }
  destruct (nonLockedTxs m !! ct) as [info|] eqn:Ei.
  2:{ split_and!; [done| |done]. intros pindex t tx. split; [by left|].
      intros [?|(info & [= ->] & _ & Hi & _)]; [done|congruence]. }
  destruct (pindexMined info) as [pi|] eqn:Ep.
  2:{ split_and!; [done| |done]. intros pindex t tx. split; [by left|].
      intros [?|(info' & [= ->] & _ & Hi & Hp & _)]; [done|congruence]. }
  destruct (info_tx info) as [tx0|] eqn:Et.
  2:{ split_and!; [done| |done]. intros pindex t tx. split; [by left|].
      intros [?|(info' & [= ->] & _ & Hi & _ & Ht)]; [done|congruence]. }
  set (old := default ∅ (acc !! pi)).
  assert (∀ t tx, emplace ct tx0 old !! t = Some tx
                  ↔ old !! t = Some tx ∨ (t = ct ∧ tx = tx0)) as Hem.
  { intros t tx. unfold emplace.
    destruct (old !! ct) as [tx1|] eqn:E1.
    - split; [by left|]. intros [?|[-> ->]]; [done|].
      assert (acc !! pi = Some old) as Hacc.
      { unfold old in *. destruct (acc !! pi); [done|]. cbn in E1.
        by rewrite lookup_empty in E1. }
      destruct (Hok pi old ct tx1 Hacc E1) as (info' & Hi' & _ & Ht').
      congruence.
    - rewrite lookup_insert_Some. split.
      + intros [[<- <-]|[_ ?]]; [by right|by left].
      + intros [Ho|[-> ->]]; [|by left]. right. split; [|done]. congruence. }
  assert (∀ pindex txs, acc !! pindex = Some txs → pindex = pi → txs = old) as Hold.
  { intros pindex txs Hacc ->. unfold old. by rewrite Hacc. }
  split_and!.
  - intros pindex txs t tx. rewrite lookup_insert_Some.
    intros [[<- <-]|[Hne Hacc]] Ht; [|by eapply Hok].
    apply Hem in Ht as [Ht|[-> ->]]; [|by exists info].
    assert (acc !! pi = Some old) as Hacc.
    { unfold old in *. destruct (acc !! pi); [done|]. cbn in Ht.
      by rewrite lookup_empty in Ht. }
    by eapply Hok.
  - intros pindex t tx. split.
    + intros (txs & Hl & Ht). apply lookup_insert_Some in Hl as [[<- <-]|[Hne Hacc]].
      * apply Hem in Ht as [Ht|[-> ->]]; [|right; by exists info].
        left. exists old. split; [|done].
        unfold old in *. destruct (acc !! pi); [done|]. cbn in Ht.
        by rewrite lookup_empty in Ht.
      * left. by exists txs.
    + intros [(txs & Hacc & Ht)|(info' & [= <-] & _ & Hi & Hp & Htx)].
      * destruct (decide (pindex = pi)) as [->|Hne].
        -- exists (emplace ct tx0 old). rewrite lookup_insert_eq. split; [done|].
           apply Hem. left. by rewrite <- (Hold pi txs Hacc eq_refl).
        -- exists txs. by rewrite lookup_insert_ne.
      * assert (info' = info) as -> by congruence.
        assert (pindex = pi) as -> by congruence.
        assert (tx = tx0) as -> by congruence.
        exists (emplace ct tx0 old). rewrite lookup_insert_eq. split; [done|].
        apply Hem. by right.
  - intros Hne pindex txs. rewrite lookup_insert_Some.
    intros [[<- <-]|[_ Hacc]]; [|by eapply Hne].
    intros Hempty. assert (emplace ct tx0 old !! ct = None) as Hn by (by rewrite Hempty).
    destruct (emplace ct tx0 old !! ct) as [x|] eqn:E; [done|].
    unfold emplace in E. destruct (old !! ct) eqn:E1; [congruence|].
    by rewrite lookup_insert_eq in E.
Qed.

Lemma collect_fold_spec ins acc :
  collected_ok m acc →
  (∀ pindex t tx,
     (∃ txs, foldl (collect_step m islock) acc ins !! pindex = Some txs ∧ txs !! t = Some tx)
     ↔ (∃ txs, acc !! pindex = Some txs ∧ txs !! t = Some tx)
       ∨ (∃ i info, i ∈ ins ∧ nonLockedTxsByOutpoints m !! i = Some t ∧ t ≠ txid islock
                    ∧ nonLockedTxs m !! t = Some info ∧ pindexMined info = Some pindex
                    ∧ info_tx info = Some tx))
  ∧ ((∀ pindex txs, acc !! pindex = Some txs → txs ≠ ∅) →
     ∀ pindex txs, foldl (collect_step m islock) acc ins !! pindex = Some txs → txs ≠ ∅).
Proof.
  revert acc. induction ins as [|i ins IH]; intros acc Hok.
  { split; [|done]. intros pindex t tx. split; [by left|].
    by intros [?|(i & info & ?%elem_of_nil & _)]. }
  cbn [foldl]. destruct (collect_step_spec acc i Hok) as (Hok1 & Hs1 & Hn1).
  destruct (IH _ Hok1) as (Hs & Hn). split.
  - intros pindex t tx. rewrite Hs, Hs1. split.
    + intros [[?|(info & ?)]|(i' & info & ? & ?)]; [by left|right..].
      * exists i, info. split; [by left|done].
      * exists i', info. split; [by right|done].
    + intros [?|(i' & info & [->|Hin]%elem_of_cons & ?)]; [by left; left|..].
      * left. right. by exists info.
      * right. by exists i', info.
  - intros Hne. by apply Hn, Hn1.
Qed.

(** What [collect_conflicts] holds. *)
Lemma collect_conflicts_spec :
  (∀ pindex tx,
     (∃ txs t, Manager.collect_conflicts m islock !! pindex = Some txs ∧ txs !! t = Some tx)
     ↔ conflicting_tx m islock pindex tx)
  ∧ (∀ pindex, is_Some (Manager.collect_conflicts m islock !! pindex)
               ↔ ∃ tx, conflicting_tx m islock pindex tx).
Proof.
  assert (collected_ok m ∅) as Hok0.
  { intros pindex txs t tx Hl. by rewrite lookup_empty in Hl. }
  destruct (collect_fold_spec (inputs islock) ∅ Hok0) as (Hs & Hn).
  assert (∀ pindex tx,
            (∃ txs t, Manager.collect_conflicts m islock !! pindex = Some txs
                      ∧ txs !! t = Some tx)
            ↔ conflicting_tx m islock pindex tx) as Hspec.
  { intros pindex tx. unfold conflicting_tx. split.
    - intros (txs & t & Hl & Ht).
      destruct (proj1 (Hs pindex t tx)) as [(? & Hl0 & _)|(i & info & ?)].
      { by exists txs. }
      { by rewrite lookup_empty in Hl0. }
      by exists i, t, info.
    - intros (i & t & info & ?).
      destruct (proj2 (Hs pindex t tx)) as (txs & ? & ?).
      { right. by exists i, info. }
      by exists txs, t. }
  split; [exact Hspec|].
  intros pindex. split.
  - intros [txs Hl].
    assert (txs ≠ ∅) as Hne.
    { eapply Hn; [|exact Hl]. intros ? ? Hl0. by rewrite lookup_empty in Hl0. }
    apply map_choose in Hne as (t & tx & Ht). exists tx. apply Hspec. by exists txs, t.
  - intros (tx & (txs & t & Hl & _)%Hspec). by exists txs.
Qed.
End collect.

Section resolve.
Context `{HeaderDecls} `{Primitives}.
Variable env : Env.

(** The removal of conflicted transactions leaves none of them tracked. *)
Lemma RemoveConflictedTx_untracks (txs : list CTransaction) (m : CInstantSendManager) :
  ∃ m0, for_each txs Manager.RemoveConflictedTx m = Some (tt, m0)
    ∧ isdb m0 = isdb m
    ∧ events m0 = events m
    ∧ pendingInstantSendLocks m0 = pendingInstantSendLocks m
    ∧ (∀ k, nonLockedTxs m !! k = None → nonLockedTxs m0 !! k = None)
    ∧ (∀ tx, tx ∈ txs → nonLockedTxs m0 !! tx_hash tx = None).
Proof.
  revert m. induction txs as [|tx txs IH]; intros m.
  { exists m. split_and!; try done. by intros tx ?%elem_of_nil. }
  cbn [for_each]. unfold mbind at 1. unfold MgrM_bind at 1.
  assert (∃ m1, Manager.RemoveConflictedTx tx m = Some (tt, m1)
            ∧ isdb m1 = isdb m ∧ events m1 = events m
            ∧ pendingInstantSendLocks m1 = pendingInstantSendLocks m
            ∧ (∀ k, nonLockedTxs m !! k = None → nonLockedTxs m1 !! k = None)
            ∧ nonLockedTxs m1 !! tx_hash tx = None)
    as (m1 & -> & B1 & B2 & B3 & B4 & B5).
  { unfold Manager.RemoveConflictedTx. unfold mbind, MgrM_bind.
    destruct (RemoveNonLockedTx_keeps (tx_hash tx) false m)
      as (m1 & -> & Hn & Hk & _ & _ & A1 & A2 & A5 & A6).
    rewrite for_each_modify.
    set (m2 := foldl _ m1 (vin tx)).
    assert (isdb m2 = isdb m1 ∧ events m2 = events m1
            ∧ pendingInstantSendLocks m2 = pendingInstantSendLocks m1
            ∧ nonLockedTxs m2 = nonLockedTxs m1) as (C1 & C2 & C3 & C4).
    { unfold m2. generalize (vin tx) as ins. intros ins. generalize m1 as mx.
      induction ins as [|i ins IHi]; intros mx; [done|]. cbn [foldl].
      destruct (IHi (set_inputRequestIds mx
                       (inputRequestIds mx ∖ {[ConflictedTxInRequestId i]})))
        as (? & ? & ? & ?).
      by split_and!. }
    exists m2. split; [done|]. split_and!; try congruence.
    intros k Hnone. rewrite C4. by apply Hk. }
  destruct (IH m1) as (m0 & -> & D1 & D2 & D3 & D4 & D5).
  exists m0. split; [done|]. split_and!; try congruence.
  - intros k Hnone. by apply D4, B4.
  - intros tx' [->|Hin]%elem_of_cons; [by apply D4|by apply D5].
Qed.

(** The second loop of [ResolveBlockConflicts] when every block can be
    invalidated, and when one cannot. *)
Lemma invalidate_conflicts_run (ps : list (CBlockIndex * gmap uint256 CTransaction))
    (m : CInstantSendManager) :
  (∀ p, p ∈ ps → InvalidateBlock env (block_hash p.1) = true) →
  ∃ m', for_each ps (λ p,
          _ ← for_each (map snd (map_to_list p.2)) Manager.RemoveConflictedTx;
          _ ← emit (InvalidateBlock_event (block_hash p.1));
          if InvalidateBlock env (block_hash p.1) then mgr_return else abort) m
        = Some (tt, m')
    ∧ isdb m' = isdb m
    ∧ events m' = events m ++ map (λ p, InvalidateBlock_event (block_hash p.1)) ps
    ∧ pendingInstantSendLocks m' = pendingInstantSendLocks m
    ∧ (∀ k, nonLockedTxs m !! k = None → nonLockedTxs m' !! k = None)
    ∧ (∀ p t tx, p ∈ ps → p.2 !! t = Some tx → nonLockedTxs m' !! tx_hash tx = None).
Proof.
  revert m. induction ps as [|p ps IH]; intros m Hinv.
  { exists m. cbn [for_each map]. rewrite app_nil_r. split_and!; try done.
    by intros p t tx ?%elem_of_nil. }
  cbn [for_each]. unfold mbind at 1. unfold MgrM_bind at 1.
  unfold mbind at 1. unfold MgrM_bind at 1.
  destruct (RemoveConflictedTx_untracks (map snd (map_to_list p.2)) m)
    as (m1 & -> & B1 & B2 & B3 & B4 & B5).
  unfold mbind at 1. unfold MgrM_bind at 1. unfold emit at 1, modify_mgr at 1.
  rewrite (Hinv p) by (by left).
  unfold mgr_return at 1, mret at 1, MgrM_ret at 1.
  destruct (IH (set_events m1 (events m1 ++ [InvalidateBlock_event (block_hash p.1)])))
    as (m' & -> & D1 & D2 & D3 & D4 & D5).
  { intros p' Hin. apply Hinv. by right. }
  exists m'. split; [done|].
  cbn [isdb events pendingInstantSendLocks nonLockedTxs set_events] in *.
  split_and!; try congruence.
  - rewrite D2, B2. cbn [map]. by rewrite <- app_assoc.
  - intros k Hnone. by apply D4, B4.
  - intros p' t tx [->|Hin]%elem_of_cons Ht; [|by eapply D5].
    apply D4, B5. apply list_elem_of_fmap. exists (t, tx). split; [done|].
    by apply elem_of_map_to_list.
Qed.

Lemma invalidate_conflicts_abort (ps : list (CBlockIndex * gmap uint256 CTransaction))
    (m : CInstantSendManager) :
  (∃ p, p ∈ ps ∧ InvalidateBlock env (block_hash p.1) = false) →
  for_each ps (λ p,
    _ ← for_each (map snd (map_to_list p.2)) Manager.RemoveConflictedTx;
    _ ← emit (InvalidateBlock_event (block_hash p.1));
    if InvalidateBlock env (block_hash p.1) then mgr_return else abort) m
  = None.
Proof.
  revert m. induction ps as [|p ps IH]; intros m (p0 & Hin & Hf).
  { by apply elem_of_nil in Hin. }
  cbn [for_each]. unfold mbind at 1. unfold MgrM_bind at 1.
  unfold mbind at 1. unfold MgrM_bind at 1.
  destruct (RemoveConflictedTx_untracks (map snd (map_to_list p.2)) m) as (m1 & -> & _).
  unfold mbind at 1. unfold MgrM_bind at 1. unfold emit at 1, modify_mgr at 1.
  destruct (InvalidateBlock env (block_hash p.1)) eqn:Ei; [|done].
  unfold mgr_return at 1, mret at 1, MgrM_ret at 1.
  apply IH. apply elem_of_cons in Hin as [->|Hin]; [congruence|]. by exists p0.
Qed.

(** X24: ResolveBlockConflicts does nothing when no tracked, mined
    transaction other than the locked one spends an input of the lock. If
    such a transaction is mined in a ChainLocked block the ChainLock wins:
    the run is that of RemoveConflictingLock and it returns; the lock's hash
    is then archived and, unless it is the null hash, has no entry in
    ISLOCK_BY_HASH; no outbound call is made (no block is invalidated) and
    the tracked transactions and pending locks are unchanged. Otherwise the
    lock wins: if InvalidateBlock succeeds for every block with such a
    transaction and ActivateBestChain succeeds, each such block is
    invalidated once, ActivateBestChain follows, the conflicting
    transactions are untracked and the store is untouched; if one of them
    fails the run aborts. *)
Theorem ResolveBlockConflicts_resolves (islockHash : uint256) (islock : CInstantSendLock)
    (m : CInstantSendManager) :
  ((∀ pindex tx, ¬ conflicting_tx m islock pindex tx) →
   Manager.ResolveBlockConflicts env islockHash islock m = Some (tt, m))
  ∧ ((∃ pindex tx, conflicting_tx m islock pindex tx
                   ∧ HasChainLock env (nHeight pindex) (block_hash pindex) = true) →
     ∃ m', Manager.ResolveBlockConflicts env islockHash islock m = Some (tt, m')
       ∧ Manager.RemoveConflictingLock env islockHash islock m = Some (tt, m')
       ∧ is_a2 (db (isdb m')) !! islockHash = Some true
       ∧ (IsNull islockHash = false → is_i (db (isdb m')) !! islockHash = None)
       ∧ events m' = events m
       ∧ tracking m' = tracking m
       ∧ pendingInstantSendLocks m' = pendingInstantSendLocks m)
  ∧ ((∃ pindex tx, conflicting_tx m islock pindex tx) →
     (∀ pindex tx, conflicting_tx m islock pindex tx →
                   HasChainLock env (nHeight pindex) (block_hash pindex) = false) →
     ((∀ pindex tx, conflicting_tx m islock pindex tx →
                    InvalidateBlock env (block_hash pindex) = true) →
      ActivateBestChain env = true →
      ∃ m' blocks,
        Manager.ResolveBlockConflicts env islockHash islock m = Some (tt, m')
        ∧ events m'
          = events m ++ map (λ pindex, InvalidateBlock_event (block_hash pindex)) blocks
            ++ [ActivateBestChain_event]
        ∧ NoDup blocks
        ∧ (∀ pindex, pindex ∈ blocks ↔ ∃ tx, conflicting_tx m islock pindex tx)
        ∧ (∀ pindex tx, conflicting_tx m islock pindex tx →
                        nonLockedTxs m' !! tx_hash tx = None)
        ∧ isdb m' = isdb m
        ∧ pendingInstantSendLocks m' = pendingInstantSendLocks m)
     ∧ ((∃ pindex tx, conflicting_tx m islock pindex tx
                      ∧ InvalidateBlock env (block_hash pindex) = false)
        ∨ ActivateBestChain env = false →
        Manager.ResolveBlockConflicts env islockHash islock m = None)).
Proof.
  destruct (collect_conflicts_spec m islock) as [Hspec Hkeys].
  set (conflicts := Manager.collect_conflicts m islock) in *.
  assert (∀ p, p ∈ map_to_list conflicts ↔ conflicts !! p.1 = Some p.2) as Hel.
  { intros [pi txs]. apply elem_of_map_to_list. }
  assert (existsb (λ p, HasChainLock env (nHeight p.1) (block_hash p.1))
                  (map_to_list conflicts) = true
          ↔ ∃ pindex tx, conflicting_tx m islock pindex tx
                         ∧ HasChainLock env (nHeight pindex) (block_hash pindex) = true)
    as Hcl.
  { rewrite existsb_exists. split.
    - intros (p & Hin%list_elem_of_In%Hel & Hc).
      destruct (proj1 (Hkeys p.1)) as [tx Htx]; [by eexists|]. by exists p.1, tx.
    - intros (pindex & tx & Hct & Hc).
      destruct (proj2 (Hkeys pindex)) as [txs Hl]; [by exists tx|].
      exists (pindex, txs). split; [|done]. apply list_elem_of_In. by apply Hel. }
  split_and!.
  - intros Hnone. unfold Manager.ResolveBlockConflicts. unfold mbind, MgrM_bind, get_mgr.
    fold conflicts. assert (conflicts = ∅) as ->; [|by rewrite map_to_list_empty].
    apply map_eq. intros pindex. rewrite lookup_empty.
    destruct (conflicts !! pindex) as [txs|] eqn:E; [|done].
    destruct (proj1 (Hkeys pindex)) as [tx Htx]; [by eexists|]. by destruct (Hnone pindex tx).
  - intros Hchain%Hcl.
    assert (Manager.ResolveBlockConflicts env islockHash islock m
            = Manager.RemoveConflictingLock env islockHash islock m) as Hrun.
    { unfold Manager.ResolveBlockConflicts. unfold mbind at 1. unfold MgrM_bind at 1.
      unfold get_mgr at 1. fold conflicts. by rewrite Hchain. }
    destruct (RemoveConflictingLock_run env islockHash islock m)
      as (m' & Hrm & Ha & Hi & _ & He & Ht & Hp).
    exists m'. rewrite Hrun. by split_and!.
  - intros (pi0 & tx0 & Hct0) Hnocl.
    assert (existsb (λ p, HasChainLock env (nHeight p.1) (block_hash p.1))
                    (map_to_list conflicts) = false) as Hex.
    { apply not_true_is_false. intros (pindex & tx & Hct & Hc)%Hcl.
      rewrite (Hnocl pindex tx Hct) in Hc. done. }
    assert (map_to_list conflicts ≠ []) as Hne.
    { destruct (proj2 (Hkeys pi0)) as [txs Hl]; [by exists tx0|].
      intros Hnil. apply elem_of_map_to_list in Hl. rewrite Hnil in Hl.
      by apply elem_of_nil in Hl. }
    split.
    + intros Hinv Habc.
      destruct (invalidate_conflicts_run (map_to_list conflicts) m)
        as (m1 & Hrun & D1 & D2 & D3 & D4 & D5).
      { intros p Hp%Hel. destruct (proj1 (Hkeys p.1)) as [tx Htx]; [by eexists|].
        by eapply Hinv. }
      eexists _, (map fst (map_to_list conflicts)). split.
      { unfold Manager.ResolveBlockConflicts. unfold mbind at 1. unfold MgrM_bind at 1.
        unfold get_mgr at 1. fold conflicts. rewrite Hex.
        unfold mbind at 1. unfold MgrM_bind at 1. rewrite Hrun.
        rewrite bool_decide_eq_true_2 by done.
        unfold mbind, MgrM_bind, emit, modify_mgr. rewrite Habc. reflexivity. }
      cbn [events set_events nonLockedTxs isdb pendingInstantSendLocks].
      split_and!; try done.
      * rewrite D2, map_map. by rewrite <- app_assoc.
      * apply NoDup_fst_map_to_list.
      * intros pindex. rewrite <- Hkeys. rewrite list_elem_of_fmap. split.
        -- intros ([pi txs] & -> & Hin%Hel). by eexists.
        -- intros [txs Hl]. exists (pindex, txs). split; [done|]. by apply Hel.
      * intros pindex tx (txs & t & Hl & Ht)%Hspec.
        apply (D5 (pindex, txs) t tx); [by apply Hel|done].
    + intros [(pindex & tx & Hct & Hf)|Habc].
      * unfold Manager.ResolveBlockConflicts. unfold mbind at 1. unfold MgrM_bind at 1.
        unfold get_mgr at 1. fold conflicts. rewrite Hex.
        unfold mbind at 1. unfold MgrM_bind at 1.
        rewrite invalidate_conflicts_abort; [done|].
        destruct (proj2 (Hkeys pindex)) as [txs Hl]; [by exists tx|].
        exists (pindex, txs). split; [by apply Hel|done].
      * unfold Manager.ResolveBlockConflicts. unfold mbind at 1. unfold MgrM_bind at 1.
        unfold get_mgr at 1. fold conflicts. rewrite Hex.
        unfold mbind at 1. unfold MgrM_bind at 1.
        match goal with |- context [for_each ?ps ?body m] =>
          destruct (for_each ps body m) as [[[] m1]|]; [|done] end.
        rewrite bool_decide_eq_true_2 by done.
        unfold mbind, MgrM_bind, emit, modify_mgr. by rewrite Habc.
Qed.
End resolve.
End BlockConflicts.

(** ** Conflicts with transactions of the mempool *)

Module MempoolConflicts.
Import LockStore Queries CacheCoherence ProcessLock TrackingFacts ConfirmedBlocks
       BlockConnection BlockConflicts.

Section mempool.
Context `{HeaderDecls} `{Primitives}.
Variable env : Env.

Lemma toDelete_fold_spec (islock : CInstantSendLock) (ins : list COutPoint)
    (acc : gmap uint256 (option CTransaction)) :
  (∀ h v, acc !! h = Some v → v = mempool_get env h) →
  ∀ h v, foldl (toDelete_step env islock) acc ins !! h = Some v
         ↔ acc !! h = Some v
           ∨ (v = mempool_get env h
              ∧ ∃ i spender, i ∈ ins ∧ mempool_mapNextTx env i = Some spender
                             ∧ tx_hash spender ≠ txid islock ∧ tx_hash spender = h).
Proof.
  revert acc. induction ins as [|i ins IH]; intros acc Hacc h v.
  { split; [by left|]. by intros [?|(_ & i & sp & ?%elem_of_nil & _)]. }
  cbn [foldl].
  assert (∀ h v, toDelete_step env islock acc i !! h = Some v
                 ↔ acc !! h = Some v
                   ∨ (v = mempool_get env h
                      ∧ ∃ spender, mempool_mapNextTx env i = Some spender
                                   ∧ tx_hash spender ≠ txid islock ∧ tx_hash spender = h))
    as Hstep.
  { intros h' v'. unfold toDelete_step.
    destruct (mempool_mapNextTx env i) as [sp|] eqn:En.
    2:{ split; [by left|]. by intros [?|(_ & sp & [=] & _)]. }
    case_bool_decide as Hne.
    2:{ split; [by left|]. intros [?|(_ & sp' & [= <-] & ? & _)]; done. }
    unfold emplace. destruct (acc !! tx_hash sp) as [v0|] eqn:E0.
    - split; [by left|]. intros [?|(-> & sp' & [= <-] & _ & <-)]; [done|].
      by rewrite E0, (Hacc _ _ E0).
    - rewrite lookup_insert_Some. split.
      + intros [[<- <-]|[_ ?]]; [right|by left]. split; [done|]. by exists sp.
      + intros [?|(-> & sp' & [= <-] & _ & <-)]; [|by left].
        right. split; [congruence|done]. }
  rewrite IH.
  2:{ intros h' v' [?|[-> _]]%Hstep; [by apply Hacc|done]. }
  rewrite Hstep. split.
  - intros [[?|(-> & sp & ? & ? & ?)]|(-> & i' & sp & ? & ?)]; [by left|right..].
    + split; [done|]. exists i, sp. split; [by left|done].
    + split; [done|]. exists i', sp. split; [by right|done].
  - intros [?|(-> & i' & sp & [->|Hin]%elem_of_cons & ?)]; [by left; left|..].
    + left. right. split; [done|]. by exists sp.
    + right. split; [done|]. by exists i', sp.
Qed.

(** What [toDelete] holds: under the hash of each conflicting spender, the
    transaction the mempool has for that hash. *)
Lemma mempool_toDelete_spec (islock : CInstantSendLock) (h : uint256)
    (v : option CTransaction) :
  mempool_toDelete env islock !! h = Some v
  ↔ v = mempool_get env h
    ∧ ∃ spender, mempool_conflict env islock spender ∧ tx_hash spender = h.
Proof.
  unfold mempool_toDelete. rewrite toDelete_fold_spec.
  2:{ intros h' v' Hl. by rewrite lookup_empty in Hl. }
  rewrite lookup_empty. unfold mempool_conflict. split.
  - intros [?|(-> & i & sp & ? & ? & ? & ?)]; [done|]. split; [done|].
    exists sp. split; [by exists i|done].
  - intros (-> & sp & (i & ? & ? & ?) & ?). right. split; [done|]. by exists i, sp.
Qed.

Lemma remove_from_mempool_run (ps : list (uint256 * option CTransaction))
    (m : CInstantSendManager) :
  for_each ps (λ p, match p.2 with
                    | Some tx => emit (removeRecursive_CONFLICT tx)
                    | None => abort
                    end) m
  = if forallb (λ p, bool_decide (is_Some p.2)) ps
    then Some (tt, set_events m (events m ++ map removeRecursive_CONFLICT (omap snd ps)))
    else None.
Proof.
  revert m. induction ps as [|[h [tx|]] ps IH]; intros m.
  - cbn. rewrite app_nil_r. by destruct m.
  - cbn [for_each forallb snd omap]. unfold mbind at 1. unfold MgrM_bind at 1.
    unfold emit at 1, modify_mgr at 1. rewrite IH.
    rewrite bool_decide_eq_true_2 by done. cbn [andb].
    destruct (forallb _ ps); [|done]. do 2 f_equal.
    destruct m; unfold set_events; cbn. f_equal. by rewrite <- app_assoc.
  - cbn [for_each forallb snd]. unfold mbind at 1. unfold MgrM_bind at 1.
    by rewrite bool_decide_eq_false_2 by (by intros [? ?]).
Qed.

Lemma untrack_mempool_run (ps : list (uint256 * option CTransaction))
    (m : CInstantSendManager) :
  forallb (λ p, bool_decide (is_Some p.2)) ps = true →
  ∃ m', for_each ps (λ p, match p.2 with
                          | Some tx => Manager.RemoveConflictedTx tx
                          | None => abort
                          end) m = Some (tt, m')
    ∧ isdb m' = isdb m
    ∧ events m' = events m
    ∧ pendingInstantSendLocks m' = pendingInstantSendLocks m
    ∧ (∀ k, nonLockedTxs m !! k = None → nonLockedTxs m' !! k = None)
    ∧ (∀ tx, tx ∈ omap snd ps → nonLockedTxs m' !! tx_hash tx = None).
Proof.
  revert m. induction ps as [|[h [tx|]] ps IH]; intros m Hall.
  - exists m. split_and!; try done. by intros tx ?%elem_of_nil.
  - cbn [forallb snd] in Hall. apply andb_true_iff in Hall as [_ Hall].
    cbn [for_each snd omap]. unfold mbind at 1. unfold MgrM_bind at 1.
    destruct (RemoveConflictedTx_untracks [tx] m) as (m1 & Hrun & B1 & B2 & B3 & B4 & B5).
    cbn [for_each] in Hrun. unfold mbind, MgrM_bind in Hrun.
    destruct (Manager.RemoveConflictedTx tx m) as [[[] mx]|]; [|done].
    injection Hrun as ->.
    destruct (IH m1 Hall) as (m' & -> & D1 & D2 & D3 & D4 & D5).
    exists m'. split; [done|]. split_and!; try congruence.
    + intros k Hk. by apply D4, B4.
    + intros tx' [->|Hin]%elem_of_cons; [|by apply D5].
      apply D4, B5. by left.
  - cbn [forallb snd] in Hall. by rewrite bool_decide_eq_false_2 in Hall by (by intros [? ?]).
Qed.

(** X25: RemoveMempoolConflictsForLock does nothing when no transaction
    of the mempool other than the locked one spends an input of the lock.
    Otherwise every such transaction is removed from the mempool with its
    descendants, then each is untracked, and the locked transaction is
    asked from the peers once, last; the store and the pending locks are
    not touched. The run aborts when the mempool does not hold a spender
    it lists. *)
Theorem RemoveMempoolConflictsForLock_removes (hash : uint256) (islock : CInstantSendLock)
    (m : CInstantSendManager) :
  ((∀ spender, ¬ mempool_conflict env islock spender) →
   Manager.RemoveMempoolConflictsForLock env hash islock m = Some (tt, m))
  ∧ ((∃ spender, mempool_conflict env islock spender) →
     ((∀ spender, mempool_conflict env islock spender →
                  is_Some (mempool_get env (tx_hash spender))) →
      ∃ m' removed,
        Manager.RemoveMempoolConflictsForLock env hash islock m = Some (tt, m')
        ∧ events m'
          = events m ++ map removeRecursive_CONFLICT removed
            ++ [AskNodesForLockedTx_event (txid islock)]
        ∧ (∀ tx, tx ∈ removed
                 ↔ ∃ spender, mempool_conflict env islock spender
                              ∧ mempool_get env (tx_hash spender) = Some tx)
        ∧ (∀ tx, tx ∈ removed → nonLockedTxs m' !! tx_hash tx = None)
        ∧ (∀ k, nonLockedTxs m !! k = None → nonLockedTxs m' !! k = None)
        ∧ isdb m' = isdb m
        ∧ pendingInstantSendLocks m' = pendingInstantSendLocks m)
     ∧ ((∃ spender, mempool_conflict env islock spender
                    ∧ mempool_get env (tx_hash spender) = None) →
        Manager.RemoveMempoolConflictsForLock env hash islock m = None)).
Proof.
  assert (Manager.RemoveMempoolConflictsForLock env hash islock m
          = (_ ← for_each (map_to_list (mempool_toDelete env islock))
                   (λ p, match p.2 with
                         | Some tx => emit (removeRecursive_CONFLICT tx)
                         | None => abort
                         end);
             if bool_decide (mempool_toDelete env islock ≠ ∅) then
               _ ← for_each (map_to_list (mempool_toDelete env islock))
                     (λ p, match p.2 with
                           | Some tx => Manager.RemoveConflictedTx tx
                           | None => abort
                           end);
               emit (AskNodesForLockedTx_event (txid islock))
             else mgr_return) m) as Hunf by reflexivity.
  set (toDelete := mempool_toDelete env islock) in *.
  pose proof (mempool_toDelete_spec islock) as Hspec. fold toDelete in Hspec.
  unfold mbind at 1 in Hunf. unfold MgrM_bind at 1 in Hunf.
  rewrite remove_from_mempool_run in Hunf. rewrite Hunf. clear Hunf.
  split.
  { intros Hnone. assert (toDelete = ∅) as ->.
    { apply map_eq. intros h. rewrite lookup_empty.
      destruct (toDelete !! h) as [v|] eqn:E; [|done].
      apply Hspec in E as (_ & sp & Hsp & _). by destruct (Hnone sp). }
    rewrite map_to_list_empty. cbn [forallb omap map].
    rewrite bool_decide_eq_false_2 by (by intros []). rewrite app_nil_r. by destruct m. }
  intros (sp0 & Hsp0).
  assert (toDelete ≠ ∅) as Hne.
  { intros Hempty.
    assert (toDelete !! tx_hash sp0 = Some (mempool_get env (tx_hash sp0))) as Hl.
    { apply Hspec. split; [done|]. by exists sp0. }
    by rewrite Hempty, lookup_empty in Hl. }
  split.
  - intros Hall.
    assert (forallb (λ p, bool_decide (is_Some p.2)) (map_to_list toDelete) = true) as Hfa.
    { apply forallb_forall. intros [h v] Hin%list_elem_of_In%elem_of_map_to_list.
      apply bool_decide_eq_true. apply Hspec in Hin as (-> & sp & Hsp & <-). by apply Hall. }
    rewrite Hfa. rewrite bool_decide_eq_true_2 by done.
    unfold mbind at 1. unfold MgrM_bind at 1.
    destruct (untrack_mempool_run (map_to_list toDelete)
                (set_events m (events m ++ map removeRecursive_CONFLICT
                                              (omap snd (map_to_list toDelete)))) Hfa)
      as (m1 & -> & D1 & D2 & D3 & D4 & D5).
    unfold emit, modify_mgr. eexists _, (omap snd (map_to_list toDelete)).
    split; [reflexivity|].
    cbn [events set_events nonLockedTxs isdb pendingInstantSendLocks] in *.
    split_and!; try done.
    + rewrite D2. by rewrite <- app_assoc.
    + intros tx. rewrite list_elem_of_omap. split.
      * intros ([h v] & Hin%elem_of_map_to_list & Hv). cbn in Hv. subst v.
        apply Hspec in Hin as (Hg & sp & Hsp & <-). by exists sp.
      * intros (sp & Hsp & Hg). exists (tx_hash sp, Some tx). split; [|done].
        apply elem_of_map_to_list, Hspec. split; [done|]. by exists sp.
  - intros (sp & Hsp & Hg).
    assert (forallb (λ p, bool_decide (is_Some p.2)) (map_to_list toDelete) = false) as ->;
      [|done].
    apply not_true_is_false. intros Hfa. rewrite forallb_forall in Hfa.
    specialize (Hfa (tx_hash sp, None)). rewrite bool_decide_eq_false_2 in Hfa.
    + assert (false = true) as Habs; [|discriminate Habs].
      apply Hfa, list_elem_of_In, elem_of_map_to_list, Hspec. split; [done|by exists sp].
    + by intros [? ?].
Qed.
End mempool.
End MempoolConflicts.

(** ** More runs on the example states *)

Module MoreRuns.
Import LockStore Queries CacheCoherence Examples ExampleRuns MoreExamples.

#[local] Existing Instance upstream_header.
#[local] Existing Instance example_primitives.

(** The caches of the example stores are coherent. *)
Lemma db0_coherent : caches_coherent db0.
Proof. split_and!; intros k v Hk; discriminate Hk. Qed.

Lemma db_a_coherent : caches_coherent db_a.
Proof. apply WriteNewInstantSendLock_coherent, db0_coherent. Qed.

Lemma db_mined_coherent : caches_coherent db_mined.
Proof. apply WriteInstantSendLockMined_coherent, db_a_coherent. Qed.

Lemma coherent_lookups_read_the_store_witness :
  caches_coherent db_a
  ∧ (GetInstantSendLockByInput (mkOutPoint 3 1) db_a).1 = Some lock_a
  ∧ (KnownInstantSendLock hash_a db_a).1 = true.
Proof.
  pose proof (ChainedCaches.coherent_lookups_read_the_store db_a db_a_coherent)
    as (_ & _ & _ & Hin & Hk).
  split; [exact db_a_coherent|]. split.
  - rewrite Hin. vm_compute. reflexivity.
  - apply Hk. left. vm_compute. eexists. reflexivity.
Defined.

Lemma caches_stay_coherent_witness :
  caches_coherent db0
  ∧ caches_coherent
      (run_ops db0 [OpWriteNewInstantSendLock hash_a lock_a;
                    OpWriteInstantSendLockMined hash_a 5;
                    OpWriteBlockInstantSendLocks block_a index_50;
                    OpRemoveArchivedInstantSendLocks 3]).
Proof.
  split; [exact db0_coherent|].
  apply (ChainedCaches.caches_stay_coherent db0); [exact db0_coherent|].
  repeat constructor.
Defined.

Lemma written_lock_is_found_witness :
  IsNull hash_a = false
  ∧ (GetInstantSendLockByTxid (txid lock_a) db_a).1 = Some lock_a
  ∧ (KnownInstantSendLock hash_a db_a).1 = true.
Proof.
  pose proof (ReadYourWrite.written_lock_is_found db0 hash_a lock_a eq_refl)
    as (_ & _ & Ht & _ & Hk).
  exact (conj eq_refl (conj Ht Hk)).
Defined.

Lemma Upgrade_drops_unknown_witness :
  is_v (db db_a_legacy) = None
  ∧ is_i (db db_a_legacy) !! hash_a_legacy = Some lock_a_legacy
  ∧ is_i (db (Upgrade (λ _, false) db_a_legacy).2) !! hash_a_legacy = None
  ∧ is_v (db (Upgrade (λ _, false) db_a_legacy).2) = Some CURRENT_VERSION.
Proof.
  assert (is_i (db db_a_legacy) !! hash_a_legacy = Some lock_a_legacy) as Hl
    by (vm_compute; reflexivity).
  pose proof (proj2 (WholeStore.Upgrade_drops_unknown (λ _, false) db_a_legacy)
                (or_introl eq_refl)) as (Hv & Hdrop & _).
  pose proof (Hdrop hash_a_legacy lock_a_legacy Hl eq_refl) as (Hgone & _).
  exact (conj eq_refl (conj Hl (conj Hgone Hv))).
Defined.

Lemma RemoveArchived_expires_witness :
  0 < 10 < 2 ^ 31
  ∧ is_a2 (db db_confirmed) !! hash_a = Some true
  ∧ is_a2 (db (RemoveArchivedInstantSendLocks 10 db_confirmed).2) !! hash_a = None
  ∧ is_i (db (RemoveArchivedInstantSendLocks 10 db_confirmed).2) = is_i (db db_confirmed).
Proof.
  assert (0 < 10 < 2 ^ 31) as Hn by lia.
  pose proof (proj2 (Archive.RemoveArchived_expires 10 db_confirmed) Hn)
    as (_ & _ & Hgone & _ & Hi & _).
  split; [exact Hn|]. split; [vm_compute; reflexivity|]. split; [|exact Hi].
  apply (Hgone (BuildInversedISLockKey DB_ARCHIVED_BY_HEIGHT_AND_HASH 5 hash_a).1.2).
  - vm_compute. eexists. reflexivity.
  - vm_compute. discriminate.
Defined.

Lemma block_marks_round_trip_witness :
  caches_coherent db_a
  ∧ is_m (db (WriteBlockInstantSendLocks block_a index_50 db_a).2)
      !! mined_key (nHeight index_50) hash_a = Some true
  ∧ db (RemoveBlockInstantSendLocks block_a index_50
          (WriteBlockInstantSendLocks block_a index_50 db_a).2).2 = db db_a.
Proof.
  pose proof (BlockMarks.block_marks_round_trip block_a index_50 db_a db_a_coherent)
    as (_ & _ & Hm & _ & _ & _ & Hrt).
  split; [exact db_a_coherent|]. split.
  - apply (Hm (mkTx 7 [mkTxIn (mkOutPoint 3 0) [] 0; mkTxIn (mkOutPoint 3 1) [] 0] false)).
    + apply list_elem_of_singleton. reflexivity.
    + reflexivity.
    + discriminate.
    + vm_compute. reflexivity.
    + reflexivity.
  - apply Hrt. intros h _.
    assert (is_m (db db_a) = ∅) as -> by (vm_compute; reflexivity).
    apply lookup_empty.
Defined.

Lemma RemoveConfirmed_removes_mined_witness :
  best_confirmed_height db_mined < 5
  ∧ 0 <= 5 < 2 ^ 31
  ∧ (RemoveConfirmedInstantSendLocks 5 db_mined).1 !! hash_a = Some lock_a
  ∧ is_i (db (RemoveConfirmedInstantSendLocks 5 db_mined).2) !! hash_a = None
  ∧ is_a2 (db (RemoveConfirmedInstantSendLocks 5 db_mined).2) !! hash_a = Some true.
Proof.
  assert (best_confirmed_height db_mined < 5) as Hb by (vm_compute; reflexivity).
  assert (0 <= 5 < 2 ^ 31) as Hn by lia.
  pose proof (ConfirmedLocks.RemoveConfirmed_removes_mined 5 db_mined Hb Hn)
    as (Hret & _ & Hgone & Harch & _).
  assert ((RemoveConfirmedInstantSendLocks 5 db_mined).1 !! hash_a = Some lock_a) as Hr.
  { apply Hret. split; [vm_compute; reflexivity|].
    exists (BuildInversedISLockKey DB_MINED_BY_HEIGHT_AND_HASH 5 hash_a).1.2.
    split; [vm_compute; eexists; reflexivity|vm_compute; discriminate]. }
  split; [exact Hb|]. split; [exact Hn|]. split; [exact Hr|]. split.
  - apply Hgone. rewrite Hr. eexists. reflexivity.
  - apply (Harch (BuildInversedISLockKey DB_MINED_BY_HEIGHT_AND_HASH 5 hash_a).1.2).
    + vm_compute. eexists. reflexivity.
    + vm_compute. discriminate.
Defined.


Lemma accepted_lock_is_had_witness :
  IsInstantSendEnabled env_cycle = true
  ∧ PreVerifyInstantSendLock lock_cycle = true
  ∧ (∃ blockIndex, LookupBlockIndex env_cycle (cycleHash lock_cycle) = Some blockIndex
                   ∧ Z.rem (nHeight blockIndex) (dkgInterval env_cycle) = 0)
  ∧ ∃ m' m'',
      Manager.ProcessMessageInstantSendLock env_cycle 5 lock_cycle (mgr_of db0)
      = Some (tt, m')
      ∧ Manager.AlreadyHave env_cycle
          (mkInv MSG_ISDLOCK (SerializeHash ser_islock lock_cycle)) m' = Some (true, m'').
Proof.
  assert (∃ blockIndex, LookupBlockIndex env_cycle (cycleHash lock_cycle) = Some blockIndex
                        ∧ Z.rem (nHeight blockIndex) (dkgInterval env_cycle) = 0) as Hcyc.
  { exists (mkIndex 96 1096). split; reflexivity. }
  assert (∃ m', Manager.ProcessMessageInstantSendLock env_cycle 5 lock_cycle (mgr_of db0)
                = Some (tt, m')) as [m' Hrun].
  { eexists. vm_compute. reflexivity. }
  destruct (Messages.accepted_lock_is_had env_cycle 5 6 MSG_ISDLOCK lock_cycle (mgr_of db0) m'
              eq_refl eq_refl (λ _, Hcyc) Hrun) as [[m'' Hhave] _].
  split; [reflexivity|]. split; [reflexivity|]. split; [exact Hcyc|].
  exists m', m''. exact (conj Hrun Hhave).
Defined.

Lemma removed_lock_stays_out_witness :
  ∃ m1, Manager.RemoveConflictingLock env0 hash_a lock_a (mgr_of db_chain) = Some (tt, m1)
    ∧ is_a2 (db (isdb m1)) !! hash_a = Some true
    ∧ is_i (db (isdb m1)) !! hash_a = None
    ∧ (∃ m2, Manager.AlreadyHave env0 (mkInv MSG_ISDLOCK hash_a) m1 = Some (true, m2))
    ∧ ∃ m2, Manager.ProcessInstantSendLock env0 1 hash_a lock_a m1 = Some (tt, m2)
            ∧ db (isdb m2) = db (isdb m1).
Proof.
  destruct (Messages.removed_lock_stays_out env0 hash_a lock_a (mgr_of db_chain))
    as (m1 & Hrun & Ha & Hi & Hh & Hp).
  destruct (Hp 1 lock_a) as (m2 & Hrun2 & Hd & _).
  exists m1. split; [exact Hrun|]. split; [exact Ha|]. split; [exact (Hi eq_refl)|].
  split; [exact (Hh MSG_ISDLOCK)|].
  exists m2. exact (conj Hrun2 Hd).
Defined.

Lemma ProcessInstantSendLock_locks_witness :
  IsNull hash_a = false
  ∧ (KnownInstantSendLock hash_a (isdb (mgr_of db0))).1 = false
  ∧ ∃ m' m'',
      Manager.ProcessInstantSendLock env0 1 hash_a lock_a (mgr_of db0) = Some (tt, m')
      ∧ is_i (db (isdb m')) !! hash_a = Some lock_a
      ∧ Manager.IsLockedInternal (txid lock_a) m' = Some (true, m'').
Proof.
  assert ((KnownInstantSendLock hash_a (isdb (mgr_of db0))).1 = false) as Hk
    by (vm_compute; reflexivity).
  assert (∃ m', Manager.ProcessInstantSendLock env0 1 hash_a lock_a (mgr_of db0)
                = Some (tt, m')) as [m' Hrun].
  { eexists. vm_compute. reflexivity. }
  destruct (ProcessLock.ProcessInstantSendLock_locks env0 1 hash_a lock_a (mgr_of db0) m'
              eq_refl Hk (λ _ _ _ _ _ _, eq_refl) (λ i _, lookup_empty i) Hrun)
    as (Hi & _ & _ & _ & [m'' Hl] & _).
  split; [reflexivity|]. split; [exact Hk|].
  exists m', m''. exact (conj Hrun (conj Hi Hl)).
Defined.

Lemma ProcessInstantSendLock_ignores_witness :
  (KnownInstantSendLock hash_a (isdb (mgr_of db_a))).1 = true
  ∧ ∃ m', Manager.ProcessInstantSendLock env0 1 hash_a lock_a (mgr_of db_a) = Some (tt, m')
          ∧ db (isdb m') = db db_a
          ∧ events m' = [].
Proof.
  assert ((KnownInstantSendLock hash_a (isdb (mgr_of db_a))).1 = true) as Hk
    by (vm_compute; reflexivity).
  destruct (ProcessLock.ProcessInstantSendLock_ignores env0 1 hash_a lock_a (mgr_of db_a)
              (or_introl Hk)) as (m' & Hrun & Hd & He & _).
  split; [exact Hk|]. exists m'. exact (conj Hrun (conj Hd He)).
Defined.

Lemma track_then_untrack_witness :
  nonLockedTxs (mgr_of db0) !! tx_hash tx_b = None
  ∧ ∃ m1, Tracking.AddNonLockedTx tx_b (Some (mkIndex 90 1090)) (mgr_of db0) = Some (tt, m1)
          ∧ nonLockedTxs m1 !! tx_hash tx_b
            = Some (mkInfo (Some (mkIndex 90 1090)) (Some tx_b) ∅)
          ∧ Manager.RemoveNonLockedTx (tx_hash tx_b) true m1 = Some (tt, mgr_of db0).
Proof.
  split; [apply lookup_empty|].
  destruct (TrackingFacts.track_then_untrack tx_b (Some (mkIndex 90 1090)) true (mgr_of db0))
    as (m1 & Hadd & Hinfo & _ & Hrm).
  - apply lookup_empty.
  - intros i Hi. apply list_elem_of_singleton in Hi. subst i. discriminate.
  - intros i _. apply lookup_empty.
  - intros k j Hk. exfalso. cbn in Hk. by rewrite lookup_empty in Hk.
  - exists m1. exact (conj Hadd (conj Hinfo Hrm)).
Defined.

Lemma GetConflictingLock_first_witness :
  IsInstantSendEnabled env0 = true
  ∧ caches_coherent (isdb (mgr_of db_a))
  ∧ ∃ m', Tracking.GetConflictingLock env0 tx_conflict (mgr_of db_a) = Some (Some lock_a, m').
Proof.
  destruct (proj2 (Conflicts.GetConflictingLock_first env0 tx_conflict (mgr_of db_a))
              eq_refl db_a_coherent) as (r & m' & Hrun & Hr & _).
  assert (first_conflict (db (isdb (mgr_of db_a))) (tx_hash tx_conflict) (vin tx_conflict)
          = Some lock_a) as E by (vm_compute; reflexivity).
  rewrite E in Hr. rewrite Hr in Hrun.
  split; [reflexivity|]. split; [exact db_a_coherent|]. exists m'. exact Hrun.
Defined.

Lemma sign_then_recover_witness :
  dkgInterval env0 ≠ 0
  ∧ chainActive_at signing0 96 = Some (mkIndex 96 1096)
  ∧ ∃ m1 m2,
      Tracking.TrySignInstantSendLock env0 signing0 tx_b (mgr_of db0) = Some (true, m1)
      ∧ creatingInstantSendLocks m1 !! GetRequestId lock_b_created = Some lock_b_created
      ∧ Tracking.HandleNewInstantSendLockRecoveredSig
          (mkRecSig (GetRequestId lock_b_created) (tx_hash tx_b) sig1) m1 = Some (tt, m2)
      ∧ pendingInstantSendLocks m2
        = <[SerializeHash ser_islock lock_b_signed := (-1, lock_b_signed)]> ∅
      ∧ creatingInstantSendLocks m2 = ∅.
Proof.
  assert (dkgInterval env0 ≠ 0) as Hdkg by discriminate.
  destruct (Signing.sign_then_recover env0 signing0 tx_b (mkIndex 96 1096) sig1 (mgr_of db0))
    as (m1 & m2 & Hsign & Hcr & _ & _ & Hrec & Hcr2 & _ & Hp & _).
  - exact Hdkg.
  - intros i _. reflexivity.
  - reflexivity.
  - reflexivity.
  - apply lookup_empty.
  - apply lookup_empty.
  - vm_compute. reflexivity.
  - split; [exact Hdkg|]. split; [reflexivity|].
    exists m1, m2. exact (conj Hsign (conj Hcr (conj Hrec (conj Hp Hcr2)))).
Defined.

Lemma HandleFullyConfirmedBlock_confirms_witness :
  IsInstantSendEnabled env0 = true
  ∧ nonLockedTxs mgr_tracked !! 20 = Some (mkInfo (Some (mkIndex 90 1090)) (Some tx_b) ∅)
  ∧ ∃ m', Tracking.HandleFullyConfirmedBlock env0 ancestor0 (mkIndex 95 1095) mgr_tracked
          = Some (tt, m')
          ∧ nonLockedTxs m' !! 20 = None
          ∧ isdb m'
            = (RemoveArchivedInstantSendLocks (95 - 100)
                 (RemoveConfirmedInstantSendLocks 95 db_mined).2).2.
Proof.
  assert (nonLockedTxs mgr_tracked !! 20
          = Some (mkInfo (Some (mkIndex 90 1090)) (Some tx_b) ∅)) as Hi
    by (vm_compute; reflexivity).
  destruct (proj2 (proj2 (ConfirmedBlocks.HandleFullyConfirmedBlock_confirms env0 ancestor0
                            (mkIndex 95 1095) mgr_tracked)) eq_refl)
    as (m' & more & Hrun & Hdb & _ & _ & _ & Hun & _).
  split; [reflexivity|]. split; [exact Hi|].
  exists m'. split; [exact Hrun|]. split; [|exact Hdb].
  exact (Hun 20 _ (mkIndex 90 1090) Hi eq_refl eq_refl).
Defined.

Lemma enabled_queries_read_the_store_witness :
  IsInstantSendEnabled env0 = true
  ∧ caches_coherent (isdb (mgr_of db_a))
  ∧ ∃ m4, Manager.IsLocked env0 7 (mgr_of db_a) = Some (true, m4).
Proof.
  destruct (proj2 (proj2 (ManagerQueries.enabled_queries_read_the_store env0 7 hash_a 0
                            lock_a (mgr_of db_a))) eq_refl db_a_coherent)
    as (m1 & m2 & m3 & m4 & _ & _ & _ & _ & Hl & _).
  split; [reflexivity|]. split; [exact db_a_coherent|]. exists m4.
  apply (Hl lock_a). vm_compute. reflexivity.
Defined.

End MoreRuns.

(** ** Runs of the signing of transactions *)

Module SigningRuns.
Import LockStore Queries CacheCoherence Examples ExampleRuns MoreExamples SigningExamples.

#[local] Existing Instance upstream_header.
#[local] Existing Instance example_primitives.

Lemma TrySignInputLocks_votes_witness :
  (∃ i, i ∈ vin tx_b ∧ vote_blocks node_voted (tx_hash tx_b) i)
  ∧ Signer.TrySignInputLocks node_voted tx_b false (mgr_of db0)
    = Some ((false, []), mgr_of db0)
  ∧ (∀ i, i ∈ vin tx_b → ¬ vote_blocks node0 (tx_hash tx_b) i)
  ∧ Signer.TrySignInputLocks node0 tx_b false (mgr_of db0)
    = Some ((true, map (λ i, InputLockRequestId (prevout i)) (vin tx_b)),
            set_inputRequestIds (mgr_of db0)
              (list_to_set (map (λ i, InputLockRequestId (prevout i)) (vin tx_b))
               ∪ inputRequestIds (mgr_of db0))).
Proof.
  assert (∃ i, i ∈ vin tx_b ∧ vote_blocks node_voted (tx_hash tx_b) i) as Hb.
  { exists (mkTxIn (mkOutPoint 3 0) [] 0). split; [apply list_elem_of_here|].
    left. exists 99. split; [reflexivity|discriminate]. }
  assert (∀ i, i ∈ vin tx_b → ¬ vote_blocks node0 (tx_hash tx_b) i) as Hnb.
  { intros i _ [(o & Ho & _)|Hc]; discriminate. }
  split; [exact Hb|]. split.
  - exact (proj1 (SigningInputs.TrySignInputLocks_votes node_voted tx_b false (mgr_of db0)) Hb).
  - split; [exact Hnb|].
    refine (proj1 (proj2 (proj2 (SigningInputs.TrySignInputLocks_votes node0 tx_b false
                                   (mgr_of db0)) Hnb) _)).
    right. exists (mkTxIn (mkOutPoint 3 0) [] 0). split; [apply list_elem_of_here|].
    discriminate.
Defined.

Lemma ProcessTx_never_signs_witness :
  (∃ i, i ∈ vin tx_b ∧ vote_blocks node_voted (tx_hash tx_b) i)
  ∧ ∃ r m',
      Signer.ProcessTx env0 node_voted signing0 tx_b false (mgr_of db0) = Some (r, m')
      ∧ r = ([], false)
      ∧ looked_up (mgr_of db0) m'.
Proof.
  assert (∃ i, i ∈ vin tx_b ∧ vote_blocks node_voted (tx_hash tx_b) i) as Hb.
  { exists (mkTxIn (mkOutPoint 3 0) [] 0). split; [apply list_elem_of_here|].
    left. exists 99. split; [reflexivity|discriminate]. }
  assert (∃ r m', Signer.ProcessTx env0 node_voted signing0 tx_b false (mgr_of db0)
                  = Some (r, m')) as (r & m' & Hrun).
  { eexists _, _. vm_compute. reflexivity. }
  destruct (SigningInputs.ProcessTx_never_signs env0 node_voted signing0 tx_b false
              (mgr_of db0) m' r Hrun) as [_ Hnever].
  destruct Hnever as [Hr Hl].
  { do 6 right. exact Hb. }
  split; [exact Hb|]. exists r, m'. exact (conj Hrun (conj Hr Hl)).
Defined.

Lemma TransactionAddedToMempool_tracks_witness :
  IsInstantSendEnabled env0 = true
  ∧ caches_coherent (isdb (mgr_of db_a))
  ∧ ∃ m', Signer.TransactionAddedToMempool env0 node0 signing0 tx_a (mgr_of db_a)
          = Some (([], false), m')
          ∧ nonLockedTxs m' !! tx_hash tx_a = None
          ∧ events m'
            = [RelayInvFiltered_tx (mkInv MSG_ISDLOCK (SerializeHash ser_islock lock_a)) tx_a
                 ISDLOCK_PROTO_VERSION;
               NotifyTransactionLock tx_a lock_a].
Proof.
  assert (caches_coherent (isdb (mgr_of db_a))) as Hc.
  { apply WriteNewInstantSendLock_coherent. split_and!; intros k v Hk; discriminate Hk. }
  pose proof (proj2 (MempoolAndBlocks.TransactionAddedToMempool_tracks env0 node0 signing0
                       tx_a (mgr_of db_a)) eq_refl eq_refl) as Hres.
  assert (committed (db (isdb (mgr_of db_a)))
            (default 0 (is_tx (db (isdb (mgr_of db_a))) !! tx_hash tx_a)) = Some lock_a) as E
    by (vm_compute; reflexivity).
  rewrite E in Hres.
  destruct Hres as (m' & Hrun & Hn & He & _); [discriminate|exact Hc|].
  split; [reflexivity|]. split; [exact Hc|].
  exists m'. exact (conj Hrun (conj Hn He)).
Defined.

Lemma BlockConnected_tracks_witness :
  IsInstantSendEnabled env0 = true
  ∧ ∃ rs m',
      Signer.BlockConnected env0 node0 signing0 [tx_b] index_50 [] (mgr_of db0)
      = Some (rs, m')
      ∧ events m' = []
      ∧ ∃ info, nonLockedTxs m' !! tx_hash tx_b = Some info
                ∧ pindexMined info = Some index_50
                ∧ is_Some (info_tx info).
Proof.
  assert (caches_coherent (isdb (mgr_of db0))) as Hc.
  { split_and!; intros k v Hk; discriminate Hk. }
  assert (∃ rs m', Signer.BlockConnected env0 node0 signing0 [tx_b] index_50 []
                     (mgr_of db0) = Some (rs, m')) as (rs & m' & Hrun).
  { eexists _, _. vm_compute. reflexivity. }
  destruct (proj2 (BlockConnection.BlockConnected_tracks env0 node0 signing0 [tx_b]
                     index_50 [] (mgr_of db0)) eq_refl rs m' Hrun) as (He & _ & Hco).
  destruct (Hco Hc) as (_ & _ & Htr).
  pose proof (Htr eq_refl (NoDup_singleton _) [] tx_b [] eq_refl eq_refl) as Hres.
  assert (store_locked (db (isdb (mgr_of db0))) (tx_hash tx_b)
          || HasChainLock env0 (nHeight index_50) (block_hash index_50) = false) as E
    by (vm_compute; reflexivity).
  rewrite E in Hres.
  destruct Hres as (info & Hi & Hm & Hs).
  - discriminate.
  - intros j Hj. exfalso. cbn in Hj. by rewrite lookup_empty in Hj.
  - intros tx' i Hin. by apply elem_of_nil in Hin.
  - split; [reflexivity|]. exists rs, m'. split; [exact Hrun|]. split; [exact He|].
    exists info. exact (conj Hi (conj Hm Hs)).
Defined.


End SigningRuns.

(** ** Runs of the resolution of conflicts *)

Module ConflictRuns.
Import LockStore Queries Examples ExampleRuns MoreExamples ConflictExamples.

#[local] Existing Instance upstream_header.
#[local] Existing Instance example_primitives.

Lemma ResolveBlockConflicts_resolves_witness :
  (conflicting_tx mgr_conflict lock_a (mkIndex 99 1099) tx_conflict
   ∧ ∃ m' blocks,
       Manager.ResolveBlockConflicts env0 hash_a lock_a mgr_conflict = Some (tt, m')
       ∧ events m'
         = events mgr_conflict
           ++ map (λ pindex, InvalidateBlock_event (block_hash pindex)) blocks
           ++ [ActivateBestChain_event]
       ∧ mkIndex 99 1099 ∈ blocks
       ∧ nonLockedTxs m' !! tx_hash tx_conflict = None)
  ∧ (conflicting_tx mgr_conflict_a lock_a (mkIndex 99 1099) tx_conflict
     ∧ HasChainLock env_chainlocked 99 1099 = true
     ∧ is_i (db (isdb mgr_conflict_a)) !! hash_a = Some lock_a
     ∧ ∃ m', Manager.ResolveBlockConflicts env_chainlocked hash_a lock_a mgr_conflict_a
             = Some (tt, m')
             ∧ is_a2 (db (isdb m')) !! hash_a = Some true
             ∧ is_i (db (isdb m')) !! hash_a = None
             ∧ events m' = events mgr_conflict_a
             ∧ tracking m' = tracking mgr_conflict_a).
Proof.
  assert (conflicting_tx mgr_conflict lock_a (mkIndex 99 1099) tx_conflict) as Hct.
  { exists (mkOutPoint 3 1), 9, (mkInfo (Some (mkIndex 99 1099)) (Some tx_conflict) ∅).
    split_and!; [|reflexivity|discriminate|reflexivity|reflexivity|reflexivity].
    apply list_elem_of_further, list_elem_of_here. }
  assert (conflicting_tx mgr_conflict_a lock_a (mkIndex 99 1099) tx_conflict) as Hcta.
  { exists (mkOutPoint 3 1), 9, (mkInfo (Some (mkIndex 99 1099)) (Some tx_conflict) ∅).
    split_and!; [|reflexivity|discriminate|reflexivity|reflexivity|reflexivity].
    apply list_elem_of_further, list_elem_of_here. }
  split.
  - destruct (proj2 (proj2 (BlockConflicts.ResolveBlockConflicts_resolves env0 hash_a lock_a
                              mgr_conflict))) as [Hwin _].
    + by exists (mkIndex 99 1099), tx_conflict.
    + intros pindex tx _. reflexivity.
    + destruct Hwin as (m' & blocks & Hrun & He & _ & Hb & Hun & _).
      * intros pindex tx _. reflexivity.
      * reflexivity.
      * split; [exact Hct|]. exists m', blocks. split; [exact Hrun|]. split; [exact He|].
        split.
        -- apply Hb. by exists tx_conflict.
        -- by apply (Hun (mkIndex 99 1099)).
  - destruct (proj1 (proj2 (BlockConflicts.ResolveBlockConflicts_resolves env_chainlocked
                              hash_a lock_a mgr_conflict_a)))
      as (m' & Hrun & _ & Ha & Hi & He & Ht & _).
    { exists (mkIndex 99 1099), tx_conflict. split; [exact Hcta|reflexivity]. }
    split; [exact Hcta|]. split; [reflexivity|]. split; [vm_compute; reflexivity|].
    exists m'. split; [exact Hrun|]. split; [exact Ha|]. split; [exact (Hi eq_refl)|].
    exact (conj He Ht).
Defined.

Lemma RemoveMempoolConflictsForLock_removes_witness :
  mempool_conflict env_mempool lock_a tx_conflict
  ∧ ∃ m' removed,
      Manager.RemoveMempoolConflictsForLock env_mempool hash_a lock_a (mgr_of db0)
      = Some (tt, m')
      ∧ events m'
        = events (mgr_of db0) ++ map removeRecursive_CONFLICT removed
          ++ [AskNodesForLockedTx_event (txid lock_a)]
      ∧ tx_conflict ∈ removed.
Proof.
  assert (mempool_conflict env_mempool lock_a tx_conflict) as Hmc.
  { exists (mkOutPoint 3 1).
    split_and!; [|reflexivity|discriminate].
    apply list_elem_of_further, list_elem_of_here. }
  destruct (proj2 (MempoolConflicts.RemoveMempoolConflictsForLock_removes env_mempool hash_a
                     lock_a (mgr_of db0))) as [Hrm _].
  - by exists tx_conflict.
  - destruct Hrm as (m' & removed & Hrun & He & Hin & _).
    + intros spender (i & _ & Hm & _). cbn in Hm.
      destruct (bool_decide (i = mkOutPoint 3 1)); [|discriminate Hm].
      injection Hm as <-. eexists. reflexivity.
    + split; [exact Hmc|]. exists m', removed. split; [exact Hrun|]. split; [exact He|].
      apply Hin. exists tx_conflict. split; [exact Hmc|reflexivity].
Defined.

End ConflictRuns.
